(* ===== verification/_CoqProject ===== *)
-Q . S2P
Prelude.v
Cstr.v
FreqGov.v
FreqTable.v
FreqGovFacts.v
FreqGovSysfs.v
FreqGovSearch.v
Hash.v
Hybrid.v
HybridFacts.v
HybridSession.v
HybridSampling.v
Boards.v
MapInfo.v
MapInfoFacts.v
Etm.v
EtmFacts.v
Session.v
SessionFacts.v
HardwareDemo.v
Decoder.v
Dumps.v
TraceBuf.v
TraceBufFacts.v
Sync.v
SyncFacts.v
Proxy.v
ProxyFacts.v
ProxyProps.v
ProxyLoop.v
Fds.v
Forksrv.v
Cpu.v
Setup.v
Execution.v
Polling.v
PollingFacts.v
Coverage.v
Schedules.v
Offline.v
Launch.v
CsTrace.v
StartDemo.v
ExecutionDemo.v
Scenarios.v
ScheduleDemo.v
