(* ===== verification/Prelude.v ===== *)
(** * coresight-trace: a verification library

    coresight-trace lets AFL++ fuzz a binary whose coverage comes from ARM
    CoreSight traces.  [cs-proxy] stands between AFL++ and the target: for each
    test case it asks the fork server preloaded into the target for a stopped
    child, arms the trace hardware, lets the child run, and reports.  A second
    thread of the proxy reads the trace out of the ETR ring into a buffer and
    decodes it into the coverage map.  When the trace overflows, a CPU frequency
    governor slows the core down and the test case is retried.  In hybrid mode
    a cheap path trace decides whether a second, precise run is worth making.

    ** Files

    - [Prelude]: record update, machine integers, C arrays, tactics, hints.
    - [Cstr]: printing and scanning of numbers as the C library does it, and
      their round trip.
    - [FreqGov] (src/src/freq_gov.c, src/include/freq_gov.h): the record [gov]
      is the file-scope state; one definition per function, with the sysfs
      writes as the log [sysfs_log] and the rest of the system as [sysenv].
      The class [HasGov] is what calibration needs of its caller.
      [FreqTable]: the table is the sorted list of the listed frequencies.
      [FreqGovFacts]: the step relation of the governor and its invariant.
      [FreqGovSysfs]: what the policy files hold: the cache of the last
      frequency, the order of the writes, the restore however the proxy dies.
      [FreqGovSearch]: the calibration ramp and the long-run statistics.
    - [Hash], [Hybrid] (src/src/hybrid.c, src/include/hybrid.h): the record
      [hyb] and one definition per function; doubles are IEEE binary64.
      [HybridFacts]: the novelty test, the invariant on remembered maps, the
      checksum.  [HybridSession]: sequences of test cases; the shadow of
      AFL++'s map, the filter, the stability of re-runs.  [HybridSampling]: an
      equivalence of states under which sampling is invisible; the purge.
    - [Boards] (src/include/known-boards.h): each registration function as the
      calls it makes and the devices it leaves; the links of the trace bus.
    - [MapInfo], [MapInfoFacts] (src/src/utils.c): the executable mappings of
      the traced process, the arguments of the offline decoder, the u-dma-buf,
      strings; the kernel's printing of /proc/<pid>/maps is the specification.
    - [Etm] (src/src/config.c, src/src/stalker.c): the configuration of ETMs and
      sinks over the class [CSAL].  [EtmFacts]: the class [CsalLaws] of what
      CSAL's calls do, and the state each function leaves the hardware in.
    - [Session], [SessionFacts] (src/src/common.c): arming, disarming and mode
      switches over [Etm]; any sequence of them.  [HardwareDemo]: a simulated
      board on which the laws hold.
    - [Decoder] (src/src/common.c, src/src/stalker.c): both decoders behind the
      class [DecoderLib], and the overflow flag.  [Dumps]: the diagnostic
      output of utils.c, stalker.c and hybrid.c.
    - [TraceBuf], [TraceBufFacts] (src/src/common.c, trace buffer): pointers
      and sizes as 64-bit integers, the ring, growth, fetch and decode; CSAL
      and the kernel's mapping calls are the class [TraceEnv].
    - [Sync], [SyncFacts] (src/src/common.c, threads): the proxy thread, the
      decoder thread, the child and the fork server's reports as a transition
      system; a step is one access to shared state under its mutex.
    - [Proxy], [ProxyFacts], [ProxyProps] (src/src/cs-proxy.c, Stalker build):
      the main loop on the record [world], every fallible call answered by the
      class [ProxyEnv]; it uses the governor through [HasGov] and hybrid.c
      directly.  [ProxyLoop]: the loop over test cases in both builds.
    - [Fds] (src/src/cs-proxy.c, src/libforksrv/libforksrv.c): the pipes between
      proxy, fork server and test cases, as descriptor tables.
    - [Forksrv] (src/libforksrv/libforksrv.c): the environment scrub, the
      service of requests, whole sessions of them.
    - [Cpu] (src/src/utils.c, [init_trace]): the choice of CPUs.
    - [Setup] (src/src/common.c): [init_trace], [fini_trace] and the export of a
      trace, composed of Cpu, MapInfo, Boards, Decoder and TraceBuf.
    - [Execution] (src/src/common.c): [start_trace], composed of Session,
      Decoder, TraceBuf and Setup; sequences of executions.
    - [Polling], [PollingFacts] (src/src/common.c): what [decoder_worker] and
      [trace_sink_polling] do to the buffer, the hardware and the decoder; the
      threshold and the drains.  Sync has the same code as steps.
      [Coverage]: executions from [start_trace] to [stop_trace] in the Stalker
      build.  [Schedules]: the work of any schedule of Sync, replayed on the data.
      [Offline]: tracing without decoding, to the exported files.
    - [Launch] (src/src/cs-proxy.c, before the main loop): options, the shared
      map, the target's environment, the handshake.
    - [CsTrace] (src/src/cs-trace.c): options, the child's environment, the loop
      of the parent; the ptrace helpers of src/src/utils.c.
    - [Scenarios], [HardwareDemo], [StartDemo], [ExecutionDemo],
      [ScheduleDemo]: concrete boards, traces, files and environments on which
      the theorems are applied, and scenarios that show a defect.

    ** What the theorems show

    From the trace of an execution to the map AFL++ reads: C1.
    The map AFL++ is shown in hybrid mode: C2, C18, C19, C23, C24, C25, C31.
    The trace from the ring to the decoder or to a file: C9, C10, C15, C26, C28.
    The two threads, and what they do to the data: C3, C5, C12, C39.
    The trace hardware, from the boards to an open window: C6, C35, C36, C37.
    Start of tracing and of every execution: C14, C7, C20.
    The dialogue with AFL++ and with the fork server: C4, C32, C33, C27, C34.
    The governor: C8, C11, C13, C16, C17, C21, C22, C29, C30.
    cs-trace: C38, C40.
    C28, C39, C40 and the lemmas [crowded_table_loses_control],
    [fd_path_keeps_tail], [fifos_not_counted], [thunderx2_id_differs],
    [thread_failure_unnoticed], [pthread_affinity_error_lost],
    [preload_glued], [map_hash_basis], [udmabuf_short_option_missing],
    [syscall_number_not_read], [floor_run_skipped], [range_list_misread],
    [free_cpu_not_used], [early_exit_out_of_step], [failed_request_enters_body],
    [unmapped_fetch_never_returns], [failed_drain_fetches_enabled_sinks] and
    [stale_suspend_fetches_running_child] state behaviours that differ from what
    the code or its comments intend.

    ** Bounds and fuel

    Loops that are not structural carry fuel and a lemma that it is enough:
    [read_freq_loop] is given the length of its text, of which every iteration
    consumes a part; [grow_size] 66 rounds, after which a doubled size_t is 0
    ([GROW_FUEL_enough]); [retry_loop] 5 turns, the first run, three retries
    and one at the floor (C21); [cut_all] the length of the text, which every
    cut shortens; [parent_loop] any number above that of the stops
    (C38), while no number is enough in C40.  [poll_loop] runs over the turns it
    is given; C1, C5 and C10 need one that finds the child gone.  The routes of C36
    are followed for six links, the longest on any board.  The statistics of
    C29 are shown for three billion steps, the reach of the 32-bit sum of
    positions.

    ** Not modelled

    CSAL, the decoders, AFL++, the C library's getopt_long and the kernel are
    parameters with named hypotheses.  Left out: what only prints registers or
    help (show_etm_config, debug_etr_state, do_dump_config, the usage text),
    xmalloc, the death signals set with prctl, the reads of AFLCS_BB_VERIFY.
    C1 is about the Stalker build; with coresight-decoder and drains C10 gives
    the bytes of every pass, and the map is what the library makes of them. *)

From stdpp Require Import base numbers list gmap strings pretty sorting.
From Stdlib Require Import ZArith Lia.

#[global] Open Scope Z_scope.

(** ** Functional record update

    [r <| f := v |>] is [r] with field [f] replaced.  A record type opts in by
    an [Eta] instance, its eta expansion; the setter of a field is found by
    abstracting that projection in the expansion. *)
Class Eta (R : Type) := eta_expand : R -> R.

Class Upd {R T : Type} (p : R -> T) := upd : (T -> T) -> R -> R.

Ltac derive_upd p :=
  let R := match type of p with ?R -> _ => R end in
  let e := constr:(_ : Eta R) in
  let e := eval hnf in e in
  lazymatch eval pattern p in e with
  | (fun _ => ?b) _ => fail "not a field of the expansion:" p
  | ?abs _ =>
      let t := constr:(fun f (r : R) => abs (fun r' : R => f (p r')) r) in
      let t := eval cbv beta in t in
      exact t
  end.

#[export] Hint Extern 1 (Upd ?p) => derive_upd p : typeclass_instances.

Declare Scope c_scope.
Delimit Scope c_scope with c.

Notation "r <| p := v |>" := (upd (p := p) (fun _ => v) r)
  (at level 1, p at level 99, v at level 99, left associativity,
   format "r <| p  :=  v |>") : c_scope.
#[global] Open Scope c_scope.

(** ** Machine integers

    A w-bit unsigned integer is a [Z] in [0, 2^w); arithmetic that can leave
    the range is reduced explicitly, as C defines it for unsigned types. *)
Definition u8 (z : Z) : Z := z mod 2 ^ 8.
Definition u32 (z : Z) : Z := z mod 2 ^ 32.
Definition u64 (z : Z) : Z := z mod 2 ^ 64.

(** Conversion to a two's complement 32-bit [int]. *)
Definition s32 (z : Z) : Z :=
  let r := z mod 2 ^ 32 in if r <? 2 ^ 31 then r else r - 2 ^ 32.

(** [x++] on an unsigned 64-bit counter. *)
Definition inc64 (x : Z) : Z := u64 (x + 1).

(** The coverage kinds of common.h. *)
Inductive cov_type_t := edge_cov | path_cov | hybrid_cov.

#[export] Instance cov_type_eq_dec : EqDecision cov_type_t.
Proof. solve_decision. Defined.

(** ALIGN_UP of utils.h, on unsigned long. *)
Definition ALIGN_UP (val align : Z) : Z := Z.land (u64 (val + (align - 1))) (Z.lnot (align - 1)).

(** C's truth value of an integer, and the integer of a comparison. *)
Definition c_true (z : Z) : bool := negb (z =? 0).
Definition b2z (b : bool) : Z := if b then 1 else 0.

Lemma u64_small z : 0 <= z < 2 ^ 64 -> u64 z = z.
Proof. apply Z.mod_small. Qed.

Lemma u32_small z : 0 <= z < 2 ^ 32 -> u32 z = z.
Proof. apply Z.mod_small. Qed.

Lemma u64_bound z : 0 <= u64 z < 2 ^ 64.
Proof. apply Z.mod_pos_bound. lia. Qed.

Lemma u32_bound z : 0 <= u32 z < 2 ^ 32.
Proof. apply Z.mod_pos_bound. lia. Qed.

Lemma inc64_small x : 0 <= x < 2 ^ 64 - 1 -> inc64 x = x + 1.
Proof. intros ?. apply u64_small. lia. Qed.

Lemma inc64_bound x : 0 <= inc64 x < 2 ^ 64.
Proof. apply u64_bound. Qed.

Lemma s32_small z : 0 <= z < 2 ^ 31 -> s32 z = z.
Proof.
  intros H. unfold s32. rewrite Z.mod_small by lia.
  destruct (Z.ltb_spec z (2 ^ 31)); lia.
Qed.

(** The length of a list as an integer. *)
Abbreviation zlen a := (Z.of_nat (length a)).

(** ** C arrays of integers

    [aget] and [aset] are [a[i]] and [a[i] = v] on a list.  Outside the
    bounds C gives no meaning; the model reads 0 and writes nothing, and the
    invariants of the components keep every index inside. *)
Definition aget (a : list Z) (i : Z) : Z :=
  if i <? 0 then 0 else default 0 (a !! Z.to_nat i).
Definition aset (a : list Z) (i v : Z) : list Z :=
  if i <? 0 then a else <[Z.to_nat i := v]> a.

Lemma aget_lookup a i : 0 <= i -> aget a i = default 0 (a !! Z.to_nat i).
Proof. intros ?. unfold aget. destruct (Z.ltb_spec i 0); [lia | done]. Qed.

Lemma aget_Forall (P : Z -> Prop) a i :
  Forall P a -> 0 <= i < zlen a -> P (aget a i).
Proof.
  intros HP Hi. rewrite aget_lookup by lia.
  destruct (lookup_lt_is_Some_2 a (Z.to_nat i)) as [x Hx]; [lia |].
  rewrite Hx. by apply (Forall_lookup_1 _ _ _ _ HP Hx).
Qed.

Lemma aget_elem_of a i : 0 <= i < zlen a -> aget a i ∈ a.
Proof.
  intros Hi. rewrite aget_lookup by lia.
  destruct (lookup_lt_is_Some_2 a (Z.to_nat i)) as [x Hx]; [lia |].
  rewrite Hx. by eapply list_elem_of_lookup_2.
Qed.

Lemma aget_take a i n :
  0 <= i < Z.of_nat n -> aget (take n a) i = aget a i.
Proof.
  intros ?. rewrite !aget_lookup by lia. by rewrite lookup_take_lt by lia.
Qed.

(** ** Tactics *)

(** Split conjunctions in the context and case on the boolean tests of the
    goal, turning them into arithmetic facts. *)
Ltac zbool :=
  repeat match goal with
  | H : (_ <? _) = true |- _ => apply Z.ltb_lt in H
  | H : (_ <? _) = false |- _ => apply Z.ltb_ge in H
  | H : (_ <=? _) = true |- _ => apply Z.leb_le in H
  | H : (_ <=? _) = false |- _ => apply Z.leb_gt in H
  | H : (_ =? _) = true |- _ => apply Z.eqb_eq in H
  | H : (_ =? _) = false |- _ => apply Z.eqb_neq in H
  | H : (_ >? _) = true |- _ => rewrite Z.gtb_ltb in H
  | H : (_ >? _) = false |- _ => rewrite Z.gtb_ltb in H
  | H : (_ >=? _) = true |- _ => rewrite Z.geb_leb in H
  | H : (_ >=? _) = false |- _ => rewrite Z.geb_leb in H
  | H : (_ && _) = true |- _ => apply andb_true_iff in H as [??]
  | H : (_ || _) = false |- _ => apply orb_false_iff in H as [??]
  | H : negb _ = true |- _ => apply negb_true_iff in H
  | H : negb _ = false |- _ => apply negb_false_iff in H
  end.

Ltac case_if :=
  match goal with
  | |- context [if ?b then _ else _] =>
      lazymatch type of b with bool => destruct b eqn:?; zbool end
  end.

(** Unfold a state update and simplify the projections. *)
Ltac upd_simpl := cbn in *.

Create HintDb cs discriminated.
#[export] Hint Resolve u64_bound u32_bound inc64_bound : cs.
#[export] Hint Extern 5 (_ <= _) => lia : cs.
#[export] Hint Extern 5 (_ < _) => lia : cs.
#[export] Hint Extern 5 (@eq Z _ _) => lia : cs.
