(* ===== verification/Cstr.v ===== *)
(** * C strings and number formatting

    The parts of the C library the program uses on text: [%llu] printing, the
    [%llu] and [%Ns] conversions of [fscanf] (glibc's behaviour: leading white
    space skipped, an optional sign, the value clamped to ULLONG_MAX on
    overflow), and the round trip between printing and scanning. *)

From stdpp Require Import base numbers list strings pretty.
From Stdlib Require Import ZArith Lia Ascii.
From S2P Require Import Prelude.

(** ** Character classes *)

Definition code (c : ascii) : Z := Z.of_nat (nat_of_ascii c).

(** [isspace]: space, \t, \n, \v, \f, \r. *)
Definition is_space (c : ascii) : bool :=
  (code c =? 32) || ((9 <=? code c) && (code c <=? 13)).

(** [isdigit]. *)
Definition is_digit (c : ascii) : bool := (48 <=? code c) && (code c <=? 57).

Fixpoint skip_ws (s : string) : string :=
  match s with
  | String c s' => if is_space c then skip_ws s' else s
  | EmptyString => EmptyString
  end.

(** ** Printing *)

(** [%llu]. *)
Definition fmt_llu (z : Z) : string := pretty (Z.to_N z).

(** [%d]. *)
Definition fmt_d (z : Z) : string := pretty z.

(** ** Scanning *)

Definition ULLONG_MAX : Z := 2 ^ 64 - 1.

(** The longest prefix of decimal digits, accumulated onto [acc], and the
    rest of the input. *)
Fixpoint scan_digits (s : string) (acc : Z) : Z * string :=
  match s with
  | String c s' =>
      if is_digit c then scan_digits s' (acc * 10 + (code c - 48)) else (acc, s)
  | EmptyString => (acc, EmptyString)
  end.

(** An optional sign: whether it was [-], and the rest. *)
Definition scan_sign (s : string) : bool * string :=
  match s with
  | String "-" s' => (true, s')
  | String "+" s' => (false, s')
  | _ => (false, s)
  end.

(** One [fscanf(fp, "%llu", &v)]: [Some (v, rest)] when it converts. *)
Definition scan_llu (s : string) : option (Z * string) :=
  let '(neg, s1) := scan_sign (skip_ws s) in
  match s1 with
  | String c _ =>
      if is_digit c then
        let '(v, rest) := scan_digits s1 0 in
        Some ((if v >? ULLONG_MAX then ULLONG_MAX
               else if neg then u64 (- v) else v), rest)
      else None
  | EmptyString => None
  end.

(** [atoi]: [strtol] in base 10, cut to an int. *)
Definition atoi (s : string) : Z :=
  let '(neg, s1) := scan_sign (skip_ws s) in
  let v := (scan_digits s1 0).1 in
  s32 (if neg then Z.max (- 2 ^ 63) (- v) else Z.min (2 ^ 63 - 1) v).

(** At most [n] characters up to white space: the body of [%ns]. *)
Fixpoint scan_word_go (n : nat) (s : string) : string :=
  match n, s with
  | S n', String c s' =>
      if is_space c then EmptyString else String c (scan_word_go n' s')
  | _, _ => EmptyString
  end.

(** One [fscanf(fp, "%ns", buf)]: [None] when the input has no word. *)
Definition scan_word (n : nat) (s : string) : option string :=
  match scan_word_go n (skip_ws s) with
  | EmptyString => None
  | w => Some w
  end.

(** [snprintf(dst, n, "%s", s)]: at most [n - 1] characters are kept. *)
Fixpoint str_take (n : nat) (s : string) : string :=
  match n, s with
  | S n', String c s' => String c (str_take n' s')
  | _, _ => EmptyString
  end.

(** ** Round trip *)

Lemma pretty_N_char_code d :
  (d < 10)%N -> code (pretty_N_char d) = 48 + Z.of_N d.
Proof.
  intros Hd. assert (d ∈ [0;1;2;3;4;5;6;7;8;9]%N) as Hin.
  { apply list_elem_of_In. simpl. lia. }
  repeat (apply elem_of_cons in Hin as [-> | Hin]; [reflexivity |]).
  by apply not_elem_of_nil in Hin.
Qed.

Lemma pretty_N_char_digit d : (d < 10)%N -> is_digit (pretty_N_char d) = true.
Proof. intros H. unfold is_digit. rewrite pretty_N_char_code by done. lia. Qed.

Lemma scan_pretty_N_go x :
  exists k, 0 <= k /\ forall s acc,
    scan_digits (pretty_N_go x s) acc = scan_digits s (acc * 10 ^ k + Z.of_N x).
Proof.
  induction (N.lt_wf_0 x) as [x _ IH].
  destruct (decide (0 < x)%N) as [Hx | Hx].
  - destruct (IH (x / 10)%N) as (k & Hk & Hs); [by apply N.div_lt |].
    exists (k + 1). split; [lia |]. intros s acc.
    rewrite pretty_N_go_step by done. rewrite Hs. simpl.
    assert (x mod 10 < 10)%N by (apply N.mod_lt; lia).
    rewrite pretty_N_char_digit, pretty_N_char_code by done.
    f_equal. rewrite Z.pow_add_r by lia.
    rewrite N2Z.inj_div, N2Z.inj_mod.
    pose proof (Z.div_mod (Z.of_N x) (Z.of_N 10)). lia.
  - exists 0. split; [done |]. intros s acc.
    assert (x = 0)%N as -> by lia. rewrite pretty_N_go_0. f_equal. lia.
Qed.

Lemma pretty_N_go_head x :
  (0 < x)%N -> forall s, exists c s',
    pretty_N_go x s = String c s' /\ is_digit c = true.
Proof.
  induction (N.lt_wf_0 x) as [x _ IH]. intros Hx s.
  rewrite pretty_N_go_step by done.
  destruct (N.eq_0_gt_0_cases (x / 10)) as [-> | Hq].
  2: { apply IH; [by apply N.div_lt | done]. }
  - rewrite pretty_N_go_0.
    eexists _, _. split; [done |]. apply pretty_N_char_digit, N.mod_lt. lia.
Qed.

Lemma digit_not_special c :
  is_digit c = true -> is_space c = false /\ scan_sign (String c EmptyString) = (false, String c EmptyString).
Proof.
  intros H. destruct c as [[] [] [] [] [] [] [] []]; vm_compute in H; done.
Qed.

Lemma scan_sign_digit c s :
  is_digit c = true -> scan_sign (String c s) = (false, String c s).
Proof.
  intros H. destruct c as [[] [] [] [] [] [] [] []]; vm_compute in H; done.
Qed.

(** Text that cannot extend a number. *)
Definition no_digit_head (s : string) : Prop :=
  match s with String c _ => is_digit c = false | EmptyString => True end.

Lemma scan_digits_stop s acc : no_digit_head s -> scan_digits s acc = (acc, s).
Proof. destruct s as [|c s]; simpl; [done |]. by intros ->. Qed.

Lemma string_app_assoc (a b c : string) : a +:+ b +:+ c = (a +:+ b) +:+ c.
Proof.
  induction a as [|x a IH]; [done |].
  change (String x (a +:+ b +:+ c) = String x ((a +:+ b) +:+ c)). by rewrite IH.
Qed.

Lemma string_app_nil_r (a : string) : a +:+ EmptyString = a.
Proof.
  induction a as [|x a IH]; [done |].
  change (String x (a +:+ EmptyString) = String x a). by rewrite IH.
Qed.

Lemma pretty_N_go_app x s : pretty_N_go x s = pretty_N_go x EmptyString +:+ s.
Proof.
  revert s. induction (N.lt_wf_0 x) as [x _ IH]. intros s.
  destruct (decide (0 < x)%N) as [Hx | Hx].
  - rewrite !(pretty_N_go_step x) by done.
    assert (x / 10 < x)%N as Hlt by (by apply N.div_lt).
    rewrite (IH _ Hlt (String _ s)), (IH _ Hlt (String _ EmptyString)).
    by rewrite <- string_app_assoc.
  - assert (x = 0)%N as -> by lia. by rewrite !pretty_N_go_0.
Qed.

Lemma scan_llu_digit c s :
  is_digit c = true ->
  scan_llu (String c s) =
    let '(v, rest) := scan_digits (String c s) 0 in
    Some ((if v >? ULLONG_MAX then ULLONG_MAX else v), rest).
Proof.
  intros Hd. unfold scan_llu. cbn [skip_ws].
  rewrite (proj1 (digit_not_special c Hd)), scan_sign_digit, Hd by done.
  by destruct (scan_digits _ _).
Qed.

(** Scanning what [%llu] printed gives the number back, whatever follows it. *)
Lemma scan_fmt_llu z rest :
  0 <= z <= ULLONG_MAX -> no_digit_head rest ->
  scan_llu (fmt_llu z +:+ rest) = Some (z, rest).
Proof.
  unfold ULLONG_MAX. intros Hz Hrest. unfold fmt_llu.
  destruct (decide (z = 0)) as [-> | Hz0].
  { change (pretty (Z.to_N 0) +:+ rest) with (String "0" rest).
    rewrite scan_llu_digit by done. simpl. by rewrite scan_digits_stop. }
  assert (0 < Z.to_N z)%N as Hpos by lia.
  assert (pretty (Z.to_N z) = pretty_N_go (Z.to_N z) EmptyString) as ->.
  { unfold pretty, pretty_N. by rewrite decide_False by lia. }
  rewrite <- pretty_N_go_app.
  destruct (pretty_N_go_head _ Hpos rest) as (c & s' & Hs & Hc).
  destruct (scan_pretty_N_go (Z.to_N z)) as (k & _ & Hk).
  rewrite Hs, scan_llu_digit by done. rewrite <- Hs, Hk, scan_digits_stop by done.
  rewrite Z2N.id by lia. unfold ULLONG_MAX.
  destruct (Z.gtb_spec (0 * 10 ^ k + z) (2 ^ 64 - 1)); [lia |].
  repeat f_equal; lia.
Qed.

(** A successful scan consumes input, which bounds every scanning loop. *)
Lemma scan_digits_length s acc :
  (String.length (scan_digits s acc).2 <= String.length s)%nat.
Proof.
  revert acc. induction s as [|c s IH]; intros acc; simpl; [lia |].
  destruct (is_digit c); simpl; [| lia]. specialize (IH (acc * 10 + (code c - 48))). lia.
Qed.

Lemma skip_ws_length s : (String.length (skip_ws s) <= String.length s)%nat.
Proof. induction s as [|c s IH]; simpl; [lia |]. destruct (is_space c); simpl; lia. Qed.

Lemma scan_sign_length s : (String.length (scan_sign s).2 <= String.length s)%nat.
Proof.
  destruct s as [|c s]; [done |].
  destruct c as [[] [] [] [] [] [] [] []]; simpl; lia.
Qed.

Lemma scan_llu_consumes s v rest :
  scan_llu s = Some (v, rest) -> (String.length rest < String.length s)%nat.
Proof.
  unfold scan_llu. pose proof (skip_ws_length s) as H1.
  pose proof (scan_sign_length (skip_ws s)) as H2.
  destruct (scan_sign (skip_ws s)) as [neg [|c s1]]; [done |]. simpl in H2.
  destruct (is_digit c) eqn:Hc; [| done].
  pose proof (scan_digits_length s1 (code c - 48)) as H3.
  cbn [scan_digits]. rewrite Hc. change (0 * 10) with 0.
  rewrite Z.add_0_l. destruct (scan_digits s1 _) as [v' r]. simpl in H3.
  intros [= _ <-]. lia.
Qed.

Lemma scan_llu_bound s v rest :
  scan_llu s = Some (v, rest) -> v <= ULLONG_MAX.
Proof.
  unfold scan_llu. destruct (scan_sign _) as [neg [|c s1]]; [done |].
  destruct (is_digit c); [| done]. destruct (scan_digits _ _) as [v' r].
  intros [= <- _]. case_if; [done |]. destruct neg; [| done].
  pose proof (u64_bound (- v')). unfold ULLONG_MAX in *. lia.
Qed.

Lemma scan_digits_nonneg s acc : 0 <= acc -> 0 <= (scan_digits s acc).1.
Proof.
  revert acc. induction s as [|c s IH]; intros acc H; simpl; [done |].
  destruct (is_digit c) eqn:Hc; simpl; [| done].
  apply IH. unfold is_digit in Hc. zbool. lia.
Qed.

Lemma scan_llu_range s v rest :
  scan_llu s = Some (v, rest) -> 0 <= v <= ULLONG_MAX.
Proof.
  intros H. split; [| by eapply scan_llu_bound]. revert H.
  unfold scan_llu. destruct (scan_sign _) as [neg [|c s1]]; [done |].
  destruct (is_digit c); [| done].
  pose proof (scan_digits_nonneg (String c s1) 0 ltac:(lia)) as Hn.
  destruct (scan_digits _ _) as [v' r]. simpl in Hn.
  intros [= <- _]. case_if; [done |]. destruct neg; [apply u64_bound | done].
Qed.

(** A 64-bit number prints in at most 20 characters. *)
Lemma pretty_N_go_length (k : nat) x s :
  (x < 10 ^ N.of_nat k)%N ->
  (String.length (pretty_N_go x s) <= k + String.length s)%nat.
Proof.
  revert x s. induction k as [|k IH]; intros x s Hx.
  - assert (x = 0)%N as -> by (simpl in Hx; lia). rewrite pretty_N_go_0. lia.
  - destruct (decide (0 < x)%N) as [H0 | H0].
    + rewrite pretty_N_go_step by done.
      etransitivity; [apply IH | simpl; lia].
      apply N.Div0.div_lt_upper_bound.
      rewrite Nat2N.inj_succ, N.pow_succ_r' in Hx. done.
    + assert (x = 0)%N as -> by lia. rewrite pretty_N_go_0. lia.
Qed.

Lemma fmt_llu_length z : 0 <= z <= ULLONG_MAX -> (String.length (fmt_llu z) <= 20)%nat.
Proof.
  unfold ULLONG_MAX. intros Hz. unfold fmt_llu, pretty, pretty_N.
  case_decide; [simpl; lia |].
  etransitivity; [apply (pretty_N_go_length 20) | simpl; lia]. simpl. lia.
Qed.

(** ** Hexadecimal *)

(** The value of a hexadecimal digit. *)
Definition hex_val (c : ascii) : option Z :=
  if is_digit c then Some (code c - 48)
  else if (97 <=? code c) && (code c <=? 102) then Some (code c - 87)
  else if (65 <=? code c) && (code c <=? 70) then Some (code c - 55)
  else None.

(** The longest prefix of hexadecimal digits. *)
Fixpoint scan_hex (s : string) (acc : Z) : Z * string :=
  match s with
  | String c s' => match hex_val c with Some d => scan_hex s' (acc * 16 + d) | None => (acc, s) end
  | EmptyString => (acc, EmptyString)
  end.

(** An optional 0x in front of a digit. *)
Definition skip_0x (s : string) : string :=
  match s with
  | String "0" (String "x" (String c _ as r)) | String "0" (String "X" (String c _ as r)) =>
      match hex_val c with Some _ => r | None => s end
  | _ => s
  end.

(** One [sscanf(s, "%lx", &v)]: [Some (v, rest)] when it converts. *)
Definition scan_lx (s : string) : option (Z * string) :=
  let '(neg, s1) := scan_sign (skip_ws s) in
  let s1 := skip_0x s1 in
  match s1 with
  | String c _ =>
      match hex_val c with
      | Some _ =>
          let '(v, rest) := scan_hex s1 0 in
          Some ((if v >? ULLONG_MAX then ULLONG_MAX
                 else if neg then u64 (- v) else v), rest)
      | None => None
      end
  | EmptyString => None
  end.

(** The digit of [d], lower case. *)
Definition hex_char (d : Z) : ascii :=
  ascii_of_nat (Z.to_nat (if d <? 10 then 48 + d else 87 + d)).

(** The digits of [z] in front of [s]; [n] digits are enough below [16 ^ n]. *)
Fixpoint hex_go (n : nat) (z : Z) (s : string) : string :=
  match n with
  | O => s
  | S n => if z <? 16 then String (hex_char z) s
           else hex_go n (z / 16) (String (hex_char (z mod 16)) s)
  end.

(** [%lx] of a 64-bit value. *)
Definition fmt_lx (z : Z) : string := hex_go 16 z EmptyString.

(** [n] zeros. *)
Definition zeros (n : nat) (s : string) : string := Nat.iter n (String "0") s.

(** [%0nlx]. *)
Definition fmt_0lx (n : nat) (z : Z) : string :=
  zeros (n - String.length (fmt_lx z)) (fmt_lx z).

Lemma hex_char_val d : 0 <= d < 16 -> hex_val (hex_char d) = Some d.
Proof.
  intros Hd. assert (d ∈ (Z.of_nat <$> seq 0 16)) as Hin.
  { apply list_elem_of_fmap. exists (Z.to_nat d). split; [lia |]. apply elem_of_seq. lia. }
  cbn in Hin. repeat (apply elem_of_cons in Hin as [-> | Hin]; [reflexivity |]).
  by apply not_elem_of_nil in Hin.
Qed.

Lemma scan_hex_char d s acc :
  0 <= d < 16 -> scan_hex (String (hex_char d) s) acc = scan_hex s (acc * 16 + d).
Proof. intros Hd. cbn [scan_hex]. by rewrite hex_char_val. Qed.

Lemma scan_hex_go n z s acc :
  0 <= z < 16 ^ Z.of_nat n -> (n <> 0)%nat ->
  exists k, 0 <= k /\ scan_hex (hex_go n z s) acc = scan_hex s (acc * 16 ^ k + z).
Proof.
  revert z s. induction n as [|n IH]; intros z s Hz Hn; [done |]. cbn [hex_go].
  destruct (Z.ltb_spec z 16) as [Hlt | Hge].
  - exists 1. split; [lia |]. rewrite scan_hex_char by lia. f_equal.
  - destruct n as [|n]; [change (16 ^ Z.of_nat 1) with 16 in Hz; lia |].
    rewrite Nat2Z.inj_succ, Z.pow_succ_r in Hz by lia.
    destruct (IH (z / 16) (String (hex_char (z mod 16)) s)) as (k & Hk & Hs); [| done |].
    { split; [apply Z.div_pos; lia | apply Z.div_lt_upper_bound; lia]. }
    exists (k + 1). split; [lia |]. rewrite Hs, scan_hex_char by (apply Z.mod_pos_bound; lia).
    f_equal. rewrite Z.pow_add_r by lia. pose proof (Z.div_mod z 16). lia.
Qed.

(** The first character printed is a digit. *)
Lemma hex_go_head n z s :
  0 <= z -> (n <> 0)%nat -> exists c s', hex_go n z s = String c s' /\ is_Some (hex_val c).
Proof.
  revert z s. induction n as [|n IH]; intros z s Hz Hn; [done |]. cbn [hex_go].
  destruct (Z.ltb_spec z 16).
  - eexists _, _. split; [done |]. rewrite hex_char_val by lia. by eexists.
  - destruct n as [|n].
    + cbn [hex_go]. eexists _, _. split; [done |].
      rewrite hex_char_val by (apply Z.mod_pos_bound; lia). by eexists.
    + apply IH; [apply Z.div_pos; lia | done].
Qed.

Lemma hex_go_app n z s t : hex_go n z (s +:+ t) = hex_go n z s +:+ t.
Proof.
  revert z s. induction n as [|n IH]; intros z s; [done |]. cbn [hex_go].
  case_if; [done |]. by rewrite <- IH.
Qed.

Lemma zeros_app n s t : zeros n s +:+ t = zeros n (s +:+ t).
Proof. induction n as [|n IH]; [done |]. unfold zeros in *. simpl. by rewrite <- IH. Qed.

Lemma scan_hex_zeros n s acc : exists k, 0 <= k /\ scan_hex (zeros n s) acc = scan_hex s (acc * 16 ^ k).
Proof.
  revert acc. induction n as [|n IH]; intros acc.
  - exists 0. split; [done |]. cbn. f_equal. lia.
  - destruct (IH (acc * 16)) as (k & Hk & Hs). exists (k + 1). split; [lia |].
    change (zeros (S n) s) with (String "0" (zeros n s)). cbn [scan_hex].
    change (hex_val "0") with (Some 0). cbn iota. rewrite Z.add_0_r, Hs.
    f_equal. rewrite Z.pow_add_r by lia. lia.
Qed.

(** Text that cannot extend a hexadecimal number. *)
Definition no_hex_head (s : string) : Prop :=
  match s with String c _ => hex_val c = None /\ c <> "x"%char /\ c <> "X"%char | EmptyString => True end.

Lemma hex_digit_not_special c s :
  is_Some (hex_val c) -> is_space c = false /\ scan_sign (String c s) = (false, String c s).
Proof.
  intros [d H]. destruct c as [[] [] [] [] [] [] [] []]; vm_compute in H; done.
Qed.

Lemma no_hex_stop s acc : no_hex_head s -> scan_hex s acc = (acc, s).
Proof. destruct s as [|c s]; cbn; [done |]. by intros [-> _]. Qed.

(** A string that starts with no x. *)
Definition no_x_head (s : string) : Prop :=
  match s with String d _ => d <> "x"%char /\ d <> "X"%char | EmptyString => True end.

(** No prefix in front of digits that are followed by no x. *)
Lemma skip_0x_digits c s :
  no_x_head s ->
  skip_0x (String c s) = String c s.
Proof.
  unfold skip_0x. destruct s as [|d s].
  - intros _. by destruct c as [[] [] [] [] [] [] [] []].
  - intros [Hx HX]. destruct c as [[] [] [] [] [] [] [] []]; try done.
    destruct d as [[] [] [] [] [] [] [] []]; done.
Qed.

Lemma scan_lx_digits c s v :
  is_Some (hex_val c) ->
  no_x_head s ->
  scan_hex (String c s) 0 = v -> v.1 <= ULLONG_MAX -> scan_lx (String c s) = Some v.
Proof.
  intros Hc Hd Hs Hv. unfold scan_lx. cbn [skip_ws].
  destruct (hex_digit_not_special c s Hc) as [-> ->]. rewrite skip_0x_digits by done.
  destruct Hc as [w ->]. rewrite Hs. destruct v as [v r]. cbn in Hv.
  destruct (Z.gtb_spec v ULLONG_MAX); [lia | done].
Qed.

(** A digit is no x. *)
Lemma hex_not_x c : is_Some (hex_val c) -> c <> "x"%char /\ c <> "X"%char.
Proof. intros [d H]. split; intros ->; done. Qed.

(** What follows the first digit printed. *)
Lemma hex_go_second m z t c s :
  0 <= z -> no_x_head t -> hex_go (S m) z t = String c s -> no_x_head s.
Proof.
  revert z t. induction m as [|m IH]; intros z t Hz Ht; cbn [hex_go]; case_if;
    try (by intros [= _ <-]).
  apply IH; [apply Z.div_pos; lia |]. apply hex_not_x. rewrite hex_char_val; [by eexists |].
  apply Z.mod_pos_bound. lia.
Qed.

(** Every printed number is digits then the rest. *)
Lemma fmt_0lx_cons n z rest :
  0 <= z -> no_hex_head rest -> exists c s,
    fmt_0lx n z +:+ rest = String c s /\ is_Some (hex_val c) /\ no_x_head s.
Proof.
  intros Hz Hr. unfold fmt_0lx. rewrite zeros_app. unfold fmt_lx at 2. rewrite <- hex_go_app.
  destruct (hex_go_head 16 z ("" +:+ rest) Hz ltac:(done)) as (c & s & Heq & Hc).
  destruct (n - String.length (fmt_lx z))%nat as [|k].
  - cbn [zeros Nat.iter]. exists c, s. split_and!; [exact Heq | done |].
    apply (hex_go_second 15 z ("" +:+ rest) c s Hz); [| done]. destruct rest; [done | apply Hr].
  - exists "0"%char, (zeros k (hex_go 16 z ("" +:+ rest))). split_and!; [done | by eexists |].
    destruct k as [|k]; [| done]. cbn [zeros Nat.iter]. rewrite Heq. by apply hex_not_x.
Qed.

(** Scanning what [%0nlx] printed gives the number back. *)
Lemma scan_fmt_0lx n z rest :
  0 <= z <= ULLONG_MAX -> no_hex_head rest -> scan_lx (fmt_0lx n z +:+ rest) = Some (z, rest).
Proof.
  intros Hz Hr. destruct (fmt_0lx_cons n z rest ltac:(lia) Hr) as (c & s & Heq & Hc & Hs).
  rewrite Heq. apply scan_lx_digits; [done | done | | cbn; lia]. rewrite <- Heq.
  unfold fmt_0lx. rewrite zeros_app. unfold fmt_lx at 2. rewrite <- hex_go_app.
  destruct (scan_hex_zeros (n - String.length (fmt_lx z)) (hex_go 16 z ("" +:+ rest)) 0) as (k & _ & ->).
  unfold ULLONG_MAX in Hz. destruct (scan_hex_go 16 z ("" +:+ rest) (0 * 16 ^ k)) as (j & _ & ->);
    [change (16 ^ Z.of_nat 16) with (2 ^ 64); lia | done |].
  change ("" +:+ rest) with rest. by rewrite no_hex_stop.
Qed.

#[global] Arguments scan_llu : simpl never.
#[global] Arguments scan_lx : simpl never.
#[global] Arguments fmt_llu : simpl never.
#[global] Arguments fmt_lx : simpl never.
#[global] Arguments fmt_0lx : simpl never.
#[global] Arguments fmt_d : simpl never.
