(* ===== verification/FreqGov.v ===== *)
(** * The CPU frequency governor (src/src/freq_gov.c, src/include/freq_gov.h)

    The governor's file-scope variables are the record [gov]; every function
    of the file is a definition on it.  The kernel's cpufreq directory is seen
    through [sysenv] (what reading a file gives, which files open for writing)
    and [sysfs_log], the sequence of [write] calls the governor issues.
    Messages on stderr are not part of the state. *)

From stdpp Require Import base numbers list strings pretty sorting.
From Stdlib Require Import ZArith Lia.
From S2P Require Import Prelude Cstr.

Inductive freq_mode_t := FREQ_MODE_ATOM | FREQ_MODE_ADDR.

#[export] Instance freq_mode_eq_dec : EqDecision freq_mode_t.
Proof. solve_decision. Defined.

Definition FREQ_GOV_MAX_REPETITION_NUM : Z := 3.
Definition FREQ_INTERVAL : Z := 1000.
Definition MIN_FREQ_INTERVAL : Z := 100.
Definition MAX_FREQ_INTERVAL : Z := 1000.

(** sizeof(freq_table) / sizeof(freq_table[0]), and the same of restore_ops. *)
Definition FREQ_TABLE_CAP : Z := 64.
Definition RESTORE_OPS_CAP : Z := 5.

(** ** State *)

(** One mode's entry of the per-mode arrays. *)
Record mode_state := MkMode {
  cur_idx : Z;
  opt_idx_sum : Z;
  stable_nums : Z;
  non_overflow_nums : Z;
  total_execs : Z;
  total_overflow_execs : Z
}.

(** The functions registered with [atexit]. *)
Inductive exit_fn := ExitRestore | ExitReport.

Record gov := MkGov {
  g_cpu : Z;
  system_min_cpufreq : Z;
  system_max_cpufreq : Z;
  freq_table : list Z;
  freq_table_num : Z;
  atom_state : mode_state;
  addr_state : mode_state;
  freq_interval : Z;
  addr_only_mode : bool;
  freq_diag : bool;
  g_enabled : bool;
  force_min_pending : bool;
  saved_governor : string;
  restore_ops : list (string * string);
  guard_ops : option (list (string * string));
  exit_hooks : list exit_fn;
  signal_hooks : list Z;
  last_set_freq : Z;
  sysfs_log : list (string * string)
}.

#[export] Instance eta_mode : Eta mode_state := fun m =>
  MkMode (cur_idx m) (opt_idx_sum m) (stable_nums m) (non_overflow_nums m)
    (total_execs m) (total_overflow_execs m).

#[export] Instance eta_gov : Eta gov := fun g =>
  MkGov (g_cpu g) (system_min_cpufreq g) (system_max_cpufreq g) (freq_table g)
    (freq_table_num g) (atom_state g) (addr_state g) (freq_interval g)
    (addr_only_mode g) (freq_diag g) (g_enabled g) (force_min_pending g)
    (saved_governor g) (restore_ops g) (guard_ops g) (exit_hooks g)
    (signal_hooks g) (last_set_freq g) (sysfs_log g).

(** The initial values of the file-scope variables. *)
Definition mode_zero : mode_state := MkMode 0 0 0 0 0 0.

Definition gov_static : gov := {|
  g_cpu := 0; system_min_cpufreq := 0; system_max_cpufreq := 0;
  freq_table := replicate 64 0; freq_table_num := 0;
  atom_state := mode_zero; addr_state := mode_zero;
  freq_interval := MIN_FREQ_INTERVAL;
  addr_only_mode := false; freq_diag := false; g_enabled := true;
  force_min_pending := false; saved_governor := "";
  restore_ops := []; guard_ops := None; exit_hooks := []; signal_hooks := [];
  last_set_freq := 0; sysfs_log := []
|}.

(** [a[mode]] and [a[mode] = ...] on the per-mode arrays. *)
Definition mst (g : gov) (m : freq_mode_t) : mode_state :=
  match m with FREQ_MODE_ATOM => atom_state g | FREQ_MODE_ADDR => addr_state g end.

Definition set_mst (g : gov) (m : freq_mode_t) (x : mode_state) : gov :=
  match m with
  | FREQ_MODE_ATOM => g <| atom_state := x |>
  | FREQ_MODE_ADDR => g <| addr_state := x |>
  end.

(** ** The environment *)

(** What the governor sees of the system: file contents at initialisation
    (it reads nothing later), which files [open(O_WRONLY)] accepts, the
    environment variables, whether [pipe2] and [fork] succeed for the restore
    guard, and which signals were ignored when the process started. *)
Record sysenv := MkEnv {
  read_file : string -> option string;
  can_open_w : string -> bool;
  getenv : string -> option string;
  guard_spawns : bool;
  sig_ignored : Z -> bool
}.

Definition SIGHUP : Z := 1.
Definition SIGINT : Z := 2.
Definition SIGTERM : Z := 15.

(** "/sys/devices/system/cpu/cpu%d/cpufreq/%s".  The text is shorter than the
    smallest array it is printed to (128 bytes): the constant part has 39
    characters, a CPU number at most 11, a file name at most 29. *)
Definition cpufreq_path (cpu : Z) (file_name : string) : string :=
  "/sys/devices/system/cpu/cpu" +:+ fmt_d cpu +:+ "/cpufreq/" +:+ file_name.

#[global] Arguments cpufreq_path : simpl never.

Section Governor.
Context (E : sysenv).

(** ** Sysfs *)

(** [open(path, O_WRONLY)], one [write] of [text], [close]. *)
Definition sysfs_put (g : gov) (path text : string) : gov :=
  if can_open_w E path then g <| sysfs_log := sysfs_log g ++ [(path, text)] |>
  else g.

Definition write_sysfs (g : gov) (file_name : string) (val : Z) : gov :=
  sysfs_put g (cpufreq_path (g_cpu g) file_name) (fmt_llu val).

Definition write_sysfs_str (g : gov) (file_name val : string) : gov :=
  sysfs_put g (cpufreq_path (g_cpu g) file_name) val.

Definition read_sysfs (g : gov) (file_name : string) : Z :=
  match read_file E (cpufreq_path (g_cpu g) file_name) with
  | None => 0
  | Some content =>
      match scan_llu content with Some (v, _) => v | None => 0 end
  end.

(** ** Frequency table *)

(** The [while] loop over scaling_available_frequencies: stops at a full table
    or at the first failed conversion, skips values outside the hardware
    bounds.  Every iteration consumes text, so the length of the content plus
    one bounds the iterations. *)
Fixpoint read_freq_loop (fuel : nat) (lo hi : Z) (content : string)
    (t : list Z) (num : Z) : list Z * Z :=
  match fuel with
  | O => (t, num)
  | S fuel' =>
      if num <? FREQ_TABLE_CAP then
        match scan_llu content with
        | Some (f, rest) =>
            if (f <? lo) || (f >? hi)
            then read_freq_loop fuel' lo hi rest t num
            else read_freq_loop fuel' lo hi rest (aset t num f) (num + 1)
        | None => (t, num)
        end
      else (t, num)
  end.

(** The inner [for (j = i - 1; j >= 0 && t[j] > key; j--)] with the store of
    the key after it; [j1] is [j + 1]. *)
Fixpoint sift (key : Z) (j1 : nat) (t : list Z) : list Z :=
  match j1 with
  | O => <[0%nat := key]> t
  | S j =>
      if (t !!! j) >? key then sift key j (<[S j := t !!! j]> t)
      else <[S j := key]> t
  end.

(** The outer [for (i = 1; i < freq_table_num; i++)]. *)
Definition sort_table (t : list Z) (num : nat) : list Z :=
  foldl (fun t i => sift (t !!! i) i t) t (seq 1 (num - 1)).

Definition read_available_frequencies (g : gov) : gov :=
  let '(t, num) :=
    match read_file E (cpufreq_path (g_cpu g) "scaling_available_frequencies") with
    | Some content =>
        read_freq_loop (S (String.length content)) (system_min_cpufreq g)
          (system_max_cpufreq g) content (freq_table g) 0
    | None => (freq_table g, 0)
    end in
  let '(t, num) :=
    if num =? 0
    then (aset (aset t 0 (system_min_cpufreq g)) 1 (system_max_cpufreq g), 2)
    else (t, num) in
  g <| freq_table := sort_table t (Z.to_nat num) |> <| freq_table_num := num |>.

Definition set_freq (g : gov) (target : Z) : gov :=
  if target =? last_set_freq g then g
  else
    let g := write_sysfs g "scaling_min_freq" (system_min_cpufreq g) in
    let g := write_sysfs g "scaling_max_freq" target in
    let g := write_sysfs g "scaling_min_freq" target in
    let g := write_sysfs g "scaling_setspeed" target in
    g <| last_set_freq := target |>.

(** ** Save and restore *)

Definition add_restore_op (g : gov) (file_name val : string) : gov :=
  if zlen (restore_ops g) >=? RESTORE_OPS_CAP then g
  else g <| restore_ops := restore_ops g ++
           [(cpufreq_path (g_cpu g) file_name, str_take 31 val)] |>.

(** The writes [freq_gov_restore_system] issues for the staged operations. *)
Definition restore_writes (ops : list (string * string)) : list (string * string) :=
  filter (fun op => can_open_w E op.1 = true) ops.

Definition freq_gov_restore_system (g : gov) : gov :=
  g <| sysfs_log := sysfs_log g ++ restore_writes (restore_ops g) |>
    <| last_set_freq := 0 |>.

Definition freq_gov_hook_signal (g : gov) (sig : Z) : gov :=
  if sig_ignored E sig then g
  else g <| signal_hooks := sig :: signal_hooks g |>.

(** The child keeps the restore operations staged at the time of the fork. *)
Definition freq_gov_spawn_guard (g : gov) : gov :=
  if guard_spawns E then g <| guard_ops := Some (restore_ops g) |> else g.

(** What one [read] on the guard's pipe returns: a byte, EINTR, another
    error, or end of file once every write end is closed. *)
Inductive pipe_read := PipeByte | PipeEintr | PipeError | PipeEof.

(** The guard's [do ... while (n > 0 || (n < 0 && errno == EINTR))]: the reads
    it performs before it restores the policy, if it gets there. *)
Fixpoint guard_wait (reads : list pipe_read) : bool :=
  match reads with
  | [] => false
  | PipeByte :: rs | PipeEintr :: rs => guard_wait rs
  | PipeError :: _ | PipeEof :: _ => true
  end.

(** ** Reporting *)

Definition opt_freq (g : gov) (m : freq_mode_t) : Z :=
  let s := mst g m in
  if stable_nums s =? 0 then 0
  else
    let idx := s32 (u64 (u64 (opt_idx_sum s) + stable_nums s / 2) / stable_nums s) in
    let idx := if idx >=? freq_table_num g then freq_table_num g - 1 else idx in
    aget (freq_table g) idx.

(** The rows [freq_gov_report] prints: mode, executions, overflows, settled
    frequency, stable windows, final frequency. *)
Definition freq_gov_report (g : gov) : list (freq_mode_t * (Z * Z * Z * Z * Z)) :=
  if negb (freq_diag g) then []
  else omap (fun m =>
    let s := mst g m in
    if total_execs s =? 0 then None
    else Some (m, (total_execs s, total_overflow_execs s, opt_freq g m,
                   stable_nums s, aget (freq_table g) (cur_idx s))))
    [FREQ_MODE_ATOM; FREQ_MODE_ADDR].

(** ** Lifecycle *)

Definition getenv_is (name val : string) : bool :=
  match getenv E name with Some v => bool_decide (v = val) | None => false end.

(** The restore targets staged by [freq_gov_init]. *)
Definition stage_restore (g : gov) : gov :=
  let saved_min := read_sysfs g "scaling_min_freq" in
  let saved_max := read_sysfs g "scaling_max_freq" in
  let saved_speed :=
    if bool_decide (saved_governor g = "userspace"%string)
    then read_sysfs g "scaling_setspeed" else 0 in
  let g := if c_true (system_min_cpufreq g)
           then add_restore_op g "scaling_min_freq" (fmt_llu (system_min_cpufreq g))
           else g in
  let g := if c_true saved_max
           then add_restore_op g "scaling_max_freq" (fmt_llu saved_max) else g in
  let g := if c_true saved_min
           then add_restore_op g "scaling_min_freq" (fmt_llu saved_min) else g in
  let g := if bool_decide (saved_governor g = ""%string) then g
           else add_restore_op g "scaling_governor" (saved_governor g) in
  if c_true saved_speed
  then add_restore_op g "scaling_setspeed" (fmt_llu saved_speed) else g.

Definition freq_gov_init (g : gov) (cpu : Z) (addr_only : bool) : gov :=
  let g := g <| g_cpu := cpu |> <| addr_only_mode := addr_only |> in
  if getenv_is "AFLCS_FREQ_GOV" "0" then g <| g_enabled := false |>
  else
    let g := g <| system_max_cpufreq := read_sysfs g "cpuinfo_max_freq" |> in
    let g := g <| system_min_cpufreq := read_sysfs g "cpuinfo_min_freq" |> in
    let g := read_available_frequencies g in
    let g := g <| freq_diag := bool_decide (is_Some (getenv E "AFLCS_FREQ_DIAG")) |> in
    let g := match read_file E (cpufreq_path (g_cpu g) "scaling_governor") with
             | Some content =>
                 g <| saved_governor := default ""%string (scan_word 31 content) |>
             | None => g
             end in
    let g := stage_restore g in
    let g := freq_gov_spawn_guard g in
    let g := g <| exit_hooks := ExitReport :: ExitRestore :: exit_hooks g |> in
    let g := freq_gov_hook_signal g SIGTERM in
    let g := freq_gov_hook_signal g SIGINT in
    let g := freq_gov_hook_signal g SIGHUP in
    let g := write_sysfs_str g "scaling_governor" "userspace" in
    let g := g <| last_set_freq := 0 |> in
    let start := mode_zero <| cur_idx := freq_table_num g - 1 |> in
    let g := g <| atom_state := start |> <| addr_state := start |> in
    g <| freq_interval := if addr_only_mode g then MIN_FREQ_INTERVAL else FREQ_INTERVAL |>.

(** ** Per execution *)

Definition freq_gov_apply (g : gov) (m : freq_mode_t) : gov :=
  if negb (g_enabled g) then g
  else if force_min_pending g
  then set_freq (g <| force_min_pending := false |>) (aget (freq_table g) 0)
  else set_freq g (aget (freq_table g) (cur_idx (mst g m))).

Definition freq_gov_restore_max (g : gov) : gov :=
  if negb (g_enabled g) then g else set_freq g (system_max_cpufreq g).

Definition freq_gov_force_min (g : gov) : gov := g <| force_min_pending := true |>.

(** The per-mode part of [freq_gov_on_result]: the step down on an overflow,
    the clean window and the step up otherwise. *)
Definition on_result_mode (num interval : Z) (s : mode_state) (overflowed : bool) : mode_state :=
  let s := s <| total_execs := inc64 (total_execs s) |> in
  if overflowed then
    let s := s <| total_overflow_execs := inc64 (total_overflow_execs s) |> in
    let s := if cur_idx s >? 0 then s <| cur_idx := cur_idx s - 1 |> else s in
    s <| non_overflow_nums := 0 |>
  else
    let s := s <| non_overflow_nums := inc64 (non_overflow_nums s) |> in
    if non_overflow_nums s >=? interval then
      let s := s <| stable_nums := inc64 (stable_nums s) |> in
      let s := s <| opt_idx_sum := s32 (opt_idx_sum s + cur_idx s) |> in
      let s := if cur_idx s <? num - 1 then s <| cur_idx := cur_idx s + 1 |> else s in
      s <| non_overflow_nums := 0 |>
    else s.

(** The shared adaptive window, computed from the atom mode's counters. *)
Definition adapt_interval (execs overflows : Z) : Z :=
  let fi := (execs / overflows) / 5 in
  if fi <? MIN_FREQ_INTERVAL then MIN_FREQ_INTERVAL
  else if fi >? MAX_FREQ_INTERVAL then MAX_FREQ_INTERVAL
  else fi.

Definition freq_gov_on_result (g : gov) (m : freq_mode_t) (overflowed : bool) : gov :=
  if negb (g_enabled g) then g
  else
    let g := set_mst g m
      (on_result_mode (freq_table_num g) (freq_interval g) (mst g m) overflowed) in
    let atom := atom_state g in
    if negb (addr_only_mode g) && (total_overflow_execs atom >? 0)
    then g <| freq_interval := adapt_interval (total_execs atom) (total_overflow_execs atom) |>
    else g.

(** ** Queries *)

Definition freq_gov_should_retry (g : gov) (m : freq_mode_t) (overflowed : bool)
    (cur_repetition_num : Z) : bool :=
  if negb (g_enabled g) then false
  else if negb overflowed then false
  else if bool_decide (m <> FREQ_MODE_ADDR) then false
  else if cur_idx (addr_state g) <=? 0 then false
  else if cur_repetition_num >=? FREQ_GOV_MAX_REPETITION_NUM then false
  else true.

Definition freq_gov_at_floor (g : gov) (m : freq_mode_t) : bool :=
  negb (g_enabled g) || (cur_idx (mst g m) =? 0).

Definition freq_gov_copy_start (g : gov) (dst src : freq_mode_t) : gov :=
  set_mst g dst ((mst g dst) <| cur_idx := cur_idx (mst g src) |>).

End Governor.

(** ** Calibration

    [run_one_shot] is a callback of the client, which runs one execution and
    may change any of the client's state, the governor's included; the client
    state is therefore abstract, with access to the governor inside it. *)
Class HasGov (W : Type) := {
  get_gov : W -> gov;
  put_gov : gov -> W -> W;
  get_put_gov : forall g w, get_gov (put_gov g w) = g
}.

Section Calibrate.
Context (E : sysenv) {W : Type} `{HasGov W} (run_one_shot : W -> bool * W).

Definition set_cur_idx (m : freq_mode_t) (i : Z) (w : W) : W :=
  put_gov (set_mst (get_gov w) m ((mst (get_gov w) m) <| cur_idx := i |>)) w.

(** The ramp from rung [i], with [n] rungs left: the runs made and the state. *)
Fixpoint calibrate_loop (m : freq_mode_t) (n : nat) (i : Z) (w : W) : Z * W :=
  match n with
  | O => (0, w)
  | S n' =>
      let w := put_gov (set_freq E (get_gov w) (aget (freq_table (get_gov w)) i)) w in
      let '(overflowed, w) := run_one_shot w in
      if overflowed then (1, w)
      else
        let '(runs, w) := calibrate_loop m n' (i + 1) (set_cur_idx m i w) in
        (runs + 1, w)
  end.

Definition freq_gov_calibrate (m : freq_mode_t) (w : W) : Z * W :=
  if negb (g_enabled (get_gov w)) then (0, w)
  else
    let w := set_cur_idx m 0 w in
    calibrate_loop m (Z.to_nat (freq_table_num (get_gov w))) 0 w.

End Calibrate.
