(* ===== verification/FreqTable.v ===== *)
(** * The governor's frequency table: parsing and in-place sort

    [read_available_frequencies] (freq_gov.c) fills a fixed array of 64
    entries from a sysfs file and insertion-sorts it in place.  The sort is
    shown equal to the library's [merge_sort] of the filled prefix, the parse
    loop to the prefix of the in-range numbers of the file. *)

From stdpp Require Import base numbers list strings sorting.
From Stdlib Require Import ZArith Lia.
From S2P Require Import Prelude Cstr FreqGov.

(** ** The insertion sort *)

(** Insertion into a descending list, the reversed sorted prefix. *)
Fixpoint ins_rev (key : Z) (q : list Z) : list Z :=
  match q with
  | y :: q' => if y >? key then y :: ins_rev key q' else key :: q
  | [] => [key]
  end.

Lemma sift_prefix key q x rest :
  sift key (length q) (reverse q ++ x :: rest) = reverse (ins_rev key q) ++ rest.
Proof.
  revert x rest. induction q as [|y q IH]; intros x rest; [done |].
  simpl. rewrite reverse_cons, <- app_assoc. simpl.
  rewrite list_lookup_total_middle by (by rewrite length_reverse).
  assert (forall v, <[S (length q) := v]> (reverse q ++ y :: x :: rest)
                    = reverse q ++ y :: v :: rest) as Hins.
  { intros v. rewrite insert_app_r_alt by (rewrite length_reverse; lia).
    rewrite length_reverse. by replace (S (length q) - length q)%nat with 1%nat by lia. }
  rewrite !Hins. destruct (y >? key).
  - rewrite IH, reverse_cons, <- app_assoc. done.
  - by rewrite !reverse_cons, <- !app_assoc.
Qed.

Lemma ins_rev_perm key q : ins_rev key q ≡ₚ key :: q.
Proof.
  induction q as [|y q IH]; simpl; [done |].
  destruct (y >? key); [| done]. rewrite IH. apply Permutation_swap.
Qed.

Lemma ins_rev_sorted key q :
  StronglySorted (flip Z.le) q -> StronglySorted (flip Z.le) (ins_rev key q).
Proof.
  induction q as [|y q IH]; simpl; intros Hs.
  { repeat constructor. }
  apply StronglySorted_cons in Hs as [Hy Hs].
  destruct (y >? key) eqn:?; zbool; apply StronglySorted_cons; split.
  - rewrite (ins_rev_perm key q). constructor; [unfold flip; lia | done].
  - auto.
  - constructor; [unfold flip; lia |].
    eapply Forall_impl; [apply Hy |]. unfold flip. intros; lia.
  - by apply StronglySorted_cons.
Qed.

(** After the outer loop has reached [i], the first [i] entries are a sorted
    permutation of what they were and the others are untouched. *)
Lemma sort_steps_spec t i :
  (1 <= i <= length t)%nat ->
  exists q, foldl (fun t i => sift (t !!! i) i t) t (seq 1 (i - 1)) = reverse q ++ drop i t
    /\ q ≡ₚ take i t /\ StronglySorted (flip Z.le) q.
Proof.
  induction i as [|i IH]; intros Hi; [lia |].
  destruct (decide (i = 0)%nat) as [-> | Hi0].
  { destruct t as [|x t]; simpl in Hi; [lia |].
    exists [x]. simpl. rewrite take_0, drop_0. split; [done |].
    split; [done | repeat constructor]. }
  destruct IH as (q & Hf & Hp & Hs); [lia |].
  assert (length q = i) as Hlen by (rewrite Hp, length_take; lia).
  destruct (lookup_lt_is_Some_2 t i) as [x Hx]; [lia |].
  exists (ins_rev x q). replace (S i - 1)%nat with (S (i - 1)) by lia.
  rewrite seq_S, foldl_snoc, Hf, (drop_S _ _ _ Hx).
  replace (1 + (i - 1))%nat with i by lia. split_and!.
  - rewrite list_lookup_total_middle by (by rewrite length_reverse).
    rewrite <- Hlen at 1. apply sift_prefix.
  - rewrite ins_rev_perm, (take_S_r _ _ _ Hx), Hp. by rewrite Permutation_cons_append.
  - by apply ins_rev_sorted.
Qed.

Lemma StronglySorted_reverse_flip q :
  StronglySorted (flip Z.le) q -> StronglySorted Z.le (reverse q).
Proof.
  intros H. apply Sorted_StronglySorted; [intros ???; lia |].
  apply (Sorted_reverse (flip Z.le)). by apply StronglySorted_Sorted.
Qed.

(** The in-place insertion sort of the first [num] entries is the library's
    sort of that prefix; the rest of the array is untouched. *)
Lemma sort_table_merge_sort t num :
  (1 <= num <= length t)%nat ->
  sort_table t num = merge_sort Z.le (take num t) ++ drop num t.
Proof.
  intros Hn. destruct (sort_steps_spec t num Hn) as (q & Hf & Hp & Hs).
  unfold sort_table. rewrite Hf. f_equal.
  apply (StronglySorted_unique Z.le).
  - by apply StronglySorted_reverse_flip.
  - apply StronglySorted_merge_sort; apply _.
  - by rewrite merge_sort_Permutation, reverse_Permutation.
Qed.

(** ** The parse loop *)

(** The numbers successive [%llu] conversions read, until one fails. *)
Fixpoint scan_all (fuel : nat) (content : string) : list Z :=
  match fuel with
  | O => []
  | S fuel' =>
      match scan_llu content with
      | Some (f, rest) => f :: scan_all fuel' rest
      | None => []
      end
  end.

Definition in_bounds (lo hi f : Z) : Prop := lo <= f <= hi.

#[export] Instance in_bounds_dec lo hi f : Decision (in_bounds lo hi f).
Proof. unfold in_bounds. apply _. Defined.

(** The loop stores the in-range numbers of the file in order from [num] on,
    up to the capacity of the array. *)
Lemma read_freq_loop_spec fuel lo hi content t num :
  (String.length content < fuel)%nat -> length t = 64%nat -> 0 <= num <= 64 ->
  let l := take (64 - Z.to_nat num) (filter (in_bounds lo hi) (scan_all fuel content)) in
  let '(t', num') := read_freq_loop fuel lo hi content t num in
  num' = num + zlen l /\ length t' = 64%nat /\
  take (Z.to_nat num') t' = take (Z.to_nat num) t ++ l.
Proof.
  revert content t num.
  induction fuel as [|fuel IH]; intros content t num Hfuel Ht Hnum; [lia |].
  simpl. unfold FREQ_TABLE_CAP. destruct (Z.ltb_spec num 64).
  2: { replace (64 - Z.to_nat num)%nat with 0%nat by lia. rewrite take_0.
       simpl. rewrite app_nil_r. split_and!; [lia | done | done]. }
  destruct (scan_llu content) as [[f rest]|] eqn:Hscan.
  2: { rewrite filter_nil, take_nil. simpl. rewrite app_nil_r. split_and!; [lia | done | done]. }
  apply scan_llu_consumes in Hscan.
  destruct ((f <? lo) || (f >? hi)) eqn:Hr.
  - rewrite filter_cons_False by (unfold in_bounds; lia).
    apply IH; [lia | done | lia].
  - rewrite filter_cons_True by (unfold in_bounds; zbool; lia).
    specialize (IH rest (aset t num f) (num + 1)).
    assert (aset t num f = <[Z.to_nat num := f]> t) as Has.
    { unfold aset. destruct (Z.ltb_spec num 0); [lia | done]. }
    rewrite Has in *. rewrite length_insert in IH.
    specialize (IH ltac:(lia) Ht ltac:(lia)). cbn zeta in IH.
    destruct (read_freq_loop fuel lo hi rest _ (num + 1)) as [t' num'].
    destruct IH as (Hn & Hlen & Htake).
    replace (64 - Z.to_nat num)%nat with (S (64 - Z.to_nat (num + 1))) by lia.
    simpl. split_and!; [lia | done |]. rewrite Htake.
    replace (Z.to_nat (num + 1)) with (S (Z.to_nat num)) by lia.
    rewrite (take_S_r _ _ f) by (apply list_lookup_insert_eq; lia).
    rewrite take_insert_ge by lia. by rewrite <- app_assoc.
Qed.

(** More fuel than the length of the text changes nothing: the loop ends. *)
Lemma scan_all_fuel n1 n2 content :
  (String.length content < n1)%nat -> (String.length content < n2)%nat ->
  scan_all n1 content = scan_all n2 content.
Proof.
  revert n2 content. induction n1 as [|n1 IH]; intros n2 content H1 H2; [lia |].
  destruct n2 as [|n2]; [lia |]. simpl.
  destruct (scan_llu content) as [[f rest]|] eqn:Hs; [| done].
  apply scan_llu_consumes in Hs. f_equal. apply IH; lia.
Qed.

(** ** The table after initialisation *)

(** The frequencies the table should hold: those of the file inside the
    hardware bounds, at most 64 of them, or the two bounds when there are none. *)
Definition wanted_freqs (lo hi : Z) (file : option string) : list Z :=
  let l := match file with
           | Some c => take 64 (filter (in_bounds lo hi) (scan_all (S (String.length c)) c))
           | None => []
           end in
  match l with [] => [lo; hi] | _ => l end.

Lemma wanted_freqs_length lo hi file : (1 <= length (wanted_freqs lo hi file) <= 64)%nat.
Proof.
  unfold wanted_freqs. destruct file as [c|]; [| simpl; lia].
  pose proof (length_take_le (filter (in_bounds lo hi)
    (scan_all (S (String.length c)) c)) 64) as H.
  destruct (take 64 _) as [|x l] eqn:E; [simpl; lia |].
  assert (length (x :: l) <= 64)%nat; [| simpl in *; lia].
  rewrite <- E, length_take. lia.
Qed.

Lemma wanted_freqs_bounds lo hi file :
  lo <= hi -> Forall (in_bounds lo hi) (wanted_freqs lo hi file).
Proof.
  intros Hle. unfold wanted_freqs.
  assert (Forall (in_bounds lo hi) [lo; hi]) as Hdef
    by (repeat constructor; unfold in_bounds; lia).
  destruct file as [c|]; [| done].
  destruct (take 64 _) as [|x l] eqn:E; [done |]. rewrite <- E.
  apply Forall_take, Forall_forall. intros y [Hy _]%list_elem_of_filter. done.
Qed.

(** The fill of the array before the sort: a prefix holding exactly the wanted
    frequencies, and their number. *)
Lemma table_fill lo hi file t :
  length t = 64%nat ->
  let '(t1, num1) :=
    match file with
    | Some c => read_freq_loop (S (String.length c)) lo hi c t 0
    | None => (t, 0)
    end in
  let '(t2, num2) :=
    if num1 =? 0 then (aset (aset t1 0 lo) 1 hi, 2) else (t1, num1) in
  num2 = zlen (wanted_freqs lo hi file) /\ length t2 = 64%nat /\
  take (Z.to_nat num2) t2 = wanted_freqs lo hi file.
Proof.
  intros Ht.
  assert (forall t1 : list Z, length t1 = 64%nat ->
    length (aset (aset t1 0 lo) 1 hi) = 64%nat /\
    take 2 (aset (aset t1 0 lo) 1 hi) = [lo; hi]) as Hfb.
  { intros t1 H1. destruct t1 as [|a [|b t1]]; [done | done |].
    unfold aset. simpl in *. by rewrite take_0. }
  unfold wanted_freqs. destruct file as [c|].
  - pose proof (read_freq_loop_spec (S (String.length c)) lo hi c t 0
      ltac:(lia) Ht ltac:(lia)) as Hspec. cbn zeta in Hspec.
    change (64 - Z.to_nat 0)%nat with 64%nat in Hspec.
    destruct (read_freq_loop _ lo hi c t 0) as [t1 num1].
    destruct Hspec as (Hn & Hlen & Htake). rewrite take_0 in Htake. simpl in Htake.
    destruct (take 64 _) as [|x l] eqn:E.
    + simpl in Hn. destruct (Z.eqb_spec num1 0); [| lia].
      destruct (Hfb t1 Hlen). done.
    + destruct (Z.eqb_spec num1 0); [simpl in Hn; lia |].
      split_and!; [lia | done | done].
  - change (0 =? 0) with true. cbv iota. destruct (Hfb t Ht). done.
Qed.

Lemma read_available_frequencies_table E g :
  length (freq_table g) = 64%nat ->
  let file := read_file E (cpufreq_path (g_cpu g) "scaling_available_frequencies") in
  let w := wanted_freqs (system_min_cpufreq g) (system_max_cpufreq g) file in
  let g' := read_available_frequencies E g in
  freq_table_num g' = zlen w /\ length (freq_table g') = 64%nat /\
  take (length w) (freq_table g') = merge_sort Z.le w.
Proof.
  intros Ht. cbn zeta. unfold read_available_frequencies.
  set (file := read_file E _).
  pose proof (table_fill (system_min_cpufreq g) (system_max_cpufreq g) file _ Ht) as Hfill.
  set (w := wanted_freqs _ _ _) in *.
  pose proof (wanted_freqs_length (system_min_cpufreq g) (system_max_cpufreq g) file)
    as Hw. fold w in Hw.
  destruct (match file with Some _ => _ | None => _ end) as [t1 num1].
  destruct (if num1 =? 0 then _ else _) as [t2 num2].
  destruct Hfill as (-> & Hlen & Htake). upd_simpl. rewrite Nat2Z.id in *.
  rewrite sort_table_merge_sort by lia. rewrite Htake.
  assert (length (merge_sort Z.le w) = length w) as Hms
    by (by rewrite merge_sort_Permutation).
  split_and!; [done | rewrite length_app, length_drop; lia |].
  by rewrite take_app_length'.
Qed.

(** ** Properties *)

(** C30: after reading scaling_available_frequencies the table holds exactly
    the file's in-range frequencies (at most 64, or the two hardware bounds
    when none is usable), in ascending order, its size is between 1 and 64, and
    every entry lies within the hardware bounds. *)
Theorem read_available_frequencies_sorted (E : sysenv) (g : gov) :
  length (freq_table g) = 64%nat ->
  system_min_cpufreq g <= system_max_cpufreq g ->
  let g' := read_available_frequencies E g in
  let used := take (Z.to_nat (freq_table_num g')) (freq_table g') in
  used ≡ₚ wanted_freqs (system_min_cpufreq g) (system_max_cpufreq g)
    (read_file E (cpufreq_path (g_cpu g) "scaling_available_frequencies")) /\
  StronglySorted Z.le used /\
  1 <= freq_table_num g' <= 64 /\ zlen used = freq_table_num g' /\
  Forall (in_bounds (system_min_cpufreq g) (system_max_cpufreq g)) used.
Proof.
  intros Ht Hle. cbn zeta.
  destruct (read_available_frequencies_table E g Ht) as (Hn & Hlen & Htake).
  set (file := read_file E _) in *.
  pose proof (wanted_freqs_length (system_min_cpufreq g) (system_max_cpufreq g) file).
  pose proof (wanted_freqs_bounds _ _ file Hle) as Hb.
  rewrite Hn, Nat2Z.id, Htake. split_and!; try lia.
  - apply merge_sort_Permutation.
  - apply StronglySorted_merge_sort; apply _.
  - by rewrite merge_sort_Permutation.
  - by rewrite merge_sort_Permutation.
Qed.
