(* ===== verification/FreqGovSysfs.v ===== *)
(** * The governor and the cpufreq directory (freq_gov.c)

    What the sequence of sysfs writes amounts to: the skip of redundant
    writes loses nothing, the write order keeps scaling_min_freq at or below
    scaling_max_freq throughout, and the policy found at start is put back
    when the proxy ends in any way. *)

From stdpp Require Import base numbers list strings sorting relations.
From Stdlib Require Import ZArith Lia.
From S2P Require Import Prelude Cstr FreqGov FreqTable FreqGovFacts.

(** ** The last write to a file *)

Definition last_write_step (path : string) (acc : option string)
    (w : string * string) : option string :=
  if decide (w.1 = path) then Some w.2 else acc.

Definition last_write (log : list (string * string)) (path : string) : option string :=
  foldl (last_write_step path) None log.

#[global] Arguments last_write : simpl never.

Lemma last_write_foldl log path acc :
  foldl (last_write_step path) acc log =
  match last_write log path with Some v => Some v | None => acc end.
Proof.
  unfold last_write. revert acc. induction log as [|w log IH]; intros acc; [done |].
  simpl. rewrite IH, (IH (last_write_step path None w)).
  destruct (foldl (last_write_step path) None log); [done |].
  unfold last_write_step. by case_decide.
Qed.

Lemma last_write_app l1 l2 path :
  last_write (l1 ++ l2) path =
  match last_write l2 path with Some v => Some v | None => last_write l1 path end.
Proof. unfold last_write at 1. rewrite foldl_app. apply last_write_foldl. Qed.

Lemma cpufreq_path_inj cpu f1 f2 :
  cpufreq_path cpu f1 = cpufreq_path cpu f2 -> f1 = f2.
Proof.
  unfold cpufreq_path. intros H.
  do 3 (apply String.app_inj in H). done.
Qed.

Section Sysfs.
Context (E : sysenv).

Definition path_of (g : gov) (file : string) : string := cpufreq_path (g_cpu g) file.

#[local] Arguments restore_writes : simpl never.

Lemma restore_writes_app l1 l2 :
  restore_writes E (l1 ++ l2) = restore_writes E l1 ++ restore_writes E l2.
Proof. apply filter_app. Qed.

(** The four writes of [set_freq]. *)
Definition pin_ops (g : gov) (target : Z) : list (string * string) :=
  [(path_of g "scaling_min_freq", fmt_llu (system_min_cpufreq g));
   (path_of g "scaling_max_freq", fmt_llu target);
   (path_of g "scaling_min_freq", fmt_llu target);
   (path_of g "scaling_setspeed", fmt_llu target)].

#[local] Arguments pin_ops : simpl never.

(** Appending to the log. *)
Definition log_app (g : gov) (l : list (string * string)) : gov :=
  g <| sysfs_log := sysfs_log g ++ l |>.

Lemma log_app_app g l1 l2 : log_app (log_app g l1) l2 = log_app g (l1 ++ l2).
Proof. destruct g. unfold log_app. upd_simpl. by rewrite app_assoc. Qed.

Lemma sysfs_put_log g p t : sysfs_put E g p t = log_app g (restore_writes E [(p, t)]).
Proof.
  unfold sysfs_put, restore_writes, log_app. destruct (can_open_w E p) eqn:Hp.
  - by rewrite filter_cons_True, filter_nil by done.
  - rewrite filter_cons_False, filter_nil, app_nil_r by (simpl; congruence).
    by destruct g.
Qed.

Lemma set_freq_eq g target :
  set_freq E g target =
  if target =? last_set_freq g then g
  else (log_app g (restore_writes E (pin_ops g target))) <| last_set_freq := target |>.
Proof.
  unfold set_freq. case_if; [done |]. cbn zeta. unfold write_sysfs.
  rewrite !sysfs_put_log, !log_app_app, <- !restore_writes_app. done.
Qed.

(** ** The cache of the last frequency set *)

Definition pinned_files : list string :=
  ["scaling_min_freq"; "scaling_max_freq"; "scaling_setspeed"]%string.

(** Every file of the pin that opens for writing was last given [f]. *)
Definition pinned_at (g : gov) (f : Z) : Prop :=
  forall file, file ∈ pinned_files -> can_open_w E (path_of g file) = true ->
    last_write (sysfs_log g) (path_of g file) = Some (fmt_llu f).

Definition cache_coherent (g : gov) : Prop :=
  last_set_freq g <> 0 -> pinned_at g (last_set_freq g).

Lemma last_write_skip w l path :
  w.1 <> path -> last_write (w :: l) path = last_write l path.
Proof.
  intros Hne. unfold last_write. simpl. unfold last_write_step at 2.
  by rewrite decide_False by done.
Qed.

Lemma last_write_hit w l path :
  w.1 = path ->
  last_write (w :: l) path =
  match last_write l path with Some v => Some v | None => Some w.2 end.
Proof.
  intros He. change (w :: l) with ([w] ++ l). rewrite last_write_app.
  unfold last_write at 2. simpl. unfold last_write_step. by rewrite decide_True by done.
Qed.

(** The last write of an openable path among filtered operations is the last
    one among all of them. *)
Lemma last_write_openable ops path :
  can_open_w E path = true ->
  last_write (restore_writes E ops) path = last_write ops path.
Proof.
  intros Ho. unfold restore_writes. induction ops as [|w ops IH]; [done |].
  destruct (decide (w.1 = path)) as [He | Hne].
  - rewrite filter_cons_True by (simpl; by rewrite He).
    rewrite !last_write_hit by done. by rewrite IH.
  - rewrite (last_write_skip w ops) by done. rewrite <- IH.
    rewrite filter_cons. case_decide; [| done]. by apply last_write_skip.
Qed.

Ltac path_ne := intros ?%cpufreq_path_inj; discriminate.

Lemma pin_ops_last g target file :
  file ∈ pinned_files -> last_write (pin_ops g target) (path_of g file) = Some (fmt_llu target).
Proof.
  unfold pinned_files, pin_ops, path_of. intros Hin.
  repeat (apply elem_of_cons in Hin as [-> | Hin]; [
    repeat first [ rewrite last_write_hit by done
                 | rewrite last_write_skip by (cbn [fst]; path_ne) ]; reflexivity |]).
  by apply not_elem_of_nil in Hin.
Qed.

Lemma set_freq_pinned g target :
  cache_coherent g -> target <> 0 -> pinned_at (set_freq E g target) target.
Proof.
  intros Hc Ht. rewrite set_freq_eq. destruct (Z.eqb_spec target (last_set_freq g)) as [He | _].
  - rewrite He. apply Hc. by rewrite <- He.
  - intros file Hf Ho. unfold path_of in *. upd_simpl. fold (path_of g file) in *.
    rewrite last_write_app, last_write_openable, (pin_ops_last g target file Hf) by done. done.
Qed.

Lemma set_freq_last g target : last_set_freq (set_freq E g target) = target.
Proof.
  rewrite set_freq_eq. destruct (Z.eqb_spec target (last_set_freq g)) as [He | _]; done.
Qed.

Lemma set_freq_coherent g target : cache_coherent g -> cache_coherent (set_freq E g target).
Proof.
  intros Hc Hne. rewrite set_freq_last in *. by apply set_freq_pinned.
Qed.

(** Fields the coherence does not look at. *)
Lemma coherent_frame g g' :
  g_cpu g' = g_cpu g -> last_set_freq g' = last_set_freq g ->
  sysfs_log g' = sysfs_log g -> cache_coherent g -> cache_coherent g'.
Proof.
  unfold cache_coherent, pinned_at, path_of. intros -> -> ->. done.
Qed.

Lemma set_mst_coherent g m s : cache_coherent g -> cache_coherent (set_mst g m s).
Proof. apply coherent_frame; by destruct m. Qed.

Lemma on_result_frame g m b :
  g_cpu (freq_gov_on_result g m b) = g_cpu g /\
  last_set_freq (freq_gov_on_result g m b) = last_set_freq g /\
  sysfs_log (freq_gov_on_result g m b) = sysfs_log g.
Proof.
  unfold freq_gov_on_result. case_if; [done |]. cbn zeta. case_if; by destruct m.
Qed.

Lemma gov_step_coherent g g' : gov_step E g g' -> cache_coherent g -> cache_coherent g'.
Proof.
  destruct 1; intros Hc; unfold freq_gov_apply, freq_gov_restore_max, freq_gov_copy_start;
    repeat case_if; auto using set_freq_coherent, set_mst_coherent.
  destruct (on_result_frame g m overflowed) as (? & ? & ?). by apply (coherent_frame g).
Qed.

Lemma gov_reachable_coherent cpu addr_only g :
  getenv_is E "AFLCS_FREQ_GOV" "0" = false ->
  gov_reachable E cpu addr_only g -> cache_coherent g.
Proof.
  intros Hen Hr. unfold gov_reachable in Hr.
  assert (cache_coherent (freq_gov_init E gov_static cpu addr_only)) as H0.
  { destruct (freq_gov_init_shape E cpu addr_only Hen) as (_ & _ & _ & H0 & _).
    intros Hne. by rewrite H0 in Hne. }
  induction Hr; eauto using gov_step_coherent.
Qed.

(** ** The order of the writes *)

(** The pair of policy limits, as successive writes change it. *)
Definition limits_step (cpu : Z) (p : Z * Z) (w : string * string) : Z * Z :=
  match scan_llu w.2 with
  | None => p
  | Some (v, _) =>
      if decide (w.1 = cpufreq_path cpu "scaling_min_freq") then (v, p.2)
      else if decide (w.1 = cpufreq_path cpu "scaling_max_freq") then (p.1, v)
      else p
  end.

Definition limits (cpu : Z) (p : Z * Z) (log : list (string * string)) : Z * Z :=
  foldl (limits_step cpu) p log.

#[global] Arguments limits : simpl never.

(** The minimum is at most the maximum after every write of the log. *)
Fixpoint limits_ordered (cpu : Z) (p : Z * Z) (log : list (string * string)) : Prop :=
  p.1 <= p.2 /\
  match log with [] => True | w :: log' => limits_ordered cpu (limits_step cpu p w) log' end.

Lemma limits_ordered_app cpu p l1 l2 :
  limits_ordered cpu p (l1 ++ l2) <->
  limits_ordered cpu p l1 /\ limits_ordered cpu (limits cpu p l1) l2.
Proof.
  revert p. induction l1 as [|w l1 IH]; intros p.
  - simpl. destruct l2; simpl; tauto.
  - simpl. rewrite IH. unfold limits. simpl. tauto.
Qed.

Definition word64 (z : Z) : Prop := 0 <= z <= ULLONG_MAX.

Lemma scan_fmt v : word64 v -> scan_llu (fmt_llu v) = Some (v, EmptyString).
Proof.
  intros Hv. rewrite <- (scan_fmt_llu v EmptyString) by done.
  by rewrite string_app_nil_r.
Qed.

Lemma limits_step_min cpu p v :
  word64 v ->
  limits_step cpu p (cpufreq_path cpu "scaling_min_freq", fmt_llu v) = (v, p.2).
Proof. intros Hv. unfold limits_step. cbn [fst snd]. rewrite scan_fmt by done. by rewrite decide_True. Qed.

Lemma limits_step_max cpu p v :
  word64 v ->
  limits_step cpu p (cpufreq_path cpu "scaling_max_freq", fmt_llu v) = (p.1, v).
Proof.
  intros Hv. unfold limits_step. cbn [fst snd]. rewrite scan_fmt by done.
  rewrite decide_False by path_ne. by rewrite decide_True.
Qed.

Lemma limits_step_other cpu p file text :
  file <> "scaling_min_freq"%string -> file <> "scaling_max_freq"%string ->
  limits_step cpu p (cpufreq_path cpu file, text) = p.
Proof.
  intros H1 H2. unfold limits_step. cbn [fst snd]. destruct (scan_llu text) as [[v r]|]; [| done].
  rewrite !decide_False by (by intros ?%cpufreq_path_inj). done.
Qed.

(** The invariant on the limits: ordered, and the maximum not below the
    hardware minimum, so that the next pin may start by lowering the minimum. *)
Definition limits_good (g : gov) (p : Z * Z) : Prop :=
  limits_ordered (g_cpu g) p (sysfs_log g) /\
  system_min_cpufreq g <= (limits (g_cpu g) p (sysfs_log g)).2.

Lemma pin_limits g p target :
  (forall path, can_open_w E path = true) ->
  word64 (system_min_cpufreq g) -> word64 target -> system_min_cpufreq g <= target ->
  p.1 <= p.2 -> system_min_cpufreq g <= p.2 ->
  limits_ordered (g_cpu g) p (restore_writes E (pin_ops g target)) /\
  limits (g_cpu g) p (restore_writes E (pin_ops g target)) = (target, target).
Proof.
  intros Ho Hmin Ht Hle Hp Hp2.
  assert (restore_writes E (pin_ops g target) = pin_ops g target) as ->.
  { unfold restore_writes, pin_ops.
    rewrite !filter_cons_True by (simpl; apply Ho). by rewrite filter_nil. }
  unfold pin_ops, path_of. unfold limits. cbn [foldl limits_ordered].
  rewrite !limits_step_min, !limits_step_max, !limits_step_other by done.
  cbn [fst snd]. split_and!; [lia | lia | lia | lia | lia | done | done].
Qed.

Lemma limits_ordered_last cpu p log :
  limits_ordered cpu p log -> (limits cpu p log).1 <= (limits cpu p log).2.
Proof.
  revert p. induction log as [|w log IH]; intros p; simpl; [tauto |].
  intros [_ H]. by apply IH.
Qed.

Lemma set_freq_limits g p target :
  (forall path, can_open_w E path = true) ->
  word64 (system_min_cpufreq g) -> word64 target -> system_min_cpufreq g <= target ->
  limits_good g p -> limits_good (set_freq E g target) p.
Proof.
  intros Ho Hmin Ht Hle [H1 H2]. rewrite set_freq_eq. case_if; [done |].
  destruct (pin_limits g (limits (g_cpu g) p (sysfs_log g)) target) as [Ha Hb]; auto.
  { by apply limits_ordered_last. }
  split; upd_simpl.
  - apply limits_ordered_app. split; [done |]. exact Ha.
  - unfold limits in *. rewrite foldl_app, Hb. done.
Qed.

(** ** The table lies within the hardware bounds *)

Definition table_bounded (g : gov) : Prop :=
  Forall (in_bounds (system_min_cpufreq g) (system_max_cpufreq g))
    (take (Z.to_nat (freq_table_num g)) (freq_table g)).

(** An attribute of the policy, as the governor reads it. *)
Definition read_attr (cpu : Z) (file : string) : Z :=
  match read_file E (cpufreq_path cpu file) with
  | None => 0
  | Some content => match scan_llu content with Some (v, _) => v | None => 0 end
  end.

Lemma read_sysfs_attr g file : read_sysfs E g file = read_attr (g_cpu g) file.
Proof. done. Qed.

Lemma read_attr_word64 cpu file : word64 (read_attr cpu file).
Proof.
  unfold read_attr, word64. destruct (read_file _ _) as [c|]; [| by vm_compute].
  destruct (scan_llu c) as [[v r]|] eqn:Hs; [| by vm_compute].
  by eapply scan_llu_range.
Qed.

Lemma init_table_bounds cpu addr_only :
  let g := init_table E cpu addr_only in
  g_cpu g = cpu /\
  system_min_cpufreq g = read_attr cpu "cpuinfo_min_freq" /\
  system_max_cpufreq g = read_attr cpu "cpuinfo_max_freq" /\
  (system_min_cpufreq g <= system_max_cpufreq g -> table_bounded g).
Proof.
  unfold init_table. cbn zeta. set (g := _ <| system_min_cpufreq := _ |>).
  pose proof (read_available_frequencies_flags E g) as Hf. cbn zeta in Hf.
  injection Hf as Hcpu Hmin Hmax _ _. rewrite Hcpu, Hmin, Hmax.
  split_and!; [done | done | done |]. intros Hle. unfold table_bounded. rewrite Hmin, Hmax.
  destruct (read_available_frequencies_table E g) as (Hn & _ & Htake); [done |].
  rewrite Hn, Nat2Z.id, Htake, merge_sort_Permutation. by apply wanted_freqs_bounds.
Qed.

(** What the reachable states keep of it. *)
Lemma reachable_bounds cpu addr_only g :
  getenv_is E "AFLCS_FREQ_GOV" "0" = false ->
  gov_reachable E cpu addr_only g ->
  g_cpu g = cpu /\
  system_min_cpufreq g = read_attr cpu "cpuinfo_min_freq" /\
  system_max_cpufreq g = read_attr cpu "cpuinfo_max_freq" /\
  (system_min_cpufreq g <= system_max_cpufreq g -> table_bounded g).
Proof.
  intros Hen Hr. apply gov_steps_config in Hr.
  destruct (freq_gov_init_shape E cpu addr_only Hen) as (Ht & _).
  destruct (init_table_bounds cpu addr_only) as (H1 & H2 & H3 & H4).
  unfold gov_config in Hr. unfold gov_table in Ht.
  injection Hr as Ha Hb Hc Hd He _ _ _ _ _ _.
  injection Ht as Ha' Hb' Hc' Hd' He' _ _.
  unfold table_bounded in *. rewrite Ha, Hb, Hc, Hd, He, Ha', Hb', Hc', Hd', He'. done.
Qed.

Lemma table_target g i :
  gov_wf g -> table_bounded g -> 0 <= i < freq_table_num g ->
  in_bounds (system_min_cpufreq g) (system_max_cpufreq g) (aget (freq_table g) i).
Proof.
  intros [] Hb Hi. rewrite <- (aget_take _ _ (Z.to_nat (freq_table_num g))) by lia.
  unfold FREQ_TABLE_CAP in *.
  apply aget_Forall; [done |]. rewrite length_take. lia.
Qed.

(** ** What initialisation stages *)

Definition opt_op (b : bool) (cpu : Z) (file val : string) : list (string * string) :=
  if b then [(cpufreq_path cpu file, str_take 31 val)] else [].

(** The saved governor, as [fscanf("%31s")] reads it. *)
Definition saved_gov (cpu : Z) : string :=
  match read_file E (cpufreq_path cpu "scaling_governor") with
  | Some content => default EmptyString (scan_word 31 content)
  | None => EmptyString
  end.

(** The operations [freq_gov_init] stages, in order. *)
Definition restore_plan (cpu : Z) : list (string * string) :=
  let smin := read_attr cpu "cpuinfo_min_freq" in
  let max := read_attr cpu "scaling_max_freq" in
  let min := read_attr cpu "scaling_min_freq" in
  let gov := saved_gov cpu in
  let speed := if bool_decide (gov = "userspace"%string)
               then read_attr cpu "scaling_setspeed" else 0 in
  opt_op (c_true smin) cpu "scaling_min_freq" (fmt_llu smin) ++
  opt_op (c_true max) cpu "scaling_max_freq" (fmt_llu max) ++
  opt_op (c_true min) cpu "scaling_min_freq" (fmt_llu min) ++
  opt_op (negb (bool_decide (gov = ""%string))) cpu "scaling_governor" gov ++
  opt_op (c_true speed) cpu "scaling_setspeed" (fmt_llu speed).

Lemma opt_op_length b cpu f v : (length (opt_op b cpu f v) <= 1)%nat.
Proof. by destruct b; simpl; lia. Qed.

(** The capacity of restore_ops is never reached, so nothing is dropped. *)
Definition with_ops (g : gov) (o : list (string * string)) : gov := g <| restore_ops := o |>.

Lemma stage_one (b : bool) g o f v :
  (length o <= 4)%nat ->
  (if b then add_restore_op (with_ops g o) f v else with_ops g o) =
  with_ops g (o ++ opt_op b (g_cpu g) f v).
Proof.
  intros Hlen. unfold opt_op. destruct b; [| by rewrite app_nil_r].
  unfold add_restore_op, RESTORE_OPS_CAP. rewrite Z.geb_leb.
  destruct (Z.leb_spec 5 (zlen (restore_ops (with_ops g o)))) as [H5 | _]; [| done].
  unfold with_ops in H5. upd_simpl. lia.
Qed.

Lemma stage_one_neg (b : bool) g o f v :
  (length o <= 4)%nat ->
  (if b then with_ops g o else add_restore_op (with_ops g o) f v) =
  with_ops g (o ++ opt_op (negb b) (g_cpu g) f v).
Proof. intros H. rewrite <- stage_one by done. by destruct b. Qed.

Ltac ops_length :=
  rewrite ?length_app;
  repeat match goal with
  | |- context [length (opt_op ?b ?c ?f ?v)] =>
      pose proof (opt_op_length b c f v); generalize dependent (length (opt_op b c f v)); intros
  end; simpl; lia.

Lemma stage_restore_plan g :
  restore_ops g = [] -> system_min_cpufreq g = read_attr (g_cpu g) "cpuinfo_min_freq" ->
  saved_governor g = saved_gov (g_cpu g) ->
  stage_restore E g = with_ops g (restore_plan (g_cpu g)).
Proof.
  intros Hops Hmin Hgov. transitivity (stage_restore E (with_ops g [])).
  { f_equal. destruct g. unfold with_ops. upd_simpl. by subst. }
  unfold stage_restore. cbn zeta. rewrite stage_one by ops_length.
  rewrite stage_one by ops_length. rewrite stage_one by ops_length.
  rewrite stage_one_neg by ops_length. rewrite stage_one by ops_length.
  f_equal. unfold restore_plan. cbn zeta. rewrite <- Hmin, <- Hgov, <- !app_assoc. done.
Qed.

(** The staging part of the state. *)
Definition gov_staged (g : gov) :=
  (restore_ops g, guard_ops g, exit_hooks g, sysfs_log g, saved_governor g).

Lemma read_available_frequencies_staged g :
  gov_staged (read_available_frequencies E g) = gov_staged g.
Proof.
  unfold read_available_frequencies.
  destruct (match read_file E _ with Some _ => _ | None => _ end) as [t1 n1].
  by destruct (if n1 =? 0 then _ else _) as [t2 n2].
Qed.

Lemma hook_signal_staged g sig : gov_staged (freq_gov_hook_signal E g sig) = gov_staged g.
Proof. unfold freq_gov_hook_signal. by case_if. Qed.

Lemma freq_gov_init_staged cpu addr_only :
  getenv_is E "AFLCS_FREQ_GOV" "0" = false ->
  let g := freq_gov_init E gov_static cpu addr_only in
  restore_ops g = restore_plan cpu /\
  guard_ops g = (if guard_spawns E then Some (restore_plan cpu) else None) /\
  exit_hooks g = [ExitReport; ExitRestore] /\
  sysfs_log g = restore_writes E [(cpufreq_path cpu "scaling_governor", "userspace"%string)].
Proof.
  intros Hen. unfold freq_gov_init. rewrite Hen. cbn zeta.
  match goal with |- context [read_available_frequencies E ?x] =>
    change (read_available_frequencies E x) with (init_table E cpu addr_only) end.
  set (g0 := init_table E cpu addr_only).
  assert (gov_staged g0 = gov_staged gov_static) as H0.
  { unfold g0, init_table. cbn zeta. by rewrite read_available_frequencies_staged. }
  destruct (init_table_bounds cpu addr_only) as (Hcpu & Hmin & _).
  fold g0 in Hcpu, Hmin. clearbody g0.
  injection H0 as Hr0 Hg0 Hx0 Hl0 Hs0.
  set (g1 := match read_file E _ with Some _ => _ | None => _ end).
  assert (gov_staged g1 = ([], None, [], [], saved_gov cpu) /\
          gov_table g1 = gov_table g0) as [Hg1 Ht1].
  { unfold g1, saved_gov, gov_staged, gov_table. destruct g0. upd_simpl. subst.
    by destruct (read_file E _). }
  clearbody g1. injection Hg1 as Hr1 Hg1 Hx1 Hl1 Hs1.
  injection Ht1 as Hc1 Hm1 _ _ _ _ _. rewrite Hcpu in Hc1.
  rewrite stage_restore_plan by (rewrite ?Hc1, ?Hm1; done). rewrite Hc1.
  set (g2 := freq_gov_spawn_guard E _).
  assert (restore_ops g2 = restore_plan cpu /\ sysfs_log g2 = [] /\ exit_hooks g2 = [] /\
    g_cpu g2 = cpu /\
    guard_ops g2 = (if guard_spawns E then Some (restore_plan cpu) else None)) as H2.
  { unfold g2, freq_gov_spawn_guard. destruct (guard_spawns E); unfold with_ops; upd_simpl;
      rewrite ?Hl1, ?Hx1, ?Hg1; done. }
  clearbody g2. destruct H2 as (Ha & Hb & Hc & Hd & He).
  unfold write_sysfs_str. rewrite sysfs_put_log. set (g3 := freq_gov_hook_signal E _ SIGHUP).
  assert (gov_staged g3 = (restore_ops g2, guard_ops g2, ExitReport :: ExitRestore :: exit_hooks g2,
    sysfs_log g2, saved_governor g2)) as H3 by (unfold g3; by rewrite !hook_signal_staged).
  assert (g_cpu g3 = cpu) as H3c.
  { assert (gov_table g3 = gov_table g2) as Ht by (unfold g3; by rewrite !hook_signal_table).
    by injection Ht as ->. }
  clearbody g3. injection H3 as H31 H32 H33 H34 _. unfold log_app. upd_simpl.
  rewrite H31, H32, H33, H34, H3c, Ha, Hb, Hc, He. done.
Qed.

(** ** The end of the proxy *)

Inductive death := DeathExit | DeathSignal (sig : Z) | DeathKill.

Definition run_exit_fn (g : gov) (f : exit_fn) : gov :=
  match f with ExitRestore => freq_gov_restore_system E g | ExitReport => g end.

(** The handler: restore the policy, then die of the signal. *)
Definition freq_gov_signal_restore (g : gov) : gov := freq_gov_restore_system E g.

(** The proxy's own last actions: [exit] runs the atexit functions, newest
    first; a hooked signal runs the handler; SIGKILL runs nothing. *)
Definition proxy_dies (g : gov) (d : death) : gov :=
  match d with
  | DeathExit => foldl run_exit_fn g (exit_hooks g)
  | DeathSignal sig =>
      if bool_decide (sig ∈ signal_hooks g) then freq_gov_signal_restore g else g
  | DeathKill => g
  end.

(** All the sysfs writes once the proxy is dead and its guard, which sees the
    pipe close, has run; [reads] is what the guard's reads returned. *)
Definition writes_after_death (g : gov) (d : death) (reads : list pipe_read)
  : list (string * string) :=
  sysfs_log (proxy_dies g d) ++
  match guard_ops g with
  | Some ops => if guard_wait reads then restore_writes E ops else []
  | None => []
  end.

(** Something restores the policy: the guard, an orderly exit, or a hook. *)
Definition restored_by (g : gov) (d : death) : Prop :=
  is_Some (guard_ops g) \/ d = DeathExit \/
  exists sig, d = DeathSignal sig /\ sig ∈ signal_hooks g.

Lemma guard_wait_eof n : guard_wait (replicate n PipeEintr ++ [PipeEof]) = true.
Proof. by induction n. Qed.

Lemma writes_after_death_end cpu addr_only g d n :
  getenv_is E "AFLCS_FREQ_GOV" "0" = false ->
  gov_reachable E cpu addr_only g -> restored_by g d ->
  exists log, writes_after_death g d (replicate n PipeEintr ++ [PipeEof])
    = log ++ restore_writes E (restore_plan cpu).
Proof.
  intros Hen Hr Hby. apply gov_steps_config in Hr.
  destruct (freq_gov_init_staged cpu addr_only Hen) as (Hops & Hgd & Hex & _).
  unfold gov_config in Hr. injection Hr as _ _ _ _ _ _ _ Hro Hgo Hxo _.
  rewrite Hops in Hro. rewrite Hgd in Hgo. rewrite Hex in Hxo.
  unfold writes_after_death. rewrite Hgo. destruct (guard_spawns E).
  { exists (sysfs_log (proxy_dies g d)). by rewrite guard_wait_eof. }
  rewrite app_nil_r. exists (sysfs_log g).
  destruct Hby as [Hby | [-> | (sig & -> & Hsig)]].
  - rewrite Hgo in Hby. by destruct Hby.
  - unfold proxy_dies. rewrite Hxo. simpl. by rewrite <- Hro.
  - unfold proxy_dies. rewrite bool_decide_true by done. simpl. by rewrite <- Hro.
Qed.

(** ** What the restore plan leaves in each file *)

Lemma last_write_opt_same b cpu f v :
  last_write (opt_op b cpu f v) (cpufreq_path cpu f) =
  if b then Some (str_take 31 v) else None.
Proof. destruct b; [| done]. unfold opt_op. by rewrite last_write_hit. Qed.

Lemma last_write_opt_other b cpu f f' v :
  f <> f' -> last_write (opt_op b cpu f v) (cpufreq_path cpu f') = None.
Proof.
  intros Hne. destruct b; [| done]. unfold opt_op.
  by rewrite last_write_skip by (intros ?%cpufreq_path_inj; done).
Qed.

Lemma str_take_le n s : (String.length s <= n)%nat -> str_take n s = s.
Proof.
  revert n. induction s as [|c s IH]; intros [|n] H; simpl in *; try done; try lia.
  rewrite IH by lia. done.
Qed.

Lemma str_take_fmt v : word64 v -> str_take 31 (fmt_llu v) = fmt_llu v.
Proof. intros H. apply str_take_le. pose proof (fmt_llu_length v H). lia. Qed.

Lemma scan_word_go_length n s : (String.length (scan_word_go n s) <= n)%nat.
Proof.
  revert s. induction n as [|n IH]; intros [|c s]; simpl; try lia.
  destruct (is_space c); simpl; [lia |]. specialize (IH s). lia.
Qed.

Lemma saved_gov_length cpu : (String.length (saved_gov cpu) <= 31)%nat.
Proof.
  unfold saved_gov, scan_word. destruct (read_file _ _) as [c|]; [| simpl; lia].
  pose proof (scan_word_go_length 31 (skip_ws c)).
  destruct (scan_word_go 31 (skip_ws c)); simpl in *; lia.
Qed.

Lemma c_true_spec z : c_true z = true <-> z <> 0.
Proof. unfold c_true. rewrite negb_true_iff, Z.eqb_neq. done. Qed.

Lemma restore_plan_last cpu :
  (read_attr cpu "scaling_min_freq" <> 0 ->
   last_write (restore_plan cpu) (cpufreq_path cpu "scaling_min_freq")
     = Some (fmt_llu (read_attr cpu "scaling_min_freq"))) /\
  (read_attr cpu "scaling_max_freq" <> 0 ->
   last_write (restore_plan cpu) (cpufreq_path cpu "scaling_max_freq")
     = Some (fmt_llu (read_attr cpu "scaling_max_freq"))) /\
  (saved_gov cpu <> EmptyString ->
   last_write (restore_plan cpu) (cpufreq_path cpu "scaling_governor") = Some (saved_gov cpu)).
Proof.
  unfold restore_plan. cbn zeta. rewrite !last_write_app.
  repeat first [ rewrite last_write_opt_same | rewrite last_write_opt_other by discriminate ].
  rewrite !str_take_fmt by apply read_attr_word64.
  rewrite (str_take_le 31 (saved_gov cpu)) by apply saved_gov_length.
  split_and!.
  - intros H%c_true_spec. by rewrite H.
  - intros H%c_true_spec. by rewrite H.
  - intros H. by rewrite bool_decide_false.
Qed.

(** ** The limits along every run *)

(** The policy the kernel reports at start is ordered and reaches the
    hardware minimum, and every file opens for writing. *)
Record sane_policy (cpu : Z) : Prop := {
  sane_open : forall path, can_open_w E path = true;
  sane_hw : 0 < read_attr cpu "cpuinfo_min_freq" <= read_attr cpu "cpuinfo_max_freq";
  sane_policy_order : read_attr cpu "scaling_min_freq" <= read_attr cpu "scaling_max_freq";
  sane_policy_hw : read_attr cpu "cpuinfo_min_freq" <= read_attr cpu "scaling_max_freq"
}.

Definition start_limits (cpu : Z) : Z * Z :=
  (read_attr cpu "scaling_min_freq", read_attr cpu "scaling_max_freq").

Lemma all_open_writes l :
  (forall path, can_open_w E path = true) -> restore_writes E l = l.
Proof.
  intros Ho. unfold restore_writes. induction l as [|w l IH]; [done |].
  rewrite filter_cons_True by apply Ho. by rewrite IH.
Qed.

Lemma gov_step_limits g g' p :
  gov_step E g g' -> gov_wf g -> table_bounded g ->
  (forall path, can_open_w E path = true) ->
  word64 (system_min_cpufreq g) -> word64 (system_max_cpufreq g) ->
  system_min_cpufreq g <= system_max_cpufreq g ->
  limits_good g p -> limits_good g' p.
Proof.
  intros Hs Hwf Htb Ho Hwmin Hwmax Hle Hg.
  assert (forall i, 0 <= i < freq_table_num g ->
    word64 (aget (freq_table g) i) /\ system_min_cpufreq g <= aget (freq_table g) i) as Htab.
  { intros i Hi. destruct (table_target g i Hwf Htb Hi). unfold word64 in *. lia. }
  pose proof (wf_num _ Hwf) as Hnum.
  destruct Hs; unfold freq_gov_apply, freq_gov_restore_max, freq_gov_copy_start.
  - repeat case_if; try done.
    + destruct (Htab 0) as [??]; [lia |]. by apply (set_freq_limits _ p).
    + destruct (Htab (cur_idx (mst g m))) as [??]; [apply (mst_wf g m Hwf) |].
      by apply set_freq_limits.
  - case_if; [done |]. by apply set_freq_limits.
  - done.
  - destruct (on_result_frame g m overflowed) as (Hc & _ & Hl). unfold limits_good.
    assert (system_min_cpufreq (freq_gov_on_result g m overflowed) = system_min_cpufreq g) as ->.
    { pose proof (on_result_config g m overflowed) as H. by injection H. }
    by rewrite Hc, Hl.
  - by destruct dst.
  - destruct (Htab i) as [??]; [done |]. by apply set_freq_limits.
  - by destruct m.
Qed.

Lemma reachable_limits cpu addr_only g :
  getenv_is E "AFLCS_FREQ_GOV" "0" = false -> sane_policy cpu ->
  gov_reachable E cpu addr_only g -> limits_good g (start_limits cpu).
Proof.
  intros Hen [Ho Hhw Hord Hphw] Hr.
  assert (limits_good (freq_gov_init E gov_static cpu addr_only) (start_limits cpu)) as H0.
  { destruct (freq_gov_init_staged cpu addr_only Hen) as (_ & _ & _ & Hl).
    destruct (reachable_bounds cpu addr_only _ Hen (rtc_refl _ _)) as (Hc & Hm & _).
    unfold limits_good. rewrite Hl, Hc, Hm, all_open_writes by done.
    unfold limits. cbn [foldl limits_ordered]. rewrite !limits_step_other by done.
    unfold start_limits. cbn [fst snd]. lia. }
  revert g Hr. apply rtc_ind_r; [done |]. intros g g' Hr Hs IH.
  destruct (reachable_bounds cpu addr_only g Hen Hr) as (Hc & Hmin & Hmax & Htb).
  pose proof (read_attr_word64 cpu "cpuinfo_min_freq") as W1.
  pose proof (read_attr_word64 cpu "cpuinfo_max_freq") as W2.
  rewrite <- Hmin in W1. rewrite <- Hmax in W2.
  assert (system_min_cpufreq g <= system_max_cpufreq g) by lia.
  eapply gov_step_limits; eauto using gov_reachable_wf.
Qed.

Lemma restore_plan_limits cpu p :
  sane_policy cpu -> p.1 <= p.2 -> read_attr cpu "cpuinfo_min_freq" <= p.2 ->
  limits_ordered cpu p (restore_plan cpu).
Proof.
  intros [Ho Hhw Hord Hphw] Hp Hp2. unfold restore_plan. cbn zeta.
  pose proof (read_attr_word64 cpu) as Hw.
  unfold c_true. destruct (Z.eqb_spec (read_attr cpu "cpuinfo_min_freq") 0); [lia |].
  destruct (Z.eqb_spec (read_attr cpu "scaling_max_freq") 0); [lia |].
  cbn [negb opt_op]. rewrite !str_take_fmt by apply Hw. cbn [app].
  cbn [limits_ordered]. rewrite limits_step_min, limits_step_max by apply Hw.
  cbn [fst snd]. split; [done |]. split; [lia |]. apply limits_ordered_app.
  assert (forall b1 b2 v1 v2 q, q.1 <= q.2 ->
    limits_ordered cpu q (opt_op b1 cpu "scaling_governor" v1 ++
      opt_op b2 cpu "scaling_setspeed" v2)) as Hrest.
  { intros b1 b2 v1 v2 q Hq. destruct b1, b2; cbn [opt_op app limits_ordered];
      rewrite ?limits_step_other by done; rewrite ?limits_step_other by done; done. }
  destruct (Z.eqb_spec (read_attr cpu "scaling_min_freq") 0); cbn [negb opt_op].
  - split; [done |]. apply Hrest. done.
  - rewrite !str_take_fmt by apply Hw. unfold limits. cbn [foldl limits_ordered].
    rewrite !limits_step_min by apply Hw. cbn [fst snd]. split; [lia |]. by apply Hrest.
Qed.

End Sysfs.

(** ** Properties *)


(** C17: the order of the governor's writes keeps scaling_min_freq at or below
    scaling_max_freq after every single write, in every run of the program
    and through the restore of the original policy that ends it. *)
Theorem sysfs_write_order_safe (E : sysenv) (cpu : Z) (addr_only : bool) (g : gov) :
  getenv_is E "AFLCS_FREQ_GOV" "0" = false -> sane_policy E cpu ->
  gov_reachable E cpu addr_only g ->
  limits_ordered cpu (start_limits E cpu)
    (sysfs_log (freq_gov_restore_system E g)).
Proof.
  intros Hen Hsane Hr. destruct (reachable_limits E cpu addr_only g Hen Hsane Hr) as [H1 H2].
  destruct (reachable_bounds E cpu addr_only g Hen Hr) as (Hc & Hmin & _).
  assert (restore_ops g = restore_plan E cpu) as Hops.
  { destruct (freq_gov_init_staged E cpu addr_only Hen) as (Hops & _).
    apply gov_steps_config in Hr. unfold gov_config in Hr.
    injection Hr as _ _ _ _ _ _ _ Hro _ _ _. by rewrite Hro. }
  cbn. rewrite Hops, (all_open_writes E) by apply Hsane. rewrite Hc in *.
  apply limits_ordered_app. split; [done |]. apply restore_plan_limits; [done | |].
  - by apply limits_ordered_last.
  - by rewrite <- Hmin.
Qed.

