(* ===== verification/FreqGovSearch.v ===== *)
(** * The governor's search: calibration and statistics (freq_gov.c)

    The calibration ramp settles on the highest rung that runs clean, and the
    long-run statistics (stable windows, sum of their positions) stay
    consistent and free of overflow for three billion steps, so the reported
    settled frequency is a table entry, the nearest one to the mean. *)

From stdpp Require Import base numbers list strings sorting relations.
From Stdlib Require Import ZArith Lia.
From S2P Require Import Prelude Cstr FreqGov FreqTable FreqGovFacts FreqGovSysfs.

(** ** Calibration *)

Section Calibration.
Context (E : sysenv) {W : Type} `{HasGov W} (run_one_shot : W -> bool * W).

(** The callback only reaches the governor through its sysfs operations (it
    calls [freq_gov_restore_max]): table, positions and counters are kept. *)
Hypothesis run_keeps_search :
  forall w, gov_search (get_gov (run_one_shot w).2) = gov_search (get_gov w).

(** Table, its size and the position of [m] in a client state. *)
Definition table_of (w : W) : list Z := freq_table (get_gov w).
Definition pos_of (m : freq_mode_t) (w : W) : Z := cur_idx (mst (get_gov w) m).

Definition rung (i : Z) (w : W) : bool * W :=
  run_one_shot (put_gov (set_freq E (get_gov w) (aget (table_of w) i)) w).

Lemma rung_search i w : gov_search (get_gov (rung i w).2) = gov_search (get_gov w).
Proof.
  unfold rung. rewrite run_keeps_search, get_put_gov. apply set_freq_search.
Qed.

Lemma search_mst g g' m : gov_search g = gov_search g' -> mst g m = mst g' m.
Proof. unfold gov_search. intros [= _ _ _ _ _ _ _ _ _ _ _ Ha Hd _ _ _]. by destruct m. Qed.

Lemma search_table g g' : gov_search g = gov_search g' -> freq_table g = freq_table g'.
Proof. unfold gov_search, gov_config. by intros [= _ _ _ Ht _ _ _ _ _ _ _ _ _ _ _ _]. Qed.

Lemma set_cur_idx_pos m i w : pos_of m (set_cur_idx m i w) = i.
Proof. unfold pos_of, set_cur_idx. rewrite get_put_gov. by destruct m. Qed.

Lemma set_cur_idx_table m i w : table_of (set_cur_idx m i w) = table_of w.
Proof. unfold table_of, set_cur_idx. rewrite get_put_gov. by destruct m. Qed.

(** One rung: the position and the table survive the run. *)
Lemma rung_keeps m i w :
  pos_of m (rung i w).2 = pos_of m w /\ table_of (rung i w).2 = table_of w.
Proof.
  pose proof (rung_search i w) as Hs. unfold pos_of, table_of.
  rewrite (search_mst _ _ m Hs), (search_table _ _ Hs). done.
Qed.

Lemma calibrate_loop_step m n i w :
  calibrate_loop E run_one_shot m (S n) i w =
  let '(overflowed, w1) := rung i w in
  if overflowed then (1, w1)
  else let '(runs, w2) := calibrate_loop E run_one_shot m n (i + 1) (set_cur_idx m i w1) in
       (runs + 1, w2).
Proof. done. Qed.

(** Where the ramp started at rung [i] with [n] rungs left ends up: at the
    first overflow, one rung below it (at least the floor), or at the top. *)
Lemma calibrate_loop_position m n i w :
  0 <= i -> pos_of m w = Z.max 0 (i - 1) ->
  let '(runs, w') := calibrate_loop E run_one_shot m n i w in
  table_of w' = table_of w /\ 0 <= runs <= Z.of_nat n /\
  pos_of m w' = Z.max 0 (i + runs - 2) \/
  table_of w' = table_of w /\ runs = Z.of_nat n /\ pos_of m w' = Z.max 0 (i + runs - 1).
Proof.
  revert i w. induction n as [|n IH]; intros i w Hi Hpos.
  { right. simpl. rewrite Hpos. split_and!; [done | done | lia]. }
  rewrite calibrate_loop_step. destruct (rung_keeps m i w) as [Hp Ht].
  destruct (rung i w) as [ov w1]. cbn [snd] in Hp, Ht. destruct ov.
  { left. split_and!; [done | lia | lia |]. rewrite Hp, Hpos. lia. }
  specialize (IH (i + 1) (set_cur_idx m i w1) ltac:(lia)).
  rewrite set_cur_idx_pos, set_cur_idx_table, Ht in IH.
  destruct (calibrate_loop E run_one_shot m n (i + 1) _) as [runs w2].
  destruct IH as [(Ha & Hb & Hc) | (Ha & Hb & Hc)]; [lia | left | right];
    rewrite Ha, Hc; split_and!; try done; lia.
Qed.

(** The machine overflows exactly above a frequency [F]. *)
Definition overflows_above (F : Z) : Prop :=
  forall w, (run_one_shot w).1 = (last_set_freq (get_gov w) >? F).

Lemma rung_outcome F i w :
  overflows_above F -> (rung i w).1 = (aget (table_of w) i >? F).
Proof. intros HF. unfold rung. by rewrite HF, get_put_gov, set_freq_last. Qed.

Lemma calibrate_loop_threshold F m n i w :
  overflows_above F -> 0 <= i ->
  (forall j, 0 <= j < i -> aget (table_of w) j <= F) ->
  pos_of m w = Z.max 0 (i - 1) ->
  (forall j k, 0 <= j <= k -> k < i + Z.of_nat n -> aget (table_of w) j <= aget (table_of w) k) ->
  let '(_, w') := calibrate_loop E run_one_shot m n i w in
  let p := pos_of m w' in
  table_of w' = table_of w /\ 0 <= p /\ (p = 0 \/ p < i + Z.of_nat n) /\
  (p = 0 \/ aget (table_of w) p <= F) /\
  (forall j, p < j < i + Z.of_nat n -> F < aget (table_of w) j).
Proof.
  intros HF. revert i w. induction n as [|n IH]; intros i w Hi Hlow Hpos Hsort.
  { simpl. rewrite Hpos. split_and!; [done | lia | lia | | lia].
    destruct (decide (i <= 1)); [left; lia | right; apply Hlow; lia]. }
  rewrite calibrate_loop_step. pose proof (rung_outcome F i w HF) as Ho.
  destruct (rung_keeps m i w) as [Hp Ht].
  destruct (rung i w) as [ov w1]. cbn [fst snd] in Ho, Hp, Ht. subst ov.
  destruct (aget (table_of w) i >? F) eqn:Hgt; zbool.
  - cbn zeta. rewrite Hp, Hpos, Ht. split_and!; [done | lia | lia | |].
    + destruct (decide (i <= 1)); [left; lia | right; apply Hlow; lia].
    + intros j Hj. assert (aget (table_of w) i <= aget (table_of w) j) by (apply Hsort; lia). lia.
  - specialize (IH (i + 1) (set_cur_idx m i w1)).
    rewrite set_cur_idx_pos, set_cur_idx_table, Ht in IH.
    replace (i + 1 + Z.of_nat n) with (i + Z.of_nat (S n)) in IH by lia.
    destruct (calibrate_loop E run_one_shot m n (i + 1) _) as [runs w2].
    apply IH; [lia | | lia | done].
    intros j Hj. destruct (decide (j = i)) as [-> | Hne]; [done | apply Hlow; lia].
Qed.

End Calibration.

Lemma StronglySorted_aget (l : list Z) j k :
  StronglySorted Z.le l -> 0 <= j <= k -> k < zlen l -> aget l j <= aget l k.
Proof.
  intros Hs Hj Hk. rewrite !aget_lookup by lia.
  destruct (lookup_lt_is_Some_2 l (Z.to_nat k)) as [y Hy]; [lia |].
  destruct (lookup_lt_is_Some_2 l (Z.to_nat j)) as [x Hx]; [lia |].
  rewrite Hx, Hy. simpl. destruct (decide (j = k)) as [-> | Hne]; [simplify_eq; lia |].
  rewrite <- (take_drop (S (Z.to_nat j)) l) in Hs.
  eapply StronglySorted_app_1_elem_of; [apply Hs | |].
  - apply (list_elem_of_lookup_2 _ (Z.to_nat j)). rewrite lookup_take_lt by lia. done.
  - apply (list_elem_of_lookup_2 _ (Z.to_nat k - S (Z.to_nat j))). rewrite lookup_drop.
    by replace (S (Z.to_nat j) + (Z.to_nat k - S (Z.to_nat j)))%nat with (Z.to_nat k) by lia.
Qed.

Lemma gov_wf_ascending g j k :
  gov_wf g -> 0 <= j <= k -> k < freq_table_num g ->
  aget (freq_table g) j <= aget (freq_table g) k.
Proof.
  intros [Ht Hn Hs _ _ _ _] Hj Hk. unfold FREQ_TABLE_CAP in Hn.
  rewrite <- !(aget_take (freq_table g) _ (Z.to_nat (freq_table_num g))) by lia.
  apply StronglySorted_aget; [done | lia |]. rewrite length_take. lia.
Qed.

(** ** Statistics *)

(** [n] results counted so far in a mode with [num] table entries. *)
Record stats_ok (num n : Z) (s : mode_state) : Prop := {
  st_pos : mode_wf num s;
  st_execs : 0 <= total_execs s <= n;
  st_overflows : 0 <= total_overflow_execs s <= total_execs s;
  st_windows : 0 <= stable_nums s;
  st_clean : 0 <= non_overflow_nums s;
  st_window_size : MIN_FREQ_INTERVAL * stable_nums s + non_overflow_nums s <= total_execs s;
  st_sum : 0 <= opt_idx_sum s <= (num - 1) * stable_nums s
}.

Lemma stats_ok_mono num n n' s : n <= n' -> stats_ok num n s -> stats_ok num n' s.
Proof. intros Hn []. by split; try lia. Qed.

Definition MAX_STEPS : Z := 3 * 10 ^ 9.

Lemma on_result_mode_stats num interval n s b :
  1 <= num <= 64 -> MIN_FREQ_INTERVAL <= interval -> n < MAX_STEPS ->
  stats_ok num n s -> stats_ok num (n + 1) (on_result_mode num interval s b).
Proof.
  unfold MIN_FREQ_INTERVAL, MAX_STEPS. intros Hnum Hint Hn Hs.
  pose proof (on_result_mode_wf num interval s b (st_pos _ _ _ Hs)) as Hwf.
  destruct Hs as [Hp He Ho Hw Hc Hws Hsum]. unfold mode_wf, MIN_FREQ_INTERVAL in *.
  assert (stable_nums s <= 30000000) by lia.
  assert (0 <= (num - 1) * stable_nums s <= 63 * 30000000) by nia.
  unfold on_result_mode in *. cbn zeta in *. upd_simpl.
  rewrite !inc64_small in * by lia.
  destruct b; [destruct (cur_idx s >? 0) | destruct (non_overflow_nums s + 1 >=? interval) eqn:Hi;
    [destruct (cur_idx s <? num - 1) |]]; zbool; upd_simpl;
    rewrite ?inc64_small in * by lia; rewrite ?s32_small in * by lia;
    split; upd_simpl; unfold mode_wf, MIN_FREQ_INTERVAL in *; upd_simpl; try lia; nia.
Qed.

Lemma on_result_stats g m b m' n :
  gov_wf g -> n < MAX_STEPS ->
  stats_ok (freq_table_num g) n (mst g m') ->
  stats_ok (freq_table_num g) (n + 1) (mst (freq_gov_on_result g m b) m').
Proof.
  intros Hwf Hn Hs. unfold freq_gov_on_result. case_if; [by eapply stats_ok_mono; [|done]; lia |].
  cbn zeta.
  set (s' := on_result_mode _ _ _ _).
  assert (mst (set_mst g m s') m' = if decide (m = m') then s' else mst g m') as Hm.
  { by destruct m, m'. }
  assert (stats_ok (freq_table_num g) (n + 1) (mst (set_mst g m s') m')) as H1.
  { rewrite Hm. case_decide as Heq.
    - subst m'. apply on_result_mode_stats; try done; apply Hwf.
    - eapply stats_ok_mono; [| done]. lia. }
  case_if; [| done]. by destruct m'.
Qed.

Lemma gov_step_stats E g g' m n :
  gov_step E g g' -> gov_wf g -> n < MAX_STEPS ->
  (forall m, stats_ok (freq_table_num g) n (mst g m)) ->
  stats_ok (freq_table_num g') (n + 1) (mst g' m).
Proof.
  intros Hs Hwf Hn Hst.
  assert (freq_table_num g' = freq_table_num g) as ->.
  { pose proof (gov_step_config E g g' Hs) as Hc. by injection Hc. }
  assert (forall t, mst (set_freq E g t) m = mst g m) as Hset
    by (intros t; apply search_mst, set_freq_search).
  assert (forall i x, mode_wf (freq_table_num g) ((mst g x) <| cur_idx := i |>) ->
    stats_ok (freq_table_num g) (n + 1)
      (mst (set_mst g x ((mst g x) <| cur_idx := i |>)) m)) as Hpos.
  { intros i x Hi. destruct (decide (x = m)) as [-> | Hne].
    - destruct (Hst m). by destruct m; split; upd_simpl; try lia.
    - assert (mst (set_mst g x ((mst g x) <| cur_idx := i |>)) m = mst g m) as ->
        by (by destruct x, m).
      eapply stats_ok_mono; [| done]; lia. }
  assert (stats_ok (freq_table_num g) (n + 1) (mst g m)) as H1
    by (eapply stats_ok_mono; [| apply Hst]; lia).
  destruct Hs; unfold freq_gov_apply, freq_gov_restore_max, freq_gov_copy_start.
  - repeat case_if; rewrite ?Hset; try done.
    assert (mst (set_freq E (g <| force_min_pending := false |>) (aget (freq_table g) 0)) m
            = mst g m) as ->; [| done].
    transitivity (mst (g <| force_min_pending := false |>) m); [| by destruct m].
    apply search_mst, set_freq_search.
  - case_if; rewrite ?Hset; done.
  - by destruct m.
  - by apply on_result_stats.
  - apply Hpos. by apply (mst_wf g src).
  - by rewrite Hset.
  - apply Hpos. done.
Qed.

Lemma init_stats E cpu addr_only m :
  getenv_is E "AFLCS_FREQ_GOV" "0" = false ->
  let g := freq_gov_init E gov_static cpu addr_only in
  stats_ok (freq_table_num g) 0 (mst g m).
Proof.
  intros Hen. cbn zeta. destruct (freq_gov_init_shape E cpu addr_only Hen) as (_ & Ha & Hd & _).
  pose proof (wf_num _ (freq_gov_init_wf E cpu addr_only Hen)).
  assert (mst (freq_gov_init E gov_static cpu addr_only) m =
    mode_zero <| cur_idx := freq_table_num (freq_gov_init E gov_static cpu addr_only) - 1 |>) as ->
    by (by destruct m).
  split; unfold mode_wf; upd_simpl; lia.
Qed.

Lemma reachable_stats E cpu addr_only k g m :
  getenv_is E "AFLCS_FREQ_GOV" "0" = false -> Z.of_nat k <= MAX_STEPS ->
  nsteps (gov_step E) k (freq_gov_init E gov_static cpu addr_only) g ->
  gov_wf g /\ stats_ok (freq_table_num g) (Z.of_nat k) (mst g m).
Proof.
  intros Hen. revert g m. induction k as [|k IH]; intros g m Hk Hsteps.
  { inversion Hsteps; subst.
    split; [by apply freq_gov_init_wf | by apply init_stats]. }
  apply nsteps_inv_r in Hsteps as (g0 & Hsteps & Hs).
  assert (gov_wf g0) as Hwf by (apply (IH g0 FREQ_MODE_ATOM); [lia | done]).
  split; [by eapply gov_step_wf |].
  rewrite Nat2Z.inj_succ, <- Z.add_1_r. eapply gov_step_stats; [done | done | lia |].
  intros m0. apply IH; [lia | done].
Qed.

(** The index [opt_freq] computes, before its clamp. *)
Definition opt_idx (s : mode_state) : Z :=
  s32 (u64 (u64 (opt_idx_sum s) + stable_nums s / 2) / stable_nums s).

Lemma opt_idx_nearest num n s :
  1 <= num <= 64 -> n <= MAX_STEPS -> stats_ok num n s -> stable_nums s <> 0 ->
  0 <= opt_idx s < num /\
  2 * Z.abs (stable_nums s * opt_idx s - opt_idx_sum s) <= stable_nums s.
Proof.
  unfold MAX_STEPS. intros Hnum Hn [Hp He Ho Hw Hc Hws Hsum] Hne.
  unfold mode_wf, MIN_FREQ_INTERVAL in *. unfold opt_idx.
  set (S := opt_idx_sum s) in *. set (k := stable_nums s) in *.
  assert (k <= 30000000) by lia. assert (0 <= (num - 1) * k <= 63 * 30000000) by nia.
  assert (0 <= k / 2 <= k) by (split; [apply Z.div_pos | apply Z.div_le_upper_bound]; lia).
  rewrite (u64_small S), u64_small by lia.
  assert (0 <= (S + k / 2) / k < num) as Hq.
  { split; [apply Z.div_pos; lia |]. apply Z.div_lt_upper_bound; [lia |].
    assert (2 * (k / 2) <= k) by (apply Z.mul_div_le; lia). nia. }
  rewrite s32_small by lia. split; [done |].
  pose proof (Z.div_mod (S + k / 2) k Hne) as Hdm.
  pose proof (Z.mod_pos_bound (S + k / 2) k ltac:(lia)).
  pose proof (Z.div_mod k 2 ltac:(lia)). pose proof (Z.mod_pos_bound k 2 ltac:(lia)).
  lia.
Qed.

(** If the tracer overflows exactly above some frequency, calibration
    settles the mode on the highest table entry that does not overflow, or on
    the floor entry when every one does; it runs at least one and at most
    [freq_table_num] executions. *)
Lemma calibrate_threshold (E : sysenv) {W : Type} (HW : HasGov W)
    (run_one_shot : W -> bool * W) (m : freq_mode_t) (F : Z) (w : W) :
  (forall w, gov_search (get_gov (run_one_shot w).2) = gov_search (get_gov w)) ->
  overflows_above run_one_shot F ->
  gov_wf (get_gov w) -> g_enabled (get_gov w) = true ->
  let t := freq_table (get_gov w) in
  let num := freq_table_num (get_gov w) in
  let '(runs, w') := freq_gov_calibrate E run_one_shot m w in
  let p := cur_idx (mst (get_gov w') m) in
  0 <= p < num /\ (p = 0 \/ aget t p <= F) /\
  (forall j, p < j < num -> F < aget t j) /\
  1 <= runs <= num.
Proof.
  intros Hkeep HF Hwf Hen. cbn zeta. unfold freq_gov_calibrate. rewrite Hen. cbn [negb].
  set (w0 := set_cur_idx m 0 w).
  assert (table_of w0 = freq_table (get_gov w)) as Ht by apply set_cur_idx_table.
  assert (pos_of m w0 = 0) as Hp by apply set_cur_idx_pos.
  assert (freq_table_num (get_gov w0) = freq_table_num (get_gov w)) as Hn.
  { unfold w0, set_cur_idx. rewrite get_put_gov. by destruct m. }
  rewrite Hn. pose proof (wf_num _ Hwf) as Hnum.
  set (n := Z.to_nat (freq_table_num (get_gov w))).
  pose proof (calibrate_loop_threshold E run_one_shot Hkeep F m n 0 w0 HF) as H1.
  pose proof (calibrate_loop_position E run_one_shot Hkeep m n 0 w0) as H2.
  assert (1 <= (calibrate_loop E run_one_shot m n 0 w0).1) as H3.
  { subst n. destruct (Z.to_nat (freq_table_num (get_gov w))) as [|n'] eqn:Hn'; [lia |].
    rewrite calibrate_loop_step. destruct (rung E run_one_shot 0 w0) as [[] w1]; [simpl; lia |].
    pose proof (calibrate_loop_position E run_one_shot Hkeep m n' (0 + 1) (set_cur_idx m 0 w1)) as H3.
    rewrite set_cur_idx_pos in H3. destruct (calibrate_loop _ _ m n' _ _) as [r w2].
    simpl. destruct H3 as [(_ & ? & _) | (_ & ? & _)]; lia. }
  destruct (calibrate_loop E run_one_shot m n 0 w0) as [runs w'].
  rewrite Ht in H1. cbn [fst] in H3. change (cur_idx (mst (get_gov w') m)) with (pos_of m w').
  assert (Z.of_nat n = freq_table_num (get_gov w)) as Hnz by lia.
  rewrite Z.add_0_l, Hnz in H1.
  destruct H1 as (_ & Ha & Hb & Hc & Hd); [lia | lia | lia | |].
  { intros j k Hj Hk. by apply gov_wf_ascending. }
  split_and!; [lia | lia | done | done | lia |].
  destruct H2 as [(_ & ? & _) | (_ & ? & _)]; lia.
Qed.

(** ** Properties *)

