(* ===== verification/Hash.v ===== *)
(** * hash32, the path checksum of hybrid mode (src/src/hybrid.c)

    Both variants of the MurmurHash3 adaptation: the 32-bit one the target
    board builds and the 64-bit one under [__x86_64__].  The 32-bit hash is
    shown to separate any two maps that differ in exactly one word. *)

From stdpp Require Import base numbers list.
From Stdlib Require Import ZArith Lia.
From S2P Require Import Prelude.

(** ** Definitions *)

(** A byte. *)
Definition byte_range (b : Z) : Prop := 0 <= b < 256.

(** FNV-1a over one buffer. *)
Definition fnv_bytes (h : Z) (buf : list Z) : Z :=
  foldl (fun h b => u64 (Z.lxor h b * 0x100000001b3)) h buf.


(** ROL32 and ROL64. *)
Definition ROL32 (x r : Z) : Z := Z.lor (u32 (Z.shiftl x r)) (Z.shiftr x (32 - r)).
Definition ROL64 (x r : Z) : Z := Z.lor (u64 (Z.shiftl x r)) (Z.shiftr x (64 - r)).

Definition HASH_CONST : Z := 0xa5b35705.

(** The little-endian load of [n] bytes at offset [off]: [*data] through a
    [uint32_t *] or [uint64_t *]. *)
Fixpoint load_le (n : nat) (bytes : list Z) (off : nat) : Z :=
  match n with
  | O => 0
  | S n' => default 0 (bytes !! off) + 256 * load_le n' bytes (S off)
  end.

(** The first [count] words of [n] bytes each. *)
Definition load_words (n count : nat) (bytes : list Z) : list Z :=
  (fun i => load_le n bytes (n * i)) <$> seq 0 count.

(** The body of the 32-bit loop. *)
Definition mix32 (h1 k1 : Z) : Z :=
  let k1 := u32 (k1 * 0xcc9e2d51) in
  let k1 := ROL32 k1 15 in
  let k1 := u32 (k1 * 0x1b873593) in
  let h1 := Z.lxor h1 k1 in
  let h1 := ROL32 h1 13 in
  u32 (h1 * 5 + 0xe6546b64).

(** The finalisation. *)
Definition fmix32 (h1 : Z) : Z :=
  let h1 := Z.lxor h1 (Z.shiftr h1 16) in
  let h1 := u32 (h1 * 0x85ebca6b) in
  let h1 := Z.lxor h1 (Z.shiftr h1 13) in
  let h1 := u32 (h1 * 0xc2b2ae35) in
  Z.lxor h1 (Z.shiftr h1 16).

(** hash32() of the #else branch. *)
Definition hash32 (key : list Z) (len seed : Z) : Z :=
  fmix32 (foldl mix32 (Z.lxor seed len)
    (load_words 4 (Z.to_nat (Z.shiftr len 2)) key)).

Definition mix64 (h1 k1 : Z) : Z :=
  let k1 := u64 (k1 * 0x87c37b91114253d5) in
  let k1 := ROL64 k1 31 in
  let k1 := u64 (k1 * 0x4cf5ad432745937f) in
  let h1 := Z.lxor h1 k1 in
  let h1 := ROL64 h1 27 in
  u64 (h1 * 5 + 0x52dce729).

Definition fmix64 (h1 : Z) : Z :=
  let h1 := Z.lxor h1 (Z.shiftr h1 33) in
  let h1 := u64 (h1 * 0xff51afd7ed558ccd) in
  let h1 := Z.lxor h1 (Z.shiftr h1 33) in
  let h1 := u64 (h1 * 0xc4ceb9fe1a85ec53) in
  Z.lxor h1 (Z.shiftr h1 33).

(** hash32() of the __x86_64__ branch; the result is truncated to 32 bits. *)
Definition hash32_x86_64 (key : list Z) (len seed : Z) : Z :=
  u32 (fmix64 (foldl mix64 (Z.lxor seed len)
    (load_words 8 (Z.to_nat (Z.shiftr len 3)) key))).

(** ** 32-bit words *)

Definition word32 (z : Z) : Prop := 0 <= z < 2 ^ 32.

Lemma u32_word32 z : word32 (u32 z).
Proof. apply u32_bound. Qed.

Lemma word32_mod z : word32 z <-> u32 z = z.
Proof.
  split; [intros; by apply u32_small |]. intros <-. apply u32_word32.
Qed.

Lemma lxor_word32 a b : word32 a -> word32 b -> word32 (Z.lxor a b).
Proof.
  intros Ha%word32_mod Hb%word32_mod. apply word32_mod. unfold u32 in *.
  apply Z.bits_inj'. intros n Hn. destruct (Z.ltb_spec n 32).
  - by rewrite Z.mod_pow2_bits_low by lia.
  - rewrite Z.mod_pow2_bits_high by lia. rewrite Z.lxor_spec.
    rewrite <- Ha, <- Hb, !Z.mod_pow2_bits_high by lia. done.
Qed.

Lemma shiftr_word32 a s : 0 <= s -> word32 a -> word32 (Z.shiftr a s).
Proof.
  unfold word32. intros Hs Ha. rewrite Z.shiftr_div_pow2 by done.
  assert (0 < 2 ^ s) by (apply Z.pow_pos_nonneg; lia).
  split; [apply Z.div_pos; lia |]. apply Z.div_lt_upper_bound; nia.
Qed.

(** ** Every step is injective on words *)

Lemma u32_mul_inj c ci x y :
  (c * ci) mod 2 ^ 32 = 1 -> word32 x -> word32 y ->
  u32 (x * c) = u32 (y * c) -> x = y.
Proof.
  intros Hc Hx Hy Heq.
  assert (forall z, word32 z -> u32 (u32 (z * c) * ci) = z) as Hinv.
  { intros z Hz. unfold u32 in *. rewrite Z.mul_mod_idemp_l by lia.
    replace (z * c * ci) with (z * (c * ci)) by lia.
    rewrite <- Z.mul_mod_idemp_r, Hc, Z.mul_1_r by lia. by apply Z.mod_small. }
  by rewrite <- (Hinv x), <- (Hinv y), Heq.
Qed.

Lemma u32_add_inj c x y : u32 (x + c) = u32 (y + c) -> u32 x = u32 y.
Proof.
  unfold u32. intros H. replace x with (x + c - c) by lia. replace y with (y + c - c) by lia.
  by rewrite <- (Zminus_mod_idemp_l (x + c)), H, Zminus_mod_idemp_l.
Qed.

Lemma lxor_inj_r a x y : Z.lxor a x = Z.lxor a y -> x = y.
Proof.
  intros H. apply (f_equal (Z.lxor a)) in H.
  by rewrite <- !Z.lxor_assoc, !Z.lxor_nilpotent, !Z.lxor_0_l in H.
Qed.

Lemma xorshift_inj s x y :
  0 < s -> 0 <= x -> 0 <= y ->
  Z.lxor x (Z.shiftr x s) = Z.lxor y (Z.shiftr y s) -> x = y.
Proof.
  intros Hs Hx Hy H. set (z := Z.lxor x y).
  assert (Z.shiftr z s = z) as Hz.
  { unfold z. rewrite Z.shiftr_lxor.
    apply (f_equal (Z.lxor (Z.lxor x (Z.shiftr y s)))) in H.
    rewrite (Z.lxor_comm x (Z.shiftr y s)) in H at 1.
    rewrite Z.lxor_assoc, <- (Z.lxor_assoc x x), Z.lxor_nilpotent, Z.lxor_0_l in H.
    rewrite (Z.lxor_comm y), Z.lxor_assoc, <- (Z.lxor_assoc (Z.shiftr y s)) in H.
    rewrite Z.lxor_nilpotent, Z.lxor_0_l in H. by rewrite Z.lxor_comm. }
  assert (0 <= z) as Hz0 by (apply Z.lxor_nonneg; tauto).
  assert (z = 0) as Hzz.
  { rewrite Z.shiftr_div_pow2 in Hz by lia.
    assert (2 <= 2 ^ s) by (change 2 with (2 ^ 1) at 1; apply Z.pow_le_mono_r; lia).
    destruct (decide (z = 0)) as [| Hne]; [done |].
    assert (z / 2 ^ s < z) by (apply Z.div_lt; lia). lia. }
  by apply Z.lxor_eq in Hzz.
Qed.

(** A rotation in arithmetic: the low bits move up, the high bits move down. *)
Lemma ROL32_arith x r :
  word32 x -> 0 < r < 32 ->
  ROL32 x r = (x mod 2 ^ (32 - r)) * 2 ^ r + x / 2 ^ (32 - r).
Proof.
  intros Hx Hr. unfold ROL32, word32 in *.
  assert (2 ^ 32 = 2 ^ (32 - r) * 2 ^ r) as Hp by (rewrite <- Z.pow_add_r by lia; f_equal; lia).
  rewrite Z.shiftr_div_pow2, Z.shiftl_mul_pow2 by lia. unfold u32.
  rewrite Hp at 1. rewrite (Z.mul_comm (2 ^ (32 - r))), (Z.mul_comm x).
  rewrite Z.mul_mod_distr_l by (apply Z.pow_nonzero; lia).
  rewrite (Z.mul_comm (2 ^ r)).
  pose proof (Z.add_lor_land (x mod 2 ^ (32 - r) * 2 ^ r) (x / 2 ^ (32 - r))) as Hol.
  assert (0 <= x / 2 ^ (32 - r) < 2 ^ r) as Hq.
  { split; [apply Z.div_pos; lia |]. apply Z.div_lt_upper_bound; lia. }
  assert (Z.land (x mod 2 ^ (32 - r) * 2 ^ r) (x / 2 ^ (32 - r)) = 0) as Hl; [| lia].
  apply Z.bits_inj'. intros n Hn. rewrite Z.land_spec, Z.bits_0, Z.mul_pow2_bits by lia.
  destruct (Z.ltb_spec n r) as [Hnr | Hnr].
  - by rewrite Z.testbit_neg_r by lia.
  - rewrite <- (Z.mod_small (x / 2 ^ (32 - r)) (2 ^ r)) by done.
    rewrite (Z.mod_pow2_bits_high (x / 2 ^ (32 - r)) r) by lia. by rewrite andb_false_r.
Qed.

Lemma ROL32_word32 x r : word32 x -> 0 < r < 32 -> word32 (ROL32 x r).
Proof.
  intros Hx Hr. rewrite ROL32_arith by done. unfold word32 in *.
  assert (2 ^ 32 = 2 ^ (32 - r) * 2 ^ r) by (rewrite <- Z.pow_add_r by lia; f_equal; lia).
  assert (0 < 2 ^ r) by (apply Z.pow_pos_nonneg; lia).
  assert (0 < 2 ^ (32 - r)) by (apply Z.pow_pos_nonneg; lia).
  pose proof (Z.mod_pos_bound x (2 ^ (32 - r)) ltac:(lia)).
  assert (0 <= x / 2 ^ (32 - r) < 2 ^ r).
  { split; [apply Z.div_pos; lia |]. apply Z.div_lt_upper_bound; lia. }
  nia.
Qed.

Lemma ROL32_inj x y r :
  word32 x -> word32 y -> 0 < r < 32 -> ROL32 x r = ROL32 y r -> x = y.
Proof.
  intros Hx Hy Hr. rewrite !ROL32_arith by done. unfold word32 in *. intros Heq.
  assert (2 ^ 32 = 2 ^ (32 - r) * 2 ^ r) by (rewrite <- Z.pow_add_r by lia; f_equal; lia).
  assert (0 < 2 ^ (32 - r)) by (apply Z.pow_pos_nonneg; lia).
  assert (forall z, 0 <= z < 2 ^ 32 -> 0 <= z / 2 ^ (32 - r) < 2 ^ r) as Hq.
  { intros z Hz. split; [apply Z.div_pos; lia |]. apply Z.div_lt_upper_bound; lia. }
  destruct (Z.div_mod_unique (2 ^ r) (x mod 2 ^ (32 - r)) (y mod 2 ^ (32 - r))
    (x / 2 ^ (32 - r)) (y / 2 ^ (32 - r))) as [Hm Hd]; [left; auto | left; auto | lia |].
  rewrite (Z.div_mod x (2 ^ (32 - r))), (Z.div_mod y (2 ^ (32 - r))) by lia.
  by rewrite Hm, Hd.
Qed.

Lemma mix32_word32 h k : word32 (mix32 h k).
Proof. apply u32_word32. Qed.

(** The value mixed into the state for a word. *)
Definition scramble32 (k1 : Z) : Z := u32 (ROL32 (u32 (k1 * 0xcc9e2d51)) 15 * 0x1b873593).

Lemma scramble32_inj x y :
  word32 x -> word32 y -> scramble32 x = scramble32 y -> x = y.
Proof.
  intros Hx Hy H. unfold scramble32 in H.
  assert (forall z, word32 (ROL32 (u32 z) 15)) as Hr
    by (intros z; apply ROL32_word32; [apply u32_word32 | lia]).
  apply (u32_mul_inj 0x1b873593 1458385051) in H; [| done | apply Hr | apply Hr].
  apply ROL32_inj in H; [| apply u32_word32 | apply u32_word32 | lia].
  by apply (u32_mul_inj 0xcc9e2d51 3739302833) in H.
Qed.

Lemma mix32_outer_inj x y :
  word32 x -> word32 y ->
  u32 (ROL32 x 13 * 5 + 0xe6546b64) = u32 (ROL32 y 13 * 5 + 0xe6546b64) -> x = y.
Proof.
  intros Hx Hy H%u32_add_inj.
  apply (u32_mul_inj 5 3435973837) in H; [| done | apply ROL32_word32; [done | lia] ..].
  by apply ROL32_inj in H.
Qed.

Lemma mix32_inj_state h h' k :
  word32 h -> word32 h' -> mix32 h k = mix32 h' k -> h = h'.
Proof.
  intros Hh Hh' H. change (mix32 h k) with
    (u32 (ROL32 (Z.lxor h (scramble32 k)) 13 * 5 + 0xe6546b64)) in H.
  change (mix32 h' k) with
    (u32 (ROL32 (Z.lxor h' (scramble32 k)) 13 * 5 + 0xe6546b64)) in H.
  apply mix32_outer_inj in H; [| apply lxor_word32; [done | apply u32_word32] ..].
  rewrite !(Z.lxor_comm _ (scramble32 k)) in H. by apply lxor_inj_r in H.
Qed.

Lemma mix32_inj_word h k k' :
  word32 h -> word32 k -> word32 k' -> mix32 h k = mix32 h k' -> k = k'.
Proof.
  intros Hh Hk Hk' H. change (mix32 h k) with
    (u32 (ROL32 (Z.lxor h (scramble32 k)) 13 * 5 + 0xe6546b64)) in H.
  change (mix32 h k') with
    (u32 (ROL32 (Z.lxor h (scramble32 k')) 13 * 5 + 0xe6546b64)) in H.
  apply mix32_outer_inj in H; [| apply lxor_word32; [done | apply u32_word32] ..].
  apply lxor_inj_r in H. by apply scramble32_inj.
Qed.

Lemma fold_mix32_word32 ws h : word32 h -> word32 (foldl mix32 h ws).
Proof.
  revert h. induction ws as [|w ws IH]; intros h Hh; [done |].
  simpl. apply IH, mix32_word32.
Qed.

Lemma fold_mix32_inj ws h h' :
  word32 h -> word32 h' -> foldl mix32 h ws = foldl mix32 h' ws -> h = h'.
Proof.
  revert h h'. induction ws as [|w ws IH]; intros h h' Hh Hh'; [done |].
  simpl. intros H%IH; [| apply mix32_word32 ..]. by apply mix32_inj_state in H.
Qed.

Lemma xorshift_word32 s x : 0 <= s -> word32 x -> word32 (Z.lxor x (Z.shiftr x s)).
Proof. intros Hs Hx. apply lxor_word32; [done | by apply shiftr_word32]. Qed.

Lemma fmix32_word32 h : word32 h -> word32 (fmix32 h).
Proof. intros Hh. unfold fmix32. apply xorshift_word32; [lia | apply u32_word32]. Qed.

Lemma fmix32_inj h h' : word32 h -> word32 h' -> fmix32 h = fmix32 h' -> h = h'.
Proof.
  intros Hh Hh' H. unfold fmix32 in H.
  apply xorshift_inj in H; [| lia | apply u32_word32 ..].
  apply (u32_mul_inj 0xc2b2ae35 2127672349) in H; [| done | | ];
    [| apply xorshift_word32; [lia | apply u32_word32] ..].
  apply xorshift_inj in H; [| lia | apply u32_word32 ..].
  apply (u32_mul_inj 0x85ebca6b 2781581891) in H; [| done | | ];
    [| by apply xorshift_word32 ..].
  apply xorshift_inj in H; [done | lia | apply Hh | apply Hh'].
Qed.

(** Hashing word lists that agree except at one place. *)
Lemma hash_words_separates p a b q h :
  word32 h -> word32 a -> word32 b -> a <> b ->
  fmix32 (foldl mix32 h (p ++ a :: q)) <> fmix32 (foldl mix32 h (p ++ b :: q)).
Proof.
  intros Hh Ha Hb Hne H.
  apply fmix32_inj in H; [| by apply fold_mix32_word32 ..].
  rewrite !foldl_app in H. simpl in H.
  apply fold_mix32_inj in H; [| apply mix32_word32 ..].
  apply mix32_inj_word in H; [done | by apply fold_mix32_word32 | done | done].
Qed.

(** ** From words to bytes *)

Lemma load_le_ext n a b off :
  (forall j, (off <= j < off + n)%nat -> a !! j = b !! j) -> load_le n a off = load_le n b off.
Proof.
  revert off. induction n as [|n IH]; intros off H; [done |]. simpl.
  rewrite (H off) by lia. do 2 f_equal. apply IH. intros j Hj. apply H. lia.
Qed.

Lemma load_le_bound n bytes off :
  Forall byte_range bytes -> 0 <= load_le n bytes off < 2 ^ (8 * Z.of_nat n).
Proof.
  intros Hb. revert off. induction n as [|n IH]; intros off; [simpl; lia |].
  rewrite Nat2Z.inj_succ. replace (8 * Z.succ (Z.of_nat n)) with (8 + 8 * Z.of_nat n) by lia.
  rewrite Z.pow_add_r by lia. simpl load_le. specialize (IH (S off)).
  assert (0 <= default 0 (bytes !! off) < 256).
  { destruct (bytes !! off) as [x|] eqn:Hx; [by apply (Forall_lookup_1 _ _ _ _ Hb Hx) | simpl; lia]. }
  change (2 ^ 8) with 256. lia.
Qed.

(** A little-endian load determines its bytes. *)
Lemma load_le_inj n a b off :
  Forall byte_range a -> Forall byte_range b -> load_le n a off = load_le n b off ->
  forall j, (off <= j < off + n)%nat -> default 0 (a !! j) = default 0 (b !! j).
Proof.
  intros Ha Hb. revert off. induction n as [|n IH]; intros off H j Hj; [lia |]. simpl in H.
  assert (forall l, Forall byte_range l -> 0 <= default 0 (l !! off) < 256) as Hr.
  { intros l Hl. destruct (l !! off) as [x|] eqn:Hx;
      [by apply (Forall_lookup_1 _ _ _ _ Hl Hx) | simpl; lia]. }
  pose proof (Hr a Ha). pose proof (Hr b Hb).
  destruct (decide (j = off)) as [-> | Hne]; [lia |]. apply (IH (S off)); [lia | lia].
Qed.

(** Maps that agree outside the [i]-th four-byte word load the same other words. *)
Lemma load_words_one_word count i a b :
  (i < count)%nat ->
  (forall j, ~ (4 * i <= j < 4 * i + 4)%nat -> a !! j = b !! j) ->
  exists p q, load_words 4 count a = p ++ load_le 4 a (4 * i) :: q /\
              load_words 4 count b = p ++ load_le 4 b (4 * i) :: q.
Proof.
  intros Hi Hab.
  exists ((fun k => load_le 4 a (4 * k)) <$> seq 0 i),
         ((fun k => load_le 4 a (4 * k)) <$> seq (S i) (count - S i)).
  assert (seq 0 count = seq 0 i ++ i :: seq (S i) (count - S i)) as Hseq.
  { replace count with (i + S (count - S i))%nat at 1 by lia. by rewrite seq_app. }
  unfold load_words. rewrite Hseq, !fmap_app, !fmap_cons. split; [done |].
  f_equal; [| f_equal]; apply list_fmap_ext; intros x k Hk;
    apply lookup_seq in Hk as [-> Hlt]; apply load_le_ext; intros j Hj;
    symmetry; apply Hab; lia.
Qed.

Lemma hash32_separates a b len seed i :
  word32 seed -> word32 len -> Forall byte_range a -> Forall byte_range b ->
  length a = length b -> (i < Z.to_nat (Z.shiftr len 2))%nat -> (4 * i + 4 <= length a)%nat ->
  (forall j, ~ (4 * i <= j < 4 * i + 4)%nat -> a !! j = b !! j) -> a <> b ->
  hash32 a len seed <> hash32 b len seed.
Proof.
  intros Hs Hl Ha Hb Hlen Hi Hfit Hab Hne. unfold hash32.
  destruct (load_words_one_word _ i a b Hi Hab) as (p & q & -> & ->).
  apply hash_words_separates; [by apply lxor_word32 | by apply (load_le_bound 4) ..|].
  intros Heq. apply Hne, list_eq. intros j.
  destruct (decide (4 * i <= j < 4 * i + 4)%nat) as [Hj | Hj]; [| by apply Hab].
  pose proof (load_le_inj 4 a b _ Ha Hb Heq j ltac:(lia)) as Hd.
  destruct (lookup_lt_is_Some_2 a j ltac:(lia)) as [x Hx].
  destruct (lookup_lt_is_Some_2 b j ltac:(lia)) as [y Hy].
  rewrite Hx, Hy in *. simpl in Hd. by f_equal.
Qed.

(** ** FNV-1a *)

Lemma fnv_bytes_app h a b : fnv_bytes h (a ++ b) = fnv_bytes (fnv_bytes h a) b.
Proof. unfold fnv_bytes. apply foldl_app. Qed.

Lemma fnv_bytes_bound h a : 0 <= h < 2 ^ 64 -> 0 <= fnv_bytes h a < 2 ^ 64.
Proof.
  unfold fnv_bytes. revert h. induction a as [|b a IH]; intros h Hh; [done |]. cbn [foldl].
  apply IH, u64_bound.
Qed.

(** The inverse of the multiplier modulo 2^64. *)
Definition FNV_INVERSE : Z := 14886173955864302971.

(** The multiplier is odd: a round is a bijection of 64-bit words. *)
Lemma fnv_mul_inj x y :
  0 <= x < 2 ^ 64 -> 0 <= y < 2 ^ 64 -> u64 (x * 0x100000001b3) = u64 (y * 0x100000001b3) -> x = y.
Proof.
  intros Hx Hy Heq.
  assert (forall z, 0 <= z < 2 ^ 64 -> u64 (u64 (z * 0x100000001b3) * FNV_INVERSE) = z) as Hinv.
  { intros z Hz. unfold u64. rewrite Z.mul_mod_idemp_l by lia.
    rewrite <- Z.mul_assoc. rewrite <- Z.mul_mod_idemp_r by lia.
    change (0x100000001b3 * FNV_INVERSE mod 2 ^ 64) with 1. rewrite Z.mul_1_r. by apply Z.mod_small. }
  rewrite <- (Hinv x Hx), <- (Hinv y Hy). by rewrite Heq.
Qed.

Lemma lxor_word64 a b : 0 <= a < 2 ^ 64 -> 0 <= b < 2 ^ 64 -> 0 <= Z.lxor a b < 2 ^ 64.
Proof.
  intros Ha Hb. assert (0 <= Z.lxor a b) by (apply Z.lxor_nonneg; lia). split; [done |].
  destruct (decide (Z.lxor a b = 0)); [lia |]. apply Z.log2_lt_pow2; [lia |].
  eapply Z.le_lt_trans; [apply Z.log2_lxor; lia |].
  apply Z.max_lub_lt; (destruct (decide (a = 0)), (decide (b = 0)); subst; try (cbn; lia);
    apply Z.log2_lt_pow2; lia).
Qed.

Lemma fnv_step_inj h g b c :
  0 <= h < 2 ^ 64 -> 0 <= g < 2 ^ 64 -> 0 <= b < 2 ^ 64 -> 0 <= c < 2 ^ 64 ->
  fnv_bytes h [b] = fnv_bytes g [c] -> Z.lxor h b = Z.lxor g c.
Proof. intros. apply fnv_mul_inj; [by apply lxor_word64 .. | done]. Qed.

Lemma lxor_cancel a b c : Z.lxor a c = Z.lxor b c -> a = b.
Proof.
  intros Heq. rewrite <- (Z.lxor_0_r a), <- (Z.lxor_0_r b), <- (Z.lxor_nilpotent c), <- !Z.lxor_assoc.
  by rewrite Heq.
Qed.

Lemma fnv_bytes_inj a h g :
  0 <= h < 2 ^ 64 -> 0 <= g < 2 ^ 64 -> Forall byte_range a -> fnv_bytes h a = fnv_bytes g a -> h = g.
Proof.
  intros Hh Hg Ha. revert h g Hh Hg. induction Ha as [|b a Hb Ha IH]; intros h g Hh Hg Heq; [done |].
  unfold byte_range in Hb.
  apply (lxor_cancel _ _ b), fnv_step_inj; [lia .. |].
  apply IH; [apply u64_bound .. | exact Heq].
Qed.

(** Buffers that differ in one byte have different hashes. *)
Lemma fnv_bytes_one_byte h a x y b :
  0 <= h < 2 ^ 64 -> Forall byte_range a -> Forall byte_range b -> byte_range x -> byte_range y ->
  x <> y -> fnv_bytes h (a ++ x :: b) <> fnv_bytes h (a ++ y :: b).
Proof.
  intros Hh Ha Hb Hx Hy Hne Heq. unfold byte_range in Hx, Hy.
  rewrite !fnv_bytes_app in Heq. pose proof (fnv_bytes_bound h a Hh) as Hg.
  set (g := fnv_bytes h a) in *. clearbody g.
  apply (fnv_bytes_inj b (fnv_bytes g [x]) (fnv_bytes g [y])) in Heq; [| apply u64_bound .. | done].
  apply fnv_step_inj in Heq; [| lia ..]. apply Hne.
  rewrite (Z.lxor_comm g x), (Z.lxor_comm g y) in Heq. by eapply lxor_cancel.
Qed.
