(* ===== verification/Hybrid.v ===== *)
(** * Hybrid coverage (src/src/hybrid.c, src/include/hybrid.h)

    The file-scope state is the record [hyb]; a map is the list of its bytes.
    The two 65536-entry byte tables of the checksum filter, which only ever
    store 1, are the sets of their marked indices; the two slot arrays are
    finite maps from the slot to the pair of its key and its allocated map, a
    slot whose pointer is NULL having no entry.  [double] arithmetic is IEEE
    binary64 with rounding to nearest ([SpecFloat]).  A failed [malloc] ends
    the process and is not modelled; stderr messages are not state. *)

From stdpp Require Import base numbers list gmap strings.
From Stdlib Require Import ZArith Lia SpecFloat.
From S2P Require Import Prelude Hash.

(** ** Constants *)

Definition PURGE_INTERVAL_LEVEL1 : Z := 3000.
Definition PURGE_INTERVAL_LEVEL2 : Z := 7500.
Definition PURGE_INTERVAL_LEVEL3 : Z := 15000.
Definition PURGE_INTERVAL_LEVEL4 : Z := 30000.

Definition CACHE_SLOTS : Z := 256.
Definition INPUT_SLOTS : Z := 64.

Inductive hybrid_verdict_t := HYBRID_DISCARD | HYBRID_CONFIRM.

#[export] Instance hybrid_verdict_eq_dec : EqDecision hybrid_verdict_t.
Proof. solve_decision. Defined.

(** count_class[256]. *)
Definition count_class : list Z :=
  [0; 1; 2; 4] ++ replicate 4 8 ++ replicate 8 16 ++ replicate 16 32 ++
  replicate 96 64 ++ replicate 128 128.

(** ** State *)

(** The counters of AFLCS_STALKER_DIAG and hybrid_write_stats(). *)
Record hyb_stats := MkStats {
  n_filtered : Z;
  n_old_path : Z;
  n_confirmed : Z;
  n_new_edges : Z;
  n_cache_hits : Z;
  n_new_tuples : Z;
  n_input_hits : Z;
  n_empty : Z;
  n_sampled : Z;
  n_sample_overflow : Z;
  n_sample_new : Z;
  n_sample_new_tuples : Z;
  n_sample_new_filtered : Z
}.

Record hyb := MkHyb {
  map_size : nat;
  virgin_atom : list Z;
  virgin_atom_real : list Z;
  virgin_edge : list Z;
  virgin_missed : list Z;
  path_cls : list Z;
  path_kept : list Z;
  edge_cls : list Z;
  path_kept_cksum : Z;
  path_kept_overflow : bool;
  path_kept_input : Z;
  last_filtered : bool;
  atom_check_up : gset Z;
  atom_check_down : gset Z;
  cache : gmap Z (Z * list Z);
  inputs : gmap Z (Z * list Z);
  real_execs : Z;
  path_execs : Z;
  queued_atom_paths : Z;
  pre_real_execs : Z;
  pre_virgin_bits : Z;
  purge_interval : Z;
  purge_attempt : Z;
  purge_real : Z;
  hstats : hyb_stats
}.

#[export] Instance eta_stats : Eta hyb_stats := fun s =>
  MkStats (n_filtered s) (n_old_path s) (n_confirmed s) (n_new_edges s)
    (n_cache_hits s) (n_new_tuples s) (n_input_hits s) (n_empty s) (n_sampled s)
    (n_sample_overflow s) (n_sample_new s) (n_sample_new_tuples s)
    (n_sample_new_filtered s).

#[export] Instance eta_hyb : Eta hyb := fun s =>
  MkHyb (map_size s) (virgin_atom s) (virgin_atom_real s) (virgin_edge s)
    (virgin_missed s) (path_cls s) (path_kept s) (edge_cls s) (path_kept_cksum s)
    (path_kept_overflow s) (path_kept_input s) (last_filtered s) (atom_check_up s)
    (atom_check_down s) (cache s) (inputs s) (real_execs s) (path_execs s)
    (queued_atom_paths s) (pre_real_execs s) (pre_virgin_bits s) (purge_interval s)
    (purge_attempt s) (purge_real s) (hstats s).

Definition stats_zero : hyb_stats := MkStats 0 0 0 0 0 0 0 0 0 0 0 0 0.

(** [hybrid_init]: the virgin maps are filled with 0xff; the scratch maps hold
    nothing until they are written. *)
Definition hybrid_init (size : nat) : hyb := {|
  map_size := size;
  virgin_atom := replicate size 255; virgin_atom_real := replicate size 255;
  virgin_edge := replicate size 255; virgin_missed := replicate size 255;
  path_cls := []; path_kept := []; edge_cls := [];
  path_kept_cksum := 0; path_kept_overflow := false; path_kept_input := 0;
  last_filtered := false; atom_check_up := ∅; atom_check_down := ∅;
  cache := ∅; inputs := ∅;
  real_execs := 0; path_execs := 0; queued_atom_paths := 0;
  pre_real_execs := 0; pre_virgin_bits := 0;
  purge_interval := PURGE_INTERVAL_LEVEL1; purge_attempt := 0; purge_real := 0;
  hstats := stats_zero
|}.

(** Counter increments. *)
Notation "s <+ p +>" := (s <| hstats := (hstats s) <| p := inc64 (p (hstats s)) |> |>)
  (at level 1, p at level 0, left associativity, only parsing) : c_scope.

(** ** Maps *)

Definition classify (src : list Z) : list Z := (fun b => aget count_class b) <$> src.

Definition checksum (size : nat) (map : list Z) : Z :=
  hash32 map (u32 (Z.of_nat size)) HASH_CONST.

(** AFL's has_new_bits(): the loop carries [ret] and updates [virgin] in
    place; [v & ~c] stays a byte because [v] is one. *)
Fixpoint has_new_bits_go (ret : Z) (virgin cls : list Z) : Z * list Z :=
  match virgin, cls with
  | v :: virgin', c :: cls' =>
      if c_true (Z.land c v) then
        let ret := if v =? 255 then 2 else if ret >? 1 then ret else 1 in
        let '(r, vs) := has_new_bits_go ret virgin' cls' in
        (r, Z.land v (Z.lnot c) :: vs)
      else
        let '(r, vs) := has_new_bits_go ret virgin' cls' in (r, v :: vs)
  | _, _ => (ret, virgin)
  end.

Definition has_new_bits (virgin cls : list Z) : Z * list Z := has_new_bits_go 0 virgin cls.

Fixpoint peek_new_bits_go (ret : Z) (virgin cls : list Z) : Z :=
  match virgin, cls with
  | v :: virgin', c :: cls' =>
      if c_true (Z.land c v)
      then if v =? 255 then 2 else peek_new_bits_go 1 virgin' cls'
      else peek_new_bits_go ret virgin' cls'
  | _, _ => ret
  end.

Definition peek_new_bits (virgin cls : list Z) : Z := peek_new_bits_go 0 virgin cls.

Fixpoint count_non_255_bytes (map : list Z) : Z :=
  match map with
  | b :: map' => b2z (negb (b =? 255)) + count_non_255_bytes map'
  | [] => 0
  end.

(** ** Doubles *)

Definition double := spec_float.

(** Conversion of an unsigned 64-bit integer, rounding to nearest even. *)
Definition d_of_u64 (z : Z) : double := binary_normalize 53 1024 z 0 false.
Definition d_mul : double -> double -> double := SFmul 53 1024.
Definition d_div : double -> double -> double := SFdiv 53 1024.

(** Conversion to an unsigned 64-bit integer: truncation toward zero. *)
Definition u64_of_d (d : double) : Z :=
  match d with
  | S754_finite false m e =>
      u64 (if 0 <=? e then Z.pos m * 2 ^ e else Z.pos m / 2 ^ (- e))
  | _ => 0
  end.

(** The literals 1.01, 0.1, 0.25, 0.5, 1.0: the double nearest to a quotient. *)
Definition d_lit (num den : Z) : double := d_div (d_of_u64 num) (d_of_u64 den).

(** ** Purging *)

(** The interval computed once more than 20 purges were made. *)
Definition next_interval (queued execs attempt real : Z) : Z :=
  let q := d_of_u64 queued in
  let below num den := SFltb q (d_mul (d_lit num den) (d_of_u64 execs)) in
  let level :=
    if below 1 10 then PURGE_INTERVAL_LEVEL1
    else if below 1 4 then PURGE_INTERVAL_LEVEL2
    else if below 1 2 then PURGE_INTERVAL_LEVEL3
    else PURGE_INTERVAL_LEVEL4 in
  let ratio := d_div (d_mul (d_of_u64 attempt) (d_lit 1 1)) (d_of_u64 real) in
  let interval := u64_of_d (d_mul (d_of_u64 level) ratio) in
  if interval >? PURGE_INTERVAL_LEVEL4 then PURGE_INTERVAL_LEVEL4 else interval.

(** Whether edge coverage stalled or most of virgin_atom led nowhere. *)
Definition purge_due (s : hyb) : bool :=
  SFleb (d_of_u64 (count_non_255_bytes (virgin_edge s)))
        (d_mul (d_lit 101 100) (d_of_u64 (pre_virgin_bits s))) ||
  (u64 (count_non_255_bytes (virgin_atom_real s) * 2) <? count_non_255_bytes (virgin_atom s)).

Definition purge_check (s : hyb) : hyb :=
  let s := s <| real_execs := inc64 (real_execs s) |> in
  if u64 (real_execs s - pre_real_execs s) <? purge_interval s then s
  else
    let s :=
      if purge_due s then
        let s := s <| virgin_atom := virgin_atom_real s |> in
        let s := s <| purge_real := inc64 (purge_real s) |> in
        if purge_real s >? 20
        then s <| purge_interval := next_interval (queued_atom_paths s) (path_execs s)
                                      (purge_attempt s) (purge_real s) |>
        else s
      else s in
    let s := s <| pre_virgin_bits := count_non_255_bytes (virgin_edge s) |> in
    let s := s <| pre_real_execs := real_execs s |> in
    s <| purge_attempt := inc64 (purge_attempt s) |>.

(** ** Remembered maps *)

(** Whether the slot of [key] holds a map for exactly this key. *)
Definition slot_hit (slots : gmap Z (Z * list Z)) (slot key : Z) : option (list Z) :=
  match slots !! slot with
  | Some (k, m) => if k =? key then Some m else None
  | None => None
  end.

Definition remember_input (s : hyb) (key : Z) (map : list Z) : hyb :=
  let slot := key mod INPUT_SLOTS in
  if (key =? 0) || bool_decide (is_Some (slot_hit (inputs s) slot key)) then s
  else s <| inputs := <[slot := (key, map)]> (inputs s) |>.

Definition discard (s : hyb) (map : list Z) (cksum key : Z) : list Z * hyb :=
  let slot := cksum mod CACHE_SLOTS in
  let islot := key mod INPUT_SLOTS in
  match (if key =? 0 then None else slot_hit (inputs s) islot key) with
  | Some m => (m, s <+ n_input_hits +>)
  | None =>
      match slot_hit (cache s) slot cksum with
      | Some m => (m, (remember_input s key m) <+ n_cache_hits +>)
      | None => (replicate (map_size s) 0, s <+ n_empty +>)
      end
  end.

(** ** The passes *)

Definition filtered (s : hyb) (cksum : Z) : bool :=
  bool_decide (Z.shiftr cksum 16 ∈ atom_check_up s) &&
  bool_decide (Z.land cksum 0xffff ∈ atom_check_down s).

(** Returns the verdict, what the shared map holds afterwards, the state. *)
Definition hybrid_after_path (s : hyb) (map : list Z) (overflowed : bool)
    (input_key : Z) : hybrid_verdict_t * list Z * hyb :=
  let s := s <| path_execs := inc64 (path_execs s) |> in
  let s := purge_check s in
  let cksum := checksum (map_size s) map in
  let s := s <| path_cls := classify map |> in
  let s := s <| last_filtered := false |> in
  if filtered s cksum then
    let s := s <+ n_filtered +> in
    let s := s <| last_filtered := true |> in
    let '(map, s) := discard s map cksum input_key in
    (HYBRID_DISCARD, map, s)
  else
    let '(new_bits, virgin) := has_new_bits (virgin_atom s) (path_cls s) in
    let s := s <| virgin_atom := virgin |> in
    if new_bits =? 0 then
      let s := s <+ n_old_path +> in
      let '(map, s) := discard s map cksum input_key in
      (HYBRID_DISCARD, map, s)
    else
      let s := s <| queued_atom_paths := inc64 (queued_atom_paths s) |> in
      let s := s <| path_kept := path_cls s |> in
      let s := s <| path_kept_cksum := cksum |> in
      let s := s <| path_kept_overflow := overflowed |> in
      let s := s <| path_kept_input := input_key |> in
      let s := s <+ n_confirmed +> in
      (HYBRID_CONFIRM, map, s).

Definition hybrid_after_confirm (s : hyb) (map : list Z) (overflowed : bool) : hyb :=
  let s := purge_check s in
  let s := s <| edge_cls := classify map |> in
  let '(new_bits, virgin) := has_new_bits (virgin_edge s) (edge_cls s) in
  let s := s <| virgin_edge := virgin |> in
  let s :=
    if c_true new_bits then
      let s := s <| virgin_atom_real := (has_new_bits (virgin_atom_real s) (path_kept s)).2 |> in
      let s := s <+ n_new_edges +> in
      if new_bits =? 2 then s <+ n_new_tuples +> else s
    else
      let s := s <| atom_check_up := {[ Z.shiftr (path_kept_cksum s) 16 ]} ∪ atom_check_up s |> in
      s <| atom_check_down := {[ Z.land (path_kept_cksum s) 0xffff ]} ∪ atom_check_down s |> in
  if negb overflowed && negb (path_kept_overflow s) then
    let slot := path_kept_cksum s mod CACHE_SLOTS in
    let s := s <| cache := <[slot := (path_kept_cksum s, map)]> (cache s) |> in
    remember_input s (path_kept_input s) map
  else s.

Definition hybrid_after_sample (s : hyb) (map : list Z) (overflowed : bool) : hyb :=
  if overflowed then s <+ n_sample_overflow +>
  else
    let s := s <+ n_sampled +> in
    let s := s <| edge_cls := classify map |> in
    let new_bits := peek_new_bits (virgin_edge s) (edge_cls s) in
    let s :=
      if c_true new_bits then
        let s := s <+ n_sample_new +> in
        let s := if new_bits =? 2 then s <+ n_sample_new_tuples +> else s in
        if last_filtered s then s <+ n_sample_new_filtered +> else s
      else s in
    s <| virgin_missed := (has_new_bits (virgin_missed s) (edge_cls s)).2 |>.

(** ** Reporting *)

(** The loop reads both maps at the same index. *)
Definition count_missed_tuples (s : hyb) : Z :=
  foldr (fun '(m, e) n => b2z (negb (m =? 255) && (e =? 255)) + n) 0
    (zip (virgin_missed s) (virgin_edge s)).

(** The rows [hybrid_write_stats] prints; hybrid_purges has two numbers. *)
Definition hybrid_write_stats (s : hyb) : list (string * list Z) :=
  let n := hstats s in
  [("hybrid_path_execs"%string, [path_execs s]); ("hybrid_filtered"%string, [n_filtered n]);
   ("hybrid_old_path"%string, [n_old_path n]); ("hybrid_confirmed"%string, [n_confirmed n]);
   ("hybrid_new_edges"%string, [n_new_edges n]); ("hybrid_new_tuples"%string, [n_new_tuples n]);
   ("hybrid_input_hits"%string, [n_input_hits n]); ("hybrid_cache_hits"%string, [n_cache_hits n]);
   ("hybrid_empty"%string, [n_empty n]); ("hybrid_purges"%string, [purge_real s; purge_attempt s])] ++
  if (n_sampled n =? 0) && (n_sample_overflow n =? 0) then []
  else
    [("sample_execs"%string, [n_sampled n]); ("sample_overflow"%string, [n_sample_overflow n]);
     ("sample_new_edges"%string, [n_sample_new n]);
     ("sample_new_tuples"%string, [n_sample_new_tuples n]);
     ("sample_new_filtered"%string, [n_sample_new_filtered n]);
     ("sample_missed_tuples"%string, [count_missed_tuples s])].

#[global] Arguments peek_new_bits : simpl never.
#[global] Arguments has_new_bits : simpl never.
#[global] Arguments classify : simpl never.
#[global] Arguments checksum : simpl never.
#[global] Arguments slot_hit : simpl never.
