(* ===== verification/HybridFacts.v ===== *)
(** * Properties of hybrid coverage (hybrid.c)

    The novelty test and its read-only variant, the contract that a discarded
    input shows AFL++ nothing new, the shadow of AFL++'s own map, the checksum
    filter, the stability of the map shown for a re-run input, and the
    invisibility of the sampling measurement. *)

From stdpp Require Import base numbers list gmap strings.
From Stdlib Require Import ZArith Lia Morphisms.
From S2P Require Import Prelude Hash Hybrid.

(** ** The novelty test *)

(** Every count class of [c] was already seen in [v]. *)
Definition covered (v c : list Z) : Prop :=
  forall i x y, v !! i = Some x -> c !! i = Some y -> Z.land y x = 0.

(** [v & ~c], entry by entry. *)
Fixpoint clear_bits (v c : list Z) : list Z :=
  match v, c with
  | x :: v', y :: c' => Z.land x (Z.lnot y) :: clear_bits v' c'
  | _, _ => v
  end.

Lemma clear_bits_lookup v c i :
  clear_bits v c !! i =
  match v !! i, c !! i with
  | Some x, Some y => Some (Z.land x (Z.lnot y))
  | Some x, None => Some x
  | None, _ => None
  end.
Proof.
  revert c i. induction v as [|x v IH]; intros [|y c] [|i]; simpl; try done.
  by destruct (v !! i).
Qed.

Lemma clear_bits_length v c : length (clear_bits v c) = length v.
Proof. revert c. induction v as [|x v IH]; intros [|y c]; simpl; by rewrite ?IH. Qed.

Lemma land_lnot_disjoint x y : Z.land y x = 0 -> Z.land x (Z.lnot y) = x.
Proof.
  intros H. apply Z.bits_inj'. intros n Hn. rewrite Z.land_spec, Z.lnot_spec by done.
  apply (f_equal (fun z => Z.testbit z n)) in H. rewrite Z.land_spec, Z.bits_0 in H.
  by destruct (Z.testbit y n), (Z.testbit x n).
Qed.

Lemma land_lnot_fix x y : Z.land x (Z.lnot y) = x -> Z.land y x = 0.
Proof.
  intros H. apply Z.bits_inj'. intros n Hn. rewrite Z.land_spec, Z.bits_0.
  apply (f_equal (fun z => Z.testbit z n)) in H. rewrite Z.land_spec, Z.lnot_spec in H by done.
  by destruct (Z.testbit y n), (Z.testbit x n).
Qed.

Lemma land_lnot_self x y : Z.land y (Z.land x (Z.lnot y)) = 0.
Proof.
  apply Z.bits_inj'. intros n Hn. rewrite !Z.land_spec, Z.lnot_spec, Z.bits_0 by done.
  by destruct (Z.testbit y n), (Z.testbit x n).
Qed.

Lemma covered_clear v c : covered (clear_bits v c) c.
Proof.
  intros i x y. rewrite clear_bits_lookup. intros Hx Hy. rewrite Hy in Hx.
  destruct (v !! i); simplify_eq. apply land_lnot_self.
Qed.

(** Clearing more bits keeps what was covered. *)
Lemma covered_mono v c d : covered v c -> covered (clear_bits v d) c.
Proof.
  intros Hc i x y. rewrite clear_bits_lookup. intros Hx Hy.
  destruct (v !! i) as [x0|] eqn:Hv; [| done]. specialize (Hc i x0 y Hv Hy).
  destruct (d !! i); simplify_eq; [| done]. by rewrite Z.land_assoc, Hc, Z.land_0_l.
Qed.

Lemma clear_covered v c : covered v c -> clear_bits v c = v.
Proof.
  intros Hc. apply list_eq. intros i. rewrite clear_bits_lookup.
  destruct (v !! i) as [x|] eqn:Hv; [| done]. destruct (c !! i) as [y|] eqn:Hy; [| done].
  f_equal. apply land_lnot_disjoint. by eapply Hc.
Qed.

Lemma c_true_land y x : c_true (Z.land y x) = false <-> Z.land y x = 0.
Proof. unfold c_true. rewrite negb_false_iff. apply Z.eqb_eq. Qed.

Lemma has_new_bits_go_virgin r v c : (has_new_bits_go r v c).2 = clear_bits v c.
Proof.
  revert r c. induction v as [|x v IH]; intros r [|y c]; try done. simpl.
  destruct (c_true (Z.land y x)) eqn:H.
  - rewrite <- (IH (if x =? 255 then 2 else if r >? 1 then r else 1)).
    by destruct (has_new_bits_go _ v c).
  - rewrite <- (IH r). apply c_true_land, land_lnot_disjoint in H.
    destruct (has_new_bits_go r v c). simpl. by rewrite H.
Qed.

Lemma peek_new_bits_go_max r v c :
  0 <= r <= 1 ->
  peek_new_bits_go r v c = Z.max r (peek_new_bits v c) /\ 0 <= peek_new_bits v c <= 2.
Proof.
  unfold peek_new_bits. revert r c. induction v as [|x v IH]; intros r [|y c] Hr; simpl; try lia.
  destruct (c_true (Z.land y x)); [| by apply IH]. destruct (x =? 255); [lia |].
  destruct (IH 1 c ltac:(lia)). lia.
Qed.

Lemma has_new_bits_go_ret r v c :
  0 <= r <= 2 -> (has_new_bits_go r v c).1 = Z.max r (peek_new_bits v c).
Proof.
  unfold peek_new_bits. revert r c. induction v as [|x v IH]; intros r [|y c] Hr; simpl; try lia.
  pose proof (peek_new_bits_go_max 1 v c ltac:(lia)) as [Hp Hb]. unfold peek_new_bits in *.
  destruct (c_true (Z.land y x)).
  - set (r' := if x =? 255 then 2 else if r >? 1 then r else 1).
    assert (0 <= r' <= 2) as Hr' by (unfold r'; destruct (x =? 255), (r >? 1) eqn:?; zbool; lia).
    specialize (IH r' c Hr'). destruct (has_new_bits_go r' v c) as [r2 vs]. simpl in *.
    rewrite IH. unfold r'. destruct (x =? 255); [lia |]. rewrite Hp.
    destruct (r >? 1) eqn:?; zbool; lia.
  - specialize (IH r c Hr). by destruct (has_new_bits_go r v c).
Qed.

Lemma has_new_bits_eq v c : has_new_bits v c = (peek_new_bits v c, clear_bits v c).
Proof.
  unfold has_new_bits. rewrite (surjective_pairing (has_new_bits_go 0 v c)).
  rewrite has_new_bits_go_virgin, has_new_bits_go_ret by lia.
  pose proof (peek_new_bits_go_max 0 v c ltac:(lia)). f_equal. lia.
Qed.

Lemma peek_zero v c : peek_new_bits v c = 0 <-> covered v c.
Proof.
  revert c. induction v as [|x v IH]; intros [|y c]; unfold peek_new_bits; simpl.
  1-3: split; [intros _ i ?? H1 H2 | done]; by rewrite ?lookup_nil in *.
  destruct (c_true (Z.land y x)) eqn:H.
  - split.
    + pose proof (peek_new_bits_go_max 1 v c ltac:(lia)). destruct (x =? 255); lia.
    + intros Hc. specialize (Hc 0%nat x y eq_refl eq_refl). apply c_true_land in Hc. congruence.
  - apply c_true_land in H. fold (peek_new_bits v c). rewrite IH. split.
    + intros Hc [|i] x' y' Hx Hy; simplify_eq/=; [done | by eapply Hc].
    + intros Hc i x' y' Hx Hy. by apply (Hc (S i) x' y').
Qed.

Lemma peek_two v c :
  peek_new_bits v c = 2 <->
  exists i y, v !! i = Some 255 /\ c !! i = Some y /\ Z.land y 255 <> 0.
Proof.
  revert c. induction v as [|x v IH]; intros [|y c]; unfold peek_new_bits; simpl.
  1-3: split; [done |]; intros (i & y' & H1 & H2 & _); by rewrite ?lookup_nil in *.
  pose proof (peek_new_bits_go_max 1 v c ltac:(lia)) as [Hp Hb].
  assert ((exists i y0, v !! i = Some 255 /\ c !! i = Some y0 /\ Z.land y0 255 <> 0) ->
    exists i y0, (x :: v) !! i = Some 255 /\ (y :: c) !! i = Some y0 /\ Z.land y0 255 <> 0) as Hup.
  { intros (i & y' & ?). by exists (S i), y'. }
  assert ((exists i y0, (x :: v) !! i = Some 255 /\ (y :: c) !! i = Some y0 /\ Z.land y0 255 <> 0) ->
    (x = 255 /\ Z.land y x <> 0) \/
    exists i y0, v !! i = Some 255 /\ c !! i = Some y0 /\ Z.land y0 255 <> 0) as Hdown.
  { intros ([|i] & y' & Hx & Hy & Hne); simplify_eq/=; [by left | right; eauto]. }
  destruct (c_true (Z.land y x)) eqn:H.
  - unfold c_true in H. zbool. destruct (Z.eqb_spec x 255) as [-> | Hx].
    + split; [intros _; by exists 0%nat, y | done].
    + rewrite Hp. rewrite <- IH in Hup, Hdown. split.
      * intros H2. apply Hup. lia.
      * intros [[? _] | H2]%Hdown; lia.
  - apply c_true_land in H. fold (peek_new_bits v c). rewrite <- IH in Hup, Hdown.
    split; [done |]. by intros [[_ ?] | ?]%Hdown.
Qed.

(** ** Framing of the purge *)

(** What [purge_check] leaves alone. *)
Definition purge_frame (s : hyb) :=
  (map_size s, virgin_atom_real s, virgin_edge s, virgin_missed s,
   (path_cls s, path_kept s, path_kept_cksum s, path_kept_overflow s, path_kept_input s),
   (last_filtered s, atom_check_up s, atom_check_down s, cache s, inputs s),
   (path_execs s, queued_atom_paths s, hstats s)).

Lemma purge_check_frame s : purge_frame (purge_check s) = purge_frame s.
Proof. unfold purge_check. cbn zeta. repeat case_if; done. Qed.

(** ** What AFL++ has been shown *)

(** The maps kept for later discards all went through a confirm: their classes
    are cleared in the shadow map. *)
Definition slots_known (s : hyb) (slots : gmap Z (Z * list Z)) : Prop :=
  forall slot k m, slots !! slot = Some (k, m) ->
    length m = map_size s /\ covered (virgin_edge s) (classify m).

Record hyb_inv (s : hyb) : Prop := {
  inv_edge_length : length (virgin_edge s) = map_size s;
  inv_cache : slots_known s (cache s);
  inv_inputs : slots_known s (inputs s)
}.

(** The invariant looks at four fields. *)
Definition shown_part (s : hyb) := (map_size s, virgin_edge s, cache s, inputs s).

Lemma hyb_inv_part s s' : shown_part s' = shown_part s -> hyb_inv s -> hyb_inv s'.
Proof.
  unfold shown_part. intros [= H1 H2 H3 H4] [Ha Hb Hc].
  split; unfold slots_known in *; by rewrite ?H1, ?H2, ?H3, ?H4.
Qed.

Lemma purge_check_shown s : shown_part (purge_check s) = shown_part s.
Proof.
  pose proof (purge_check_frame s) as H. unfold purge_frame, shown_part in *. by injection H as -> _ -> _ _ _ _ _ _ _ _ _ -> ->.
Qed.

Lemma hybrid_init_inv size : hyb_inv (hybrid_init size).
Proof.
  split; simpl; [apply length_replicate | |]; intros slot k m H; by rewrite lookup_empty in H.
Qed.

Lemma slot_hit_known s slots slot key m :
  slots_known s slots -> slot_hit slots slot key = Some m ->
  length m = map_size s /\ covered (virgin_edge s) (classify m).
Proof.
  unfold slot_hit. intros Hk. destruct (slots !! slot) as [[k m']|] eqn:Hs; [| done].
  case_if; [| done]. intros [= ->]. by eapply Hk.
Qed.

Lemma remember_input_inv s key m :
  hyb_inv s -> length m = map_size s -> covered (virgin_edge s) (classify m) ->
  hyb_inv (remember_input s key m).
Proof.
  intros [Ha Hb Hc] Hlen Hcov. unfold remember_input. case_if; [done |].
  split; try done. intros slot k m'. upd_simpl. rewrite lookup_insert_Some.
  intros [[_ [= _ <-]] | [_ Hs]]; [done |]. by eapply Hc.
Qed.

Lemma classify_zeros n : classify (replicate n 0) = replicate n 0.
Proof. unfold classify. by rewrite fmap_replicate. Qed.

Lemma discard_shows_known s map cksum key :
  hyb_inv s ->
  let '(m, s') := discard s map cksum key in
  hyb_inv s' /\ virgin_edge s' = virgin_edge s /\ map_size s' = map_size s /\
  length m = map_size s /\ covered (virgin_edge s) (classify m).
Proof.
  intros Hinv. unfold discard.
  destruct (if key =? 0 then None else _) as [m|] eqn:Hin.
  { destruct (key =? 0); [done |]. apply slot_hit_known with (s := s) in Hin as [??]; [| apply Hinv].
    split_and!; try done. by apply (hyb_inv_part s). }
  destruct (slot_hit (cache s) _ cksum) as [m|] eqn:Hc.
  - apply slot_hit_known with (s := s) in Hc as [Hl Hcov]; [| apply Hinv].
    split_and!; try done.
    + by apply (hyb_inv_part (remember_input s key m)), remember_input_inv.
    + upd_simpl. unfold remember_input. by case_if.
    + upd_simpl. unfold remember_input. by case_if.
  - split_and!; try done; [by apply (hyb_inv_part s) | by rewrite length_replicate |].
    rewrite classify_zeros. intros i x y _ [-> _]%lookup_replicate. apply Z.land_0_l.
Qed.

Lemma after_path_inv s map ov key v m s' :
  hyb_inv s -> hybrid_after_path s map ov key = (v, m, s') ->
  hyb_inv s' /\ virgin_edge s' = virgin_edge s /\ map_size s' = map_size s /\
  (v = HYBRID_DISCARD -> length m = map_size s /\ covered (virgin_edge s) (classify m)).
Proof.
  intros Hinv. unfold hybrid_after_path. cbn zeta.
  set (s1 := purge_check _).
  assert (shown_part s1 = shown_part s) as H1 by (unfold s1; by rewrite purge_check_shown).
  clearbody s1. pose proof (hyb_inv_part s s1 H1 Hinv) as Hi1.
  injection H1 as Hsz Hve _ _. rewrite <- Hsz, <- Hve. clear s Hinv Hsz Hve.
  case_if.
  - match goal with |- context [discard ?s2 map ?c key] =>
      pose proof (discard_shows_known s2 map c key) as Hd; destruct (discard s2 map c key) as [m' s2'] end.
    intros [= <- <- <-]. upd_simpl. destruct Hd as (Ha & Hb & Hc & Hd & He); [| done].
    by apply (hyb_inv_part s1).
  - rewrite has_new_bits_eq. case_if.
    + match goal with |- context [discard ?s2 map ?c key] =>
        pose proof (discard_shows_known s2 map c key) as Hd; destruct (discard s2 map c key) as [m' s2'] end.
      intros [= <- <- <-]. upd_simpl. destruct Hd as (Ha & Hb & Hc & Hd & He); [| done].
      by apply (hyb_inv_part s1).
    + intros [= <- <- <-]. upd_simpl. split_and!; try done. by apply (hyb_inv_part s1).
Qed.

(** Clearing bits of the shadow map keeps the invariant. *)
Lemma hyb_inv_clear s d :
  hyb_inv s -> hyb_inv (s <| virgin_edge := clear_bits (virgin_edge s) d |>).
Proof.
  intros [Ha Hb Hc]. split; upd_simpl.
  - by rewrite clear_bits_length.
  - intros slot k m H. destruct (Hb slot k m H). split; [done | by apply covered_mono].
  - intros slot k m H. destruct (Hc slot k m H). split; [done | by apply covered_mono].
Qed.

(** The state of [hybrid_after_confirm] before the map is remembered. *)
Lemma after_confirm_inv s map ov :
  hyb_inv s -> length map = map_size s ->
  hyb_inv (hybrid_after_confirm s map ov) /\
  virgin_edge (hybrid_after_confirm s map ov) = clear_bits (virgin_edge s) (classify map) /\
  map_size (hybrid_after_confirm s map ov) = map_size s.
Proof.
  intros Hinv Hlen. unfold hybrid_after_confirm. cbn zeta.
  set (s1 := purge_check s).
  assert (shown_part s1 = shown_part s) as H1 by (unfold s1; by rewrite purge_check_shown).
  clearbody s1. pose proof (hyb_inv_part s s1 H1 Hinv) as Hi1.
  injection H1 as Hsz Hve _ _. rewrite <- Hsz, <- Hve in *. clear s Hinv Hsz Hve.
  rewrite has_new_bits_eq. cbn [edge_cls virgin_edge upd].
  set (s2 := if c_true _ then _ else _).
  assert (shown_part s2 = (map_size s1, clear_bits (virgin_edge s1) (classify map),
    cache s1, inputs s1)) as H2.
  { unfold s2. repeat case_if; done. }
  clearbody s2.
  pose proof (hyb_inv_part (s1 <| virgin_edge := clear_bits (virgin_edge s1) (classify map) |>)
    s2 H2 (hyb_inv_clear s1 (classify map) Hi1)) as Hi2.
  injection H2 as Hsz Hve _ _. rewrite <- Hve, <- Hsz in *.
  assert (covered (virgin_edge s2) (classify map)) as Hcov by (rewrite Hve; apply covered_clear).
  case_if; [| done].
  assert (hyb_inv (s2 <| cache := <[path_kept_cksum s2 mod CACHE_SLOTS :=
    (path_kept_cksum s2, map)]> (cache s2) |>)) as Hi3.
  { destruct Hi2 as [Ha Hb Hc]. split; try done. intros slot k m. upd_simpl.
    rewrite lookup_insert_Some. intros [[_ [= _ <-]] | [_ Hs]]; [done |]. by eapply Hb. }
  split_and!; [by apply remember_input_inv | |]; unfold remember_input; by case_if.
Qed.

Lemma after_sample_shown s map ov : shown_part (hybrid_after_sample s map ov) = shown_part s.
Proof. unfold hybrid_after_sample. cbn zeta. repeat case_if; done. Qed.

(** ** The path checksum *)

(** C31: the checksum the filter and the cache are keyed on separates any two
    raw maps that differ inside a single aligned four-byte word: a change of
    up to four adjacent counters never goes unnoticed. *)
Theorem checksum_separates (size i : nat) (a b : list Z) :
  Z.of_nat size < 2 ^ 32 -> length a = size -> length b = size ->
  Forall byte_range a -> Forall byte_range b -> (4 * i + 4 <= size)%nat ->
  (forall j, ~ (4 * i <= j < 4 * i + 4)%nat -> a !! j = b !! j) -> a <> b ->
  checksum size a <> checksum size b.
Proof.
  intros Hsz Hla Hlb Ha Hb Hfit Hab Hne. unfold checksum. rewrite u32_small by lia.
  apply (hash32_separates a b _ _ i); try done; unfold word32; try lia.
  rewrite Z.shiftr_div_pow2 by lia. apply Nat2Z.inj_lt. rewrite Z2Nat.id by (apply Z.div_pos; lia).
  assert (Z.of_nat i + 1 <= Z.of_nat size / 2 ^ 2) by (apply Z.div_le_lower_bound; lia). lia.
Qed.
