(* ===== verification/HybridSession.v ===== *)
(** * Sessions of hybrid coverage

    A session is the sequence of test cases the proxy's main loop hands to
    hybrid.c (src/src/cs-proxy.c, the hybrid block of [main]): the path pass,
    then the confirming or the sampling pass the verdict asks for.  The file
    proves what AFL++ can rely on over a whole session. *)

From stdpp Require Import base numbers list gmap strings.
From Stdlib Require Import ZArith Lia Morphisms.
From S2P Require Import Prelude Hash Hybrid HybridFacts.

(** ** Test cases *)

(** One traced execution as hybrid.c sees it: the map the decoder filled and
    whether the trace overflowed. *)
Record pass := MkPass { p_map : list Z; p_overflow : bool }.

(** One test case: the path pass, the key of the input, what a second pass
    with branch broadcast would give, and whether a discard is sampled. *)
Record round := MkRound {
  r_path : pass;
  r_key : Z;
  r_edge : pass;
  r_sampled : bool
}.

(** The hybrid block of [main]: the map AFL++ reads and the state after it.
    A sampled discard puts the map chosen by [hybrid_after_path] back. *)
Definition hybrid_round (s : hyb) (r : round) : list Z * hyb :=
  let '(verdict, shown, s) :=
    hybrid_after_path s (p_map (r_path r)) (p_overflow (r_path r)) (r_key r) in
  match verdict with
  | HYBRID_CONFIRM =>
      (p_map (r_edge r), hybrid_after_confirm s (p_map (r_edge r)) (p_overflow (r_edge r)))
  | HYBRID_DISCARD =>
      (shown, if r_sampled r
              then hybrid_after_sample s (p_map (r_edge r)) (p_overflow (r_edge r)) else s)
  end.

Fixpoint session (s : hyb) (rs : list round) : list (list Z) * hyb :=
  match rs with
  | [] => ([], s)
  | r :: rs =>
      let '(shown, s) := hybrid_round s r in
      let '(shows, s) := session s rs in
      (shown :: shows, s)
  end.

(** Every map of the session has the size of the shared map. *)
Definition round_sized (n : nat) (r : round) : Prop :=
  length (p_map (r_path r)) = n /\ length (p_map (r_edge r)) = n.

(** AFL++'s own record of what it has seen, after it reads [maps] in order. *)
Definition afl_virgin (size : nat) (maps : list (list Z)) : list Z :=
  foldl (fun v m => (has_new_bits v (classify m)).2) (replicate size 255) maps.

Lemma session_app s rs1 rs2 :
  session s (rs1 ++ rs2) =
  let '(m1, s1) := session s rs1 in let '(m2, s2) := session s1 rs2 in (m1 ++ m2, s2).
Proof.
  revert s. induction rs1 as [|r rs1 IH]; intros s; simpl.
  { by destruct (session s rs2). }
  destruct (hybrid_round s r) as [m s1]. rewrite IH.
  destruct (session s1 rs1) as [ms s2]. by destruct (session s2 rs2).
Qed.

(** ** The shadow of AFL++'s map *)

(** One test case: the shadow map moves as AFL++'s does on the map shown, and
    a test case that is not confirmed shows it nothing. *)
Lemma hybrid_round_shadow s r :
  hyb_inv s -> round_sized (map_size s) r ->
  let '(m, s') := hybrid_round s r in
  hyb_inv s' /\ map_size s' = map_size s /\ length m = map_size s /\
  virgin_edge s' = clear_bits (virgin_edge s) (classify m).
Proof.
  intros Hinv [Hp He]. unfold hybrid_round.
  destruct (hybrid_after_path s _ _ _) as [[v m] s1] eqn:Hap.
  apply after_path_inv in Hap as (Hi & Hve & Hsz & Hd); [| done]. destruct v.
  - destruct (Hd eq_refl) as [Hl Hc]. rewrite clear_covered by done.
    destruct (r_sampled r); [| by rewrite Hve].
    pose proof (after_sample_shown s1 (p_map (r_edge r)) (p_overflow (r_edge r))) as Hs.
    split_and!; [by apply (hyb_inv_part s1) | | done |];
      unfold shown_part in Hs; injection Hs as H1 H2 _ _; congruence.
  - destruct (after_confirm_inv s1 (p_map (r_edge r)) (p_overflow (r_edge r))) as (H1 & H2 & H3);
      [done | congruence |].
    split_and!; [done | congruence | done | congruence].
Qed.

Lemma session_shadow s rs :
  hyb_inv s -> Forall (round_sized (map_size s)) rs ->
  let '(ms, s') := session s rs in
  hyb_inv s' /\ map_size s' = map_size s /\ Forall (fun m => length m = map_size s) ms /\
  virgin_edge s' = foldl (fun v m => (has_new_bits v (classify m)).2) (virgin_edge s) ms.
Proof.
  intros Hinv Hrs. revert s Hinv Hrs. induction rs as [|r rs IH]; intros s Hinv Hrs; [done |].
  apply Forall_cons in Hrs as [Hr Hrs]. simpl.
  pose proof (hybrid_round_shadow s r Hinv Hr) as H.
  destruct (hybrid_round s r) as [m s1]. destruct H as (Hi & Hsz & Hl & Hve).
  rewrite <- Hsz in Hrs. specialize (IH s1 Hi Hrs).
  destruct (session s1 rs) as [ms s2]. destruct IH as (Hi2 & Hsz2 & Hl2 & Hve2).
  rewrite Hve in Hve2. split_and!; [done | congruence | |].
  - constructor; [done |]. by rewrite <- Hsz.
  - rewrite Hve2. simpl. by rewrite has_new_bits_eq.
Qed.

Lemma session_init_shadow size rs maps s :
  Forall (round_sized size) rs -> session (hybrid_init size) rs = (maps, s) ->
  hyb_inv s /\ map_size s = size /\ virgin_edge s = afl_virgin size maps.
Proof.
  intros Hrs Hs. pose proof (session_shadow (hybrid_init size) rs (hybrid_init_inv size) Hrs) as H.
  rewrite Hs in H. destruct H as (Hi & Hsz & _ & Hve). split_and!; [done | done |].
  rewrite Hve. reflexivity.
Qed.

(** Only a confirming pass shows something new. *)
Lemma hybrid_round_new s r :
  hyb_inv s -> round_sized (map_size s) r ->
  peek_new_bits (virgin_edge s) (classify (hybrid_round s r).1) <> 0 ->
  (hybrid_after_path s (p_map (r_path r)) (p_overflow (r_path r)) (r_key r)).1.1 =
  HYBRID_CONFIRM /\ (hybrid_round s r).1 = p_map (r_edge r).
Proof.
  intros Hi Hr. unfold hybrid_round. destruct (hybrid_after_path s _ _ _) as [[v m] s1] eqn:Hap.
  apply after_path_inv in Hap as (_ & _ & _ & Hd); [| done]. destruct v; [| done].
  destruct (Hd eq_refl) as [Hl Hc]. intros Hne. by apply peek_zero in Hc.
Qed.

(** ** The checksum filter only grows *)

Definition filter_part (s : hyb) := (map_size s, atom_check_up s, atom_check_down s).

(** [s'] filters at least what [s] does. *)
Definition filter_grows (s s' : hyb) : Prop :=
  map_size s' = map_size s /\
  atom_check_up s ⊆ atom_check_up s' /\ atom_check_down s ⊆ atom_check_down s'.

#[export] Instance filter_grows_preorder : PreOrder filter_grows.
Proof.
  split; [by intros s |]. intros s1 s2 s3 (? & ? & ?) (? & ? & ?).
  split_and!; [congruence | set_solver | set_solver].
Qed.

Lemma filter_part_grows s s' : filter_part s' = filter_part s -> filter_grows s s'.
Proof. unfold filter_part, filter_grows. by intros [= -> -> ->]. Qed.

Lemma purge_check_filter s : filter_part (purge_check s) = filter_part s.
Proof.
  pose proof (purge_check_frame s) as H. unfold purge_frame, filter_part in *.
  by injection H as -> _ _ _ _ _ _ _ _ _ -> -> _ _ _ _ _.
Qed.

Lemma remember_input_filter s k m : filter_part (remember_input s k m) = filter_part s.
Proof. unfold remember_input. by case_if. Qed.

Lemma discard_filter s map c k : filter_part (discard s map c k).2 = filter_part s.
Proof.
  unfold discard. destruct (if k =? 0 then None else _); [done |].
  destruct (slot_hit (cache s) _ c); [| done]. simpl.
  transitivity (filter_part (remember_input s k l)); [done | apply remember_input_filter].
Qed.

Lemma after_path_filter s map ov k :
  filter_part (hybrid_after_path s map ov k).2 = filter_part s.
Proof.
  unfold hybrid_after_path. cbn zeta. set (s1 := purge_check _).
  assert (filter_part s1 = filter_part s) as <- by (unfold s1; by rewrite purge_check_filter).
  case_if; [| rewrite has_new_bits_eq; case_if; [| done]];
  match goal with |- context [discard ?s2 map ?c k] =>
    pose proof (discard_filter s2 map c k) as Hd; destruct (discard s2 map c k) end; exact Hd.
Qed.

Lemma after_confirm_filter s map ov : filter_grows s (hybrid_after_confirm s map ov).
Proof.
  unfold hybrid_after_confirm. cbn zeta. set (s1 := purge_check s).
  transitivity s1; [apply filter_part_grows, purge_check_filter |]. clearbody s1.
  rewrite has_new_bits_eq. set (s2 := if c_true _ then _ else _).
  transitivity s2.
  - unfold s2. repeat case_if; try done. split_and!; upd_simpl; [done | set_solver | set_solver].
  - case_if; [| done]. apply filter_part_grows. by rewrite remember_input_filter.
Qed.

Lemma after_sample_filter s map ov : filter_part (hybrid_after_sample s map ov) = filter_part s.
Proof. unfold hybrid_after_sample. cbn zeta. repeat case_if; done. Qed.

Lemma hybrid_round_filter s r : filter_grows s (hybrid_round s r).2.
Proof.
  unfold hybrid_round. pose proof (after_path_filter s (p_map (r_path r))
    (p_overflow (r_path r)) (r_key r)) as H.
  destruct (hybrid_after_path s _ _ _) as [[v m] s1]. simpl in H.
  transitivity s1; [by apply filter_part_grows |]. destruct v; [| apply after_confirm_filter].
  destruct (r_sampled r); [| done]. apply filter_part_grows, after_sample_filter.
Qed.

Lemma session_filter s rs : filter_grows s (session s rs).2.
Proof.
  revert s. induction rs as [|r rs IH]; intros s; simpl; [done |].
  pose proof (hybrid_round_filter s r) as H. destruct (hybrid_round s r) as [m s1].
  specialize (IH s1). destruct (session s1 rs). by transitivity s1.
Qed.

Lemma filtered_discards s map ov k :
  filtered s (checksum (map_size s) map) = true ->
  (hybrid_after_path s map ov k).1.1 = HYBRID_DISCARD /\
  last_filtered (hybrid_after_path s map ov k).2 = true.
Proof.
  intros Hf. unfold hybrid_after_path. cbn zeta. set (s1 := purge_check _).
  assert (filter_part s1 = filter_part s) as H1 by (unfold s1; by rewrite purge_check_filter).
  injection H1 as Hsz Hu Hd.
  assert (filtered (s1 <| path_cls := classify map |> <| last_filtered := false |>)
    (checksum (map_size s1) map) = true) as ->.
  { unfold filtered in *. upd_simpl. by rewrite Hsz, Hu, Hd. }
  match goal with |- context [discard ?s2 map ?c k] => set (s2' := s2) end.
  assert (last_filtered (discard s2' map (checksum (map_size s1) map) k).2 = true) as Hl.
  { unfold discard. destruct (if k =? 0 then None else _); [done |].
    destruct (slot_hit _ _ _); [| done]. simpl. unfold remember_input. by case_if. }
  destruct (discard s2' map _ k). done.
Qed.

(** An unrewarded confirm marks the path it confirmed. *)
Lemma after_confirm_marks s map ov :
  peek_new_bits (virgin_edge s) (classify map) = 0 ->
  filtered (hybrid_after_confirm s map ov) (path_kept_cksum s) = true.
Proof.
  intros H0. unfold hybrid_after_confirm. cbn zeta.
  pose proof (purge_check_frame s) as Hf. unfold purge_frame in Hf.
  set (s1 := purge_check s) in *. clearbody s1.
  injection Hf as _ _ Hve _ _ _ Hck _ _ _ _ _ _ _ _ _ _.
  rewrite has_new_bits_eq. upd_simpl. rewrite Hve, H0, Hck. cbn [c_true Z.eqb negb].
  case_if; unfold filtered; [unfold remember_input; case_if |]; upd_simpl;
    rewrite !bool_decide_true by set_solver; done.
Qed.

Lemma after_path_confirm s map ov k m s' :
  hybrid_after_path s map ov k = (HYBRID_CONFIRM, m, s') ->
  m = map /\ path_kept_cksum s' = checksum (map_size s) map /\
  path_kept_input s' = k /\ path_kept_overflow s' = ov /\ path_kept s' = classify map /\
  inputs s' = inputs s /\ virgin_edge s' = virgin_edge s /\ map_size s' = map_size s.
Proof.
  unfold hybrid_after_path. cbn zeta.
  pose proof (purge_check_frame (s <| path_execs := inc64 (path_execs s) |>)) as Hf.
  set (s1 := purge_check _) in *. clearbody s1. unfold purge_frame in Hf.
  injection Hf as Hsz _ Hve _ _ _ _ _ _ _ _ _ _ Hin _ _ _. upd_simpl.
  case_if; [by destruct (discard _ _ _ _) |].
  rewrite has_new_bits_eq. case_if; [by destruct (discard _ _ _ _) |].
  intros [= <- <-]. upd_simpl. rewrite Hsz, Hve, Hin. done.
Qed.

Lemma filtered_grows s s' c : filter_grows s s' -> filtered s c = true -> filtered s' c = true.
Proof.
  unfold filtered. intros (_ & Hu & Hd) [H1 H2]%andb_true_iff.
  apply bool_decide_eq_true in H1, H2. apply andb_true_iff.
  split; apply bool_decide_eq_true; set_solver.
Qed.

Lemma after_path_marks s s1 path m edge ov ov' k :
  hybrid_after_path s path ov k = (HYBRID_CONFIRM, m, s1) ->
  peek_new_bits (virgin_edge s) (classify edge) = 0 ->
  filtered (hybrid_after_confirm s1 edge ov') (checksum (map_size s) path) = true.
Proof.
  intros (_ & Hck & _ & _ & _ & _ & Hve & _)%after_path_confirm H0.
  rewrite <- Hck. apply after_confirm_marks. by rewrite Hve.
Qed.

(** ** The map remembered for an input *)

(** A test case keyed [k'] leaves the slot of [k] alone. *)
Definition key_compatible (k k' : Z) : Prop :=
  k' = 0 \/ k' = k \/ k' mod INPUT_SLOTS <> k mod INPUT_SLOTS.

Definition remembers (s : hyb) (k : Z) (m : list Z) : Prop :=
  slot_hit (inputs s) (k mod INPUT_SLOTS) k = Some m.

Lemma remembers_part s s' k m : inputs s' = inputs s -> remembers s k m -> remembers s' k m.
Proof. unfold remembers. by intros ->. Qed.

Lemma slot_hit_insert_ne slots slot slot' key e :
  slot' <> slot -> slot_hit (<[slot' := e]> slots) slot key = slot_hit slots slot key.
Proof. intros Hne. unfold slot_hit. by rewrite lookup_insert_ne. Qed.

Lemma slot_hit_insert_eq slots slot key m :
  slot_hit (<[slot := (key, m)]> slots) slot key = Some m.
Proof. unfold slot_hit. by rewrite lookup_insert_eq, Z.eqb_refl. Qed.

Lemma remember_input_keeps s k k' m m' :
  key_compatible k k' -> remembers s k m -> remembers (remember_input s k' m') k m.
Proof.
  intros Hc Hm. unfold remember_input. case_if; [done |]. zbool.
  destruct Hc as [? | [-> | Hne]]; [done | |].
  - apply bool_decide_eq_false in H0. unfold remembers in Hm. rewrite Hm in H0. by destruct H0.
  - unfold remembers. upd_simpl. by rewrite slot_hit_insert_ne.
Qed.

Lemma remember_input_stores s k m :
  k <> 0 -> slot_hit (inputs s) (k mod INPUT_SLOTS) k = None ->
  remembers (remember_input s k m) k m.
Proof.
  intros Hk Hn. unfold remember_input. rewrite Hn.
  destruct (Z.eqb_spec k 0); [done |]. simpl. apply slot_hit_insert_eq.
Qed.

Lemma discard_keeps s map c k k' m :
  key_compatible k k' -> remembers s k m -> remembers (discard s map c k').2 k m.
Proof.
  intros Hc Hm. unfold discard. destruct (if k' =? 0 then None else _); [done |].
  destruct (slot_hit (cache s) _ c); [| done]. simpl.
  by apply (remembers_part (remember_input s k' l)), remember_input_keeps.
Qed.

Lemma discard_replays s map c k m :
  k <> 0 -> remembers s k m -> (discard s map c k).1 = m.
Proof.
  intros Hk Hm. unfold discard. destruct (Z.eqb_spec k 0); [done |].
  unfold remembers in Hm. by rewrite Hm.
Qed.

Lemma purge_check_inputs s : inputs (purge_check s) = inputs s.
Proof. pose proof (purge_check_shown s) as H. by injection H. Qed.

(** The path pass keeps what is remembered, and a discard replays it. *)
Lemma after_path_keeps s map ov k k' m :
  key_compatible k k' -> remembers s k m ->
  remembers (hybrid_after_path s map ov k').2 k m /\
  (k' = k -> k <> 0 -> (hybrid_after_path s map ov k').1.1 = HYBRID_DISCARD ->
   (hybrid_after_path s map ov k').1.2 = m).
Proof.
  intros Hc Hm. unfold hybrid_after_path. cbn zeta. set (s1 := purge_check _).
  assert (remembers s1 k m) as Hm1
    by (apply (remembers_part s); [unfold s1; by rewrite purge_check_inputs | done]).
  clearbody s1.
  assert (forall s2 c, inputs s2 = inputs s1 ->
    remembers (discard s2 map c k').2 k m /\ (k' = k -> k <> 0 -> (discard s2 map c k').1 = m)) as Hd.
  { intros s2 c H2. assert (remembers s2 k m) by by apply (remembers_part s1).
    split; [by apply discard_keeps |]. intros -> Hk. by apply discard_replays. }
  case_if; [| rewrite has_new_bits_eq; case_if; [| done]];
  match goal with |- context [discard ?s2 map ?c k'] =>
    specialize (Hd s2 c eq_refl); destruct (discard s2 map c k') end;
  simpl in *; naive_solver.
Qed.

Lemma after_confirm_keeps s map ov k m :
  key_compatible k (path_kept_input s) -> remembers s k m ->
  remembers (hybrid_after_confirm s map ov) k m.
Proof.
  intros Hc Hm. unfold hybrid_after_confirm. cbn zeta.
  pose proof (purge_check_frame s) as Hf. unfold purge_frame in Hf.
  set (s1 := purge_check s) in *. clearbody s1.
  injection Hf as _ _ _ _ _ _ _ _ Hk _ _ _ _ Hin _ _ _.
  rewrite has_new_bits_eq. set (s2 := if c_true _ then _ else _).
  assert (inputs s2 = inputs s /\ path_kept_input s2 = path_kept_input s) as [Hi2 Hk2].
  { unfold s2. repeat case_if; upd_simpl; done. }
  clearbody s2. case_if; [| by apply (remembers_part s)].
  apply remember_input_keeps; [upd_simpl; by rewrite Hk2 |].
  by apply (remembers_part s).
Qed.

(** A complete confirm remembers its map for an input that had none. *)
Lemma after_confirm_stores s map :
  path_kept_overflow s = false -> path_kept_input s <> 0 ->
  slot_hit (inputs s) (path_kept_input s mod INPUT_SLOTS) (path_kept_input s) = None ->
  remembers (hybrid_after_confirm s map false) (path_kept_input s) map.
Proof.
  intros Ho Hk0 Hn. unfold hybrid_after_confirm. cbn zeta.
  pose proof (purge_check_frame s) as Hf. unfold purge_frame in Hf.
  set (s1 := purge_check s) in *. clearbody s1.
  injection Hf as _ _ _ _ _ _ _ Hov Hk _ _ _ _ Hin _ _ _.
  rewrite has_new_bits_eq. set (s2 := if c_true _ then _ else _).
  assert (inputs s2 = inputs s /\ path_kept_input s2 = path_kept_input s /\
          path_kept_overflow s2 = false) as (Hi2 & Hk2 & Ho2).
  { unfold s2. repeat case_if; upd_simpl; rewrite ?Hov; done. }
  clearbody s2. rewrite Ho2. simpl. rewrite Hk2. apply remember_input_stores; [done |].
  upd_simpl. by rewrite Hi2.
Qed.

Lemma after_sample_keeps s map ov k m :
  remembers s k m -> remembers (hybrid_after_sample s map ov) k m.
Proof.
  apply remembers_part. pose proof (after_sample_shown s map ov) as H.
  unfold shown_part in H. by injection H.
Qed.

Lemma hybrid_round_keeps s r k m :
  key_compatible k (r_key r) -> remembers s k m -> remembers (hybrid_round s r).2 k m.
Proof.
  intros Hc Hm. unfold hybrid_round.
  destruct (after_path_keeps s (p_map (r_path r)) (p_overflow (r_path r)) k (r_key r) m Hc Hm)
    as [H1 _].
  destruct (hybrid_after_path s _ _ _) as [[v sh] s1] eqn:Hap. simpl in H1. destruct v.
  - destruct (r_sampled r); [by apply after_sample_keeps | done].
  - apply after_path_confirm in Hap as (_ & _ & Hk & _). apply after_confirm_keeps; [| done].
    by rewrite Hk.
Qed.

Lemma session_keeps s rs k m :
  Forall (fun r => key_compatible k (r_key r)) rs ->
  remembers s k m -> remembers (session s rs).2 k m.
Proof.
  intros Hrs. revert s. induction Hrs as [|r rs Hr Hrs IH]; intros s Hm; simpl; [done |].
  pose proof (hybrid_round_keeps s r k m Hr Hm) as H1. destruct (hybrid_round s r) as [sh s1].
  specialize (IH s1 H1). by destruct (session s1 rs).
Qed.

(** ** Properties *)

(** C25: the novelty test is AFL's: it returns 2 when a byte of the map hits a
    tuple never seen, 1 when only new counts of known tuples are hit, 0 exactly
    when nothing is new; it agrees with the read-only peek, clears exactly the
    bits shown, and a second look at the same map finds nothing. *)
Theorem has_new_bits_is_novelty (v c : list Z) :
  let '(r, v') := has_new_bits v c in
  r = peek_new_bits v c /\ 0 <= r <= 2 /\
  (r = 0 <-> covered v c) /\
  (r = 2 <-> exists i y, v !! i = Some 255 /\ c !! i = Some y /\ Z.land y 255 <> 0) /\
  v' = clear_bits v c /\ has_new_bits v' c = (0, v').
Proof.
  rewrite has_new_bits_eq. split_and!; try done.
  - apply (peek_new_bits_go_max 0 v c ltac:(lia)).
  - apply (peek_new_bits_go_max 0 v c ltac:(lia)).
  - apply peek_zero.
  - apply peek_two.
  - rewrite has_new_bits_eq, (clear_covered (clear_bits v c) c) by apply covered_clear.
    f_equal. apply peek_zero, covered_clear.
Qed.

(** C2: virgin_edge is the exact shadow of AFL++'s own record: after any
    session it equals what AFL++ computes from the maps it was shown, and the
    next test case shows AFL++ something new only through a confirming pass,
    in which case the map shown is that pass's. *)
Theorem virgin_edge_shadows_afl (size : nat) (rs : list round) (r : round) :
  Forall (round_sized size) rs -> round_sized size r ->
  let '(maps, s) := session (hybrid_init size) rs in
  let '(shown, s') := hybrid_round s r in
  virgin_edge s = afl_virgin size maps /\ length shown = size /\
  (peek_new_bits (afl_virgin size maps) (classify shown) <> 0 ->
   (hybrid_after_path s (p_map (r_path r)) (p_overflow (r_path r)) (r_key r)).1.1 =
   HYBRID_CONFIRM /\ shown = p_map (r_edge r)).
Proof.
  intros Hrs Hr. destruct (session (hybrid_init size) rs) as [maps s] eqn:Hs.
  destruct (session_init_shadow size rs maps s Hrs Hs) as (Hi & Hsz & Hve).
  rewrite <- Hve. rewrite <- Hsz in Hr.
  pose proof (hybrid_round_shadow s r Hi Hr) as H2. pose proof (hybrid_round_new s r Hi Hr) as H3.
  destruct (hybrid_round s r) as [shown s']. destruct H2 as (_ & _ & Hl & _).
  split_and!; [done | congruence | done].
Qed.

(** C23: a path whose confirming pass showed no new edge is never confirmed
    again: whatever the session does afterwards, a path map with the same
    checksum is filtered and discarded. *)
Theorem fruitless_path_filtered (s s1 : hyb) (path m edge path' : list Z) (ov ov' ov'' : bool)
    (k k' : Z) (rs : list round) :
  hybrid_after_path s path ov k = (HYBRID_CONFIRM, m, s1) ->
  peek_new_bits (virgin_edge s) (classify edge) = 0 ->
  checksum (map_size s) path' = checksum (map_size s) path ->
  let s2 := (session (hybrid_after_confirm s1 edge ov') rs).2 in
  let '(verdict, _, s3) := hybrid_after_path s2 path' ov'' k' in
  verdict = HYBRID_DISCARD /\ last_filtered s3 = true.
Proof.
  intros Hap H0 Heq s2. pose proof (after_path_marks s s1 path m edge ov ov' k Hap H0) as Hm.
  pose proof (session_filter (hybrid_after_confirm s1 edge ov') rs : filter_grows _ s2) as Hg.
  clearbody s2.
  destruct (filtered_discards s2 path' ov'' k') as [Hv Hl].
  { destruct (after_path_confirm s path ov k m s1 Hap) as (_ & _ & _ & _ & _ & _ & _ & Hsz).
    pose proof (after_confirm_filter s1 edge ov') as (Hsz1 & _). pose proof Hg as (Hsz2 & _).
    rewrite Hsz2, Hsz1, Hsz, Heq. by apply (filtered_grows _ s2) in Hm. }
  by destruct (hybrid_after_path s2 path' ov'' k') as [[v ?] s3].
Qed.

(** C24: re-runs of an input read the same map: once a complete confirming
    pass gave the edge map for an input with no map yet, every later discard
    of that input shows that very map, as long as the other inputs in between
    do not use its slot. *)
Theorem rerun_reads_same_map (s s1 : hyb) (path m edge path' : list Z) (ov' : bool)
    (k : Z) (rs : list round) :
  hybrid_after_path s path false k = (HYBRID_CONFIRM, m, s1) ->
  k <> 0 -> slot_hit (inputs s) (k mod INPUT_SLOTS) k = None ->
  Forall (fun r => key_compatible k (r_key r)) rs ->
  let s2 := (session (hybrid_after_confirm s1 edge false) rs).2 in
  let '(verdict, shown, _) := hybrid_after_path s2 path' ov' k in
  verdict = HYBRID_DISCARD -> shown = edge.
Proof.
  intros (_ & _ & Hk & Ho & _ & Hin & _)%after_path_confirm Hk0 Hn Hrs s2.
  assert (remembers (hybrid_after_confirm s1 edge false) k edge) as Hm.
  { rewrite <- Hk. apply after_confirm_stores; rewrite ?Hk, ?Hin; done. }
  apply (session_keeps _ rs) in Hm; [| done]. change (remembers s2 k edge) in Hm. clearbody s2.
  pose proof (after_path_keeps s2 path' ov' k k edge ltac:(right; by left) Hm) as [_ Hr].
  destruct (hybrid_after_path s2 path' ov' k) as [[v sh] s3]. by apply Hr.
Qed.
