(* ===== verification/HybridSampling.v ===== *)
(** * Sampling and purging of hybrid coverage

    Two states that differ only in what the sampling measurement keeps are
    equivalent; every operation of hybrid.c respects the equivalence, so a
    sampled session shows AFL++ the same maps as one without sampling.  The
    purge of the path map happens at a bounded period. *)

From stdpp Require Import base numbers list gmap strings.
From Stdlib Require Import ZArith Lia Morphisms.
From S2P Require Import Prelude Hash Hybrid HybridFacts HybridSession.

(** ** Observational equivalence *)

(** The state without the sampling shadow, the scratch map a pass overwrites
    before reading, and the counters, which only the reports read. *)
Definition visible (s : hyb) : hyb :=
  s <| virgin_missed := [] |> <| edge_cls := [] |> <| hstats := stats_zero |>.

#[export] Instance hyb_equiv : Equiv hyb := fun s t => visible s = visible t.

#[export] Instance hyb_equivalence : Equivalence (≡@{hyb}).
Proof.
  split; [done | |].
  - intros s t H. symmetry. exact H.
  - intros s t u H1 H2. etrans; [exact H1 | exact H2].
Qed.

(** Equivalent states agree on every field but the hidden ones. *)
Ltac visible_eq s t H :=
  destruct s, t; unfold equiv, hyb_equiv, visible in H; cbn in H; injection H; intros; subst.

#[export] Instance purge_check_proper : Proper ((≡) ==> (≡)) purge_check.
Proof.
  intros s t H. visible_eq s t H. unfold purge_check, purge_due. cbn.
  repeat case_if; reflexivity.
Qed.

#[export] Instance remember_input_proper : Proper ((≡) ==> (=) ==> (=) ==> (≡)) remember_input.
Proof.
  intros s t H k ? <- m ? <-. visible_eq s t H. unfold remember_input. cbn.
  case_if; reflexivity.
Qed.

Lemma discard_proper s t map c k :
  s ≡ t ->
  (discard s map c k).1 = (discard t map c k).1 /\
  (discard s map c k).2 ≡ (discard t map c k).2.
Proof.
  intros H.
  assert (inputs s = inputs t /\ cache s = cache t /\ map_size s = map_size t) as (Hi & Hc & Hs).
  { by visible_eq s t H. }
  unfold discard. rewrite Hi, Hc, Hs.
  destruct (if k =? 0 then None else _) as [m|]; [split; [done | exact H] |].
  destruct (slot_hit (cache t) _ c) as [m|]; [| split; [done | exact H]].
  split; [done |]. exact (remember_input_proper s t H k k eq_refl m m eq_refl).
Qed.

(** Same verdict, same map, equivalent states. *)
Lemma after_path_proper s t map ov k :
  s ≡ t ->
  (hybrid_after_path s map ov k).1 = (hybrid_after_path t map ov k).1 /\
  (hybrid_after_path s map ov k).2 ≡ (hybrid_after_path t map ov k).2.
Proof.
  intros H. unfold hybrid_after_path. cbn zeta.
  set (s1 := purge_check _). set (t1 := purge_check _).
  assert (s1 ≡ t1) as H1 by (apply purge_check_proper; by visible_eq s t H).
  clearbody s1 t1. clear s t H. rename s1 into s, t1 into t, H1 into H.
  assert (forall s' t' c, s' ≡ t' ->
    (let '(m, x) := discard s' map c k in (HYBRID_DISCARD, m, x)).1 =
    (let '(m, x) := discard t' map c k in (HYBRID_DISCARD, m, x)).1 /\
    (let '(m, x) := discard s' map c k in (HYBRID_DISCARD, m, x)).2 ≡
    (let '(m, x) := discard t' map c k in (HYBRID_DISCARD, m, x)).2) as Hd.
  { intros s' t' c Hst. pose proof (discard_proper s' t' map c k Hst) as [Ha Hb].
    destruct (discard s' map c k), (discard t' map c k). simpl in *. by rewrite Ha. }
  assert (forall c, filtered (s <| path_cls := classify map |> <| last_filtered := false |>) c =
    filtered (t <| path_cls := classify map |> <| last_filtered := false |>) c) as Hf
    by (intros c; by visible_eq s t H).
  assert (map_size s = map_size t /\ virgin_atom s = virgin_atom t) as [Hs Hv]
    by (by visible_eq s t H).
  rewrite Hs, Hf. case_if; [apply Hd; by visible_eq s t H |].
  upd_simpl. rewrite Hv, has_new_bits_eq. case_if; [apply Hd; by visible_eq s t H |].
  split; [done |]. by visible_eq s t H.
Qed.

Lemma after_confirm_proper s t map ov :
  s ≡ t -> hybrid_after_confirm s map ov ≡ hybrid_after_confirm t map ov.
Proof.
  intros H%purge_check_proper. unfold hybrid_after_confirm. cbn zeta.
  revert H. generalize (purge_check s), (purge_check t). clear s t. intros s t H.
  assert (virgin_edge s = virgin_edge t) as Hv by by visible_eq s t H.
  upd_simpl. rewrite Hv, !has_new_bits_eq.
  set (s2 := if c_true _ then _ else _). set (t2 := if c_true _ then _ else _).
  assert (s2 ≡ t2) as H2.
  { unfold s2, t2. visible_eq s t H. repeat case_if; reflexivity. }
  assert (path_kept_overflow s2 = path_kept_overflow t2 /\ path_kept_cksum s2 = path_kept_cksum t2 /\
    cache s2 = cache t2 /\ path_kept_input s2 = path_kept_input t2) as (Ho & Hc & Hca & Hi).
  { clearbody s2 t2. by visible_eq s2 t2 H2. }
  clearbody s2 t2. rewrite Ho. case_if; [| done]. rewrite Hi.
  apply remember_input_proper; [| done | done]. rewrite Hc, Hca. by visible_eq s2 t2 H2.
Qed.

(** Sampling only touches the hidden part. *)
Lemma after_sample_equiv s map ov : hybrid_after_sample s map ov ≡ s.
Proof. unfold hybrid_after_sample. cbn zeta. repeat case_if; reflexivity. Qed.

(** ** Sessions *)

Definition unsampled (r : round) : round := MkRound (r_path r) (r_key r) (r_edge r) false.

Lemma hybrid_round_unsampled s t r :
  s ≡ t ->
  (hybrid_round s r).1 = (hybrid_round t (unsampled r)).1 /\
  (hybrid_round s r).2 ≡ (hybrid_round t (unsampled r)).2.
Proof.
  intros H. unfold hybrid_round. cbn.
  pose proof (after_path_proper s t (p_map (r_path r)) (p_overflow (r_path r)) (r_key r) H) as [Ha Hb].
  destruct (hybrid_after_path s _ _ _) as [[v m] s1], (hybrid_after_path t _ _ _) as [[v' m'] t1].
  simpl in *. injection Ha as -> ->. destruct v'; cbn.
  - split; [done |]. destruct (r_sampled r); [| done]. by rewrite after_sample_equiv.
  - split; [done |]. by apply after_confirm_proper.
Qed.

Lemma session_unsampled s t rs :
  s ≡ t ->
  (session s rs).1 = (session t (unsampled <$> rs)).1 /\
  (session s rs).2 ≡ (session t (unsampled <$> rs)).2.
Proof.
  revert s t. induction rs as [|r rs IH]; intros s t H; [done |].
  rewrite fmap_cons. cbn [session].
  pose proof (hybrid_round_unsampled s t r H) as [Ha Hb].
  destruct (hybrid_round s r) as [m s1], (hybrid_round t (unsampled r)) as [m' t1].
  simpl in *. subst m'. destruct (IH s1 t1 Hb) as [Hc Hd].
  destruct (session s1 rs), (session t1 (unsampled <$> rs)). simpl in *. subst. split; [done | exact Hd].
Qed.

(** ** The purge period *)

Definition purge_part (s : hyb) := (real_execs s, pre_real_execs s, purge_interval s).

(** Passes since the last purge attempt stay below the interval, which stays
    below its top level. *)
Definition purge_inv (s : hyb) : Prop :=
  0 <= purge_interval s <= PURGE_INTERVAL_LEVEL4 /\
  u64 (real_execs s - pre_real_execs s) < Z.max 1 (purge_interval s).

Lemma purge_inv_part s s' : purge_part s' = purge_part s -> purge_inv s -> purge_inv s'.
Proof. unfold purge_part, purge_inv. by intros [= -> -> ->]. Qed.

Lemma u64_of_d_nonneg d : 0 <= u64_of_d d.
Proof. destruct d as [| | | []]; cbn; try lia. apply u64_bound. Qed.

Lemma next_interval_bound q e a r : 0 <= next_interval q e a r <= PURGE_INTERVAL_LEVEL4.
Proof.
  unfold next_interval. cbn zeta. set (i := u64_of_d _).
  assert (0 <= i) by apply u64_of_d_nonneg. clearbody i.
  case_if; unfold PURGE_INTERVAL_LEVEL4 in *; lia.
Qed.

Lemma purge_check_inv s :
  0 <= purge_interval s <= PURGE_INTERVAL_LEVEL4 -> purge_inv (purge_check s).
Proof.
  intros Hi. unfold purge_check. cbn zeta. case_if.
  { split; [done |]. upd_simpl. lia. }
  set (s2 := if purge_due _ then _ else _).
  assert (0 <= purge_interval s2 <= PURGE_INTERVAL_LEVEL4).
  { unfold s2. repeat case_if; upd_simpl; try done. apply next_interval_bound. }
  clearbody s2. split; [done |]. upd_simpl. rewrite Z.sub_diag, u64_small by lia. lia.
Qed.

Lemma discard_purge s map c k : purge_part (discard s map c k).2 = purge_part s.
Proof.
  unfold discard, remember_input. destruct (if k =? 0 then None else _); [done |].
  destruct (slot_hit (cache s) _ c); [| done]. cbn. by case_if.
Qed.

Lemma after_path_purge s map ov k :
  purge_part (hybrid_after_path s map ov k).2 =
  purge_part (purge_check (s <| path_execs := inc64 (path_execs s) |>)).
Proof.
  unfold hybrid_after_path. cbn zeta. set (s1 := purge_check _). clearbody s1.
  case_if; [| rewrite has_new_bits_eq; case_if; [| done]];
  match goal with |- context [discard ?s2 map ?c k] =>
    pose proof (discard_purge s2 map c k) as Hd; destruct (discard s2 map c k) end; exact Hd.
Qed.

Lemma after_confirm_purge s map ov :
  purge_part (hybrid_after_confirm s map ov) = purge_part (purge_check s).
Proof.
  unfold hybrid_after_confirm, remember_input. cbn zeta. set (s1 := purge_check s). clearbody s1.
  rewrite has_new_bits_eq. repeat case_if; done.
Qed.

Lemma after_sample_purge s map ov :
  purge_part (hybrid_after_sample s map ov) = purge_part s.
Proof. unfold hybrid_after_sample. cbn zeta. repeat case_if; done. Qed.

Lemma hybrid_round_purge s r : purge_inv s -> purge_inv (hybrid_round s r).2.
Proof.
  intros Hi. unfold hybrid_round.
  pose proof (after_path_purge s (p_map (r_path r)) (p_overflow (r_path r)) (r_key r)) as H1.
  destruct (hybrid_after_path s _ _ _) as [[v m] s1]. cbn [snd] in *.
  assert (purge_inv s1) as Hi1 by (eapply purge_inv_part; [exact H1 |]; apply purge_check_inv, Hi).
  destruct v; cbn [snd].
  - destruct (r_sampled r); [| done].
    eapply purge_inv_part; [apply after_sample_purge | done].
  - eapply purge_inv_part; [apply after_confirm_purge |]. apply purge_check_inv, Hi1.
Qed.

Lemma session_purge s rs : purge_inv s -> purge_inv (session s rs).2.
Proof.
  revert s. induction rs as [|r rs IH]; intros s Hi; [done |]. simpl.
  pose proof (hybrid_round_purge s r Hi) as H1. destruct (hybrid_round s r) as [m s1].
  specialize (IH s1 H1). by destruct (session s1 rs).
Qed.

(** ** Properties *)


(** Over any session the purge interval stays within its top level of
    30000 and fewer passes than the interval separate two purge attempts: the
    next pass that reaches it attempts a purge, whatever the doubles computed. *)
Theorem purge_period_bounded (size : nat) (rs : list round) :
  let s := (session (hybrid_init size) rs).2 in
  0 <= purge_interval s <= 30000 /\
  u64 (real_execs s - pre_real_execs s) < Z.max 1 (purge_interval s).
Proof. cbn zeta. apply (session_purge (hybrid_init size) rs). split; [done | by vm_compute]. Qed.
