(* ===== verification/Boards.v ===== *)
(** * The boards (src/include/known-boards.h)

    Each [do_registration] function describes the CoreSight components of a
    board to CSAL: it is modelled by the calls it makes, in order, and by what
    it leaves in [struct cs_devices_t].  A device is named by its address, or,
    where the code asks CSAL for it, by the CPU whose trace source it is. *)

From stdpp Require Import base numbers list strings relations.
From Stdlib Require Import ZArith Lia.
From S2P Require Import Prelude.

(** ** Calls *)

(** A device at an address, the trace source of a CPU, or the replicator made
    by [cs_atb_add_replicator]. *)
Inductive cs_dev := Dev (addr : Z) | CpuSource (cpu : Z) | Replicator (outs : Z).

#[export] Instance cs_dev_eq_dec : EqDecision cs_dev.
Proof. solve_decision. Defined.

(** The trigger ports of CSAL that are named. *)
Inductive trig_port :=
  | TRIGOUT_ETB_FULL | TRIGOUT_ETB_ACQCOMP | TRIGIN_ETB_TRIGIN | TRIGIN_ETB_FLUSHIN
  | TRIGOUT_STM_ASYNCOUT | TRIGOUT_STM_TRIGOUTSPTE | TRIGOUT_STM_TRIGOUTSW
  | TRIGOUT_STM_TRIGOUTHETE.

Inductive reg_call :=
  | cs_exclude_range (lo hi : Z)
  | cs_register_romtable (addr : Z)
  | cs_device_register (addr : Z)
  | cs_device_get (addr : Z)
  | cs_device_set_affinity (d : cs_dev) (cpu : Z)
  | cs_atb_add_replicator (outs : Z)
  | cs_atb_register (src : cs_dev) (out : Z) (dst : cs_dev) (inp : Z)
  | cs_stm_config_master (d : cs_dev) (master base : Z)
  | cs_stm_select_master (d : cs_dev) (master : Z)
  | cs_cti_connect_trigsrc (d : cs_dev) (p : trig_port) (cti : cs_dev) (n : Z)
  | cs_cti_connect_trigdst (cti : cs_dev) (n : Z) (d : cs_dev) (p : trig_port)
  | cs_trace_enable_reg (d : cs_dev).

(** [cs_device_set_affinity(cs_device_register(addr), cpu)]. *)
Definition register_for (addr cpu : Z) : list reg_call :=
  [cs_device_register addr; cs_device_set_affinity (Dev addr) cpu].

(** What the program uses of [struct cs_devices_t]. *)
Record cs_devices := MkDevices {
  dv_etb : option cs_dev;
  trace_sinks : list cs_dev;
  num_trace_sinks : Z;
  itm : option cs_dev;
  tpiu : option cs_dev;
  tsgen : option cs_dev;
  cpu_ids : list Z
}.

#[export] Instance eta_cs_devices : Eta cs_devices := fun d =>
  MkDevices (dv_etb d) (trace_sinks d) (num_trace_sinks d) (itm d) (tpiu d) (tsgen d) (cpu_ids d).

(** The static [devices] of common.c. *)
Definition devices_zero : cs_devices := MkDevices None [] 0 None None None [].

Definition etr_mode : bool := true.

(** The integers below [n], for the [for] loops. *)
Definition below (n : nat) : list Z := Z.of_nat <$> seq 0 n.

(** ** Registration *)

Section Registration.
(** The array [cpu_id] of CSAL's board support. *)
Context (cpu_id : Z -> Z).

Definition do_registration_thunderx2 (devices : cs_devices) : list reg_call * cs_devices :=
  let num_cs_cpu := 112%nat in
  let cti_base := 0x410420000 in
  let etm_base := 0x410440000 in
  let funnel := Dev 0x410001000 in
  let etf := Dev 0x410002000 in
  let rep := Replicator 2 in
  let etr := Dev 0x410004000 in
  let tpiu := Dev 0x410005000 in
  ([cs_register_romtable 0x410000000] ++
   (below num_cs_cpu ≫= fun i =>
      register_for (cti_base + 0x100000 * i) i ++ register_for (etm_base + 0x100000 * i) i) ++
   [cs_device_get 0x410001000;
    cs_atb_register (CpuSource 0) 0 funnel 0;
    cs_atb_register (CpuSource 1) 0 funnel 1;
    cs_atb_register (CpuSource 2) 0 funnel 2;
    cs_device_get 0x410002000;
    cs_atb_register funnel 0 etf 0;
    cs_atb_add_replicator 2;
    cs_atb_register etf 0 rep 0;
    cs_device_get 0x410004000;
    cs_device_get 0x410005000;
    cs_atb_register rep 0 etr 0;
    cs_atb_register rep 1 tpiu 0],
   devices <| dv_etb := Some (if etr_mode then etr else etf) |>
           <| trace_sinks := if etr_mode then [etf] else [] |>
           <| cpu_ids := cpu_id <$> below num_cs_cpu |>).

(** CTI, PMU and ETM of CPU [i] on the Jetson boards and the ZCU 104: one base
    address per kind. *)
Definition register_kind (base step : Z) : list reg_call :=
  below 4 ≫= fun i => register_for (base + step * i) i.

(** The trigger connections of the Jetson boards. *)
Definition jetson_triggers (etf etr stm sys_cti : cs_dev) : list reg_call :=
  [cs_cti_connect_trigsrc etf TRIGOUT_ETB_FULL sys_cti 0;
   cs_cti_connect_trigsrc etf TRIGOUT_ETB_ACQCOMP sys_cti 1;
   cs_cti_connect_trigdst sys_cti 0 etf TRIGIN_ETB_TRIGIN;
   cs_cti_connect_trigdst sys_cti 1 etf TRIGIN_ETB_FLUSHIN;
   cs_cti_connect_trigsrc etr TRIGOUT_ETB_FULL sys_cti 2;
   cs_cti_connect_trigsrc etr TRIGOUT_ETB_ACQCOMP sys_cti 3;
   cs_cti_connect_trigdst sys_cti 2 etr TRIGIN_ETB_TRIGIN;
   cs_cti_connect_trigdst sys_cti 3 etr TRIGIN_ETB_FLUSHIN;
   cs_cti_connect_trigsrc stm TRIGOUT_STM_ASYNCOUT sys_cti 4;
   cs_cti_connect_trigsrc stm TRIGOUT_STM_TRIGOUTSPTE sys_cti 5;
   cs_cti_connect_trigsrc stm TRIGOUT_STM_TRIGOUTSW sys_cti 6].

(** The four sources into their funnel. *)
Definition sources_to (funnel : cs_dev) : list reg_call :=
  (fun i => cs_atb_register (CpuSource i) 0 funnel i) <$> below 4.

Definition do_registration_jetson_nano (devices : cs_devices) : list reg_call * cs_devices :=
  let funnel_a57 := Dev 0x73010000 in
  let funnel_major := Dev 0x72010000 in
  let etf := Dev 0x72030000 in
  let rep := Dev 0x72040000 in
  let etr := Dev 0x72050000 in
  let tpiu := Dev 0x72060000 in
  let stm := Dev 0x72070000 in
  let sys_cti := Dev 0x72020000 in
  ([cs_register_romtable 0x72000000] ++
   register_kind 0x73420000 0x100000 ++
   register_kind 0x73430000 0x100000 ++
   register_kind 0x73440000 0x100000 ++
   [cs_device_get 0x73010000] ++ sources_to funnel_a57 ++
   [cs_device_get 0x72010000; cs_device_get 0x72030000; cs_device_get 0x72040000;
    cs_device_get 0x72050000; cs_device_get 0x72060000; cs_device_get 0x72070000;
    cs_atb_register funnel_a57 0 funnel_major 0;
    cs_atb_register stm 0 funnel_major 3;
    cs_atb_register funnel_major 0 etf 0;
    cs_atb_register etf 0 rep 0;
    cs_atb_register rep 0 etr 0;
    cs_atb_register rep 1 tpiu 0;
    cs_stm_config_master stm 0 0x71000000;
    cs_stm_select_master stm 0;
    cs_device_register 0x72020000] ++ jetson_triggers etf etr stm sys_cti,
   devices <| itm := Some stm |>
           <| dv_etb := Some (if etr_mode then etr else etf) |>
           <| trace_sinks := if etr_mode then [etf] else [] |>
           <| cpu_ids := cpu_id <$> below 4 |>).

Definition do_registration_jetsontx2 (devices : cs_devices) : list reg_call * cs_devices :=
  let funnel_a57 := Dev 0x9010000 in
  let funnel_major := Dev 0x8010000 in
  let stm := Dev 0x8070000 in
  let etf := Dev 0x8030000 in
  let rep := Dev 0x8040000 in
  let etr := Dev 0x8050000 in
  let tpiu := Dev 0x8060000 in
  let sys_cti := Dev 0x8020000 in
  ([cs_register_romtable 0x8000000] ++
   register_kind 0x9820000 0x100000 ++
   register_kind 0x9830000 0x100000 ++
   register_kind 0x9840000 0x100000 ++
   [cs_device_get 0x9010000] ++ sources_to funnel_a57 ++
   [cs_device_get 0x8010000; cs_device_get 0x8070000; cs_device_get 0x8030000;
    cs_device_get 0x8040000; cs_device_get 0x8050000; cs_device_get 0x8060000;
    cs_atb_register funnel_a57 0 funnel_major 0;
    cs_atb_register stm 0 funnel_major 3;
    cs_atb_register funnel_major 0 etf 0;
    cs_atb_register etf 0 rep 0;
    cs_atb_register rep 1 etr 0;
    cs_atb_register rep 0 tpiu 0;
    cs_stm_config_master stm 0 0x0a000000;
    cs_stm_select_master stm 0;
    cs_device_register 0x8020000] ++ jetson_triggers etf etr stm sys_cti,
   devices <| itm := Some stm |>
           <| dv_etb := Some (if etr_mode then etr else etf) |>
           <| trace_sinks := if etr_mode then [etf] else [] |>
           <| cpu_ids := replicate 4 0xD07 |>).

Definition do_registration_hi1616 (devices : cs_devices) : list reg_call * cs_devices :=
  let etm_base i := aget [0x44c40000; 0x45440000; 0x45c40000; 0x46440000] i in
  let cluster_funnel i := Dev (aget [0x44802000; 0x45002000; 0x45802000; 0x46002000] i) in
  let etf i := Dev (aget [0x44803000; 0x45003000; 0x45803000; 0x46003000] i) in
  let main_funnel := Dev 0x44005000 in
  let etr := Dev 0x44001000 in
  ([cs_register_romtable 0x44000000;
    cs_device_register 0x44802000; cs_device_register 0x45002000;
    cs_device_register 0x45802000; cs_device_register 0x46002000] ++
   (below 4 ≫= fun i => below 4 ≫= fun j =>
      register_for (etm_base i + j * 0x100000) (4 * i + j) ++
      [cs_atb_register (CpuSource (4 * i + j)) 0 (cluster_funnel i) j]) ++
   [cs_device_register 0x44803000; cs_device_register 0x45003000;
    cs_device_register 0x45803000; cs_device_register 0x46003000;
    cs_device_register 0x44005000] ++
   (below 4 ≫= fun i =>
      [cs_atb_register (cluster_funnel i) 0 (etf i) 0; cs_atb_register (etf i) 0 main_funnel i]) ++
   [cs_device_register 0x44001000; cs_device_register 0x44004000;
    cs_atb_register main_funnel 0 etr 0;
    cs_trace_enable_reg (etf 0)],
   devices <| cpu_ids := replicate 16 0xD08 |>
           <| dv_etb := Some (if etr_mode then etr else etf 0) |>
           <| trace_sinks := if etr_mode then etf <$> below 4 else [] |>).

Definition do_registration_zcu104 (devices : cs_devices) : list reg_call * cs_devices :=
  let stm := Dev 0xFE9C0000 in
  let tsgen_ := Dev 0xFE900000 in
  let funnel1 := Dev 0xFE920000 in
  let funnel2 := Dev 0xFE930000 in
  let etf1 := Dev 0xFE940000 in
  let etf2 := Dev 0xFE950000 in
  let rep := Replicator 2 in
  let etr := Dev 0xFE970000 in
  let tpiu_ := Dev 0xFE980000 in
  let cti0 := Dev 0xFE990000 in
  let cti1 := Dev 0xFE9A0000 in
  ([cs_exclude_range 0xFE9E0000 0xFEC00000; cs_register_romtable 0xFE800000] ++
   register_kind 0xFEC20000 0x100000 ++
   register_kind 0xFEC30000 0x100000 ++
   register_kind 0xFEC40000 0x100000 ++
   [cs_device_get 0xFE9C0000;
    cs_stm_config_master stm 0 0xF8000000;
    cs_stm_select_master stm 0;
    cs_device_get 0xFE9D0000; cs_device_get 0xFE900000; cs_device_get 0xFE920000] ++
   sources_to funnel1 ++
   [cs_device_get 0xFE940000;
    cs_atb_register funnel1 0 etf1 0;
    cs_device_get 0xFE930000;
    cs_atb_register stm 0 funnel2 0;
    cs_atb_register etf1 0 funnel2 2;
    cs_device_get 0xFE950000;
    cs_atb_register funnel2 0 etf2 0;
    cs_atb_add_replicator 2;
    cs_atb_register etf2 0 rep 0;
    cs_device_get 0xFE970000;
    cs_atb_register rep 0 etr 0;
    cs_device_get 0xFE980000;
    cs_atb_register rep 1 tpiu_ 0;
    cs_device_register 0xFE990000; cs_device_register 0xFE9A0000;
    cs_cti_connect_trigsrc etf1 TRIGOUT_ETB_FULL cti0 0;
    cs_cti_connect_trigsrc etf1 TRIGOUT_ETB_ACQCOMP cti0 1;
    cs_cti_connect_trigsrc etf2 TRIGOUT_ETB_FULL cti0 2;
    cs_cti_connect_trigsrc etf2 TRIGOUT_ETB_ACQCOMP cti0 3;
    cs_cti_connect_trigdst cti0 0 etf1 TRIGIN_ETB_FLUSHIN;
    cs_cti_connect_trigdst cti0 1 etf1 TRIGIN_ETB_TRIGIN;
    cs_cti_connect_trigdst cti0 2 etf2 TRIGIN_ETB_FLUSHIN;
    cs_cti_connect_trigdst cti0 3 etf2 TRIGIN_ETB_TRIGIN;
    cs_cti_connect_trigsrc etr TRIGOUT_ETB_FULL cti0 4;
    cs_cti_connect_trigsrc etr TRIGOUT_ETB_ACQCOMP cti0 5;
    cs_cti_connect_trigdst cti0 4 etr TRIGIN_ETB_FLUSHIN;
    cs_cti_connect_trigdst cti0 5 etr TRIGIN_ETB_TRIGIN;
    cs_cti_connect_trigdst cti0 6 tpiu_ TRIGIN_ETB_FLUSHIN;
    cs_cti_connect_trigdst cti0 7 tpiu_ TRIGIN_ETB_TRIGIN;
    cs_cti_connect_trigsrc stm TRIGOUT_STM_TRIGOUTSPTE cti1 4;
    cs_cti_connect_trigsrc stm TRIGOUT_STM_TRIGOUTSW cti1 5;
    cs_cti_connect_trigsrc stm TRIGOUT_STM_TRIGOUTHETE cti1 6;
    cs_cti_connect_trigsrc stm TRIGOUT_STM_ASYNCOUT cti1 7],
   devices <| itm := Some stm |>
           <| dv_etb := Some etr |>
           <| tpiu := Some tpiu_ |>
           <| trace_sinks := [etf1; etf2] |>
           <| num_trace_sinks := 2 |>
           <| tsgen := Some tsgen_ |>
           <| cpu_ids := replicate 4 0xD03 |>).

(** ** The table *)

(** The bits of [etr_axictl], by CSAL's names. *)
Inductive axictl := PROT_CTL_B1 | AXCACHE_OS | WR_BURST_16 | WR_BURST_4.

Definition AXICTL_COMMON : list axictl := [PROT_CTL_B1; AXCACHE_OS].

Record board := MkBoard {
  do_registration : cs_devices -> list reg_call * cs_devices;
  n_cpu : nat;
  hardware : string;
  etr_axictl : list axictl
}.

Definition known_boards : list board :=
  [MkBoard do_registration_thunderx2 32 "Marvell ThunderX2" (AXICTL_COMMON ++ [WR_BURST_16]);
   MkBoard do_registration_jetson_nano 4 "Jetson Nano" (AXICTL_COMMON ++ [WR_BURST_4]);
   MkBoard do_registration_jetsontx2 4 "Jetson TX2" (AXICTL_COMMON ++ [WR_BURST_4]);
   MkBoard do_registration_hi1616 16 "Hi1616" [];
   MkBoard do_registration_zcu104 4 "ZCU 104" (AXICTL_COMMON ++ [WR_BURST_16])].

End Registration.

(** C division and remainder truncate. *)
Definition get_trace_id (hardware : string) (cpu : Z) : Z :=
  if String.eqb hardware "Marvell ThunderX2" then 0x10 + (Z.rem cpu 28) * 4 + Z.quot cpu 28
  else if String.eqb hardware "Jetson TX2" then
    if cpu =? 0 then 0x10 + cpu
    else if (3 <=? cpu) && (cpu <=? 5) then 0x10 + cpu - 2
    else -1
  else if String.eqb hardware "Jetson Nano" then 0x10 + cpu
  else if String.eqb hardware "Hi1616" then 0x10 + cpu
  else if String.eqb hardware "ZCU 104" then 0x10 + cpu
  else -1.

(** ** Routes *)

(** A link of the trace bus. *)
Definition atb_link (calls : list reg_call) (a b : cs_dev) : Prop :=
  exists out inp, cs_atb_register a out b inp ∈ calls.

(** The links as pairs, and the ports they occupy. *)
Definition links (calls : list reg_call) : list (cs_dev * cs_dev) :=
  omap (fun c => match c with cs_atb_register a _ b _ => Some (a, b) | _ => None end) calls.
Definition out_ports (calls : list reg_call) : list (cs_dev * Z) :=
  omap (fun c => match c with cs_atb_register a out _ _ => Some (a, out) | _ => None end) calls.
Definition in_ports (calls : list reg_call) : list (cs_dev * Z) :=
  omap (fun c => match c with cs_atb_register _ _ b inp => Some (b, inp) | _ => None end) calls.

(** The devices reached from [a] in at most [n] links. *)
Fixpoint downstream (n : nat) (ls : list (cs_dev * cs_dev)) (a : cs_dev) : list cs_dev :=
  match n with
  | O => [a]
  | S n => a :: (filter (fun l => l.1 = a) ls ≫= fun l => downstream n ls l.2)
  end.

Lemma links_atb calls a b : (a, b) ∈ links calls <-> atb_link calls a b.
Proof.
  unfold links, atb_link. rewrite list_elem_of_omap. split.
  - intros (c & Hc & Hs). destruct c; try done. simplify_eq. eauto.
  - intros (o & i & Hc). eexists. split; [done |]. done.
Qed.

Lemma downstream_rtc n calls a b : b ∈ downstream n (links calls) a -> rtc (atb_link calls) a b.
Proof.
  revert a. induction n as [|n IH]; intros a; cbn [downstream].
  - intros ->%list_elem_of_singleton. apply rtc_refl.
  - intros [-> | Hb]%elem_of_cons; [apply rtc_refl |].
    apply list_elem_of_bind in Hb as ([x y] & Hb & [Hx Hl]%list_elem_of_filter).
    cbn in *. subst x. eapply rtc_l; [by apply links_atb | by apply IH].
Qed.

(** Every link is followed downstream when there are at most [n] of them in a
    row; six are in a row on the boards. *)
Definition ROUTE_MAX : nat := 6.

(** The CPUs whose source is connected: the ThunderX2 funnel has three inputs. *)
Definition connected (b : board) : list Z :=
  if String.eqb (hardware b) "Marvell ThunderX2" then below 3 else below (n_cpu b).

(** What is checked of one board. *)
Definition board_ok (b : board) : bool :=
  let '(calls, dv) := do_registration b devices_zero in
  let ls := links calls in
  match dv_etb dv with
  | None => false
  | Some sink =>
      forallb (fun c =>
        bool_decide (sink ∈ downstream ROUTE_MAX ls (CpuSource c)) &&
        existsb (fun f => bool_decide (f ∈ downstream ROUTE_MAX ls (CpuSource c)) &&
                          bool_decide (sink ∈ downstream ROUTE_MAX ls f)) (trace_sinks dv))
        (connected b) &&
      forallb (fun c => bool_decide (c ∈ connected b) ||
                        forallb (fun l => bool_decide (l.1 <> CpuSource c)) ls) (below (n_cpu b)) &&
      bool_decide (NoDup (in_ports calls)) && bool_decide (NoDup (out_ports calls))
  end.

(** The calls of a board do not depend on the CPU identifiers. *)
Lemma known_boards_ok cpu_id : forallb board_ok (known_boards cpu_id) = true.
Proof. vm_compute. reflexivity. Qed.

(** ** Properties *)

(** C36: on every board of the table, the trace of each connected CPU reaches
    the sink the program reads, through one of the FIFOs it drives, along the
    registered trace-bus links, and no port carries two links; on the
    ThunderX2 the CPUs above 2 have no link at all. *)
Theorem boards_route_trace (cpu_id : Z -> Z) (b : board) :
  b ∈ known_boards cpu_id ->
  let '(calls, dv) := do_registration b devices_zero in
  exists sink, dv_etb dv = Some sink /\
    (forall c, c ∈ connected b ->
       rtc (atb_link calls) (CpuSource c) sink /\
       exists fifo, fifo ∈ trace_sinks dv /\
         rtc (atb_link calls) (CpuSource c) fifo /\ rtc (atb_link calls) fifo sink) /\
    (forall c d, c ∈ below (n_cpu b) -> atb_link calls (CpuSource c) d -> c ∈ connected b) /\
    NoDup (in_ports calls) /\ NoDup (out_ports calls).
Proof.
  intros Hb. pose proof (Is_true_eq_left _ (known_boards_ok cpu_id)) as Hok.
  rewrite forallb_True, Forall_forall in Hok. specialize (Hok b Hb). unfold board_ok in Hok.
  destruct (do_registration b devices_zero) as [calls dv].
  destruct (dv_etb dv) as [sink|]; [| done]. exists sink. split; [done |].
  apply andb_prop_elim in Hok as [[[Hc Hn]%andb_prop_elim Hi]%andb_prop_elim Ho].
  rewrite !forallb_True, !Forall_forall in *.
  split_and!; [| | by eapply bool_decide_unpack | by eapply bool_decide_unpack].
  - intros c Hin. specialize (Hc c Hin). apply andb_prop_elim in Hc as [Hs Hf].
    split; [by eapply downstream_rtc, bool_decide_unpack |].
    apply existb_True, Exists_exists in Hf as (f & Hf & [H1 H2]%andb_prop_elim).
    exists f. split_and!; [done | |]; by eapply downstream_rtc, bool_decide_unpack.
  - intros c d Hin Hl. specialize (Hn c Hin). apply orb_prop_elim in Hn as [Hn | Hn];
      [by eapply bool_decide_unpack |].
    rewrite forallb_True, Forall_forall in Hn. apply links_atb in Hl.
    specialize (Hn _ Hl). apply bool_decide_unpack in Hn. done.
Qed.

(** The trace identifiers of two CPUs that have one differ on each board, and
    every identifier fits the seven bits of an ATB identifier. *)
Lemma trace_ids_distinct (cpu_id : Z -> Z) (b : board) (c d : Z) :
  b ∈ known_boards cpu_id -> 0 <= c < Z.of_nat (n_cpu b) -> 0 <= d < Z.of_nat (n_cpu b) ->
  get_trace_id (hardware b) c <> -1 -> get_trace_id (hardware b) c = get_trace_id (hardware b) d ->
  c = d /\ 0x10 <= get_trace_id (hardware b) c < 0x80.
Proof.
  intros Hb Hc Hd. unfold known_boards in Hb. rewrite !elem_of_cons in Hb.
  destruct Hb as [-> | [-> | [-> | [-> | [-> | []%not_elem_of_nil]]]]]; cbn [n_cpu hardware] in *;
    unfold get_trace_id; cbn [String.eqb Ascii.eqb Bool.eqb].
  - rewrite !Z.rem_mod_nonneg, !Z.quot_div_nonneg by lia.
    pose proof (Z.div_mod c 28 ltac:(lia)). pose proof (Z.mod_pos_bound c 28 ltac:(lia)).
    pose proof (Z.div_mod d 28 ltac:(lia)). pose proof (Z.mod_pos_bound d 28 ltac:(lia)).
    assert (0 <= c / 28 < 2) by (split; [apply Z.div_pos | apply Z.div_lt_upper_bound]; lia).
    assert (0 <= d / 28 < 2) by (split; [apply Z.div_pos | apply Z.div_lt_upper_bound]; lia).
    lia.
  - lia.
  - repeat case_if; lia.
  - lia.
  - lia.
Qed.

(** Only the ZCU 104 says how many FIFOs it has: on the other boards the loops
    over [num_trace_sinks] do nothing, though a FIFO is registered. *)
Lemma fifos_not_counted (cpu_id : Z -> Z) (b : board) :
  b ∈ known_boards cpu_id -> hardware b <> "ZCU 104"%string ->
  let dv := (do_registration b devices_zero).2 in
  num_trace_sinks dv = 0 /\ trace_sinks dv <> [].
Proof.
  intros Hb Hz. unfold known_boards in Hb. rewrite !elem_of_cons in Hb.
  by destruct Hb as [-> | [-> | [-> | [-> | [-> | []%not_elem_of_nil]]]]].
Qed.
