(* ===== verification/MapInfo.v ===== *)
(** * Memory maps, decoder arguments and the u-dma-buf (src/src/utils.c)

    [setup_map_info] picks the executable file mappings of the traced process
    out of /proc/<pid>/maps; [export_decoder_args] writes them for the offline
    decoder; [get_udmabuf_info] reads where the trace buffer is.  The files, as
    read, and the mapping calls are the class [MapsEnv]. *)

From stdpp Require Import base numbers list strings.
From Stdlib Require Import ZArith Lia Ascii.
From S2P Require Import Prelude Cstr.

(** ** Text *)

Definition newline : ascii := ascii_of_nat 10.

(** [strchr]: the text from the first [c]. *)
Fixpoint strchr (s : string) (c : ascii) : option string :=
  match s with
  | EmptyString => None
  | String d s' => if bool_decide (d = c) then Some s else strchr s' c
  end.

(** [strstr(hay, pat) != NULL]. *)
Fixpoint contains (hay pat : string) : bool :=
  String.prefix pat hay || match hay with String _ hay => contains hay pat | EmptyString => false end.

(** The lines [getline] returns in turn, without their newline. *)
Fixpoint lines (s : string) : list string :=
  match s with
  | EmptyString => []
  | String c s =>
      if bool_decide (c = newline) then EmptyString :: lines s
      else match lines s with [] => [String c EmptyString] | l :: ls => String c l :: ls end
  end.

(** ** The table *)

Definition PATH_MAX : nat := 4096.
Definition PAGE_SIZE : Z := 0x1000.
Definition RANGE_MAX : Z := 2.
Definition MAP_FAILED : Z := u64 (-1).

Record map_info := MkMap {
  m_start : Z;
  m_end : Z;
  m_offset : Z;
  m_buf : Z;
  m_path : string
}.

#[export] Instance eta_map_info : Eta map_info := fun m =>
  MkMap (m_start m) (m_end m) (m_offset m) (m_buf m) (m_path m).

(** The variables [sscanf] fills: they keep their value over the lines. *)
Record scan := MkScan { sc_start : Z; sc_end : Z; sc_x : ascii; sc_offset : Z }.

#[export] Instance eta_scan : Eta scan := fun s =>
  MkScan (sc_start s) (sc_end s) (sc_x s) (sc_offset s).

Class MapsEnv := {
  proc_maps : Z -> option string;          (* /proc/<pid>/maps *)
  CS_TRACE_LIB : option string;
  open_ro : string -> bool;
  mmap_ro : string -> Z -> Z -> option Z;  (* path, size, offset; None is MAP_FAILED *)
  uninit : scan;                           (* what the stack held *)
  args_open : bool;                        (* fopen of the arguments file *)
  fprintf_ok : nat -> bool;                (* its n-th write *)
  udmabuf_dir : Z -> bool;
  udmabuf_attr : Z -> string -> option string; (* phys_addr and size, as read *)
  proc_modules : list string               (* the texts fgets returns *)
}.

Section MapInfo.
Context `{MapsEnv}.

(** ["%lx-%lx %c%c%c%c %lx"]: conversions up to the first that fails. *)
Definition sscanf_maps (line : string) (sc : scan) : scan :=
  match scan_lx line with
  | Some (start, String "-" r) =>
      let sc := sc <| sc_start := start |> in
      match scan_lx r with
      | Some (end_, r) =>
          let sc := sc <| sc_end := end_ |> in
          match skip_ws r with
          | String _ (String _ (String x r)) =>
              let sc := sc <| sc_x := x |> in
              match r with
              | String _ r =>
                  match scan_lx (skip_ws r) with
                  | Some (offset, _) => sc <| sc_offset := offset |>
                  | None => sc
                  end
              | EmptyString => sc
              end
          | _ => sc
          end
      | None => sc
      end
  | Some (start, _) => sc <| sc_start := start |>
  | None => sc
  end.

(** The last slot is for a mapping of the library CS_TRACE_LIB names. *)
Definition is_trace_lib (line : string) : bool :=
  match CS_TRACE_LIB, strchr line "/" with
  | Some lib, Some path => contains path lib
  | _, _ => false
  end.

(** The body of the [while]. *)
Definition map_line (info_count_max : Z) (st : scan * list map_info) (line : string)
    : scan * list map_info :=
  let '(sc, maps) := st in
  let sc := sscanf_maps line sc in
  let count := zlen maps in
  if negb (bool_decide (sc_x sc = "x"%char)) then (sc, maps)
  else if count >=? info_count_max then (sc, maps)
  else if (count =? info_count_max - 1) && negb (is_trace_lib line) then (sc, maps)
  else
    match strchr line "/" with
    | None => (sc, maps)
    | Some path =>
        (sc, maps ++ [MkMap (sc_start sc) (sc_end sc) (sc_offset sc) 0 (str_take (PATH_MAX - 1) path)])
    end.

(** One turn of the second loop; [open] fails with -1, which the test < -1
    lets through, and [mmap] then fails. *)
Definition map_file (m : map_info) : option map_info :=
  let buf_size := ALIGN_UP (u64 (m_end m - m_start m)) PAGE_SIZE in
  let buf :=
    if open_ro (m_path m)
    then default MAP_FAILED (mmap_ro (m_path m) buf_size (m_offset m)) else MAP_FAILED in
  if buf =? 0 then None else Some (m <| m_buf := buf |>).

(** The return value and the filled part of the table. *)
Definition setup_map_info (pid info_count_max : Z) : Z * list map_info :=
  match proc_maps pid with
  | None => (-1, [])
  | Some text =>
      let '(_, maps) := foldl (map_line info_count_max) (uninit, []) (lines text) in
      match mapM map_file maps with
      | None => (-1, maps)
      | Some maps => (zlen maps, maps)
      end
  end.

(** ** The decoder's arguments *)

(** The [n]-th write onward; what is in the file and whether all succeeded. *)
Fixpoint write_all (n : nat) (chunks : list string) : string * bool :=
  match chunks with
  | [] => (EmptyString, true)
  | c :: chunks =>
      if fprintf_ok n then let '(rest, ok) := write_all (S n) chunks in (c +:+ rest, ok)
      else (EmptyString, false)
  end.

Definition range_args (m : map_info) : string :=
  " " +:+ m_path m +:+ " 0x" +:+ fmt_lx (m_start m) +:+ " 0x" +:+ fmt_lx (m_end m).

(** [%x] prints the identifier as an unsigned int. *)
Definition export_decoder_args (trace_id : Z) (trace_path : string) (maps : list map_info)
    (count : Z) : Z * option string :=
  if trace_id <? 0 then (-1, None)
  else if negb args_open then (-1, None)
  else
    let '(text, ok) :=
      write_all 0 ([" " +:+ trace_path; " 0x" +:+ fmt_lx (u32 trace_id); " " +:+ fmt_d count]%string ++
                   (range_args <$> take (Z.to_nat count) maps)) in
    (if ok then 0 else -1, Some text).

(** [dump_map_info]. *)
Definition dump_map_info (maps : list map_info) : string :=
  foldr (fun m rest => "[0x" +:+ fmt_lx (m_start m) +:+ "-0x" +:+ fmt_lx (m_end m) +:+ "]@0x" +:+
    fmt_lx (m_offset m) +:+ ": " +:+ m_path m +:+ String newline rest) EmptyString maps.

(** ** The u-dma-buf *)

Definition LONG_MAX64 : Z := 2 ^ 63 - 1.

(** [sscanf(s, "%ld", &v)], the value as the size_t it is stored to. *)
Definition scan_ld (s : string) : option Z :=
  let '(neg, s1) := scan_sign (skip_ws s) in
  match s1 with
  | String c _ =>
      if is_digit c then
        let '(v, _) := scan_digits s1 0 in
        Some (u64 (if neg then Z.max (- 2 ^ 63) (- v) else Z.min LONG_MAX64 v))
      else None
  | EmptyString => None
  end.

(** The return value and what [phys_addr] and [size] hold afterwards: an
    attribute that does not parse leaves the old value. *)
Definition get_udmabuf_info (udmabuf_num phys_addr size : Z) : Z * Z * Z :=
  if negb (udmabuf_dir udmabuf_num) then (-1, phys_addr, size)
  else
    match udmabuf_attr udmabuf_num "phys_addr" with
    | None => (-1, phys_addr, size)
    | Some attr =>
        let phys_addr := match scan_lx (str_take 1024 attr) with Some (v, _) => v | None => phys_addr end in
        match udmabuf_attr udmabuf_num "size" with
        | None => (-1, phys_addr, size)
        | Some attr => (0, phys_addr, default size (scan_ld (str_take 1024 attr)))
        end
    end.

(** [check_udmabuf]: 0 when a text of /proc/modules starts with the module. *)
Fixpoint check_modules (texts : list string) : Z :=
  match texts with
  | [] => -1
  | line :: texts =>
      if bool_decide (scan_word 63 line = Some "u_dma_buf"%string) then 0 else check_modules texts
  end.

Definition check_udmabuf : Z := check_modules proc_modules.

End MapInfo.

(** ** Strings for the target's environment *)

(** [append_string]; NULL counts as empty, [malloc] succeeding. *)
Definition append_string (str1 str2 : option string) : string :=
  default ""%string str1 +:+ default ""%string str2.

(** The text up to the last slash, which stays when it is the first character. *)
Fixpoint before_last_slash (s : string) : option string :=
  match s with
  | EmptyString => None
  | String c s' =>
      match before_last_slash s' with
      | Some d => Some (String c d)
      | None => if bool_decide (c = "/"%char) then Some EmptyString else None
      end
  end.

(** [dirname] on the link of /proc/self/exe, an absolute path. *)
Definition dirname (s : string) : string :=
  match before_last_slash s with
  | Some EmptyString => "/"
  | Some d => d
  | None => "."
  end.

(** [get_libforksrv_path]; [None] when the link cannot be read. *)
Definition get_libforksrv_path (exe : option string) (libname : string) : option string :=
  exe ← exe; Some (str_take (PATH_MAX - 1) (dirname (str_take (PATH_MAX - 1) exe) +:+ "/" +:+ libname)).
