(* ===== verification/MapInfoFacts.v ===== *)
(** * Properties of the memory maps

    A mapping as the kernel prints it, what [setup_map_info] selects of a list
    of them, and the way back from the files it and [export_decoder_args]
    write. *)

From stdpp Require Import base numbers list strings pretty.
From Stdlib Require Import ZArith Lia Ascii.
From S2P Require Import Prelude Cstr MapInfo.

(** ** What the kernel prints *)

(** A mapping; [v_pad] blanks stand before the name. *)
Record vma := MkVma {
  v_start : Z;
  v_end : Z;
  v_r : bool;
  v_w : bool;
  v_x : bool;
  v_shared : bool;
  v_offset : Z;
  v_major : Z;
  v_minor : Z;
  v_inode : Z;
  v_pad : nat;
  v_name : string
}.

Definition flag_char (b : bool) (c : ascii) : ascii := if b then c else "-"%char.

Definition blanks (n : nat) (s : string) : string := Nat.iter n (String " ") s.

Definition print_perms (v : vma) (rest : string) : string :=
  String (flag_char (v_r v) "r") (String (flag_char (v_w v) "w")
    (String (flag_char (v_x v) "x") (String (if v_shared v then "s"%char else "p"%char) rest))).

(** Device, inode and name. *)
Definition print_tail (v : vma) : string :=
  fmt_0lx 2 (v_major v) +:+ ":" +:+ fmt_0lx 2 (v_minor v) +:+ " " +:+ fmt_llu (v_inode v) +:+
  " " +:+ blanks (v_pad v) (v_name v).

(** A line of /proc/<pid>/maps. *)
Definition print_vma (v : vma) : string :=
  fmt_0lx 8 (v_start v) +:+ "-" +:+ fmt_0lx 8 (v_end v) +:+ " " +:+
  print_perms v (" " +:+ fmt_0lx 8 (v_offset v) +:+ " " +:+ print_tail v).

Definition print_maps (vs : list vma) : string :=
  foldr (fun v rest => print_vma v +:+ String newline rest) EmptyString vs.

(** 64-bit values; newlines in names are escaped by the kernel. *)
Record vma_ok (v : vma) : Prop := {
  ok_start : 0 <= v_start v <= ULLONG_MAX;
  ok_end : 0 <= v_end v <= ULLONG_MAX;
  ok_offset : 0 <= v_offset v <= ULLONG_MAX;
  ok_major : 0 <= v_major v <= ULLONG_MAX;
  ok_minor : 0 <= v_minor v <= ULLONG_MAX;
  ok_inode : 0 <= v_inode v <= ULLONG_MAX;
  ok_name : strchr (v_name v) newline = None
}.

(** ** What is selected *)

(** An executable mapping of a file, or of anything whose name has a slash. *)
Definition exec_file (v : vma) : bool :=
  v_x v && bool_decide (is_Some (strchr (v_name v) "/")).

Definition names_lib (lib : option string) (v : vma) : bool :=
  match lib, strchr (v_name v) "/" with
  | Some lib, Some path => contains path lib
  | _, _ => false
  end.

(** The first ones, and in the last slot the next that names the library. *)
Definition traced_vmas (lib : option string) (max : nat) (vs : list vma) : list vma :=
  let files := filter (fun v => exec_file v = true) vs in
  take (max - 1) files ++ take 1 (filter (fun v => names_lib lib v = true) (drop (max - 1) files)).

(** What the table says of a mapping. *)
Definition entry (m : map_info) : Z * Z * Z * string := (m_start m, m_end m, m_offset m, m_path m).

Definition vma_entry (v : vma) : Z * Z * Z * string :=
  (v_start v, v_end v, v_offset v, str_take (PATH_MAX - 1) (default ""%string (strchr (v_name v) "/"))).

(** ** Characters of the printed text *)

(** No character of [s] is [c]. *)
Definition lacks (c : ascii) (s : string) : Prop := strchr s c = None.

Lemma strchr_app s t c :
  strchr (s +:+ t) c = match strchr s c with Some r => Some (r +:+ t) | None => strchr t c end.
Proof.
  induction s as [|d s IH]; [done |]. change (String d s +:+ t) with (String d (s +:+ t)).
  cbn [strchr]. by case_bool_decide.
Qed.

Lemma lacks_app c s t : lacks c s -> strchr (s +:+ t) c = strchr t c.
Proof. intros Hs. unfold lacks in Hs. by rewrite strchr_app, Hs. Qed.

Lemma lacks_cons c d s : c <> d -> lacks c s -> lacks c (String d s).
Proof. intros Hd Hs. unfold lacks. cbn. by rewrite bool_decide_false. Qed.

(** Characters no number contains. *)
Definition special (c : ascii) : Prop := hex_val c = None.

Lemma lacks_hex_go c n z s : special c -> 0 <= z -> lacks c s -> lacks c (hex_go n z s).
Proof.
  intros Hc. revert z s. induction n as [|n IH]; intros z s Hz Hs; [done |]. cbn [hex_go].
  assert (forall d, 0 <= d < 16 -> c <> hex_char d) as Hne.
  { intros d Hd ->. unfold special in Hc. by rewrite hex_char_val in Hc. }
  case_if; [apply lacks_cons; [apply Hne; lia | done] |].
  apply IH; [apply Z.div_pos; lia |]. apply lacks_cons; [| done]. apply Hne.
  apply Z.mod_pos_bound. lia.
Qed.

Lemma lacks_fmt_0lx c n z : special c -> 0 <= z -> lacks c (fmt_0lx n z).
Proof.
  intros Hc Hz. unfold fmt_0lx. induction (n - _)%nat as [|k IH]; [by apply lacks_hex_go |].
  apply lacks_cons; [| done]. by intros ->.
Qed.

Lemma lacks_pretty_go c x s : special c -> lacks c s -> lacks c (pretty_N_go x s).
Proof.
  intros Hc. revert s. induction (N.lt_wf_0 x) as [x _ IH]. intros s Hs.
  destruct (decide (0 < x)%N) as [Hx | Hx].
  - rewrite pretty_N_go_step by done. apply IH; [by apply N.div_lt |]. apply lacks_cons; [| done].
    intros ->. unfold special, hex_val in Hc. rewrite pretty_N_char_digit in Hc; [done |].
    apply N.mod_lt. lia.
  - assert (x = 0)%N as -> by lia. by rewrite pretty_N_go_0.
Qed.

Lemma lacks_fmt_llu c z : special c -> lacks c (fmt_llu z).
Proof.
  intros Hc. unfold fmt_llu, pretty, pretty_N. case_decide.
  - apply lacks_cons; [by intros -> | done].
  - by apply lacks_pretty_go.
Qed.

Lemma lacks_blanks c n s : c <> " "%char -> lacks c s -> lacks c (blanks n s).
Proof. intros Hc Hs. induction n as [|n IH]; [done | by apply lacks_cons]. Qed.

Lemma strchr_blanks c n s : c <> " "%char -> strchr (blanks n s) c = strchr s c.
Proof.
  intros Hc. induction n as [|n IH]; [done |].
  change (blanks (S n) s) with (String " " (blanks n s)). cbn [strchr]. by rewrite bool_decide_false.
Qed.

(** A slash or a newline of the line is in the name. *)
Lemma strchr_print_vma v c :
  vma_ok v -> c = "/"%char \/ c = newline -> strchr (print_vma v) c = strchr (v_name v) c.
Proof.
  intros [] Hc. assert (special c) as Hs by (by destruct Hc as [-> | ->]).
  assert (c <> " "%char /\ c <> "-"%char /\ c <> ":"%char /\ c <> "r"%char /\ c <> "w"%char /\
    c <> "x"%char /\ c <> "s"%char /\ c <> "p"%char) as Hne by (by destruct Hc as [-> | ->]).
  destruct_and! Hne. unfold print_vma, print_tail, print_perms, flag_char.
  rewrite lacks_app by (by apply lacks_fmt_0lx; [| lia]).
  repeat first [rewrite (lacks_app c (fmt_0lx _ _)) by (by apply lacks_fmt_0lx; [| lia])
    | rewrite (lacks_app c (fmt_llu _)) by (by apply lacks_fmt_llu)
    | rewrite (lacks_app c (String _ EmptyString)) by (by apply lacks_cons)
    | cbn [strchr]; rewrite bool_decide_false by (repeat case_match; done)].
  by apply strchr_blanks.
Qed.

(** ** Lines *)

Lemma lines_cons l rest :
  lacks newline l -> lines (l +:+ String newline rest) = l :: lines rest.
Proof.
  unfold lacks. induction l as [|c l IH]; [done |]. cbn [strchr]. case_bool_decide; [done |].
  intros Hl. change (String c l +:+ String newline rest) with (String c (l +:+ String newline rest)).
  cbn [lines]. rewrite bool_decide_false by done. by rewrite IH.
Qed.

Lemma lines_print_maps vs : Forall vma_ok vs -> lines (print_maps vs) = print_vma <$> vs.
Proof.
  induction 1 as [|v vs Hv Hvs IH]; [done |]. cbn [print_maps foldr fmap list_fmap].
  rewrite lines_cons; [by f_equal |]. unfold lacks. rewrite strchr_print_vma by auto. apply Hv.
Qed.

(** ** Scanning a line *)

Definition vma_scan (v : vma) : scan :=
  MkScan (v_start v) (v_end v) (flag_char (v_x v) "x") (v_offset v).

Lemma no_hex_special c s : special c -> c <> "x"%char -> c <> "X"%char -> no_hex_head (String c s).
Proof. done. Qed.

Lemma scan_print_vma v sc : vma_ok v -> sscanf_maps (print_vma v) sc = vma_scan v.
Proof.
  intros []. unfold print_vma, sscanf_maps.
  rewrite scan_fmt_0lx by done. cbn iota beta.
  change ("-" +:+ ?s) with (String "-" s). cbn iota.
  rewrite scan_fmt_0lx by done. cbn iota beta.
  change (" " +:+ ?s) with (String " " s). cbn [skip_ws is_space code]. cbn iota.
  change (is_space " ") with true. cbn iota. unfold print_perms.
  replace (skip_ws (String (flag_char (v_r v) "r") _)) with
    (String (flag_char (v_r v) "r") (String (flag_char (v_w v) "w")
      (String (flag_char (v_x v) "x") (String (if v_shared v then "s"%char else "p"%char)
        (" " +:+ fmt_0lx 8 (v_offset v) +:+ " " +:+ print_tail v))))) by (by destruct (v_r v)).
  cbn iota. replace (skip_ws (" " +:+ _)) with (fmt_0lx 8 (v_offset v) +:+ " " +:+ print_tail v).
  2: { destruct (fmt_0lx_cons 8 (v_offset v) (" " +:+ print_tail v)) as (c & s & -> & Hc & _); [lia | done |].
       change (skip_ws (" " +:+ String c s)) with (skip_ws (String c s)). cbn [skip_ws].
       by rewrite (proj1 (hex_digit_not_special c s Hc)). }
  rewrite scan_fmt_0lx by done. done.
Qed.

(** ** The selection loop *)

Definition vma_map (v : vma) : map_info :=
  MkMap (v_start v) (v_end v) (v_offset v) 0
    (str_take (PATH_MAX - 1) (default ""%string (strchr (v_name v) "/"))).

(** The selection with [n] slots left, mapping by mapping. *)
Fixpoint pick (lib : option string) (n : nat) (vs : list vma) : list vma :=
  match vs with
  | [] => []
  | v :: vs =>
      if exec_file v then
        match n with
        | O => []
        | 1%nat => if names_lib lib v then [v] else pick lib 1 vs
        | S n => v :: pick lib n vs
        end
      else pick lib n vs
  end.

Lemma pick_0 lib vs : pick lib 0 vs = [].
Proof. induction vs as [|v vs IH]; [done |]. cbn [pick]. by case_if. Qed.

Lemma pick_1 lib vs :
  pick lib 1 vs = take 1 (filter (fun v => names_lib lib v = true)
                            (filter (fun v => exec_file v = true) vs)).
Proof.
  induction vs as [|v vs IH]; [done |]. cbn [pick]. rewrite filter_cons.
  destruct (exec_file v); [| by rewrite decide_False]. rewrite decide_True, filter_cons by done.
  destruct (names_lib lib v); [by rewrite decide_True, firstn_cons, firstn_O | by rewrite decide_False].
Qed.

Lemma pick_traced lib n vs : pick lib (S n) vs = traced_vmas lib (S n) vs.
Proof.
  unfold traced_vmas. replace (S n - 1)%nat with n by lia. revert n.
  induction vs as [|v vs IH]; intros n; [by destruct n |].
  destruct n as [|n]; [apply pick_1 |]. cbn [pick]. rewrite filter_cons.
  destruct (exec_file v).
  - rewrite decide_True by done. by rewrite IH.
  - rewrite decide_False by done. apply IH.
Qed.

Section Loop.
Context `{MapsEnv}.

Lemma map_line_vma max sc maps v :
  vma_ok v ->
  map_line max (sc, maps) (print_vma v) =
    (vma_scan v,
     if exec_file v && (zlen maps <? max) &&
        (negb (zlen maps =? max - 1) || names_lib CS_TRACE_LIB v)
     then maps ++ [vma_map v] else maps).
Proof.
  intros Hv. unfold map_line. rewrite scan_print_vma by done.
  unfold is_trace_lib. rewrite (strchr_print_vma v "/") by auto.
  unfold exec_file, names_lib, vma_map. cbn [sc_x vma_scan sc_start sc_end sc_offset].
  destruct (v_x v); cbn [flag_char andb]; [| done]. rewrite bool_decide_true by done. cbn [negb].
  rewrite Z.geb_leb, Z.leb_antisym. destruct (zlen maps <? max); cbn [negb];
    [| by rewrite andb_false_r].
  destruct (strchr (v_name v) "/") as [path|]; cbn [default].
  - rewrite bool_decide_true by done. cbn [andb].
    destruct (zlen maps =? max - 1), CS_TRACE_LIB as [lib|]; cbn [negb andb orb]; try done.
    by destruct (contains path lib).
  - rewrite bool_decide_false by (by intros [? ?]). cbn [andb].
    by destruct (zlen maps =? max - 1), CS_TRACE_LIB.
Qed.

Lemma map_lines_vma n sc maps vs :
  Forall vma_ok vs ->
  (foldl (map_line (zlen maps + Z.of_nat n)) (sc, maps) (print_vma <$> vs)).2 =
    maps ++ (vma_map <$> pick CS_TRACE_LIB n vs).
Proof.
  intros Hvs. revert n sc maps. induction Hvs as [|v vs Hv Hvs IH]; intros n sc maps;
    [by rewrite app_nil_r |].
  cbn [fmap list_fmap foldl]. rewrite map_line_vma by done. cbn [pick].
  destruct (exec_file v); cbn [andb]; [| apply IH].
  destruct n as [|[|n]].
  - destruct (Z.ltb_spec (zlen maps) (zlen maps + Z.of_nat 0)); [lia |]. cbn [andb].
    rewrite IH, pick_0. done.
  - destruct (Z.ltb_spec (zlen maps) (zlen maps + Z.of_nat 1)); [| lia]. cbn [andb].
    destruct (Z.eqb_spec (zlen maps) (zlen maps + Z.of_nat 1 - 1)); [| lia]. cbn [negb orb].
    destruct (names_lib CS_TRACE_LIB v); [| apply IH].
    replace (zlen maps + Z.of_nat 1) with (zlen (maps ++ [vma_map v]) + Z.of_nat 0)
      by (rewrite length_app; simpl; lia).
    rewrite IH, pick_0. cbn. by rewrite app_nil_r.
  - destruct (Z.ltb_spec (zlen maps) (zlen maps + Z.of_nat (S (S n)))); [| lia]. cbn [andb].
    destruct (Z.eqb_spec (zlen maps) (zlen maps + Z.of_nat (S (S n)) - 1)); [lia |]. cbn [negb orb].
    replace (zlen maps + Z.of_nat (S (S n))) with (zlen (maps ++ [vma_map v]) + Z.of_nat (S n))
      by (rewrite length_app; simpl; lia).
    rewrite IH. by rewrite <- app_assoc.
Qed.

(** [mmap] without MAP_FIXED never returns NULL. *)
Lemma map_file_fine m :
  (forall path size off, mmap_ro path size off <> Some 0) ->
  exists m', map_file m = Some m' /\ entry m' = entry m.
Proof.
  intros Hm. unfold map_file. destruct (open_ro (m_path m));
    [destruct (mmap_ro _ _ _) as [b|] eqn:Hmm |]; cbn [default from_option id];
    try (change (MAP_FAILED =? 0) with false; by eexists).
  destruct (Z.eqb_spec b 0) as [-> | _]; [by apply Hm in Hmm | by eexists].
Qed.

Lemma map_files_fine maps :
  (forall path size off, mmap_ro path size off <> Some 0) ->
  exists maps', mapM map_file maps = Some maps' /\ entry <$> maps' = entry <$> maps.
Proof.
  intros Hm. induction maps as [|m maps (maps' & IH & He)]; [by exists [] |].
  destruct (map_file_fine m Hm) as (m' & Hm' & Hem). exists (m' :: maps'). cbn.
  rewrite Hm'. cbn. rewrite IH. cbn. split; [done |]. by rewrite Hem, He.
Qed.

End Loop.

(** ** Reading the arguments back *)

(** The words a shell makes of a text. *)
Fixpoint split_ws (s : string) : list string :=
  match s with
  | EmptyString => [EmptyString]
  | String c s =>
      if is_space c then EmptyString :: split_ws s
      else match split_ws s with [] => [String c EmptyString] | l :: ls => String c l :: ls end
  end.

Definition words (s : string) : list string := filter (fun w => w <> ""%string) (split_ws s).

(** A word that is all one number. *)
Definition hex_arg (w : string) : option Z :=
  match scan_lx w with Some (v, EmptyString) => Some v | _ => None end.
Definition dec_arg (w : string) : option Z :=
  match scan_llu w with Some (v, EmptyString) => Some v | _ => None end.

(** [n] ranges: path, start, end. *)
Fixpoint read_ranges (n : nat) (ws : list string) : option (list (string * Z * Z)) :=
  match n, ws with
  | O, [] => Some []
  | S n, path :: start :: end_ :: ws =>
      start ← hex_arg start; end_ ← hex_arg end_; rest ← read_ranges n ws;
      Some ((path, start, end_) :: rest)
  | _, _ => None
  end.

(** The command line of the offline decoder: trace, identifier, ranges. *)
Definition read_args (ws : list string) : option (string * Z * list (string * Z * Z)) :=
  match ws with
  | trace :: id :: count :: ws =>
      id ← hex_arg id; count ← dec_arg count; ranges ← read_ranges (Z.to_nat count) ws;
      Some (trace, id, ranges)
  | _ => None
  end.

Fixpoint no_space (s : string) : bool :=
  match s with EmptyString => true | String c s => negb (is_space c) && no_space s end.

(** A word: not empty, no white space. *)
Definition is_word (s : string) : Prop := s <> ""%string /\ no_space s = true.

Lemma no_space_app s t : no_space (s +:+ t) = no_space s && no_space t.
Proof.
  induction s as [|c s IH]; [done |]. change (String c s +:+ t) with (String c (s +:+ t)).
  cbn [no_space]. by rewrite IH, andb_assoc.
Qed.

Lemma split_ws_word w rest :
  no_space w = true -> split_ws (w +:+ String " " rest) = w :: split_ws rest.
Proof.
  induction w as [|c w IH]; [done |]. cbn [no_space]. intros [Hc Hw]%andb_true_iff.
  change (String c w +:+ String " " rest) with (String c (w +:+ String " " rest)).
  cbn [split_ws]. apply negb_true_iff in Hc. by rewrite Hc, IH.
Qed.

Lemma split_ws_last w : no_space w = true -> split_ws w = [w].
Proof.
  induction w as [|c w IH]; [done |]. cbn [no_space split_ws]. intros [Hc Hw]%andb_true_iff.
  apply negb_true_iff in Hc. by rewrite Hc, IH.
Qed.

(** Words each preceded by a blank. *)
Definition spaced (ws : list string) : string := foldr (fun w s => " " +:+ w +:+ s) EmptyString ws.

Lemma words_blank s : words (String " " s) = words s.
Proof.
  unfold words. change (split_ws (String " " s)) with (EmptyString :: split_ws s).
  by rewrite filter_cons_False by (intros Hn; by apply Hn).
Qed.

Lemma words_spaced ws : Forall is_word ws -> words (spaced ws) = ws.
Proof.
  induction ws as [|w ws IH]; [done |]. intros [[Hw0 Hw] Hws]%Forall_cons. specialize (IH Hws).
  change (spaced (w :: ws)) with (String " " (w +:+ spaced ws)). rewrite words_blank. unfold words.
  destruct ws as [|v ws].
  - change (w +:+ spaced []) with (w +:+ ""). rewrite string_app_nil_r, split_ws_last by done.
    by rewrite filter_cons_True, filter_nil.
  - change (spaced (v :: ws)) with (String " " (v +:+ spaced ws)) in *. rewrite words_blank in IH.
    rewrite split_ws_word, filter_cons_True by done. by f_equal.
Qed.

Lemma spaced_app ws vs : spaced (ws ++ vs) = spaced ws +:+ spaced vs.
Proof.
  induction ws as [|w ws IH]; [done |]. cbn [app spaced foldr] in *.
  change (foldr _ _ (ws ++ vs)) with (spaced (ws ++ vs)). rewrite IH.
  by rewrite <- !string_app_assoc.
Qed.

Lemma no_space_hex_go n z s : 0 <= z -> no_space s = true -> no_space (hex_go n z s) = true.
Proof.
  revert z s. induction n as [|n IH]; intros z s Hz Hs; [done |]. cbn [hex_go].
  assert (forall d, 0 <= d < 16 -> no_space (String (hex_char d) s) = true) as Hd.
  { intros d Hd. cbn [no_space]. rewrite Hs, andb_true_r, negb_true_iff.
    apply (hex_digit_not_special _ EmptyString). rewrite hex_char_val by done. by eexists. }
  case_if; [apply Hd; lia |]. apply IH; [apply Z.div_pos; lia |]. apply Hd.
  apply Z.mod_pos_bound. lia.
Qed.

Lemma hex_word z : 0 <= z -> is_word ("0x" +:+ fmt_lx z).
Proof.
  intros Hz. split; [done |]. rewrite no_space_app. by apply (no_space_hex_go 16 z EmptyString).
Qed.

Lemma hex_arg_fmt z : 0 <= z <= ULLONG_MAX -> hex_arg ("0x" +:+ fmt_lx z) = Some z.
Proof.
  intros Hz. unfold hex_arg. replace (scan_lx _) with (Some (z, EmptyString)); [done |]. symmetry.
  destruct (hex_go_head 16 z EmptyString ltac:(lia) ltac:(done)) as (c & s & Heq & [d Hd]).
  change (fmt_lx z) with (hex_go 16 z EmptyString). rewrite Heq.
  change ("0x" +:+ String c s) with (String "0" (String "x" (String c s))). unfold scan_lx.
  change (skip_ws (String "0" ?t)) with (String "0" t).
  change (scan_sign (String "0" ?t)) with (false, String "0" t). cbn iota beta.
  unfold skip_0x. rewrite Hd. cbn iota. rewrite Hd, <- Heq. unfold ULLONG_MAX in *.
  destruct (scan_hex_go 16 z EmptyString 0) as (k & _ & ->);
    [change (16 ^ Z.of_nat 16) with (2 ^ 64); lia | done |].
  cbn [scan_hex]. rewrite Z.mul_0_l, Z.add_0_l.
  destruct (Z.gtb_spec z (2 ^ 64 - 1)); [lia | done].
Qed.

Lemma fmt_d_nonneg z : 0 <= z -> fmt_d z = fmt_llu z.
Proof. by destruct z. Qed.

Lemma dec_arg_fmt z : 0 <= z <= ULLONG_MAX -> dec_arg (fmt_d z) = Some z.
Proof.
  intros Hz. rewrite fmt_d_nonneg by lia. unfold dec_arg.
  pose proof (scan_fmt_llu z EmptyString Hz I) as Hs. rewrite string_app_nil_r in Hs. by rewrite Hs.
Qed.

Lemma no_space_pretty_go x s : no_space s = true -> no_space (pretty_N_go x s) = true.
Proof.
  revert s. induction (N.lt_wf_0 x) as [x _ IH]. intros s Hs.
  destruct (decide (0 < x)%N) as [Hx | Hx].
  - rewrite pretty_N_go_step by done. apply IH; [by apply N.div_lt |]. cbn [no_space].
    rewrite Hs, andb_true_r, negb_true_iff. apply digit_not_special, pretty_N_char_digit.
    apply N.mod_lt. lia.
  - assert (x = 0)%N as -> by lia. by rewrite pretty_N_go_0.
Qed.

Lemma dec_word z : 0 <= z -> is_word (fmt_d z).
Proof.
  intros Hz. rewrite fmt_d_nonneg by done. unfold fmt_llu, pretty, pretty_N. case_decide as Hn; [done |].
  split; [| by apply no_space_pretty_go].
  destruct (pretty_N_go_head (Z.to_N z) ltac:(lia) EmptyString) as (c & s & -> & _). done.
Qed.

(** The words written for a range. *)
Definition range_words (m : map_info) : list string :=
  [m_path m; "0x" +:+ fmt_lx (m_start m); "0x" +:+ fmt_lx (m_end m)].

Lemma range_args_spaced m : range_args m = spaced (range_words m).
Proof.
  unfold range_args, range_words. cbn [spaced foldr]. by rewrite string_app_nil_r.
Qed.

(** A range the file can carry: 64-bit addresses, no blank in the path. *)
Definition plain_map (m : map_info) : Prop :=
  0 <= m_start m <= ULLONG_MAX /\ 0 <= m_end m <= ULLONG_MAX /\ is_word (m_path m).

Lemma read_ranges_words maps :
  Forall plain_map maps ->
  read_ranges (length maps) (maps ≫= range_words) =
    Some ((fun m => (m_path m, m_start m, m_end m)) <$> maps).
Proof.
  induction 1 as [|m maps (Hs & He & _) _ IH]; [done |]. cbn [length].
  change ((m :: maps) ≫= range_words) with (range_words m ++ (maps ≫= range_words)).
  unfold range_words at 1. cbn [app read_ranges].
  rewrite !hex_arg_fmt by done. cbn. by rewrite IH.
Qed.

Lemma write_all_ok `{MapsEnv} n chunks :
  (forall k, fprintf_ok k = true) -> write_all n chunks = (foldr String.append EmptyString chunks, true).
Proof.
  intros Hok. revert n. induction chunks as [|c chunks IH]; intros n; [done |]. cbn [write_all foldr].
  by rewrite Hok, IH.
Qed.

Lemma spaced_ranges maps : foldr String.append EmptyString (range_args <$> maps) = spaced (maps ≫= range_words).
Proof.
  induction maps as [|m maps IH]; [done |]. cbn [fmap list_fmap foldr]. rewrite IH, range_args_spaced.
  change ((m :: maps) ≫= range_words) with (range_words m ++ (maps ≫= range_words)).
  by rewrite spaced_app.
Qed.

(** ** Properties *)

(** C20: [setup_map_info] reads the kernel's text back: on the printed list of
    any mappings of a process it fills the table with exactly the addresses,
    offsets and paths of the first [max - 1] executable file mappings and, in
    the last slot, of the next one whose path names the library CS_TRACE_LIB,
    and returns how many they are, never more than [max]. *)
Theorem map_info_roundtrip `{MapsEnv} (pid : Z) (max : nat) (vs : list vma) :
  (1 <= max)%nat -> Forall vma_ok vs -> proc_maps pid = Some (print_maps vs) ->
  (forall path size off, mmap_ro path size off <> Some 0) ->
  let sel := traced_vmas CS_TRACE_LIB max vs in
  let '(ret, maps) := setup_map_info pid (Z.of_nat max) in
  ret = zlen sel /\ entry <$> maps = vma_entry <$> sel /\ ret <= Z.of_nat max.
Proof.
  intros Hmax Hvs Hp Hm. cbn zeta. unfold setup_map_info. rewrite Hp, lines_print_maps by done.
  pose proof (map_lines_vma max uninit [] vs Hvs) as Hl. cbn [length app] in Hl.
  rewrite Z.add_0_l in Hl. destruct (foldl _ _ _) as [sc maps]. cbn in Hl. subst maps.
  destruct (map_files_fine (vma_map <$> pick CS_TRACE_LIB max vs) Hm) as (maps' & -> & He).
  destruct max as [|n]; [lia |]. rewrite pick_traced in He.
  assert (length maps' = length (traced_vmas CS_TRACE_LIB (S n) vs)) as Hlen.
  { apply (f_equal length) in He. by rewrite !length_fmap in He. }
  rewrite Hlen. split_and!; [done | |].
  - rewrite He, <- list_fmap_compose. by apply list_fmap_ext.
  - unfold traced_vmas. rewrite length_app, !length_take. lia.
Qed.

(** The arguments file reads back: splitting what [export_decoder_args]
    wrote into words, as the shell does for the offline decoder, and reading
    the numbers gives the trace's path, its identifier, and the path and the
    addresses of every range. *)
Lemma decoder_args_read `{MapsEnv} (trace_id : Z) (trace_path : string)
    (maps : list map_info) :
  0 <= trace_id < 2 ^ 31 -> is_word trace_path -> Forall plain_map maps ->
  zlen maps <= ULLONG_MAX -> args_open = true -> (forall n, fprintf_ok n = true) ->
  let '(ret, file) := export_decoder_args trace_id trace_path maps (zlen maps) in
  ret = 0 /\
  (text ← file; read_args (words text)) =
    Some (trace_path, trace_id, (fun m => (m_path m, m_start m, m_end m)) <$> maps).
Proof.
  intros Hid Hpath Hmaps Hlen Hopen Hok. unfold export_decoder_args.
  destruct (Z.ltb_spec trace_id 0); [lia |]. rewrite Hopen. cbn [negb].
  rewrite write_all_ok by done. split; [done |]. cbn [mbind option_bind].
  rewrite Nat2Z.id, firstn_all, foldr_app, spaced_ranges, u32_small by lia.
  set (ws := [trace_path; "0x" +:+ fmt_lx trace_id; fmt_d (zlen maps)] ++ (maps ≫= range_words)).
  replace (foldr String.append _ _) with (spaced ws).
  2: { unfold ws. rewrite spaced_app. cbn [spaced foldr]. by rewrite <- !string_app_assoc. }
  assert (Forall is_word ws) as Hws.
  { unfold ws. rewrite Forall_app. split.
    - repeat constructor; try apply Hpath; try apply hex_word; try apply dec_word; lia.
    - apply Forall_bind. eapply Forall_impl; [done |]. intros m (Hs & He & Hw).
      repeat constructor; try apply Hw; apply hex_word; lia. }
  rewrite words_spaced by done. unfold ws. cbn [app read_args]. unfold ULLONG_MAX in *.
  rewrite hex_arg_fmt, dec_arg_fmt by (unfold ULLONG_MAX; lia). cbn [mbind option_bind].
  by rewrite Nat2Z.id, read_ranges_words.
Qed.
