(* ===== verification/Etm.v ===== *)
(** * ETM and sink configuration (src/src/config.c, src/src/stalker.c)

    The program drives the trace hardware through CSAL.  CSAL is the class
    [CSAL]: a type of hardware states, one function for the calls that act
    ([cs_do]) and a few that read; the functions below are the program's, in
    state-passing style, with the call order and the early returns of the code.
    [None] as a result is the end of the process ([assert], [exit]). *)

From stdpp Require Import base numbers list strings.
From Stdlib Require Import ZArith Lia.
From S2P Require Import Prelude Boards MapInfo.

(** ** Registers *)

(** An address comparator: value and attributes. *)
Record adrcmp := MkCmp { acvr_l : Z; acvr_h : Z; acatr_l : Z }.

(** The fields of TRCCONFIGR the code names; the others are [rest]. *)
Record configr_bits := MkConfigr { bb : bool; cid : bool; vmid : bool; rs : bool; rest : Z }.

#[export] Instance eta_configr : Eta configr_bits := fun c =>
  MkConfigr (bb c) (cid c) (vmid c) (rs c) (rest c).

(** The groups of registers a configuration is read or written for. *)
Inductive etmc :=
  | CS_ETMC_TRACE_ENABLE | CS_ETMC_CONFIG | CS_ETMC_EVENTSELECT | CS_ETMC_CXID_COMP
  | CS_ETMC_ADDR_COMP.

#[export] Instance etmc_eq_dec : EqDecision etmc.
Proof. solve_decision. Defined.

(** [cs_etmv4_config_t], as far as the code uses it. *)
Record etm_config := MkEtm {
  flags : list etmc;
  cidsize : Z;                (* scv4->idr2 *)
  vmidsize : Z;
  configr : configr_bits;
  victlr : Z;
  viiectlr : Z;
  vissctlr : Z;
  eventctlr0r : Z;
  eventctlr1r : Z;
  stallcrlr : Z;
  syncpr : Z;
  bbctlr : Z;
  cidcvr_l : Z;               (* context ID comparator 0 *)
  cidcvr_h : Z;
  cidcctlr0 : Z;
  cxid_comps_acc_mask : Z;
  addr_comps : list adrcmp;
  addr_comps_acc_mask : Z
}.

#[export] Instance eta_etm_config : Eta etm_config := fun c =>
  MkEtm (flags c) (cidsize c) (vmidsize c) (configr c) (victlr c) (viiectlr c) (vissctlr c)
    (eventctlr0r c) (eventctlr1r c) (stallcrlr c) (syncpr c) (bbctlr c) (cidcvr_l c) (cidcvr_h c)
    (cidcctlr0 c) (cxid_comps_acc_mask c) (addr_comps c) (addr_comps_acc_mask c).

(** Registers accessed one by one. *)
Inductive cs_reg := CS_ETB_FLFMT_CTRL | CS_ETB_STATUS | CIDCVR0_lo | CIDCVR0_hi.

#[export] Instance cs_reg_eq_dec : EqDecision cs_reg.
Proof. solve_decision. Defined.

(** ** CSAL *)

Inductive cs_call :=
  | cs_etm_clean (d : cs_dev)
  | cs_set_trace_source_id (d : cs_dev) (id : Z)
  | cs_etm_config_put_ex (d : cs_dev) (c : etm_config)
  | cs_trace_enable (d : cs_dev)
  | cs_trace_disable (d : cs_dev)
  | cs_sink_enable (d : cs_dev)
  | cs_sink_disable (d : cs_dev)
  | cs_sink_etr_setup (d : cs_dev) (addr size : Z) (axi : list axictl)
  | cs_sink_etf_setup (d : cs_dev)          (* CS_TMC_MODE_HWFIFO *)
  | cs_tmc_hw_fifo_enable (d : cs_dev)
  | cs_tmc_hw_fifo_disable (d : cs_dev)
  | cs_device_write (d : cs_dev) (r : cs_reg) (v : Z)
  | cs_device_clear (d : cs_dev) (r : cs_reg) (mask : Z)
  | cs_device_wait (d : cs_dev) (r : cs_reg)
  | cs_device_set_wait_repeats (n : Z)
  | cs_disable_tpiu
  | cs_checkpoint
  | cs_reset_error_count
  | cs_shutdown.

Class CSAL (H : Type) := {
  cs_do : cs_call -> H -> Z * H;
  cs_etm_config_init_ex : cs_dev -> etm_config;
  cs_etm_config_get_ex : cs_dev -> etm_config -> H -> etm_config;
  cs_device_read : cs_dev -> cs_reg -> H -> Z;
  cs_sink_is_enabled : cs_dev -> H -> bool;
  cs_error_count : H -> Z;
  cs_cpu_get_device : Z -> option cs_dev;   (* CS_DEVCLASS_SOURCE *)
  is_etmv4 : cs_dev -> bool
}.

(** The bits CSAL's headers define. *)
Class EtmBits := {
  ACATR_ExEL0_S : Z; ACATR_ExEL1_S : Z; ACATR_ExEL2_S : Z; ACATR_ExEL1_NS : Z; ACATR_ExEL2_NS : Z;
  ACATR_CTXT : Z; ACATR_CTXTID_0 : Z;
  VICTLR_ExEL0_S : Z; VICTLR_ExEL1_S : Z; VICTLR_ExEL2_S : Z; VICTLR_ExEL3_S : Z;
  VICTLR_ExEL1_NS : Z; VICTLR_ExEL2_NS : Z; VICTLR_SSSTATUS : Z; VICTLR_ALWAYS : Z;
  FLFMT_FOnMan : Z; FLFMT_StopFl : Z; FLFMT_EnFTC : Z; FLFMT_EnFCont : Z
}.

(** The build and the environment; a number is what [strtoul] or [atoi] made of
    the variable. *)
Class EtmEnv := {
  stalker_decoder : bool;
  AFLCS_PID_FILTER : option string;
  AFLCS_STALKER_EL0_VIEW : option string;
  AFLCS_ETM_VICTLR : option Z;
  AFLCS_ETM_STALLCRLR : option Z;
  AFLCS_ETM_SYNCPR : option Z
}.

Section Config.
Context {H : Type} `{CSAL H, EtmBits, EtmEnv}.

(** ** Control *)

(** A call whose result is not looked at; one that must return 0. *)
Definition call (c : cs_call) (h : H) : H := (cs_do c h).2.
Definition check (c : cs_call) (k : H -> Z * H) (h : H) : Z * H :=
  let '(r, h) := cs_do c h in if r =? 0 then k h else (-1, h).

(** The end of most functions: [cs_error_count() > 0] is an error. *)
Definition errors (h : H) : Z * H := (if cs_error_count h >? 0 then -1 else 0, h).

(** A [for] over calls that do not stop it. *)
Definition each {A} (l : list A) (body : A -> H -> H) (h : H) : H := foldl (fun h a => body a h) h l.

(** A [for] whose body can return from the function. *)
Fixpoint each_check {A} (l : list A) (body : A -> H -> Z * H) (k : H -> Z * H) (h : H) : Z * H :=
  match l with
  | [] => k h
  | a :: l => let '(r, h) := body a h in if r =? 0 then each_check l body k h else (r, h)
  end.

(** ** The PID filter *)

Definition is_env (v : option string) (s : string) : bool := bool_decide (v = Some s).

Definition pid_filter_enabled : bool :=
  if stalker_decoder then negb (is_env AFLCS_PID_FILTER "0") else is_env AFLCS_PID_FILTER "1".

Definition etm_cycled_per_window : bool := if stalker_decoder then true else pid_filter_enabled.

(** ** Flush *)

Definition cs_etb_flush_and_wait_stop (sink : cs_dev) (h : H) : H :=
  if cs_sink_is_enabled sink h then
    let ffcr_val := Z.lor (cs_device_read sink CS_ETB_FLFMT_CTRL h) FLFMT_FOnMan in
    let h := call (cs_device_write sink CS_ETB_FLFMT_CTRL ffcr_val) h in
    call (cs_device_wait sink CS_ETB_STATUS) h
  else h.

(** ** Address ranges *)

Definition acc_type (acc_type_ex : Z) : Z :=
  Z.lor (Z.lor (Z.lor (Z.lor (Z.lor ACATR_ExEL0_S ACATR_ExEL1_S) ACATR_ExEL2_S)
    ACATR_ExEL1_NS) ACATR_ExEL2_NS) acc_type_ex.

(** One comparator for [addr]. *)
Definition addr_cmp (addr acc_type_ex : Z) : adrcmp :=
  MkCmp (Z.land addr 0xFFFFFFFF) (Z.land (Z.shiftr addr 32) 0xFFFFFFFF) (acc_type acc_type_ex).

(** [set_etmv4_addr_range] on comparators [i] and [i + 1]. *)
Definition set_etmv4_addr_range (range : map_info) (i : nat) (acc_type_ex : Z) (t : etm_config)
    : etm_config :=
  t <| addr_comps := <[S i := addr_cmp (m_end range) acc_type_ex]>
                       (<[i := addr_cmp (m_start range) acc_type_ex]> (addr_comps t)) |>.

(** The last address of EL0 with 48-bit addresses. *)
Definition el0_range : map_info := MkMap 0 0x0000FFFFFFFFFFFF 0 0 "".

(** [range[0]] of the static table when nothing was found. *)
Definition zero_map : map_info := MkMap 0 0 0 0 "".

(** [stalker_configure_addr_range]; [None] is [exit]. *)
Definition stalker_configure_addr_range (range : map_info) (acc_type_ex : Z) (t : etm_config)
    : option etm_config :=
  if is_env AFLCS_STALKER_EL0_VIEW "1" then
    if acc_type_ex =? 0 then None
    else
      let t := set_etmv4_addr_range el0_range 0 acc_type_ex t in
      let t := set_etmv4_addr_range range 2 0 t in
      Some (t <| addr_comps_acc_mask := Z.lor (addr_comps_acc_mask t) 0xf |>
              <| viiectlr := Z.lor (viiectlr t) 1 |>
              <| bbctlr := Z.lor (Z.shiftl 1 1) (Z.shiftl 1 8) |>)
  else
    let t := set_etmv4_addr_range range 0 acc_type_ex t in
    Some (t <| addr_comps_acc_mask := Z.lor (addr_comps_acc_mask t) 0x3 |>
            <| viiectlr := Z.lor (viiectlr t) 1 |>).

(** The [for] of the coresight-decoder build from range [i] on. *)
Fixpoint configure_ranges (i : nat) (ranges : list map_info) (acc_type_ex : Z) (t : etm_config)
    : etm_config :=
  match ranges with
  | [] => t
  | range :: ranges =>
      let t := set_etmv4_addr_range range (i * 2) acc_type_ex t in
      let t := t <| addr_comps_acc_mask :=
                      Z.lor (addr_comps_acc_mask t) (Z.shiftl 0x3 (Z.of_nat i * 2)) |>
                 <| viiectlr := Z.lor (viiectlr t) (Z.shiftl 1 (Z.of_nat i)) |> in
      configure_ranges (S i) ranges acc_type_ex t
  end.

Definition return_stack : bool := false.

(** The context-ID part of [configure_etmv4_addr_range_cid]; [pid] is the
    context ID as an unsigned long. *)
Definition cid_config (pid : Z) (t : etm_config) : etm_config :=
  let t := if vmidsize t >? 0 then t <| configr := (configr t) <| vmid := false |> |> else t in
  let t := t <| configr := (configr t) <| cid := (cidsize t >? 0) && (pid >? 0) |> |> in
  let t := if return_stack then t <| configr := (configr t) <| rs := true |> |> else t in
  if pid >? 0 then
    t <| cidcvr_l := Z.land pid 0xFFFFFFFF |>
      <| cidcvr_h := Z.land (Z.shiftr pid 32) 0xFFFFFFFF |>
      <| cidcctlr0 := Z.land (cidcctlr0 t) (u32 (Z.lnot (Z.shiftl 1 0))) |>
      <| cxid_comps_acc_mask := Z.lor (cxid_comps_acc_mask t) (Z.shiftl 1 0) |>
      <| flags := flags t ++ [CS_ETMC_CXID_COMP] |>
  else t.

(** The configuration it writes, from the one it read. *)
Definition range_cid_config (ranges : list map_info) (pid : Z) (t : etm_config) : option etm_config :=
  let t := cid_config pid t in
  let acc_type_ex :=
    if (pid >? 0) && pid_filter_enabled then Z.lor ACATR_CTXT ACATR_CTXTID_0 else 0 in
  t ← (if stalker_decoder
       then stalker_configure_addr_range (default zero_map (head ranges)) acc_type_ex t
       else Some (configure_ranges 0 ranges acc_type_ex t));
  Some (t <| flags := flags t ++ [CS_ETMC_ADDR_COMP] |>).

Definition configure_etmv4_addr_range_cid (etm : cs_dev) (ranges : list map_info) (pid : Z) (h : H)
    : option Z * H :=
  let tconfig := (cs_etm_config_init_ex etm)
    <| flags := [CS_ETMC_TRACE_ENABLE; CS_ETMC_CONFIG; CS_ETMC_EVENTSELECT] |> in
  let tconfig := cs_etm_config_get_ex etm tconfig h in
  match range_cid_config ranges pid tconfig with
  | None => (None, h)
  | Some tconfig =>
      let h := call (cs_etm_config_put_ex etm tconfig) h in
      let '(r, h) := errors h in (Some r, h)
  end.

(** ** Set-up of an ETM *)

Definition default_victlr : Z :=
  if stalker_decoder then
    Z.lor (Z.lor (Z.lor (Z.lor (Z.lor (Z.lor (Z.lor VICTLR_ExEL0_S VICTLR_ExEL1_S) VICTLR_ExEL2_S)
      VICTLR_ExEL3_S) VICTLR_ExEL1_NS) VICTLR_ExEL2_NS) VICTLR_SSSTATUS) VICTLR_ALWAYS
  else Z.lor VICTLR_SSSTATUS VICTLR_ALWAYS.

(** The configuration [init_etm] writes. *)
Definition init_config (t : etm_config) : etm_config :=
  t <| flags := flags t ++ [CS_ETMC_TRACE_ENABLE; CS_ETMC_EVENTSELECT] |>
    <| victlr := u32 (default default_victlr AFLCS_ETM_VICTLR) |>
    <| viiectlr := 0 |>
    <| vissctlr := 0 |>
    <| eventctlr0r := 0 |>
    <| eventctlr1r := 0 |>
    <| stallcrlr := u32 (default (if stalker_decoder then 0 else 0x2100) AFLCS_ETM_STALLCRLR) |>
    <| syncpr := u32 (default 0 AFLCS_ETM_SYNCPR) |>.

(** The [assert] on the class always holds: the device is a source. *)
Definition init_etm (dev : cs_dev) (h : H) : option Z * H :=
  let '(rc, h) := cs_do (cs_etm_clean dev) h in
  if negb (rc =? 0) then (Some rc, h)
  else if negb (is_etmv4 dev) then (None, h)
  else
    let v4config := (cs_etm_config_init_ex dev) <| flags := [CS_ETMC_CONFIG] |> in
    let v4config := cs_etm_config_get_ex dev v4config h in
    (Some 0, call (cs_etm_config_put_ex dev (init_config v4config)) h).

(** The first loop of [configure_trace]: the sources of the CPUs [l], or the
    value it returns. *)
Fixpoint init_etms (l : list Z) (h : H) : option (Z + list cs_dev) * H :=
  match l with
  | [] => (Some (inr []), h)
  | i :: l =>
      match cs_cpu_get_device i with
      | None => (Some (inl (-1)), h)
      | Some ptm =>
          let '(r, h) := cs_do (cs_set_trace_source_id ptm (0x10 + i)) h in
          if r <? 0 then (Some (inl (-1)), h)
          else
            match init_etm ptm h with
            | (None, h) => (None, h)
            | (Some r, h) =>
                if r <? 0 then (Some (inl (-1)), h)
                else
                  match init_etms l h with
                  | (Some (inr ptms), h) => (Some (inr (ptm :: ptms)), h)
                  | other => other
                  end
            end
      end
  end.

(** The second loop: every ETM has version 4 here. *)
Fixpoint configure_ranges_all (ptms : list cs_dev) (ranges : list map_info) (pid : Z) (h : H)
    : option Z * H :=
  match ptms with
  | [] => (Some 0, h)
  | ptm :: ptms =>
      match configure_etmv4_addr_range_cid ptm ranges (u64 pid) h with
      | (None, h) => (None, h)
      | (Some r, h) => if r =? 0 then configure_ranges_all ptms ranges pid h else (Some r, h)
      end
  end.

(** [configure_trace]: its value, the array [ptm] it fills when it succeeds,
    the hardware. *)
Definition configure_trace (n_cpu : nat) (sink : cs_dev) (ranges : list map_info) (pid : Z) (h : H)
    : option Z * list cs_dev * H :=
  let h := call (cs_device_set_wait_repeats 320000) h in
  let h := call cs_disable_tpiu h in
  let h := call (cs_sink_disable sink) h in
  match init_etms (below n_cpu) h with
  | (None, h) => (None, [], h)
  | (Some (inl r), h) => (Some r, [], h)
  | (Some (inr ptms), h) =>
      let h := call cs_checkpoint h in
      match configure_ranges_all ptms ranges pid h with
      | (Some 0, h) =>
          let ffcr_val := Z.lor (cs_device_read sink CS_ETB_FLFMT_CTRL h) FLFMT_StopFl in
          let h := call (cs_device_write sink CS_ETB_FLFMT_CTRL ffcr_val) h in
          let '(r, h) := errors h in (Some r, ptms, h)
      | (r, h) => (r, ptms, h)
      end
  end.

(** ** Branch broadcast *)

Definition set_etm_bb_mode (ptms : list cs_dev) (bb_mode : bool) (h : H) : Z * H :=
  each_check ptms (fun etm h =>
    let tconfig := (cs_etm_config_init_ex etm) <| flags := [CS_ETMC_CONFIG] |> in
    let tconfig := cs_etm_config_get_ex etm tconfig h in
    let tconfig := tconfig <| configr := (configr tconfig) <| bb := bb_mode |> |>
                           <| flags := [CS_ETMC_CONFIG] |> in
    let h := call (cs_etm_config_put_ex etm tconfig) h in
    check (cs_trace_enable etm) (fun h => (0, h)) h) errors h.

(** ** Sinks *)

Definition set_etr_formatter_bypass (sink : cs_dev) (k : H -> Z * H) : H -> Z * H :=
  check (cs_device_clear sink CS_ETB_FLFMT_CTRL (Z.lor FLFMT_EnFTC FLFMT_EnFCont)) k.

(** The lines [enable_trace] and [enable_trace_sinks_only] share: ETR, then the
    FIFOs. *)
Definition enable_sinks (axi : list axictl) (dv : cs_devices) (sink : cs_dev)
    (etr_ram_addr etr_ram_size : Z) (k : H -> Z * H) : H -> Z * H :=
  check (cs_sink_etr_setup sink etr_ram_addr etr_ram_size axi)
    (check (cs_sink_enable sink)
      ((if stalker_decoder then set_etr_formatter_bypass sink else id)
        (each_check (take (Z.to_nat (num_trace_sinks dv)) (trace_sinks dv)) (fun etf =>
           check (cs_sink_etf_setup etf) (check (cs_tmc_hw_fifo_enable etf) (fun h => (0, h)))) k))).

Definition enable_trace (axi : list axictl) (dv : cs_devices) (sink : cs_dev) (ptms : list cs_dev)
    (etr_ram_addr etr_ram_size : Z) : H -> Z * H :=
  enable_sinks axi dv sink etr_ram_addr etr_ram_size (fun h =>
    let h := each ptms (fun ptm => call (cs_trace_enable ptm)) h in
    errors (call cs_checkpoint h)).

Definition disable_trace (dv : cs_devices) (sink : cs_dev) (ptms : list cs_dev) (h : H) : Z * H :=
  let h := cs_etb_flush_and_wait_stop sink h in
  let h := each ptms (fun ptm => call (cs_trace_disable ptm)) h in
  let h := each (take (Z.to_nat (num_trace_sinks dv)) (trace_sinks dv))
                (fun etf => call (cs_tmc_hw_fifo_disable etf)) h in
  errors (call (cs_sink_disable sink) h).

(** The ETM cycle of a window, with the new PID in the comparator. *)
Definition cycle_etm (traced_pid : Z) (ptm : cs_dev) (h : H) : H :=
  let h :=
    if (traced_pid >? 0) && pid_filter_enabled then
      call (cs_device_write ptm CIDCVR0_hi 0) (call (cs_device_write ptm CIDCVR0_lo (u32 traced_pid)) h)
    else h in
  call (cs_trace_enable ptm) h.

Definition enable_trace_sinks_only (axi : list axictl) (dv : cs_devices) (sink : cs_dev)
    (ptms : list cs_dev) (etr_ram_addr etr_ram_size traced_pid : Z) : H -> Z * H :=
  enable_sinks axi dv sink etr_ram_addr etr_ram_size (fun h =>
    let h := if etm_cycled_per_window then each ptms (cycle_etm traced_pid) h else h in
    errors (call cs_checkpoint h)).

Definition disable_trace_sinks_only (dv : cs_devices) (sink : cs_dev) (ptms : list cs_dev) (h : H)
    : Z * H :=
  let h := cs_etb_flush_and_wait_stop sink h in
  let h := if etm_cycled_per_window
           then each ptms (fun ptm => call (cs_trace_disable ptm)) h else h in
  let h := each (take (Z.to_nat (num_trace_sinks dv)) (trace_sinks dv))
                (fun etf => call (cs_tmc_hw_fifo_disable etf)) h in
  errors (call (cs_sink_disable sink) h).

End Config.
