(* ===== verification/EtmFacts.v ===== *)
(** * What the hardware is left in

    The behaviour of CSAL the program relies on, as the class [CsalLaws]: what
    each call does to an ETM and to a sink when it succeeds.  Under it, the
    state [configure_trace], [set_etm_bb_mode] and the enable and disable
    functions leave every ETM and the sink in. *)

From stdpp Require Import base numbers list sets strings.
From Stdlib Require Import ZArith Lia.
From S2P Require Import Prelude Boards MapInfo Etm.

(** ** Register groups *)

(** Comparators: those of the mask are taken from [new]. *)
Definition write_comps (mask : Z) (new old : list adrcmp) : list adrcmp :=
  imap (fun i o => if Z.testbit mask (Z.of_nat i) then default o (new !! i) else o) old.

(** Register [x] of group [g] comes from [new] when the group is flagged. *)
Definition sel {A} (fs : list etmc) (g : etmc) (new old : A) : A :=
  if bool_decide (g ∈ fs) then new else old.

(** [put]: the groups flagged in [new] replace those of [old]. *)
Definition write_groups (new old : etm_config) : etm_config :=
  let fs := flags new in
  {| flags := flags old; cidsize := cidsize old; vmidsize := vmidsize old;
     configr := sel fs CS_ETMC_CONFIG (configr new) (configr old);
     stallcrlr := sel fs CS_ETMC_CONFIG (stallcrlr new) (stallcrlr old);
     syncpr := sel fs CS_ETMC_CONFIG (syncpr new) (syncpr old);
     bbctlr := sel fs CS_ETMC_CONFIG (bbctlr new) (bbctlr old);
     victlr := sel fs CS_ETMC_TRACE_ENABLE (victlr new) (victlr old);
     viiectlr := sel fs CS_ETMC_TRACE_ENABLE (viiectlr new) (viiectlr old);
     vissctlr := sel fs CS_ETMC_TRACE_ENABLE (vissctlr new) (vissctlr old);
     eventctlr0r := sel fs CS_ETMC_EVENTSELECT (eventctlr0r new) (eventctlr0r old);
     eventctlr1r := sel fs CS_ETMC_EVENTSELECT (eventctlr1r new) (eventctlr1r old);
     cidcvr_l := sel fs CS_ETMC_CXID_COMP (cidcvr_l new) (cidcvr_l old);
     cidcvr_h := sel fs CS_ETMC_CXID_COMP (cidcvr_h new) (cidcvr_h old);
     cidcctlr0 := sel fs CS_ETMC_CXID_COMP (cidcctlr0 new) (cidcctlr0 old);
     cxid_comps_acc_mask := cxid_comps_acc_mask old;
     addr_comps := sel fs CS_ETMC_ADDR_COMP
       (write_comps (addr_comps_acc_mask new) (addr_comps new) (addr_comps old)) (addr_comps old);
     addr_comps_acc_mask := addr_comps_acc_mask old |}.

(** [get]: the groups flagged in [t] are read from the registers; the masks and
    the comparators stay those of [t]. *)
Definition read_groups (t regs : etm_config) : etm_config :=
  let fs := flags t in
  {| flags := fs; cidsize := cidsize t; vmidsize := vmidsize t;
     configr := sel fs CS_ETMC_CONFIG (configr regs) (configr t);
     stallcrlr := sel fs CS_ETMC_CONFIG (stallcrlr regs) (stallcrlr t);
     syncpr := sel fs CS_ETMC_CONFIG (syncpr regs) (syncpr t);
     bbctlr := sel fs CS_ETMC_CONFIG (bbctlr regs) (bbctlr t);
     victlr := sel fs CS_ETMC_TRACE_ENABLE (victlr regs) (victlr t);
     viiectlr := sel fs CS_ETMC_TRACE_ENABLE (viiectlr regs) (viiectlr t);
     vissctlr := sel fs CS_ETMC_TRACE_ENABLE (vissctlr regs) (vissctlr t);
     eventctlr0r := sel fs CS_ETMC_EVENTSELECT (eventctlr0r regs) (eventctlr0r t);
     eventctlr1r := sel fs CS_ETMC_EVENTSELECT (eventctlr1r regs) (eventctlr1r t);
     cidcvr_l := cidcvr_l t; cidcvr_h := cidcvr_h t; cidcctlr0 := cidcctlr0 t;
     cxid_comps_acc_mask := cxid_comps_acc_mask t;
     addr_comps := addr_comps t; addr_comps_acc_mask := addr_comps_acc_mask t |}.

(** ** The laws *)

(** An ETM: its registers, whether it traces, its trace identifier. *)
Record etm_hw := MkEtmHw { e_cfg : etm_config; e_on : bool; e_id : Z }.

#[export] Instance eta_etm_hw : Eta etm_hw := fun e => MkEtmHw (e_cfg e) (e_on e) (e_id e).

(** What a successful call does to ETM [d]: a configuration is written in
    programming mode, and the comparator registers take a value only there. *)
Definition etm_effect (clean : etm_config -> etm_config) (c : cs_call) (d : cs_dev) (e : etm_hw)
    : etm_hw :=
  match c with
  | cs_etm_clean d' =>
      if decide (d = d') then e <| e_cfg := clean (e_cfg e) |> <| e_on := false |> else e
  | cs_set_trace_source_id d' id => if decide (d = d') then e <| e_id := id |> else e
  | cs_etm_config_put_ex d' t =>
      if decide (d = d') then e <| e_cfg := write_groups t (e_cfg e) |> <| e_on := false |> else e
  | cs_trace_enable d' => if decide (d = d') then e <| e_on := true |> else e
  | cs_trace_disable d' => if decide (d = d') then e <| e_on := false |> else e
  | cs_device_write d' r v =>
      if decide (d = d') then
        if e_on e then e
        else match r with
             | CIDCVR0_lo => e <| e_cfg := (e_cfg e) <| cidcvr_l := v |> |>
             | CIDCVR0_hi => e <| e_cfg := (e_cfg e) <| cidcvr_h := v |> |>
             | _ => e
             end
      else e
  | _ => e
  end.

(** What it does to sink [k]. *)
Definition sink_effect (c : cs_call) (k : cs_dev) (on : bool) : bool :=
  match c with
  | cs_sink_enable k' => if decide (k = k') then true else on
  | cs_sink_disable k' => if decide (k = k') then false else on
  | _ => on
  end.

Class CsalLaws (H : Type) `{CSAL H} := {
  etm_of : H -> cs_dev -> etm_hw;
  sink_of : H -> cs_dev -> bool;
  clean_regs : etm_config -> etm_config;
  law_ret : forall c h, (cs_do c h).1 = 0;
  law_errors : forall c h, cs_error_count h <= 0 -> cs_error_count (cs_do c h).2 <= 0;
  law_etm : forall c h d, etm_of (cs_do c h).2 d = etm_effect clean_regs c d (etm_of h d);
  law_sink : forall c h k, sink_of (cs_do c h).2 k = sink_effect c k (sink_of h k);
  law_get : forall d t h, cs_etm_config_get_ex d t h = read_groups t (e_cfg (etm_of h d));
  (* a fresh configuration has sixteen comparators, as the ETM has *)
  law_init : forall d, (length (addr_comps (cs_etm_config_init_ex d)) = 16)%nat /\
                       addr_comps_acc_mask (cs_etm_config_init_ex d) = 0;
  law_regs : forall h d, (length (addr_comps (e_cfg (etm_of h d))) = 16)%nat;
  (* cleaning keeps the control register or clears the branch-broadcast bit *)
  law_clean : forall t, bb (configr (clean_regs t)) = true -> bb (configr t) = true
}.

Section Facts.
Context {H : Type} `{CSAL H, EtmBits, EtmEnv, !CsalLaws H}.

(** No error was counted. *)
Definition fine (h : H) : Prop := cs_error_count h <= 0.

Lemma call_fine c h : fine h -> fine (call c h).
Proof. apply law_errors. Qed.

Lemma call_etm c h d : etm_of (call c h) d = etm_effect clean_regs c d (etm_of h d).
Proof. apply law_etm. Qed.

Lemma call_sink c h k : sink_of (call c h) k = sink_effect c k (sink_of h k).
Proof. apply law_sink. Qed.

Lemma cs_do_eq c h : cs_do c h = (0, call c h).
Proof. unfold call. rewrite (surjective_pairing (cs_do c h)) at 1. by rewrite law_ret. Qed.

Lemma check_eq c k h : check c k h = k (call c h).
Proof. unfold check. by rewrite cs_do_eq. Qed.

Lemma errors_eq h : fine h -> errors h = (0, h).
Proof. unfold fine, errors. intros Hf. destruct (Z.gtb_spec (cs_error_count h) 0); [lia | done]. Qed.

(** [h'] differs from [h] on the ETMs [ds] only, and in what is not an ETM or a
    sink. *)
Definition only (ds : list cs_dev) (h h' : H) : Prop :=
  (forall d, d ∉ ds -> etm_of h' d = etm_of h d) /\ (forall k, sink_of h' k = sink_of h k) /\
  (fine h -> fine h').

Lemma only_refl ds h : only ds h h.
Proof. done. Qed.

Lemma only_trans ds es h1 h2 h3 : only ds h1 h2 -> only es h2 h3 -> only (ds ++ es) h1 h3.
Proof.
  intros (E1 & S1 & F1) (E2 & S2 & F2). split_and!; [| | tauto].
  - intros d Hd. rewrite elem_of_app in Hd. rewrite E2, E1; tauto.
  - intros k. by rewrite S2, S1.
Qed.

Lemma only_weaken ds es h h' : ds ⊆ es -> only ds h h' -> only es h h'.
Proof. intros Hs (E & S & F). split_and!; [| done | done]. intros d Hd. apply E. set_solver. Qed.

(** Calls on one ETM. *)
Definition etm_call (c : cs_call) : option cs_dev :=
  match c with
  | cs_etm_clean d | cs_set_trace_source_id d _ | cs_etm_config_put_ex d _ | cs_trace_enable d
  | cs_trace_disable d | cs_device_write d CIDCVR0_lo _ | cs_device_write d CIDCVR0_hi _ => Some d
  | _ => None
  end.

Lemma etm_call_only c d h : etm_call c = Some d -> only [d] h (call c h).
Proof.
  intros Hc. split_and!; [| | apply call_fine].
  - intros d' Hd. apply not_elem_of_cons in Hd as [Hd _]. rewrite call_etm.
    destruct c; try destruct r; simplify_eq/=; by rewrite decide_False.
  - intros k. rewrite call_sink. by destruct c.
Qed.

Lemma other_call_only c h :
  etm_call c = None -> (forall k, sink_effect c k (sink_of h k) = sink_of h k) -> only [] h (call c h).
Proof.
  intros Hc Hk. split_and!; [| | apply call_fine].
  - intros d _. rewrite call_etm. destruct c; try done. cbn in *. by destruct r, (e_on _), (decide _).
  - intros k. by rewrite call_sink.
Qed.

Lemma flush_only k h : only [] h (cs_etb_flush_and_wait_stop k h).
Proof.
  unfold cs_etb_flush_and_wait_stop. destruct (cs_sink_is_enabled k h); [| apply only_refl].
  eapply (only_trans [] []); by apply other_call_only.
Qed.

(** Loops over distinct ETMs: each gets its own effect. *)
Lemma each_only {A} (l : list A) (dev : A -> cs_dev) (body : A -> H -> H) h :
  (forall a h, a ∈ l -> only [dev a] h (body a h)) -> only (dev <$> l) h (each l body h).
Proof.
  unfold each. revert h. induction l as [|a l IH]; intros h Hb; [apply only_refl |]. cbn [foldl fmap list_fmap].
  eapply (only_trans [dev a]); [apply Hb; set_solver |]. apply IH. intros a' h' Ha. apply Hb. set_solver.
Qed.

Lemma each_etm (ptms : list cs_dev) (body : cs_dev -> H -> H) (f : etm_hw -> etm_hw) h d :
  NoDup ptms -> d ∈ ptms ->
  (forall d h, only [d] h (body d h)) -> (forall d h, etm_of (body d h) d = f (etm_of h d)) ->
  etm_of (each ptms body h) d = f (etm_of h d).
Proof.
  unfold each. intros Hnd Hd Ho Hf. revert h. induction Hnd as [|a l Ha Hnd IH]; intros h;
    [by apply not_elem_of_nil in Hd |].
  cbn [foldl]. apply elem_of_cons in Hd as [-> | Hd].
  - rewrite <- Hf. pose proof (each_only l id body (body a h) ltac:(intros; apply Ho)) as (E & _ & _).
    apply E. by rewrite list_fmap_id.
  - rewrite IH by done. f_equal. apply Ho. apply not_elem_of_cons. split; [| apply not_elem_of_nil].
    by intros ->.
Qed.

(** ** Branch broadcast *)

Definition set_bb (b : bool) (e : etm_hw) : etm_hw :=
  e <| e_cfg := (e_cfg e) <| configr := (configr (e_cfg e)) <| bb := b |> |> |> <| e_on := true |>.

Lemma set_bb_one etm b h :
  let tconfig := cs_etm_config_get_ex etm
    ((cs_etm_config_init_ex etm) <| flags := [CS_ETMC_CONFIG] |>) h in
  let h' := call (cs_trace_enable etm) (call (cs_etm_config_put_ex etm
    (tconfig <| configr := (configr tconfig) <| bb := b |> |> <| flags := [CS_ETMC_CONFIG] |>)) h) in
  only [etm] h h' /\ etm_of h' etm = set_bb b (etm_of h etm).
Proof.
  cbn zeta. split.
  - eapply only_weaken; [| eapply only_trans; by apply etm_call_only]. set_solver.
  - rewrite !call_etm, law_get. cbn [etm_effect]. rewrite !decide_True by done.
    unfold set_bb. destruct (etm_of h etm) as [c on i]. by destruct c.
Qed.

Lemma set_etm_bb_mode_spec ptms b h :
  NoDup ptms -> fine h ->
  exists h', set_etm_bb_mode ptms b h = (0, h') /\ only ptms h h' /\
    forall d, d ∈ ptms -> etm_of h' d = set_bb b (etm_of h d).
Proof.
  unfold set_etm_bb_mode. intros Hnd. revert h. induction Hnd as [|a l Ha Hnd IH]; intros h Hf.
  - exists h. cbn [each_check]. rewrite errors_eq by done. split_and!; [done | apply only_refl |].
    intros d Hd. by apply not_elem_of_nil in Hd.
  - cbn [each_check]. rewrite check_eq. cbn [Z.eqb].
    destruct (set_bb_one a b h) as [Ho He].
    destruct (IH _ (proj2 (proj2 Ho) Hf)) as (h' & Hh' & Ho' & Hd').
    exists h'. split_and!; [exact Hh' | by eapply (only_trans [a]) |].
    intros d [-> | Hd]%elem_of_cons.
    + rewrite (proj1 Ho' a Ha). exact He.
    + rewrite Hd' by done. f_equal. apply Ho. apply not_elem_of_cons.
      split; [by intros -> | apply not_elem_of_nil].
Qed.

(** ** Set-up *)

(** An ETM after [init_etm]: stopped, no range included, the control register
    it had after cleaning. *)
Definition inited (e0 e : etm_hw) : Prop :=
  e_on e = false /\ e_id e = e_id e0 /\ viiectlr (e_cfg e) = 0 /\
  configr (e_cfg e) = configr (clean_regs (e_cfg e0)).

Lemma init_etm_spec d h :
  is_etmv4 d = true ->
  exists h', init_etm d h = (Some 0, h') /\ only [d] h h' /\ inited (etm_of h d) (etm_of h' d).
Proof.
  intros Hv. unfold init_etm. rewrite cs_do_eq. cbn [Z.eqb negb]. rewrite Hv. cbn [negb].
  eexists. split; [done |]. split.
  - eapply only_weaken; [| eapply only_trans; by apply etm_call_only]. set_solver.
  - rewrite !call_etm, law_get, call_etm. cbn [etm_effect]. rewrite !decide_True by done.
    unfold inited. split_and!; done.
Qed.

(** The source of CPU [i]. *)
Definition source (i : Z) : cs_dev := default (CpuSource i) (cs_cpu_get_device i).

(** CPU [i] has an ETM version 4. *)
Definition has_etm (i : Z) : Prop :=
  cs_cpu_get_device i = Some (source i) /\ is_etmv4 (source i) = true.

Lemma init_etms_spec l h :
  Forall has_etm l -> NoDup (source <$> l) ->
  exists h', init_etms l h = (Some (inr (source <$> l)), h') /\ only (source <$> l) h h' /\
    forall i, i ∈ l -> exists e0, e_cfg e0 = e_cfg (etm_of h (source i)) /\ e_id e0 = 0x10 + i /\
      inited e0 (etm_of h' (source i)).
Proof.
  intros Hl. revert h. induction Hl as [|i l [Hg Hv] Hl IH]; intros h Hnd.
  { exists h. split_and!; [done | apply only_refl |]. intros i Hi. by apply not_elem_of_nil in Hi. }
  cbn [fmap list_fmap] in Hnd. apply NoDup_cons in Hnd as [Hni Hnd].
  cbn [init_etms]. rewrite Hg, cs_do_eq. cbn [Z.ltb Z.compare].
  set (h1 := call (cs_set_trace_source_id (source i) (0x10 + i)) h).
  assert (only [source i] h h1) as Ho1 by (by apply etm_call_only).
  destruct (init_etm_spec (source i) h1 Hv) as (h2 & -> & Ho2 & Hi). cbn [Z.ltb Z.compare].
  destruct (IH h2 Hnd) as (h3 & -> & Ho3 & Hall). exists h3. split_and!; [done | |].
  - cbn [fmap list_fmap]. eapply only_weaken; [| eapply only_trans; [exact Ho1 |];
      eapply only_trans; [exact Ho2 | exact Ho3]]. set_solver.
  - intros j [-> | Hj]%elem_of_cons.
    + exists (etm_of h1 (source i)). rewrite (proj1 Ho3 _ Hni). unfold h1 at 1 2. rewrite call_etm.
      cbn [etm_effect]. rewrite decide_True by done. by split_and!.
    + destruct (Hall j Hj) as (e0 & He & Hid & Hin). exists e0. split_and!; [| done | done].
      assert (source j <> source i) as Hne.
      { intros Heq. apply Hni. rewrite <- Heq. by apply list_elem_of_fmap_2. }
      rewrite He, (proj1 Ho2), (proj1 Ho1); [done | |]; apply not_elem_of_cons; split; try done;
        apply not_elem_of_nil.
Qed.

(** ** Ranges *)

(** The configuration [configure_etmv4_addr_range_cid] reads from registers. *)
Definition range_start (d : cs_dev) (regs : etm_config) : etm_config :=
  read_groups ((cs_etm_config_init_ex d)
    <| flags := [CS_ETMC_TRACE_ENABLE; CS_ETMC_CONFIG; CS_ETMC_EVENTSELECT] |>) regs.

(** An ETM whose ranges were configured. *)
Definition ranged (ranges : list map_info) (pid : Z) (d : cs_dev) (e0 e : etm_hw) : Prop :=
  exists t, range_cid_config ranges (u64 pid) (range_start d (e_cfg e0)) = Some t /\
    e = e0 <| e_cfg := write_groups t (e_cfg e0) |> <| e_on := false |>.

(** The configuration does not end the process. *)
Definition range_accepted (ranges : list map_info) (pid : Z) : Prop :=
  forall t, is_Some (range_cid_config ranges (u64 pid) t).

Lemma configure_ranges_all_spec ptms ranges pid h :
  range_accepted ranges pid -> NoDup ptms -> fine h ->
  exists h', configure_ranges_all ptms ranges pid h = (Some 0, h') /\ only ptms h h' /\
    forall d, d ∈ ptms -> ranged ranges pid d (etm_of h d) (etm_of h' d).
Proof.
  intros Hacc Hnd. revert h. induction Hnd as [|a l Ha Hnd IH]; intros h Hf.
  { exists h. split_and!; [done | apply only_refl |]. intros d Hd. by apply not_elem_of_nil in Hd. }
  cbn [configure_ranges_all]. unfold configure_etmv4_addr_range_cid. rewrite law_get.
  fold (range_start a (e_cfg (etm_of h a))).
  destruct (Hacc (range_start a (e_cfg (etm_of h a)))) as [t Ht]. rewrite Ht.
  set (h1 := call (cs_etm_config_put_ex a t) h).
  assert (only [a] h h1) as Ho1 by (by apply etm_call_only).
  rewrite errors_eq by (by apply Ho1). cbn [Z.eqb].
  destruct (IH h1 ltac:(by apply Ho1)) as (h2 & -> & Ho2 & Hall). exists h2.
  split_and!; [done | by eapply (only_trans [a]) |]. intros d [-> | Hd]%elem_of_cons.
  - rewrite (proj1 Ho2 a Ha). unfold h1. rewrite call_etm. cbn [etm_effect].
    rewrite decide_True by done. by exists t.
  - destruct (Hall d Hd) as (t' & Ht' & ->). rewrite (proj1 Ho1 d) in *.
    { by exists t'. }
    all: apply not_elem_of_cons; split; [by intros -> | apply not_elem_of_nil].
Qed.

(** The range whose code is traced, and the attributes of its comparators. *)
Definition view_range (ranges : list map_info) : map_info :=
  if is_env AFLCS_STALKER_EL0_VIEW "1" then el0_range else default zero_map (head ranges).
Definition view_acc (pid : Z) : Z :=
  if (pid >? 0) && pid_filter_enabled then Z.lor ACATR_CTXT ACATR_CTXTID_0 else 0.

Lemma write_comps_lookup mask new old (i : nat) x :
  (i < length old)%nat -> Z.testbit mask (Z.of_nat i) = true -> new !! i = Some x ->
  write_comps mask new old !! i = Some x.
Proof.
  intros Hi Hm Hx. unfold write_comps. rewrite list_lookup_imap.
  destruct (lookup_lt_is_Some_2 old i Hi) as [o ->]. cbn. by rewrite Hm, Hx.
Qed.

(** What the context-ID part leaves alone, and what it sets. *)
Lemma cid_config_fields d regs pid :
  let t := cid_config pid (range_start d regs) in
  (length (addr_comps t) = 16)%nat /\ addr_comps_acc_mask t = 0 /\ viiectlr t = viiectlr regs /\
  bb (configr t) = bb (configr regs) /\
  CS_ETMC_TRACE_ENABLE ∈ flags t /\ CS_ETMC_CONFIG ∈ flags t /\
  (0 < pid -> CS_ETMC_CXID_COMP ∈ flags t /\ cidcvr_l t = Z.land pid 0xFFFFFFFF /\
     cidcvr_h t = Z.land (Z.shiftr pid 32) 0xFFFFFFFF).
Proof.
  cbn zeta. destruct (law_init d) as [Hlen Hmask]. unfold cid_config. cbn zeta.
  destruct (Z.gtb_spec (vmidsize (range_start d regs)) 0), (Z.gtb_spec pid 0); cbn;
    split_and!; try done; try set_solver; intros ?; try lia; split_and!; try done; set_solver.
Qed.

(** What ends up in the registers of an ETM, in the Stalker build. *)
Lemma range_cid_fields ranges pid d regs t :
  stalker_decoder = true -> (length (addr_comps regs) = 16)%nat ->
  range_cid_config ranges pid (range_start d regs) = Some t ->
  let c := write_groups t regs in
  viiectlr c = Z.lor (viiectlr regs) 1 /\ bb (configr c) = bb (configr regs) /\
  addr_comps c !! 0%nat = Some (addr_cmp (m_start (view_range ranges)) (view_acc pid)) /\
  addr_comps c !! 1%nat = Some (addr_cmp (m_end (view_range ranges)) (view_acc pid)) /\
  (0 < pid -> cidcvr_l c = Z.land pid 0xFFFFFFFF /\ cidcvr_h c = Z.land (Z.shiftr pid 32) 0xFFFFFFFF).
Proof.
  intros Hst Hlen. unfold range_cid_config. rewrite Hst.
  pose proof (cid_config_fields d regs pid) as Hc. cbn zeta in *.
  set (t0 := cid_config pid (range_start d regs)) in *. clearbody t0.
  destruct Hc as (Hl & Hm & Hv & Hb & Hf1 & Hf2 & Hp). fold (view_acc pid).
  unfold stalker_configure_addr_range, view_range. destruct (is_env AFLCS_STALKER_EL0_VIEW "1").
  all: try (destruct (view_acc pid =? 0); [done |]); intros [= <-]; cbn [flags write_groups viiectlr configr
    addr_comps cidcvr_l cidcvr_h addr_comps_acc_mask upd eta_etm_config set_etmv4_addr_range bb];
    unfold sel; rewrite !bool_decide_true by set_solver.
  all: split_and!; [by rewrite Hv | done | | |].
  all: try (intros Hpid; destruct (Hp Hpid) as (Hf3 & -> & ->); by rewrite !bool_decide_true by set_solver).
  all: apply write_comps_lookup; [lia | by rewrite Hm |].
  all: repeat (rewrite list_lookup_insert_ne by done).
  all: by rewrite list_lookup_insert_eq by (rewrite ?length_insert; lia).
Qed.

(** ** configure_trace *)

Lemma configure_trace_spec n sink ranges pid h :
  Forall has_etm (below n) -> NoDup (source <$> below n) -> range_accepted ranges pid -> fine h ->
  exists h', configure_trace n sink ranges pid h = (Some 0, source <$> below n, h') /\ fine h' /\
    forall i, i ∈ below n -> exists e0 e1,
      e_cfg e0 = e_cfg (etm_of h (source i)) /\ e_id e0 = 0x10 + i /\ inited e0 e1 /\
      ranged ranges pid (source i) e1 (etm_of h' (source i)).
Proof.
  intros Hl Hnd Hacc Hf. unfold configure_trace.
  set (h0 := call (cs_sink_disable sink) (call cs_disable_tpiu (call (cs_device_set_wait_repeats 320000) h))).
  assert (fine h0 /\ forall d, etm_of h0 d = etm_of h d) as [Hf0 He0].
  { unfold h0. split; [by repeat apply call_fine |]. intros d. by rewrite !call_etm. }
  clearbody h0. destruct (init_etms_spec (below n) h0 Hl Hnd) as (h1 & -> & Ho1 & Hi1).
  set (h2 := call cs_checkpoint h1).
  assert (only [] h1 h2) as Ho2 by (by apply other_call_only).
  destruct (configure_ranges_all_spec (source <$> below n) ranges pid h2) as (h3 & -> & Ho3 & Hr3);
    [done | done | by apply Ho2, Ho1 |]. cbn [Z.eqb].
  set (h4 := call (cs_device_write sink _ _) h3).
  assert (only [] h3 h4) as Ho4 by (by apply other_call_only).
  assert (fine h4) as Hf4 by (by apply Ho4, Ho3, Ho2, Ho1). rewrite errors_eq by done.
  exists h4. split_and!; [done | done |]. intros i Hi. destruct (Hi1 i Hi) as (e0 & Hc & Hid & Hin).
  exists e0, (etm_of h1 (source i)). split_and!; [by rewrite Hc, He0 | done | done |].
  rewrite (proj1 Ho4) by apply not_elem_of_nil.
  rewrite <- (proj1 Ho2) by apply not_elem_of_nil. apply Hr3. by apply list_elem_of_fmap_2.
Qed.

(** ** Enabling and disabling *)

Lemma fifos_fine etfs k h :
  exists h', each_check etfs (fun etf => check (cs_sink_etf_setup etf)
      (check (cs_tmc_hw_fifo_enable etf) (fun h => (0, h)))) k h = k h' /\ only [] h h'.
Proof.
  revert h. induction etfs as [|etf etfs IH]; intros h; [by exists h |]. cbn [each_check].
  rewrite !check_eq. cbn [Z.eqb].
  destruct (IH (call (cs_tmc_hw_fifo_enable etf) (call (cs_sink_etf_setup etf) h))) as (h' & -> & Ho).
  exists h'. split; [done |]. eapply (only_trans [] []); [| exact Ho].
  eapply (only_trans [] []); by apply other_call_only.
Qed.

Lemma enable_sinks_spec axi dv sink addr size k h :
  exists h', enable_sinks axi dv sink addr size k h = k h' /\ (fine h -> fine h') /\
    (forall d, etm_of h' d = etm_of h d) /\ sink_of h' sink = true.
Proof.
  unfold enable_sinks. rewrite !check_eq.
  set (h1 := call (cs_sink_enable sink) (call (cs_sink_etr_setup sink addr size axi) h)).
  assert ((fine h -> fine h1) /\ (forall d, etm_of h1 d = etm_of h d) /\ sink_of h1 sink = true)
    as (Hf & He & Hs).
  { unfold h1. split_and!; [intros Hf; by repeat apply call_fine | intros d; by rewrite !call_etm |].
    rewrite call_sink. cbn. by rewrite decide_True. }
  clearbody h1.
  assert (exists h2, (if stalker_decoder then set_etr_formatter_bypass sink else id)
    (each_check (take (Z.to_nat (num_trace_sinks dv)) (trace_sinks dv)) (fun etf =>
       check (cs_sink_etf_setup etf) (check (cs_tmc_hw_fifo_enable etf) (fun h => (0, h)))) k) h1 =
    each_check (take (Z.to_nat (num_trace_sinks dv)) (trace_sinks dv)) (fun etf =>
       check (cs_sink_etf_setup etf) (check (cs_tmc_hw_fifo_enable etf) (fun h => (0, h)))) k h2 /\
    only [] h1 h2) as (h2 & -> & Ho2).
  { destruct stalker_decoder; [| by exists h1]. unfold set_etr_formatter_bypass. rewrite check_eq.
    eexists. split; [done |]. by apply other_call_only. }
  destruct (fifos_fine (take (Z.to_nat (num_trace_sinks dv)) (trace_sinks dv)) k h2) as (h3 & -> & Ho3).
  destruct (only_trans _ _ _ _ _ Ho2 Ho3) as (E & S & F).
  exists h3. split_and!; [done | tauto | intros d; rewrite E by apply not_elem_of_nil; apply He |].
  by rewrite S.
Qed.

(** The state of the ETMs and of the sink when a window is open or closed. *)
Definition armed (f : etm_hw -> etm_hw) (ptms : list cs_dev) (sink : cs_dev) (h h' : H) : Prop :=
  fine h' /\ sink_of h' sink = true /\ forall d, d ∈ ptms -> etm_of h' d = f (etm_of h d).
Definition disarmed (ptms : list cs_dev) (sink : cs_dev) (h h' : H) : Prop :=
  fine h' /\ sink_of h' sink = false /\
  forall d, d ∈ ptms -> etm_of h' d = (etm_of h d) <| e_on := false |>.

(** A loop over the ETMs, then a checkpoint. *)
Lemma cycle_spec ptms sink (body : cs_dev -> H -> H) (f : etm_hw -> etm_hw) h :
  NoDup ptms -> fine h -> sink_of h sink = true ->
  (forall d h, only [d] h (body d h)) -> (forall d h, etm_of (body d h) d = f (etm_of h d)) ->
  exists h', errors (call cs_checkpoint (each ptms body h)) = (0, h') /\ armed f ptms sink h h'.
Proof.
  intros Hnd Hf Hs Hb He.
  pose proof (each_only ptms id body h ltac:(intros; apply Hb)) as (_ & S & F).
  assert (only [] (each ptms body h) (call cs_checkpoint (each ptms body h))) as (E2 & S2 & F2)
    by (by apply other_call_only).
  eexists. split; [apply errors_eq; tauto |]. split_and!; [tauto | by rewrite S2, S |].
  intros d Hd. rewrite E2 by apply not_elem_of_nil. by apply each_etm.
Qed.

Lemma enable_trace_spec axi dv sink ptms addr size h :
  NoDup ptms -> fine h ->
  exists h', enable_trace axi dv sink ptms addr size h = (0, h') /\
    armed (fun e => e <| e_on := true |>) ptms sink h h'.
Proof.
  intros Hnd Hf. unfold enable_trace.
  destruct (enable_sinks_spec axi dv sink addr size (fun h =>
    errors (call cs_checkpoint (each ptms (fun ptm => call (cs_trace_enable ptm)) h))) h)
    as (h1 & -> & Hf1 & He1 & Hs1).
  destruct (cycle_spec ptms sink (fun ptm => call (cs_trace_enable ptm)) (fun e => e <| e_on := true |>) h1)
    as (h' & -> & Hf' & Hs' & He'); [done | tauto | done | | |].
  - intros d h0. by apply etm_call_only.
  - intros d h0. rewrite call_etm. cbn. by rewrite decide_True.
  - exists h'. split; [done |]. split_and!; [done | done |]. intros d Hd. by rewrite He', He1.
Qed.

(** A window's cycle of an ETM that is stopped. *)
Definition cycled (pid : Z) (e : etm_hw) : etm_hw :=
  let e := if (pid >? 0) && pid_filter_enabled && negb (e_on e)
           then e <| e_cfg := (e_cfg e) <| cidcvr_l := u32 pid |> <| cidcvr_h := 0 |> |> else e in
  e <| e_on := true |>.

Lemma cycle_etm_spec pid d h :
  only [d] h (cycle_etm pid d h) /\ etm_of (cycle_etm pid d h) d = cycled pid (etm_of h d).
Proof.
  unfold cycle_etm, cycled. destruct ((pid >? 0) && pid_filter_enabled); cbn [andb].
  - split.
    + eapply only_weaken; [| eapply only_trans; [eapply only_trans |]; by apply etm_call_only].
      set_solver.
    + rewrite !call_etm. cbn [etm_effect]. rewrite !decide_True by done.
      destruct (etm_of h d) as [c [] i]; cbn; [done |]. by destruct c.
  - split; [by apply etm_call_only |]. rewrite call_etm. cbn. by rewrite decide_True.
Qed.

Lemma enable_sinks_only_spec axi dv sink ptms addr size pid h :
  etm_cycled_per_window = true -> NoDup ptms -> fine h ->
  exists h', enable_trace_sinks_only axi dv sink ptms addr size pid h = (0, h') /\
    armed (cycled pid) ptms sink h h'.
Proof.
  intros Hcy Hnd Hf. unfold enable_trace_sinks_only. rewrite Hcy.
  destruct (enable_sinks_spec axi dv sink addr size (fun h =>
    errors (call cs_checkpoint (each ptms (cycle_etm pid) h))) h) as (h1 & -> & Hf1 & He1 & Hs1).
  destruct (cycle_spec ptms sink (cycle_etm pid) (cycled pid) h1) as (h' & -> & Hf' & Hs' & He');
    [done | tauto | done | intros; apply cycle_etm_spec | intros; apply cycle_etm_spec |].
  exists h'. split; [done |]. split_and!; [done | done |]. intros d Hd. by rewrite He', He1.
Qed.

Lemma disable_sinks_only_spec dv sink ptms h :
  etm_cycled_per_window = true -> NoDup ptms -> fine h ->
  exists h', disable_trace_sinks_only dv sink ptms h = (0, h') /\ disarmed ptms sink h h'.
Proof.
  intros Hcy Hnd Hf. unfold disable_trace_sinks_only. rewrite Hcy.
  set (h1 := cs_etb_flush_and_wait_stop sink h).
  assert (only [] h h1) as Ho1 by apply flush_only.
  set (h2 := each ptms _ h1).
  assert (only ptms h1 h2) as Ho2.
  { pose proof (each_only ptms id (fun ptm => call (cs_trace_disable ptm)) h1) as Ho.
    rewrite list_fmap_id in Ho. apply Ho. intros. by apply etm_call_only. }
  set (h3 := each (take _ _) _ h2).
  assert (only [] h2 h3) as Ho3.
  { unfold h3, each. generalize h2. induction (take _ _) as [|etf etfs IH]; intros h0; [apply only_refl |].
    cbn [foldl]. eapply (only_trans [] []); [by apply (other_call_only (cs_tmc_hw_fifo_disable etf)) | apply IH]. }
  assert (fine (call (cs_sink_disable sink) h3)) as Hf4 by (by apply call_fine, Ho3, Ho2, Ho1).
  rewrite errors_eq by done. eexists. split; [done |]. split_and!; [done | |].
  - rewrite call_sink. cbn. by rewrite decide_True.
  - intros d Hd. rewrite call_etm. cbn [etm_effect].
    rewrite (proj1 Ho3), <- (proj1 Ho1) by apply not_elem_of_nil. unfold h2.
    apply (each_etm ptms _ (fun e => e <| e_on := false |>)); [done | done | |].
    + intros d' h'. by apply etm_call_only.
    + intros d' h'. rewrite call_etm. cbn. by rewrite decide_True.
Qed.

End Facts.

(** ** Comparators *)

(** The address in a comparator, and the addresses a pair selects: the end is
    inclusive (src/src/stalker.c, [stalker_configure_addr_range]). *)
Definition comp_value (c : adrcmp) : Z := acvr_l c + 2 ^ 32 * acvr_h c.
Definition pair_selects (lo hi : adrcmp) (a : Z) : Prop := comp_value lo <= a <= comp_value hi.

Lemma comp_value_addr a acc `{EtmBits} : 0 <= a < 2 ^ 64 -> comp_value (addr_cmp a acc) = a.
Proof.
  intros Ha. unfold comp_value, addr_cmp. cbn [acvr_l acvr_h].
  change 0xFFFFFFFF with (Z.ones 32). rewrite !Z.land_ones, Z.shiftr_div_pow2 by lia.
  rewrite (Z.mod_small (a / 2 ^ 32)).
  - pose proof (Z.div_mod a (2 ^ 32) ltac:(lia)). lia.
  - split; [apply Z.div_pos; lia | apply Z.div_lt_upper_bound; lia].
Qed.

(** Range [r] is programmed on pair [i] of [t]. *)
Definition pair_programmed (t : etm_config) (i : nat) (r : map_info) : Prop :=
  Z.testbit (viiectlr t) (Z.of_nat i) = true /\
  Z.testbit (addr_comps_acc_mask t) (Z.of_nat (2 * i)) = true /\
  Z.testbit (addr_comps_acc_mask t) (Z.of_nat (2 * i + 1)) = true /\
  exists lo hi, addr_comps t !! (2 * i)%nat = Some lo /\ addr_comps t !! (2 * i + 1)%nat = Some hi /\
    forall a, pair_selects lo hi a <-> m_start r <= a < m_end r \/ a = m_end r.

Definition addr_range_ok (r : map_info) : Prop := 0 <= m_start r <= m_end r /\ m_end r < 2 ^ 64.

Section Pairs.
Context `{EtmBits} (acc : Z).

(** One round of the loop. *)
Definition one_range (i : nat) (range : map_info) (t : etm_config) : etm_config :=
  (set_etmv4_addr_range range (i * 2) acc t)
    <| addr_comps_acc_mask := Z.lor (addr_comps_acc_mask t) (Z.shiftl 0x3 (Z.of_nat i * 2)) |>
    <| viiectlr := Z.lor (viiectlr t) (Z.shiftl 1 (Z.of_nat i)) |>.

Lemma one_range_pair i r t :
  addr_range_ok r -> (2 * i + 1 < length (addr_comps t))%nat -> pair_programmed (one_range i r t) i r.
Proof.
  intros [Hr He] Hl. unfold pair_programmed, one_range, set_etmv4_addr_range.
  cbn [viiectlr addr_comps_acc_mask addr_comps upd eta_etm_config].
  rewrite !Z.lor_spec, !Z.shiftl_spec by lia.
  replace (Z.of_nat i - Z.of_nat i) with 0 by lia.
  replace (Z.of_nat (2 * i) - Z.of_nat i * 2) with 0 by lia.
  replace (Z.of_nat (2 * i + 1) - Z.of_nat i * 2) with 1 by lia.
  rewrite !orb_true_r. split_and!; [done | done | done |].
  exists (addr_cmp (m_start r) acc), (addr_cmp (m_end r) acc).
  replace (i * 2)%nat with (2 * i)%nat by lia. replace (2 * i + 1)%nat with (S (2 * i)) by lia. split_and!.
  - rewrite list_lookup_insert_ne by lia. by rewrite list_lookup_insert_eq by lia.
  - by rewrite list_lookup_insert_eq by (rewrite length_insert; lia).
  - intros a. unfold pair_selects. rewrite !comp_value_addr by lia. lia.
Qed.

(** A round leaves the other pairs alone. *)
Lemma one_range_other i j r r' t :
  i <> j -> pair_programmed t j r' -> pair_programmed (one_range i r t) j r'.
Proof.
  intros Hij (Hv & Hm0 & Hm1 & lo & hi & Hlo & Hhi & Hsel).
  unfold pair_programmed, one_range, set_etmv4_addr_range.
  cbn [viiectlr addr_comps_acc_mask addr_comps upd eta_etm_config].
  rewrite !Z.lor_spec, Hv, Hm0, Hm1. split_and!; [done | done | done |].
  exists lo, hi. rewrite !list_lookup_insert_ne by lia. done.
Qed.

Lemma one_range_length i r t : length (addr_comps (one_range i r t)) = length (addr_comps t).
Proof. cbn. by rewrite !length_insert. Qed.

Lemma configure_ranges_keep ranges i j r t :
  (j < i)%nat -> pair_programmed t j r -> pair_programmed (configure_ranges i ranges acc t) j r.
Proof.
  revert i t. induction ranges as [|r' ranges IH]; intros i t Hj Hp; [done |].
  apply (IH (S i) (one_range i r' t)); [lia |]. apply one_range_other; [lia | done].
Qed.

Lemma configure_ranges_pairs ranges i t k r :
  Forall addr_range_ok ranges -> (2 * (i + length ranges) <= length (addr_comps t))%nat ->
  ranges !! k = Some r -> pair_programmed (configure_ranges i ranges acc t) (i + k) r.
Proof.
  intros Hok. revert i t k. induction Hok as [|r' ranges Hr Hok IH]; intros i t k Hl Hk; [done |].
  cbn [length] in Hl. destruct k as [|k]; cbn [lookup list_lookup] in Hk.
  - simplify_eq. rewrite Nat.add_0_r. apply (configure_ranges_keep ranges (S i) i r (one_range i r t)); [lia |].
    apply one_range_pair; [done | lia].
  - replace (i + S k)%nat with (S i + k)%nat by lia. apply (IH (S i) (one_range i r' t)); [| done].
    rewrite one_range_length. lia.
Qed.

(** Pairs that no range uses keep their comparators. *)
Lemma configure_ranges_rest ranges i t j :
  (j < 2 * i \/ 2 * (i + length ranges) <= j)%nat ->
  addr_comps (configure_ranges i ranges acc t) !! j = addr_comps t !! j.
Proof.
  revert i t. induction ranges as [|r ranges IH]; intros i t Hj; [done |]. cbn [length] in Hj.
  transitivity (addr_comps (one_range i r t) !! j); [apply (IH (S i) (one_range i r t)); lia |].
  cbn. by rewrite !list_lookup_insert_ne by lia.
Qed.

End Pairs.

(** C35: In the coresight-decoder build, every mapped range gets a comparator
    pair of its own, programmed for inclusion, that selects the addresses of
    the mapping and the first one after it (the end of a mapping is exclusive,
    the comparator's inclusive); the comparators after the last pair are left
    alone. *)
Theorem ranges_programmed `{EtmBits} (ranges : list map_info) (acc_type_ex : Z) (t : etm_config) :
  Forall addr_range_ok ranges -> (2 * length ranges <= length (addr_comps t))%nat ->
  let t' := configure_ranges 0 ranges acc_type_ex t in
  (forall i r, ranges !! i = Some r -> pair_programmed t' i r) /\
  (forall j, (2 * length ranges <= j)%nat -> addr_comps t' !! j = addr_comps t !! j).
Proof.
  intros Hok Hl. split.
  - intros i r Hi. by apply (configure_ranges_pairs acc_type_ex ranges 0 t i r).
  - intros j Hj. apply configure_ranges_rest. lia.
Qed.
