(* ===== verification/Session.v ===== *)
(** * Tracing sessions (src/src/common.c)

    What common.c keeps between executions and does with the configuration of
    the hardware: arming it for a child, disarming it, switching the
    branch-broadcast mode. *)

From stdpp Require Import base numbers list strings.
From Stdlib Require Import ZArith Lia.
From S2P Require Import Prelude Boards MapInfo Etm.

(** ** State *)

(** What [init_trace] set up. *)
Record setup := MkSetup {
  u_ncpu : nat;
  u_axi : list axictl;
  u_devices : cs_devices;
  u_sink : cs_dev;
  u_ram_addr : Z;
  u_ram_size : Z;
  u_ranges : list map_info
}.

(** The file-scope variables, with [traced_pid] of config.c and the mode the
    Stalker decoder was told. *)
Record session (H : Type) := MkSession {
  hw : H;
  ptm : list cs_dev;
  is_first_trace : bool;
  ever_configured : bool;
  bb_mode : bool;
  traced_pid : Z;
  child_pid : Z;
  decoder_bb : bool
}.
Arguments MkSession {H}.
Arguments hw {H}.
Arguments ptm {H}.
Arguments is_first_trace {H}.
Arguments ever_configured {H}.
Arguments bb_mode {H}.
Arguments traced_pid {H}.
Arguments child_pid {H}.
Arguments decoder_bb {H}.

#[export] Instance eta_session H : Eta (session H) := fun s =>
  MkSession (hw s) (ptm s) (is_first_trace s) (ever_configured s) (bb_mode s) (traced_pid s)
    (child_pid s) (decoder_bb s).

(** The initial values. *)
Definition session_static {H} (h : H) : session H :=
  MkSession h [] true false false (-1) (-1) false.

Definition TRACE_DISABLE_TRIAL : nat := 8.

Section Session.
Context {H : Type} `{CSAL H, EtmBits, EtmEnv} (u : setup).

(** The [exit] label of [enable_cs_trace] on an error. *)
Definition enable_failed (s : session H) : option Z * session H :=
  (Some (-1), s <| hw := call cs_shutdown (hw s) |>).

(** The part of [enable_cs_trace] after [configure_trace]. *)
Definition first_enable (s : session H) : option Z * session H :=
  let '(r, h) := enable_trace (u_axi u) (u_devices u) (u_sink u) (ptm s) (u_ram_addr u)
                   (u_ram_size u) (hw s) in
  let s := s <| hw := h |> in
  if r <? 0 then enable_failed s
  else
    let s := s <| is_first_trace := false |> <| ever_configured := true |> in
    if bb_mode s then
      let '(r, h) := set_etm_bb_mode (ptm s) true (hw s) in
      let s := s <| hw := h |> in
      if r <? 0 then enable_failed s else (Some 0, s)
    else (Some 0, s).

Definition enable_cs_trace (pid : Z) (s : session H) : option Z * session H :=
  if is_first_trace s then
    let filtered := stalker_decoder || pid_filter_enabled in
    let s := if filtered then s <| traced_pid := child_pid s |> else s in
    match configure_trace (u_ncpu u) (u_sink u) (u_ranges u)
            (if filtered then child_pid s else pid) (hw s) with
    | (None, _, h) => (None, s <| hw := h |>)
    | (Some r, ptms, h) =>
        (* after a failure the array holds the devices it held, if any *)
        if r <? 0 then enable_failed (s <| hw := h |>)
        else first_enable (s <| hw := h |> <| ptm := ptms |>)
    end
  else
    let s := s <| traced_pid := child_pid s |> in
    let '(r, h) := enable_trace_sinks_only (u_axi u) (u_devices u) (u_sink u) (ptm s)
                     (u_ram_addr u) (u_ram_size u) (traced_pid s) (hw s) in
    let s := s <| hw := h |> in
    if r <? 0 then enable_failed s else (Some 0, s).

(** One try of [disable_cs_trace]. *)
Definition disable_once (disable_all : bool) (s : session H) : Z * session H :=
  let '(r, h) :=
    if disable_all then disable_trace (u_devices u) (u_sink u) (ptm s) (hw s)
    else disable_trace_sinks_only (u_devices u) (u_sink u) (ptm s) (hw s) in
  (r, s <| hw := h |>).

(** The [while], with [n] tries left after this one. *)
Fixpoint disable_loop (n : nat) (disable_all : bool) (s : session H) : Z * session H :=
  let '(r, s) := disable_once disable_all s in
  if r <? 0 then
    let s := s <| hw := call cs_reset_error_count (hw s) |> in
    match n with O => (r, s) | S n => disable_loop n disable_all s end
  else (r, s).

Definition disable_cs_trace (disable_all : bool) (s : session H) : Z * session H :=
  disable_loop (TRACE_DISABLE_TRIAL - 1) disable_all s.

(** [trace_set_bb_mode], called while tracing is stopped. *)
Definition trace_set_bb_mode (b : bool) (s : session H) : Z * session H :=
  let '(r, h) := if ever_configured s then set_etm_bb_mode (ptm s) b (hw s) else (0, hw s) in
  let s := s <| hw := h |> <| bb_mode := b |> <| is_first_trace := true |> in
  (r, if stalker_decoder then s <| decoder_bb := b |> else s).

(** The hardware part of [start_trace]: the child becomes the traced one. *)
Definition arm_trace (pid : Z) (use_pid_trace : bool) (s : session H) : option Z * session H :=
  enable_cs_trace (if use_pid_trace then pid else 0) (s <| child_pid := pid |>).

End Session.
