(* ===== verification/SessionFacts.v ===== *)
(** * Every window traces its own child

    In the Stalker build, with a CSAL that does what is asked of it: whatever
    windows were opened before and however often the branch-broadcast mode was
    switched, a window opened for a child finds every ETM enabled in the mode
    asked for, on the traced range, gated on that child's PID. *)

From stdpp Require Import base numbers list sets strings.
From Stdlib Require Import ZArith Lia.
From S2P Require Import Prelude Boards MapInfo Etm EtmFacts Session.

Section Windows.
Context {H : Type} `{CSAL H, EtmBits, EtmEnv, !CsalLaws H} (u : setup).

(** The ETMs of the board. *)
Abbreviation sources := (source <$> below (u_ncpu u)).

(** What is assumed of the board and of the build. *)
Record window_env : Prop := {
  we_stalker : stalker_decoder = true;
  we_etms : Forall has_etm (below (u_ncpu u));
  we_distinct : NoDup sources;
  (* AFLCS_STALKER_EL0_VIEW needs the filter; its attribute bits are not zero *)
  we_view : is_env AFLCS_STALKER_EL0_VIEW "1" = true ->
            pid_filter_enabled = true /\ Z.lor ACATR_CTXT ACATR_CTXTID_0 <> 0
}.

Hypothesis Henv : window_env.

(** The attributes of the comparators of a window. *)
Definition window_acc : Z := if pid_filter_enabled then Z.lor ACATR_CTXT ACATR_CTXTID_0 else 0.

(** ETM [i] is set up for the session's range and mode. *)
Record set_up (b : bool) (i : Z) (e : etm_hw) : Prop := {
  su_bb : bb (configr (e_cfg e)) = b;
  su_include : viiectlr (e_cfg e) = 1;
  su_lo : addr_comps (e_cfg e) !! 0%nat =
            Some (addr_cmp (m_start (view_range (u_ranges u))) window_acc);
  su_hi : addr_comps (e_cfg e) !! 1%nat =
            Some (addr_cmp (m_end (view_range (u_ranges u))) window_acc);
  su_id : e_id e = 0x10 + i
}.

(** A window open for child [pid] in mode [b]. *)
Definition window (pid : Z) (b : bool) (h : H) : Prop :=
  sink_of h (u_sink u) = true /\
  forall i, i ∈ below (u_ncpu u) ->
    let e := etm_of h (source i) in
    e_on e = true /\ set_up b i e /\
    (pid_filter_enabled = true -> cidcvr_l (e_cfg e) = pid /\ cidcvr_h (e_cfg e) = 0).

(** Between windows. *)
Definition between (s : session H) : Prop :=
  fine (hw s) /\ decoder_bb s = bb_mode s /\ (ever_configured s = true -> ptm s = sources) /\
  if is_first_trace s
  then forall i, i ∈ below (u_ncpu u) ->
         bb (configr (e_cfg (etm_of (hw s) (source i)))) = true ->
         ever_configured s = true /\ bb_mode s = true
  else ever_configured s = true /\
       forall i, i ∈ below (u_ncpu u) ->
         e_on (etm_of (hw s) (source i)) = false /\ set_up (bb_mode s) i (etm_of (hw s) (source i)).

Lemma pid_small pid : 0 < pid < 2 ^ 31 -> u64 pid = pid /\ u32 pid = pid.
Proof. intros Hp. by rewrite u64_small, u32_small by lia. Qed.

Lemma view_acc_window pid : 0 < pid -> view_acc pid = window_acc.
Proof.
  intros Hp. unfold view_acc, window_acc. destruct (Z.gtb_spec pid 0); [done | lia].
Qed.

Lemma pid_range_accepted pid : 0 < pid < 2 ^ 31 -> range_accepted (u_ranges u) pid.
Proof.
  intros Hp t. destruct (pid_small pid Hp) as [-> _]. unfold range_cid_config.
  rewrite (we_stalker Henv). fold (view_acc pid). rewrite view_acc_window by lia.
  unfold stalker_configure_addr_range, window_acc.
  destruct (is_env AFLCS_STALKER_EL0_VIEW "1") eqn:Hv; [| by eexists].
  destruct (we_view Henv Hv) as [-> Hbits]. destruct (Z.eqb_spec (Z.lor ACATR_CTXT ACATR_CTXTID_0) 0);
    [done | by eexists].
Qed.

Lemma land_ones32 z : 0 <= z < 2 ^ 32 -> Z.land z 0xFFFFFFFF = z /\ Z.land (Z.shiftr z 32) 0xFFFFFFFF = 0.
Proof.
  intros Hz. change 0xFFFFFFFF with (Z.ones 32). rewrite !Z.land_ones by lia.
  rewrite Z.shiftr_div_pow2 by lia. rewrite Z.mod_small, Z.div_small by lia. done.
Qed.

(** The ETM after [configure_trace], still stopped. *)
Lemma configured_set_up pid b i e0 e1 e :
  0 < pid < 2 ^ 31 -> (length (addr_comps (e_cfg e1)) = 16)%nat ->
  (bb (configr (e_cfg e0)) = true -> b = true) -> e_id e0 = 0x10 + i ->
  inited e0 e1 -> ranged (u_ranges u) pid (source i) e1 e ->
  set_up (bb (configr (e_cfg e))) i e /\ (bb (configr (e_cfg e)) = true -> b = true) /\
  cidcvr_l (e_cfg e) = pid /\ cidcvr_h (e_cfg e) = 0.
Proof.
  intros Hp Hlen Hb Hid (Hon & Hid1 & Hv & Hc) (t & Ht & ->).
  destruct (pid_small pid Hp) as [Hp64 _]. rewrite Hp64 in Ht.
  destruct (range_cid_fields _ _ _ _ _ (we_stalker Henv) Hlen Ht) as (Hvi & Hbb & Hlo & Hhi & Hcid).
  destruct (Hcid ltac:(lia)) as [Hcl Hch]. destruct (land_ones32 pid ltac:(lia)) as [Hp1 Hp2].
  rewrite view_acc_window in Hlo, Hhi by lia.
  set (c := write_groups t (e_cfg e1)) in *. clearbody c. cbn [e_cfg e_id upd eta_etm_hw] in *.
  split_and!; [constructor; cbn; [done | by rewrite Hvi, Hv | done | done | congruence] | |
    by rewrite Hcl | by rewrite Hch].
  rewrite Hbb, Hc. intros Hcl'. by apply Hb, law_clean.
Qed.

(** A window was opened for [pid]: the rest of the session is as before. *)
Definition opened (pid : Z) (s s' : session H) : Prop :=
  fine (hw s') /\ window pid (bb_mode s) (hw s') /\ ptm s' = sources /\
  bb_mode s' = bb_mode s /\ decoder_bb s' = decoder_bb s /\
  is_first_trace s' = false /\ ever_configured s' = true.

Lemma enable_first arg pid s :
  between s -> is_first_trace s = true -> 0 < pid < 2 ^ 31 ->
  exists s', enable_cs_trace u arg (s <| child_pid := pid |>) = (Some 0, s') /\
    opened pid s s'.
Proof.
  intros (Hf & _ & _ & Hb) Hfirst Hp. rewrite Hfirst in Hb. unfold enable_cs_trace.
  cbn [is_first_trace upd eta_session]. rewrite Hfirst, (we_stalker Henv). cbn [orb].
  cbn [hw child_pid upd eta_session].
  destruct (configure_trace_spec (u_ncpu u) (u_sink u) (u_ranges u) pid (hw s)) as (h1 & -> & Hf1 & Hi1);
    [apply Henv | apply Henv | by apply pid_range_accepted | done |].
  cbn [Z.ltb Z.compare]. unfold first_enable. cbn [hw ptm bb_mode upd eta_session].
  destruct (enable_trace_spec (u_axi u) (u_devices u) (u_sink u) sources (u_ram_addr u) (u_ram_size u) h1)
    as (h2 & -> & Hf2 & Hs2 & He2); [apply Henv | done |]. cbn [Z.ltb Z.compare].
  assert (forall i, i ∈ below (u_ncpu u) -> let e := etm_of h2 (source i) in
    e_on e = true /\ set_up (bb (configr (e_cfg e))) i e /\
    (bb (configr (e_cfg e)) = true -> bb_mode s = true) /\
    cidcvr_l (e_cfg e) = pid /\ cidcvr_h (e_cfg e) = 0) as Hset.
  { intros i Hi. cbn zeta. rewrite (He2 (source i)) by (by apply list_elem_of_fmap_2).
    destruct (Hi1 i Hi) as (e0 & e1 & Hc & Hid & Hin & Hr).
    assert (length (addr_comps (e_cfg e1)) = 16)%nat as Hlen.
    { destruct Hr as (t & _ & He). pose proof (law_regs h1 (source i)) as Hl. rewrite He in Hl.
      cbn in Hl. unfold sel, write_comps in Hl. case_bool_decide; by rewrite ?length_imap in Hl. }
    destruct (configured_set_up pid (bb_mode s) i e0 e1 (etm_of h1 (source i)) Hp Hlen) as (Hsu & Hbb & Hcl & Hch);
      [rewrite Hc; intros Hbi; by apply (Hb i Hi) | done | done | done |].
    destruct (etm_of h1 (source i)) as [c on id]. by destruct Hsu. }
  destruct (bb_mode s) eqn:Hmode.
  - destruct (set_etm_bb_mode_spec sources true h2) as (h3 & -> & Ho3 & Hb3); [apply Henv | done |].
    cbn [Z.ltb Z.compare]. eexists. split; [done |]. unfold opened. cbn. split_and!; try done; [by apply Ho3 |].
    split; [by rewrite (proj1 (proj2 Ho3)) |]. intros i Hi. cbn zeta.
    rewrite Hb3 by (by apply list_elem_of_fmap_2). destruct (Hset i Hi) as (_ & Hsu & _ & Hcl & Hch).
    unfold set_bb. destruct (etm_of h2 (source i)) as [c on id]. destruct c. by destruct Hsu.
  - eexists. split; [done |]. unfold opened. cbn. split_and!; try done. split; [done |]. intros i Hi.
    destruct (Hset i Hi) as (Hon & Hsu & Hbb & Hcl & Hch). split_and!; [done | | done].
    rewrite Hmode. destruct (bb (configr (e_cfg (etm_of h2 (source i))))) eqn:He;
      [by specialize (Hbb eq_refl) | done].
Qed.

Lemma enable_again arg pid s :
  between s -> is_first_trace s = false -> 0 < pid < 2 ^ 31 ->
  exists s', enable_cs_trace u arg (s <| child_pid := pid |>) = (Some 0, s') /\
    opened pid s s'.
Proof.
  intros (Hf & _ & Hptm & Hb) Hfirst Hp. rewrite Hfirst in Hb. destruct Hb as [Hever Hall].
  unfold enable_cs_trace. cbn [is_first_trace upd eta_session]. rewrite Hfirst.
  cbn [hw ptm traced_pid child_pid upd eta_session]. rewrite (Hptm Hever).
  assert (etm_cycled_per_window = true) as Hcy.
  { unfold etm_cycled_per_window. by rewrite (we_stalker Henv). }
  destruct (enable_sinks_only_spec (u_axi u) (u_devices u) (u_sink u) sources (u_ram_addr u)
    (u_ram_size u) pid (hw s)) as (h' & -> & Hf' & Hs' & He'); [done | apply Henv | done |].
  cbn [Z.ltb Z.compare]. eexists. split; [done |]. unfold opened. cbn. split_and!; try done; [| by apply Hptm].
  split; [done |]. intros i Hi. cbn zeta. rewrite He' by (by apply list_elem_of_fmap_2).
  destruct (Hall i Hi) as [Hon Hsu]. destruct (pid_small pid Hp) as [_ Hp32].
  unfold cycled. rewrite Hon, Hp32. destruct (Z.gtb_spec pid 0); [| lia]. cbn [andb negb].
  destruct (etm_of (hw s) (source i)) as [c on id]. destruct Hsu. destruct pid_filter_enabled; cbn in *.
  - destruct c. by split_and!.
  - by split_and!.
Qed.

(** Opening a window. *)
Lemma arm_spec pid use_pid_trace s :
  between s -> 0 < pid < 2 ^ 31 ->
  exists s', arm_trace u pid use_pid_trace s = (Some 0, s') /\ opened pid s s'.
Proof.
  intros Hi Hp. unfold arm_trace.
  destruct (is_first_trace s) eqn:Hfirst; [by apply enable_first | by apply enable_again].
Qed.

(** Closing it. *)
Lemma disarm_spec pid s0 s :
  between s0 -> opened pid s0 s ->
  exists s', disable_cs_trace u false s = (0, s') /\ between s' /\ bb_mode s' = bb_mode s0 /\
    sink_of (hw s') (u_sink u) = false.
Proof.
  intros (_ & Hd0 & _) (Hf & [_ Hw] & Hptm & Hbb & Hd & Hfirst & Hever).
  assert (etm_cycled_per_window = true) as Hcy.
  { unfold etm_cycled_per_window. by rewrite (we_stalker Henv). }
  destruct (disable_sinks_only_spec (u_devices u) (u_sink u) sources (hw s)) as (h' & Hh' & Hf' & Hs' & He');
    [done | apply Henv | done |].
  unfold disable_cs_trace, TRACE_DISABLE_TRIAL. cbn [Nat.sub disable_loop]. unfold disable_once.
  rewrite Hptm, Hh'. cbn [Z.ltb Z.compare]. eexists. split; [done |].
  split_and!; [| done | done]. unfold between. cbn [hw bb_mode decoder_bb ever_configured ptm is_first_trace
    upd eta_session]. split_and!; [done | congruence | done |]. rewrite Hfirst. split; [done |].
  intros i Hi. destruct (Hw i Hi) as (_ & Hsu & _). rewrite He' by (by apply list_elem_of_fmap_2).
  destruct (etm_of (hw s) (source i)) as [c on id]. split; [done |]. rewrite Hbb. by destruct Hsu.
Qed.

(** Switching the mode between windows. *)
Lemma set_bb_mode_spec b s :
  between s ->
  exists s', trace_set_bb_mode b s = (0, s') /\ between s' /\ bb_mode s' = b.
Proof.
  intros (Hf & Hd & Hptm & Hb). unfold trace_set_bb_mode. rewrite (we_stalker Henv).
  destruct (ever_configured s) eqn:Hever.
  - rewrite Hptm by done.
    destruct (set_etm_bb_mode_spec sources b (hw s)) as (h' & -> & Ho & Hbb); [apply Henv | done |].
    eexists. split; [done |]. split; [| done]. unfold between. cbn. rewrite Hever.
    split_and!; [by apply Ho | done | by intros _; apply Hptm |].
    intros i Hi. rewrite Hbb by (by apply list_elem_of_fmap_2).
    by destruct (etm_of (hw s) (source i)) as [[] on id].
  - eexists. split; [done |]. split; [| done]. unfold between. cbn. rewrite Hever.
    split_and!; [done | done | done |].
    destruct (is_first_trace s); [| by destruct Hb]. intros i Hi Hbi.
    destruct (Hb i Hi Hbi). congruence.
Qed.

(** ** Any sequence of operations *)

(** What the proxy does between two windows: another window, or a switch. *)
Inductive session_op := SetBB (b : bool) | Traced (pid : Z) (use_pid_trace : bool).

Definition op_ok (op : session_op) : Prop :=
  match op with SetBB _ => True | Traced pid _ => 0 < pid < 2 ^ 31 end.

Definition session_step (op : session_op) (s : session H) : session H :=
  match op with
  | SetBB b => (trace_set_bb_mode b s).2
  | Traced pid use_pid_trace =>
      (disable_cs_trace u false (arm_trace u pid use_pid_trace s).2).2
  end.

Definition session_run (ops : list session_op) (s : session H) : session H :=
  foldl (fun s op => session_step op s) s ops.

(** The mode asked for last. *)
Definition last_mode (ops : list session_op) : bool :=
  foldl (fun m op => match op with SetBB b => b | Traced _ _ => m end) false ops.

Lemma between_step op s :
  between s -> op_ok op ->
  between (session_step op s) /\
  bb_mode (session_step op s) = match op with SetBB b => b | Traced _ _ => bb_mode s end.
Proof.
  intros Hb Hop. destruct op as [b | pid f]; cbn [session_step].
  - destruct (set_bb_mode_spec b s Hb) as (s' & -> & Hb' & Hm). done.
  - destruct (arm_spec pid f s Hb Hop) as (s1 & -> & Ho). cbn [snd].
    destruct (disarm_spec pid s s1 Hb Ho) as (s2 & -> & Hb2 & Hm & _). done.
Qed.

Lemma between_run ops s :
  between s -> Forall op_ok ops ->
  between (session_run ops s) /\
  bb_mode (session_run ops s) =
    foldl (fun m op => match op with SetBB b => b | Traced _ _ => m end) (bb_mode s) ops.
Proof.
  unfold session_run. intros Hb Hops. revert s Hb.
  induction Hops as [|op ops Hop Hops IH]; intros s Hb; [done |]. cbn [foldl].
  destruct (between_step op s Hb Hop) as [Hb' <-]. by apply IH.
Qed.

(** The hardware as the board powers it on: no error, no branch broadcast. *)
Definition power_on (h : H) : Prop :=
  fine h /\ forall i, i ∈ below (u_ncpu u) -> bb (configr (e_cfg (etm_of h (source i)))) = false.

Lemma between_static h : power_on h -> between (session_static h).
Proof.
  intros [Hf Hb]. unfold between. cbn. split_and!; [done | done | done |].
  intros i Hi Hbi. by rewrite Hb in Hbi.
Qed.

End Windows.


(** ** Retries *)

Section Retries.
Context {H : Type} `{CSAL H, EtmBits, EtmEnv} (u : setup).

(** The session before try [k]: [k] failed tries, each followed by a reset of
    the error count. *)
Fixpoint after_tries (k : nat) (disable_all : bool) (s : session H) : session H :=
  match k with
  | O => s
  | S k =>
      let s := (disable_once u disable_all s).2 in
      after_tries k disable_all (s <| hw := call cs_reset_error_count (hw s) |>)
  end.

(** What try [k] returns. *)
Definition try_result (k : nat) (disable_all : bool) (s : session H) : Z :=
  (disable_once u disable_all (after_tries k disable_all s)).1.

Lemma disable_loop_first n d s :
  0 <= (disable_loop u n d s).1 <-> exists k, (k <= n)%nat /\ 0 <= try_result k d s.
Proof.
  revert s. induction n as [|n IH]; intros s; cbn [disable_loop].
  all: destruct (disable_once u d s) as [r s1] eqn:Ho.
  - destruct (Z.ltb_spec r 0); cbn [fst]; split.
    + lia.
    + intros (k & Hk & Hr). assert (k = 0)%nat as -> by lia. unfold try_result in Hr. cbn in Hr.
      rewrite Ho in Hr. cbn in Hr. lia.
    + intros _. exists 0%nat. unfold try_result. cbn. by rewrite Ho.
    + done.
  - destruct (Z.ltb_spec r 0); cbn [fst].
    + rewrite IH. split.
      * intros (k & Hk & Hr). exists (S k). split; [lia |]. unfold try_result. cbn. by rewrite Ho.
      * intros (k & Hk & Hr). destruct k as [|k].
        { unfold try_result in Hr. cbn in Hr. rewrite Ho in Hr. cbn in Hr. lia. }
        exists k. split; [lia |]. unfold try_result in Hr. cbn in Hr. by rewrite Ho in Hr.
    + split; [| done]. intros _. exists 0%nat. split; [lia |]. unfold try_result. cbn. by rewrite Ho.
Qed.

End Retries.

(** Stopping the hardware is retried, the error count reset in between:
    the stop succeeds when one of the first eight tries does, and fails only
    after eight failures. *)
Theorem disable_retried {H : Type} `{CSAL H, EtmBits, EtmEnv} (u : setup) (disable_all : bool)
    (s : session H) :
  0 <= (disable_cs_trace u disable_all s).1 <->
  exists k, (k < 8)%nat /\ 0 <= try_result u k disable_all s.
Proof.
  unfold disable_cs_trace, TRACE_DISABLE_TRIAL. rewrite disable_loop_first.
  split; intros (k & Hk & Hr); exists k; split; (lia || done).
Qed.

(** ** Trace identifiers *)

(** C37: On the Jetson Nano, the Hi1616 and the ZCU 104, the identifier
    [get_trace_id] gives the decoder for a CPU is the one [configure_trace]
    programs into that CPU's ETM. *)
Theorem decoder_id_programmed {H : Type} `{CSAL H, EtmBits, EtmEnv, !CsalLaws H} (hardware : string)
    (n : nat) (sink : cs_dev) (ranges : list map_info) (pid : Z) (h : H) (c : Z) :
  hardware ∈ ["Jetson Nano"; "Hi1616"; "ZCU 104"]%string ->
  Forall has_etm (below n) -> NoDup (source <$> below n) -> range_accepted ranges pid -> fine h ->
  c ∈ below n ->
  let h' := (configure_trace n sink ranges pid h).2 in
  e_id (etm_of h' (source c)) = get_trace_id hardware c.
Proof.
  intros Hhw He Hnd Hacc Hf Hc.
  destruct (configure_trace_spec n sink ranges pid h He Hnd Hacc Hf) as (h' & -> & _ & Hall). cbn [snd].
  destruct (Hall c Hc) as (e0 & e1 & _ & Hid & (_ & Hid1 & _) & t & _ & ->). cbn. rewrite Hid1, Hid.
  rewrite !elem_of_cons in Hhw. by destruct Hhw as [-> | [-> | [-> | []%not_elem_of_nil]]].
Qed.

(** On the ThunderX2 the two disagree for every CPU but 0: the decoder
    is given the identifier of another CPU's ETM, or of none. *)
Lemma thunderx2_id_differs (c : Z) :
  0 < c < 32 -> get_trace_id "Marvell ThunderX2" c <> 0x10 + c.
Proof.
  intros Hc. unfold get_trace_id. cbn [String.eqb Ascii.eqb Bool.eqb].
  rewrite Z.rem_mod_nonneg, Z.quot_div_nonneg by lia.
  destruct (Z_lt_le_dec c 28).
  - rewrite Z.mod_small, Z.div_small by lia. lia.
  - assert (c / 28 = 1) as Hq by (symmetry; apply Z.div_unique with (c - 28); lia).
    assert (c mod 28 = c - 28) as -> by (symmetry; apply Z.mod_unique with 1; lia). rewrite Hq. lia.
Qed.
