(* ===== verification/HardwareDemo.v ===== *)
(** * A simulated board

    A CSAL whose calls do what the laws say, on the four CPUs of a ZCU 104, and
    the theorems on the hardware applied to it; the memory map of a small
    process as the kernel prints it. *)

From stdpp Require Import base numbers list sets strings relations.
From Stdlib Require Import ZArith Lia Ascii.
From S2P Require Import Prelude Cstr Boards MapInfo MapInfoFacts Etm EtmFacts Session SessionFacts.

(** ** The hardware *)

Definition zero_cmp : adrcmp := MkCmp 0 0 0.
Definition zero_regs : etm_config :=
  MkEtm [] 4 0 (MkConfigr false false false false 0) 0 0 0 0 0 0 0 0 0 0 0 0 (replicate 16 zero_cmp) 0.

Record board_hw := MkHw { sim_etm : cs_dev -> etm_hw; sim_sink : cs_dev -> bool }.

(** An ETM has sixteen comparators. *)
Definition sixteen (e : etm_hw) : etm_hw :=
  if decide (length (addr_comps (e_cfg e)) = 16%nat) then e
  else e <| e_cfg := (e_cfg e) <| addr_comps := replicate 16 zero_cmp |> |>.

#[local] Instance sim_csal : CSAL board_hw := {|
  cs_do c h := (0, MkHw (fun d => etm_effect id c d (sixteen (sim_etm h d)))
                        (fun k => sink_effect c k (sim_sink h k)));
  cs_etm_config_init_ex _ := zero_regs;
  cs_etm_config_get_ex d t h := read_groups t (e_cfg (sixteen (sim_etm h d)));
  cs_device_read _ _ _ := 0;
  cs_sink_is_enabled k h := sim_sink h k;
  cs_error_count _ := 0;
  cs_cpu_get_device i := Some (CpuSource i);
  is_etmv4 _ := true
|}.

Lemma sixteen_length e : length (addr_comps (e_cfg (sixteen e))) = 16%nat.
Proof. unfold sixteen. by case_decide. Qed.

Lemma sixteen_id e : length (addr_comps (e_cfg e)) = 16%nat -> sixteen e = e.
Proof. intros He. unfold sixteen. by rewrite decide_True. Qed.

Lemma effect_sixteen c d e :
  length (addr_comps (e_cfg e)) = 16%nat -> length (addr_comps (e_cfg (etm_effect id c d e))) = 16%nat.
Proof.
  intros He. destruct c; cbn; repeat case_decide; try done.
  - cbn. unfold sel, write_comps. case_bool_decide; [| done]. by rewrite length_imap.
  - destruct (e_on e); [done |]. by destruct r.
Qed.

#[local] Instance sim_laws : CsalLaws board_hw.
Proof.
  refine {| etm_of h d := sixteen (sim_etm h d); sink_of := sim_sink; clean_regs := id |}; try done.
  - intros c h d. cbn. by apply sixteen_id, effect_sixteen, sixteen_length.
  - intros h d. apply sixteen_length.
Defined.

#[local] Instance sim_bits : EtmBits := {|
  ACATR_ExEL0_S := 0x100; ACATR_ExEL1_S := 0x200; ACATR_ExEL2_S := 0x400; ACATR_ExEL1_NS := 0x2000;
  ACATR_ExEL2_NS := 0x4000; ACATR_CTXT := 4; ACATR_CTXTID_0 := 0;
  VICTLR_ExEL0_S := 0x10000; VICTLR_ExEL1_S := 0x20000; VICTLR_ExEL2_S := 0x40000; VICTLR_ExEL3_S := 0x80000;
  VICTLR_ExEL1_NS := 0x200000; VICTLR_ExEL2_NS := 0x400000; VICTLR_SSSTATUS := 0x200; VICTLR_ALWAYS := 1;
  FLFMT_FOnMan := 0x40; FLFMT_StopFl := 0x1000; FLFMT_EnFTC := 1; FLFMT_EnFCont := 2
|}.

#[local] Instance sim_env : EtmEnv := {|
  stalker_decoder := true; AFLCS_PID_FILTER := None; AFLCS_STALKER_EL0_VIEW := None;
  AFLCS_ETM_VICTLR := None; AFLCS_ETM_STALLCRLR := None; AFLCS_ETM_SYNCPR := None
|}.

Definition sim_text : map_info := MkMap 0x400000 0x452000 0 0 "/usr/bin/readelf".
Definition sim_devices : cs_devices := (do_registration_zcu104 devices_zero).2.
Definition sim_setup : setup :=
  MkSetup 4 AXICTL_COMMON sim_devices (default (CpuSource 0) (dv_etb sim_devices)) 0x30000000 0x800000 [sim_text].
Definition sim_hw : board_hw := MkHw (fun _ => MkEtmHw zero_regs false 0) (fun _ => false).

Lemma sim_window_env : window_env (H := board_hw) sim_setup.
Proof.
  constructor; [done | | | done].
  - by repeat constructor.
  - by apply (bool_decide_unpack _).
Qed.

(** ** Windows *)

(** Two windows with a switch to branch broadcast and back between them. *)
Definition sim_ops : list session_op := [Traced 77 false; SetBB true; Traced 78 true; SetBB false].


Lemma decoder_id_programmed_witness :
  e_id (etm_of (configure_trace 4 (CpuSource 9) [sim_text] 1234 sim_hw).2 (source 2)) =
    get_trace_id "ZCU 104" 2.
Proof.
  apply (decoder_id_programmed "ZCU 104" 4 (CpuSource 9) [sim_text] 1234 sim_hw 2);
    [by right; right; left | apply sim_window_env | apply sim_window_env | intros t; by eexists | done |].
  by apply (bool_decide_unpack _).
Defined.

Lemma ranges_programmed_witness :
  let t' := configure_ranges 0 [sim_text; el0_range] 0 zero_regs in
  (forall i r, [sim_text; el0_range] !! i = Some r -> pair_programmed t' i r) /\
  (forall j, (4 <= j)%nat -> addr_comps t' !! j = addr_comps zero_regs !! j).
Proof.
  apply (ranges_programmed [sim_text; el0_range] 0 zero_regs); [| cbn; lia].
  repeat constructor; cbn; lia.
Defined.

(** ** Boards *)

Lemma boards_route_trace_witness :
  exists sink, dv_etb sim_devices = Some sink /\
    rtc (atb_link (do_registration_zcu104 devices_zero).1) (CpuSource 3) sink.
Proof.
  pose proof (boards_route_trace (fun _ => 0) (MkBoard do_registration_zcu104 4 "ZCU 104"
    (AXICTL_COMMON ++ [WR_BURST_16])) ltac:(unfold known_boards; rewrite !elem_of_cons; tauto)) as Hb.
  cbn [do_registration] in Hb. rewrite (surjective_pairing (do_registration_zcu104 devices_zero)) in Hb.
  destruct Hb as (sink & Hs & Hc & _). exists sink. split; [exact Hs |].
  apply Hc. by apply (bool_decide_unpack _).
Defined.

(** ** A process *)

Definition sim_vmas : list vma :=
  [MkVma 0x400000 0x452000 true false true false 0 8 1 1234 20 "/usr/bin/readelf";
   MkVma 0x461000 0x462000 true true false false 0x51000 8 1 1234 20 "/usr/bin/readelf";
   MkVma 0x7f0000 0x7f8000 true false true false 0 8 1 99 20 "/lib/libc.so.6";
   MkVma 0xffff000 0x10020000 true true false false 0 0 0 0 20 "[stack]"].

#[local] Instance sim_maps : MapsEnv := {|
  proc_maps pid := if pid =? 1234 then Some (print_maps sim_vmas) else None;
  CS_TRACE_LIB := Some "libc"%string;
  open_ro _ := true;
  mmap_ro _ _ _ := Some 0xffff0000;
  uninit := MkScan 0 0 " " 0;
  args_open := true;
  fprintf_ok _ := true;
  udmabuf_dir _ := true;
  udmabuf_attr _ a := if String.eqb a "size" then Some "8388608"%string else Some "0x30000000"%string;
  proc_modules := ["u_dma_buf 16384 0 - Live"%string]
|}.

Lemma map_info_roundtrip_witness :
  let sel := traced_vmas CS_TRACE_LIB 2 sim_vmas in
  let '(ret, maps) := setup_map_info 1234 (Z.of_nat 2) in
  ret = zlen sel /\ entry <$> maps = vma_entry <$> sel /\ ret <= Z.of_nat 2.
Proof.
  apply (map_info_roundtrip 1234 2 sim_vmas); [lia | | done | done].
  repeat constructor; (done || cbn; unfold ULLONG_MAX; lia).
Defined.

(** Both the executable and the library are found. *)
Example sim_ranges : (setup_map_info 1234 RANGE_MAX).1 = 2.
Proof. vm_compute. reflexivity. Qed.
