(* ===== verification/Decoder.v ===== *)
(** * The decoder's interface (src/src/common.c, src/src/stalker.c)

    common.c drives one of two decoders: coresight-decoder (libcsdec) or, in a
    Stalker build, the adapter behind src/src/stalker.c.  Both are libraries,
    the class [DecoderLib]: a state [D] and what each call returns.  A decoder
    writes the coverage of a pass into [trace_bitmap]. *)

From stdpp Require Import base numbers list strings.
From Stdlib Require Import ZArith Lia.
From S2P Require Import Prelude Cstr Hash MapInfo Etm.

(** ** Data *)

(** [libcsdec_memory_map] and [libcsdec_memory_image]. *)
Record mem_range := MkMemRange { mr_start : Z; mr_end : Z; mr_path : string }.
Record mem_image := MkMemImage { mi_data : Z; mi_path : string; mi_size : Z }.

Class DecoderLib (D : Type) := {
  LIBCSDEC_SUCCESS : Z;
  LIBCSDEC_PATH_SIZE : nat;                    (* sizeof a path field *)
  libcsdec_init : cov_type_t -> list Z -> list mem_image -> D -> bool * D;
  libcsdec_reset : cov_type_t -> Z -> list mem_range -> D -> Z * D;
  libcsdec_run : cov_type_t -> list Z -> list Z -> D -> Z * list Z * D;
  libcsdec_finish : cov_type_t -> D -> D;
  libcsdec_overflow_packets : D -> Z;
  stalker_decoder_init : Z -> list map_info -> D -> Z * D;
  stalker_decoder_set_trace_id : Z -> D -> D;
  stalker_decoder_set_bb_mode : bool -> D -> D;
  stalker_decode_trace : list Z -> list Z -> D -> Z * list Z * D; (* map, bytes *)
  stalker_decode_did_overflow : D -> bool
}.

(** The memory allocator and the variables of stalker.c. *)
Class DecoderEnv := {
  malloc_bitmap : option (list Z);             (* what the fresh memory holds *)
  malloc_map : bool;
  malloc_img : bool;
  basename : string -> string;
  AFLCS_STALKER_DUMP_BYTES : option Z;         (* through [atoi] *)
  AFLCS_STALKER_DIAG : bool;
  coverage : bool
}.

Record dec (D : Type) := MkDec {
  lib : D;
  decoder : bool;                              (* the handle is not NULL *)
  cov_type : cov_type_t;
  trace_id : Z;
  trace_bitmap : option (list Z);
  trace_bitmap_size : Z;
  mem_map : option (list mem_range);
  mem_img : option (list mem_image);
  trace_overflow_occurred : bool;
  seen_overflow_packets : Z;
  stalker_dump_limit : Z;
  stalker_diag : bool;
  insn_save : bool                             (* INSN_SAVE was set *)
}.
Arguments MkDec {D}.
Arguments lib {D}.
Arguments decoder {D}.
Arguments cov_type {D}.
Arguments trace_id {D}.
Arguments trace_bitmap {D}.
Arguments trace_bitmap_size {D}.
Arguments mem_map {D}.
Arguments mem_img {D}.
Arguments trace_overflow_occurred {D}.
Arguments seen_overflow_packets {D}.
Arguments stalker_dump_limit {D}.
Arguments stalker_diag {D}.
Arguments insn_save {D}.

#[export] Instance eta_dec D : Eta (dec D) := fun d =>
  MkDec (lib d) (decoder d) (cov_type d) (trace_id d) (trace_bitmap d) (trace_bitmap_size d)
    (mem_map d) (mem_img d) (trace_overflow_occurred d) (seen_overflow_packets d)
    (stalker_dump_limit d) (stalker_diag d) (insn_save d).

(** The initial values, with the coverage kind and the map [main] chose. *)
Definition dec_static {D} (l : D) (cov : cov_type_t) (bitmap : option (list Z)) (size : Z) : dec D :=
  MkDec l false cov (-1) bitmap size None None false 0 0 false false.

Section Decoder.
Context {D : Type} `{DecoderLib D, DecoderEnv, EtmEnv}.

(** ** stalker.c *)

(** The bytes [stalker_debug_dump_capture] prints. *)
Definition dumped_bytes (limit : Z) (buf : list Z) : list Z :=
  let n := if zlen buf <? limit then zlen buf else limit in take (Z.to_nat n) buf.

(** The two numbers [stalker_debug_report] computes over the map. *)
Definition nonzero_bytes (bitmap : list Z) : Z :=
  foldl (fun n b => if c_true b then u32 (n + 1) else n) 0 bitmap.
Definition map_hash (bitmap : list Z) : Z := fnv_bytes 1469598103934665603 bitmap.

Definition stalker_setup (pid : Z) (maps : list map_info) (id : Z) (d : dec D) : Z * dec D :=
  let '(r, l) := stalker_decoder_init pid maps (lib d) in
  let d := d <| lib := l |> in
  if r <? 0 then (-1, d)
  else
    let d := d <| stalker_dump_limit := u64 (default 0 AFLCS_STALKER_DUMP_BYTES) |>
               <| stalker_diag := AFLCS_STALKER_DIAG |> in
    (0, d <| lib := stalker_decoder_set_bb_mode false (stalker_decoder_set_trace_id id (lib d)) |>).

Definition stalker_set_bb_mode (b : bool) (d : dec D) : dec D :=
  d <| lib := stalker_decoder_set_bb_mode b (lib d) |>.

Definition stalker_reset (d : dec D) : Z * dec D := (0, d).
Definition stalker_fini (d : dec D) : Z * dec D := (0, d).

(** [stalker_run]: its value, [*did_overflow], which the caller sets to false,
    and the state; the debug output is left out. *)
Definition stalker_run (buf : list Z) (d : dec D) : Z * bool * dec D :=
  let '(r, bitmap, l) := stalker_decode_trace (default [] (trace_bitmap d)) buf (lib d) in
  let d := d <| lib := l |> <| trace_bitmap := (fun _ => bitmap) <$> trace_bitmap d |> in
  if r <? 0 then (-1, false, d)
  else if stalker_decode_did_overflow (lib d) then (-1, true, d)
  else (0, false, d).

(** ** common.c *)

(** The entries of [mem_map] and [mem_img]. *)
Definition to_mem_range (m : map_info) : mem_range := MkMemRange (m_start m) (m_end m) (m_path m).
Definition to_mem_image (m : map_info) : mem_image :=
  MkMemImage (m_buf m) (str_take (LIBCSDEC_PATH_SIZE - 1) (basename (m_path m)))
    (ALIGN_UP (u64 (m_end m - m_start m)) PAGE_SIZE).

Definition reset_decoder (maps : list map_info) (d : dec D) : Z * dec D :=
  if negb (decoder d) then (-1, d)
  else if stalker_decoder then stalker_reset (d <| trace_overflow_occurred := false |>)
  else
    match mem_map d, malloc_map with
    | None, false => (-1, d)
    | m, _ =>
        let mm := default (to_mem_range <$> maps) m in
        let d := d <| mem_map := Some mm |> <| trace_overflow_occurred := false |> in
        match cov_type d with
        | hybrid_cov => (-1, d)
        | cov =>
            let '(ret, l) := libcsdec_reset cov (trace_id d) mm (lib d) in
            (if ret =? LIBCSDEC_SUCCESS then 0 else -1, d <| lib := l |>)
        end
    end.

(** After a pass: an Overflow packet was seen when the count moved. *)
Definition note_overflow (d : dec D) : dec D :=
  let n := libcsdec_overflow_packets (lib d) in
  let d := if negb (n =? seen_overflow_packets d) then d <| trace_overflow_occurred := true |> else d in
  d <| seen_overflow_packets := n |>.

Definition run_decoder (buf : list Z) (d : dec D) : Z * dec D :=
  if negb (decoder d) then (-1, d)
  else if stalker_decoder then
    let '(ret, overflow, d) := stalker_run buf d in
    (ret, if overflow then d <| trace_overflow_occurred := true |> else d)
  else
    match cov_type d with
    | hybrid_cov => (-1, d)
    | cov =>
        let '(ret, bitmap, l) := libcsdec_run cov (default [] (trace_bitmap d)) buf (lib d) in
        let d := d <| lib := l |> <| trace_bitmap := (fun _ => bitmap) <$> trace_bitmap d |> in
        (if ret =? LIBCSDEC_SUCCESS then 0 else -1, note_overflow d)
    end.

Definition trace_did_overflow (d : dec D) : bool := trace_overflow_occurred d.

Definition trace_overflow_packets (d : dec D) : Z :=
  if stalker_decoder then 0 else libcsdec_overflow_packets (lib d).

(** [init_decoder]: whether it returns a handle. *)
Definition init_decoder (maps : list map_info) (d : dec D) : bool * dec D :=
  match union (trace_bitmap d) malloc_bitmap with
  | None => (false, d)
  | Some bitmap =>
      let d := d <| trace_bitmap := Some bitmap |> in
      if stalker_decoder then (true, d)
      else
        match mem_img d, malloc_img with
        | None, false => (false, d)
        | i, _ =>
            let img := default (to_mem_image <$> maps) i in
            let d := d <| mem_img := Some img |> <| insn_save := insn_save d || coverage |> in
            match cov_type d with
            | hybrid_cov => (false, d)
            | cov =>
                let '(ok, l) := libcsdec_init cov bitmap img (lib d) in
                (ok, d <| lib := l |>)
            end
        end
  end.

Definition fini_decoder (d : dec D) : Z * dec D :=
  if negb (decoder d) then (-1, d)
  else if stalker_decoder then stalker_fini d
  else
    match cov_type d with
    | hybrid_cov => (0, d)
    | cov => (0, d <| lib := libcsdec_finish cov (lib d) |>)
    end.

(** ** Passes *)

(** The decoder after the passes over [bufs] in turn. *)
Definition run_passes (bufs : list (list Z)) (d : dec D) : dec D :=
  foldl (fun d buf => (run_decoder buf d).2) d bufs.

(** The pass over [buf] met an overflow: in a Stalker build it finished and the
    adapter says so, else libcsdec counted packets during it. *)
Definition pass_overflowed (buf : list Z) (d : dec D) : Prop :=
  let d' := (run_decoder buf d).2 in
  if stalker_decoder
  then 0 <= (stalker_decode_trace (default [] (trace_bitmap d)) buf (lib d)).1.1 /\
       stalker_decode_did_overflow (lib d') = true
  else libcsdec_overflow_packets (lib d) < libcsdec_overflow_packets (lib d').

(** libcsdec counts packets since start-up: a pass never lowers the count,
    other calls leave it. *)
Record counts_packets : Prop := {
  cp_run : forall cov b buf l,
    libcsdec_overflow_packets l <= libcsdec_overflow_packets (libcsdec_run cov b buf l).2;
  cp_reset : forall cov id m l,
    libcsdec_overflow_packets (libcsdec_reset cov id m l).2 = libcsdec_overflow_packets l;
  cp_init : forall cov b i l,
    libcsdec_overflow_packets (libcsdec_init cov b i l).2 = libcsdec_overflow_packets l
}.

(** The decoder is set up for its build, and the count was noted. *)
Definition dec_ready (d : dec D) : Prop :=
  decoder d = true /\ (stalker_decoder = false -> cov_type d <> hybrid_cov) /\
  (stalker_decoder = false -> seen_overflow_packets d = libcsdec_overflow_packets (lib d)).

(** ** Lemmas *)

Lemma note_overflow_flag d :
  trace_overflow_occurred (note_overflow d) =
    trace_overflow_occurred d || negb (libcsdec_overflow_packets (lib d) =? seen_overflow_packets d).
Proof.
  unfold note_overflow. destruct (_ =? _); cbn; [by rewrite orb_false_r | by rewrite orb_true_r].
Qed.

(** A pass of libcsdec. *)
Lemma csdec_pass buf d :
  counts_packets -> stalker_decoder = false -> decoder d = true -> cov_type d <> hybrid_cov ->
  exists l x, (run_decoder buf d).2 = note_overflow (d <| lib := l |> <| trace_bitmap := x |>) /\
    libcsdec_overflow_packets (lib d) <= libcsdec_overflow_packets l.
Proof.
  intros Hc Hst Hd Ht. unfold run_decoder. rewrite Hst, Hd. cbn [negb].
  pose proof (cp_run Hc (cov_type d) (default [] (trace_bitmap d)) buf (lib d)) as Hm.
  destruct (cov_type d); [| | done]; destruct (libcsdec_run _ _ _ _) as [[r b] l]; by eexists _, _.
Qed.

(** One pass. *)
Lemma run_decoder_spec buf d :
  counts_packets -> dec_ready d ->
  dec_ready (run_decoder buf d).2 /\
  (trace_did_overflow (run_decoder buf d).2 = true <-> trace_did_overflow d = true \/ pass_overflowed buf d).
Proof.
  intros Hc (Hd & Hcov & Hseen). unfold pass_overflowed, dec_ready, trace_did_overflow.
  destruct stalker_decoder eqn:Hst.
  - unfold run_decoder, stalker_run. rewrite Hd, Hst. cbn [negb].
    destruct (stalker_decode_trace _ buf (lib d)) as [[r bitmap] l]. cbn [fst].
    destruct (Z.ltb_spec r 0); cbn; [split; [done |]; split; [tauto | intros [? | []]; [done | lia]] |].
    destruct (stalker_decode_did_overflow l) eqn:Ho; cbn; rewrite Ho; (split; [done |]); split; try tauto.
    by intros [? | []].
  - destruct (csdec_pass buf d Hc Hst Hd (Hcov eq_refl)) as (l & x & -> & Hm). specialize (Hseen eq_refl).
    rewrite note_overflow_flag. unfold note_overflow. cbn [lib seen_overflow_packets upd eta_dec].
    destruct (Z.eqb_spec (libcsdec_overflow_packets l) (seen_overflow_packets d)) as [Hq | Hq];
      cbn; rewrite ?orb_false_r, ?orb_true_r.
    + split; [by split_and! |]. split; [tauto | intros [? | ?]; [done | lia]].
    + split; [by split_and! |]. split; [intros _; right; lia | done].
Qed.

Lemma reset_decoder_spec maps d :
  counts_packets -> dec_ready d -> 0 <= (reset_decoder maps d).1 ->
  dec_ready (reset_decoder maps d).2 /\ trace_did_overflow (reset_decoder maps d).2 = false.
Proof.
  intros Hc (Hd & Hcov & Hseen). unfold dec_ready, reset_decoder, trace_did_overflow.
  rewrite Hd. cbn [negb]. destruct stalker_decoder; [done |].
  specialize (Hcov eq_refl). specialize (Hseen eq_refl).
  destruct (mem_map d), malloc_map; cbn; try (intros; lia).
  all: destruct (cov_type d) eqn:Ht; try done.
  all: match goal with |- context [libcsdec_reset ?c ?i ?m ?l] =>
         pose proof (cp_reset Hc c i m l) as Hm; destruct (libcsdec_reset c i m l) as [r l'] end.
  all: cbn in *; intros _; rewrite Ht, Hm, Hd; by split_and!.
Qed.

Lemma init_decoder_spec maps d :
  counts_packets -> (init_decoder maps d).1 = true ->
  (stalker_decoder = false -> seen_overflow_packets d = libcsdec_overflow_packets (lib d)) ->
  dec_ready ((init_decoder maps d).2 <| decoder := true |>) /\
  trace_id (init_decoder maps d).2 = trace_id d.
Proof.
  intros Hc. unfold init_decoder, dec_ready. destruct (union _ _) as [bitmap|]; [| done].
  destruct stalker_decoder; [done |]. cbn [mem_img upd eta_dec].
  destruct (mem_img d), malloc_img; try done; cbn.
  all: destruct (cov_type d) eqn:Ht; try done.
  all: match goal with |- context [libcsdec_init ?c ?b ?i ?l] =>
         pose proof (cp_init Hc c b i l) as Hm; destruct (libcsdec_init c b i l) as [ok l'] end.
  all: cbn in *; intros _ Hseen; rewrite Ht, Hm; by split_and!.
Qed.

Lemma stalker_setup_spec pid maps id d :
  stalker_decoder = true -> dec_ready d ->
  dec_ready (stalker_setup pid maps id d).2 /\ trace_id (stalker_setup pid maps id d).2 = trace_id d.
Proof.
  intros Hst (Hd & _ & _). unfold stalker_setup, dec_ready. rewrite Hst.
  destruct (stalker_decoder_init _ _ _) as [r l]. destruct (r <? 0); by split_and!.
Qed.

Lemma run_passes_spec bufs d :
  counts_packets -> dec_ready d ->
  dec_ready (run_passes bufs d) /\
  (trace_did_overflow (run_passes bufs d) = true <->
   trace_did_overflow d = true \/
   exists pre buf post, bufs = pre ++ buf :: post /\ pass_overflowed buf (run_passes pre d)).
Proof.
  intros Hc. revert d. induction bufs as [|buf bufs IH]; intros d Hd; cbn [run_passes foldl].
  - split; [done |]. split; [tauto |]. intros [? | (pre & b & post & Hb & _)]; [done |].
    by destruct pre.
  - destruct (run_decoder_spec buf d Hc Hd) as [Hd1 Hf1]. destruct (IH _ Hd1) as [Hr Hf].
    split; [exact Hr |]. rewrite Hf, Hf1. split.
    + intros [[? | Hp] | (pre & b & post & -> & Hp)]; [by left | right | right].
      * by exists [], buf, bufs.
      * by exists (buf :: pre), b, post.
    + intros [? | (pre & b & post & Hb & Hp)]; [by left; left |].
      destruct pre as [|x pre]; simplify_eq/=; [by left; right |].
      right. by exists pre, b, post.
Qed.

End Decoder.

(** C15: The overflow flag the proxy reads after an execution tells exactly
    whether one of that execution's decode passes met an overflow, in either
    build: earlier executions leave no trace in it, and an overflow that the
    decoder decoded across is not missed. *)
Theorem overflow_flag_exact {D : Type} `{DecoderLib D, DecoderEnv, EtmEnv} (maps : list map_info)
    (bufs : list (list Z)) (d : dec D) :
  counts_packets -> dec_ready d -> 0 <= (reset_decoder maps d).1 ->
  let d0 := (reset_decoder maps d).2 in
  trace_did_overflow (run_passes bufs d0) = true <->
  exists pre buf post, bufs = pre ++ buf :: post /\ pass_overflowed buf (run_passes pre d0).
Proof.
  intros Hc Hd Hr. destruct (reset_decoder_spec maps d Hc Hd Hr) as [Hd0 Hf0]. cbn zeta.
  destruct (run_passes_spec bufs _ Hc Hd0) as [_ ->]. rewrite Hf0. split; [intros [|]; done | tauto].
Qed.

(** The hash of the diagnostic report tells two coverage maps apart that
    differ in a single byte. *)
Theorem map_hash_one_byte (a b : list Z) (x y : Z) :
  Forall byte_range a -> Forall byte_range b -> byte_range x -> byte_range y -> x <> y ->
  map_hash (a ++ x :: b) <> map_hash (a ++ y :: b).
Proof. intros. apply fnv_bytes_one_byte; (done || lia). Qed.

(** Its start value is not the FNV-1a offset basis [input_key] uses. *)
Lemma map_hash_basis : map_hash [] <> 0xcbf29ce484222325.
Proof. done. Qed.
