(* ===== verification/Dumps.v ===== *)
(** * Diagnostic output (src/src/utils.c, src/src/stalker.c, src/src/hybrid.c)

    What the program prints or writes for a person to read: copies of buffers
    and of /proc files, the head of a capture in hexadecimal, the counters of
    the decoder and of hybrid.c. *)

From stdpp Require Import base numbers list strings.
From Stdlib Require Import ZArith Lia Ascii.
From S2P Require Import Prelude Cstr Hash MapInfo Hybrid Decoder.

(** ** utils.c *)

(** The file [dump_buf] leaves: [opens] is the answer of [fopen], [taken] how
    many bytes [fwrite] took. *)
Definition dump_buf (opens : bool) (taken : nat) (buf : list Z) : option (list Z) :=
  if opens then Some (take taken buf) else None.

(** The lines of [getline], with their newline. *)
Fixpoint getlines (s : string) : list string :=
  match s with
  | EmptyString => []
  | String c s =>
      if bool_decide (c = newline) then String c EmptyString :: getlines s
      else match getlines s with [] => [String c EmptyString] | l :: ls => String c l :: ls end
  end.

Definition NUL : ascii := ascii_of_nat 0.

(** What [%s] prints: up to the first NUL. *)
Fixpoint c_string (s : string) : string :=
  match s with
  | EmptyString => EmptyString
  | String c s => if bool_decide (c = NUL) then EmptyString else String c (c_string s)
  end.

Definition dump_maps `{MapsEnv} (pid : Z) : string :=
  match proc_maps pid with
  | None => EmptyString
  | Some text => foldr (fun line out => c_string line +:+ out) EmptyString (getlines text)
  end.

(** [read_pid_fd_path]: [readlink] puts at most [size] bytes at the front of the
    buffer and adds no NUL; [link] is where the descriptor leads. *)
Definition read_pid_fd_path (link : option string) (size : nat) (buf : string) : string :=
  match link with
  | None => buf
  | Some target =>
      let t := str_take size target in t +:+ String.substring (String.length t) (String.length buf) buf
  end.

(** ** stalker.c *)

(** What [stalker_debug_dump_capture] prints. *)
Definition hex_bytes (bytes : list Z) : string :=
  foldr (fun b out => " " +:+ fmt_0lx 2 b +:+ out) (String newline EmptyString) bytes.
Definition stalker_debug_dump_capture (limit : Z) (buf : list Z) : string :=
  "[STALKER-DECODER] first " +:+ fmt_llu (zlen (dumped_bytes limit buf)) +:+ " bytes:" +:+
  hex_bytes (dumped_bytes limit buf).

(** The counters of the adapter. *)
Record stalker_decode_stats := MkDecodeStats {
  addr_pkt_nums : Z;
  addr_pkt_committed : Z;
  addr_pkt_branchflag0 : Z;
  addr_pkt_out_of_range : Z;
  addr_pkt_irq_swallowed : Z;
  atom_nums : Z;
  branch_nums : Z;
  overflow_nums : Z;
  exception_nums : Z;
  text_start_addr : Z;
  text_end_addr : Z
}.

(** The two lines of [stalker_debug_report]. *)
Definition stalker_debug_report (bitmap : list Z) (buf_size : Z) (st : stalker_decode_stats) : list string :=
  ["[STALKER-DECODER] nonzero_bytes=" +:+ fmt_llu (nonzero_bytes bitmap) +:+ "/" +:+ fmt_llu (zlen bitmap) +:+
   " map_hash=" +:+ fmt_0lx 16 (map_hash bitmap);
   "[STALKER-DIAG] buf=" +:+ fmt_llu buf_size +:+ " addr_pkts=" +:+ fmt_llu (addr_pkt_nums st) +:+
   " committed=" +:+ fmt_llu (addr_pkt_committed st) +:+ " bflag0=" +:+ fmt_llu (addr_pkt_branchflag0 st) +:+
   " out_of_range=" +:+ fmt_llu (addr_pkt_out_of_range st) +:+
   " irq_swallowed=" +:+ fmt_llu (addr_pkt_irq_swallowed st) +:+ " atoms=" +:+ fmt_llu (atom_nums st) +:+
   " branches=" +:+ fmt_llu (branch_nums st) +:+ " overflow=" +:+ fmt_llu (overflow_nums st) +:+
   " exceptions=" +:+ fmt_llu (exception_nums st) +:+ " text=0x" +:+ fmt_lx (text_start_addr st) +:+
   "-0x" +:+ fmt_lx (text_end_addr st)]%string.

(** ** hybrid.c *)

(** The line of [report], every thousandth path run. *)
Definition hybrid_report (diag : bool) (s : hyb) : option string :=
  if negb diag || c_true (path_execs s mod 1000) then None
  else
    let n f := fmt_llu (f (hstats s)) in
    Some ("[HYBRID] path=" +:+ fmt_llu (path_execs s) +:+ " filtered=" +:+ n n_filtered +:+
      " confirmed=" +:+ n n_confirmed +:+ " new_edges=" +:+ n n_new_edges +:+
      " cache_hits=" +:+ n n_cache_hits +:+ " input_hits=" +:+ n n_input_hits +:+
      " empty=" +:+ n n_empty +:+ " purges=" +:+ fmt_llu (purge_real s) +:+ "/" +:+ fmt_llu (purge_attempt s)).

(** ** Facts *)

Fixpoint has_nul (s : string) : bool :=
  match s with EmptyString => false | String c s => bool_decide (c = NUL) || has_nul s end.

(** The dump of the mappings is a copy of the file. *)
Theorem dump_maps_copies `{MapsEnv} (pid : Z) (text : string) :
  proc_maps pid = Some text -> has_nul text = false -> dump_maps pid = text.
Proof.
  unfold dump_maps. intros ->. induction text as [|c s IH]; [done |]. cbn [has_nul getlines].
  intros [Hc Hs]%orb_false_iff. specialize (IH Hs). destruct (bool_decide (c = newline)) eqn:Hn.
  - cbn [foldr c_string]. rewrite Hc. cbn [String.append]. by rewrite IH.
  - destruct (getlines s) as [|l ls]; cbn [foldr c_string String.append] in *; rewrite Hc; cbn [String.append];
      by rewrite <- IH.
Qed.

(** Numbers read from a text one after the other, as [sscanf] with %lx reads
    them. *)
Fixpoint read_hex (n : nat) (s : string) : option (list Z) :=
  match n with
  | O => Some []
  | S n => '(v, s) ← scan_lx s; vs ← read_hex n s; Some (v :: vs)
  end.

Lemma hex_bytes_head bytes : no_hex_head (hex_bytes bytes).
Proof. by destruct bytes. Qed.

(** The dumped head of a capture can be read back. *)
Theorem capture_dump_readable (bytes : list Z) :
  Forall byte_range bytes -> read_hex (length bytes) (hex_bytes bytes) = Some bytes.
Proof.
  induction 1 as [|b bytes Hb Hbs IH]; [done |]. unfold byte_range in Hb.
  change (hex_bytes (b :: bytes)) with (String " " (fmt_0lx 2 b +:+ hex_bytes bytes)). cbn [length read_hex].
  assert (scan_lx (String " " (fmt_0lx 2 b +:+ hex_bytes bytes)) = Some (b, hex_bytes bytes)) as ->.
  { rewrite <- (scan_fmt_0lx 2 b (hex_bytes bytes)); [done | unfold ULLONG_MAX; lia | apply hex_bytes_head]. }
  cbn [mbind option_bind]. by rewrite IH.
Qed.

(** A path shorter than the old contents of the buffer keeps their tail. *)
Lemma fd_path_keeps_tail :
  read_pid_fd_path (Some "/dev/null"%string) 4096 "/tmp/some_longer_path" = "/dev/null_longer_path"%string.
Proof. done. Qed.
