(* ===== verification/TraceBuf.v ===== *)
(** * The trace buffer (src/src/common.c)

    The ETR ring is read out into [trace_buf], a growing buffer of this process,
    which the decoder consumes.  Pointers are addresses; the bytes of the
    mapping are the list [buf_data].  The hardware and CSAL, mmap and mremap
    are the class [TraceEnv]: what they return is not this program's code. *)

From stdpp Require Import base numbers list.
From Stdlib Require Import ZArith Lia.
From S2P Require Import Prelude.

Definition DEFAULT_TRACE_SIZE : Z := 0x800000.

(** What the driver can see of the ETR: the write and read pointers, which are
    bus addresses, the full flag, and the bytes of its u-dma-buf. *)
Record etr := MkEtr {
  rwp : Z;
  rrp : Z;
  has_wrapped : bool;
  ring : list Z
}.

(** The environment: the u-dma-buf's place ([get_udmabuf_info]), the variable
    AFLCS_ETR_DIRECT_READ seen by [etr_direct_read_enabled], whether the
    u-dma-buf can be mapped, the kernel's mapping calls, and CSAL. *)
Class TraceEnv := {
  etr_ram_addr : Z;
  etr_ram_size : Z;
  AFLCS_ETR_DIRECT_READ : option bool; (* None: unset; Some b: set, b iff it is not "0" *)
  etr_map_opens : bool;
  mmap_anon : Z -> option Z;
  mremap_maymove : Z -> Z -> Z -> option Z;
  cs_get_buffer_unread_bytes : etr -> Z;
  cs_get_trace_data : etr -> Z -> Z * list Z;
  cs_empty_trace_buffer : etr -> etr
}.

(** The file-scope variables of the trace buffer, and the ETR. *)
Record tracer := MkTracer {
  trace_buf : Z;
  trace_buf_size : Z;
  trace_buf_ptr : Z;
  decoded_trace_buf : Z;
  buf_data : list Z;
  etr_map : bool;
  etb : etr
}.

#[export] Instance eta_etr : Eta etr := fun e => MkEtr (rwp e) (rrp e) (has_wrapped e) (ring e).
#[export] Instance eta_tracer : Eta tracer := fun t =>
  MkTracer (trace_buf t) (trace_buf_size t) (trace_buf_ptr t) (decoded_trace_buf t)
    (buf_data t) (etr_map t) (etb t).

(** The initial values of the variables. *)
Definition tracer_static (e : etr) : tracer := MkTracer 0 0 0 0 [] false e.

Section TraceBuf.
Context `{TraceEnv}.

(** [stalker] is whether AFLCS_STALKER_DECODER is defined. *)
Context (stalker : bool).

(** [trace_captured_bytes]. *)
Definition trace_captured_bytes (t : tracer) : Z := u64 (trace_buf_ptr t - trace_buf t).

Definition etr_direct_read_enabled : bool :=
  if stalker then negb (bool_decide (AFLCS_ETR_DIRECT_READ = Some false))
  else bool_decide (AFLCS_ETR_DIRECT_READ = Some true).

(** The mapping of the u-dma-buf; its bytes are [ring]. *)
Definition etr_map_open (t : tracer) : option tracer :=
  if etr_map_opens then Some (t <| etr_map := true |>) else None.

(** The number of pending bytes and [*start], which the caller sets to 0. *)
Definition etr_pending (e : etr) : Z * Z :=
  if (rwp e <? etr_ram_addr) || (rwp e >=? u64 (etr_ram_addr + etr_ram_size)) then (0, 0)
  else if has_wrapped e then (etr_ram_size, u64 (rwp e - etr_ram_addr))
  else if (rrp e <? etr_ram_addr) || (rrp e >=? u64 (etr_ram_addr + etr_ram_size)) then (0, 0)
  else (if rwp e >=? rrp e then u64 (rwp e - rrp e)
        else u64 (etr_ram_size - u64 (rrp e - rwp e)),
        u64 (rrp e - etr_ram_addr)).

(** [memcpy(data + off, bytes, length bytes)] on the bytes of a mapping. *)
Definition copy_in (data : list Z) (off : nat) (bytes : list Z) : list Z :=
  take off data ++ bytes ++ drop (off + length bytes) data.

(** [len] bytes of the ring from [off]. *)
Definition ring_bytes (e : etr) (off len : Z) : list Z :=
  take (Z.to_nat len) (drop (Z.to_nat off) (ring e)).

(** [etr_direct_read]: the bytes up to the end of the ring, then those from its
    start; the result is the count. *)
Definition etr_direct_read (t : tracer) (buf len start : Z) : Z * tracer :=
  let first :=
    if len <? u64 (etr_ram_size - start) then len else u64 (etr_ram_size - start) in
  let off := Z.to_nat (buf - trace_buf t) in
  let data := copy_in (buf_data t) off (ring_bytes (etb t) start first) in
  let data := copy_in data (off + Z.to_nat first) (ring_bytes (etb t) 0 (u64 (len - first))) in
  (s32 len, t <| buf_data := data |>).

(** [alloc_trace_buf]: anonymous pages are zero. *)
Definition alloc_trace_buf (t : tracer) : Z * tracer :=
  if c_true (trace_buf t) && etr_direct_read_enabled then
    (0, t <| trace_buf_ptr := trace_buf t |> <| decoded_trace_buf := trace_buf t |>)
  else
    let t := if c_true (trace_buf t)
             then t <| trace_buf := 0 |> <| trace_buf_size := 0 |> <| buf_data := [] |> else t in
    let size := if etr_ram_size >? DEFAULT_TRACE_SIZE then etr_ram_size else DEFAULT_TRACE_SIZE in
    match mmap_anon size with
    | None => (-1, t <| trace_buf := 0 |> <| trace_buf_size := 0 |>)
    | Some base =>
        (0, t <| trace_buf := base |> <| trace_buf_size := size |>
              <| buf_data := replicate (Z.to_nat size) 0 |>
              <| trace_buf_ptr := base |> <| decoded_trace_buf := base |>)
    end.

(** [free_trace_buf]. *)
Definition free_trace_buf (t : tracer) : tracer :=
  let t := t <| etb := cs_empty_trace_buffer (etb t) |> in
  if c_true (trace_buf t)
  then t <| buf_data := [] |> <| trace_buf_ptr := 0 |> <| decoded_trace_buf := 0 |> else t.

(** The [while (new - used < len) new *= 2] loop, [None] when [fuel] runs out. *)
Fixpoint grow_size (fuel : nat) (new used len : Z) : option Z :=
  match fuel with
  | O => None
  | S fuel =>
      if u64 (new - used) <? len then grow_size fuel (u64 (new * 2)) used len else Some new
  end.

(** The growth of the buffer.  [mremap] keeps the bytes and adds zero pages;
    offsets in the buffer are kept.  The two results are the buffer and what is
    left of it; [None] is a failed [mremap]. *)
Definition grow_trace_buf (t : tracer) (new_size buf_used : Z) : option (tracer * Z) :=
  match mremap_maymove (trace_buf t) (trace_buf_size t) new_size with
  | None => None
  | Some base =>
      let t := t <| decoded_trace_buf := base + (decoded_trace_buf t - trace_buf t) |> in
      let t := t <| trace_buf_ptr := base + (trace_buf_ptr t - trace_buf t) |> in
      let t := t <| buf_data := buf_data t ++
                   replicate (Z.to_nat (new_size - trace_buf_size t)) 0 |> in
      let t := t <| trace_buf := base |> <| trace_buf_size := new_size |> in
      Some (t, u64 (new_size - buf_used))
  end.

(** Doubling a size_t 64 times leaves 0, so more rounds than that only repeat. *)
Definition GROW_FUEL : nat := 66.

(** [fetch_trace]'s result: -1, 0, or no return (the growth loop never ends). *)
Inductive fetch_result := FetchRet (ret : Z) | FetchHangs.

(** The copy at the end of [fetch_trace], and the pointer update after it,
    which is made whatever the copy returned. *)
Definition fetch_copy (direct : bool) (t : tracer) (len start buf_remain : Z) : tracer :=
  let '(n, t) :=
    if direct then
      if u64 len <=? buf_remain then etr_direct_read t (trace_buf_ptr t) (u64 len) start else (0, t)
    else
      let '(n, bytes) := cs_get_trace_data (etb t) buf_remain in
      (n, t <| buf_data := copy_in (buf_data t)
                 (Z.to_nat (trace_buf_ptr t - trace_buf t)) bytes |>) in
  let t := t <| etb := cs_empty_trace_buffer (etb t) |> in
  t <| trace_buf_ptr := trace_buf_ptr t + n |>.

(** From [buf_remain] on: make room for [len] bytes, then copy. *)
Definition fetch_aligned (direct : bool) (t : tracer) (len start : Z) : fetch_result * tracer :=
  let buf_remain := u64 (trace_buf_size t - u64 (trace_buf_ptr t - trace_buf t)) in
  if u64 len >? buf_remain then
    let buf_used := u64 (trace_buf_size t - buf_remain) in
    match grow_size GROW_FUEL (u64 (trace_buf_size t * 2)) buf_used (u64 len) with
    | None => (FetchHangs, t)
    | Some new_size =>
        match grow_trace_buf t new_size buf_used with
        | None => (FetchRet (-1), t)
        | Some (t, buf_remain) => (FetchRet 0, fetch_copy direct t len start buf_remain)
        end
    end
  else (FetchRet 0, fetch_copy direct t len start buf_remain).

Definition fetch_trace (t : tracer) : fetch_result * tracer :=
  let direct := etr_direct_read_enabled in
  match (if direct && negb (etr_map t) then etr_map_open t else Some t) with
  | None => (FetchRet (-1), t)
  | Some t =>
      let '(len, start) :=
        if direct then let '(l, s) := etr_pending (etb t) in (s32 l, s)
        else (cs_get_buffer_unread_bytes (etb t), 0) in
      let t := t <| trace_buf_ptr := ALIGN_UP (trace_buf_ptr t) 8 |> in
      fetch_aligned direct t len start
  end.

(** [decode_trace] with the outcome of [run_decoder] on the bytes handed to it:
    the return value, the bytes, the state. *)
Definition decode_trace (run_decoder : list Z -> Z) (t : tracer) : Z * list Z * tracer :=
  let buf := decoded_trace_buf t in
  let buf_size := u64 (trace_buf_ptr t - buf) in
  let bytes := take (Z.to_nat buf_size) (drop (Z.to_nat (buf - trace_buf t)) (buf_data t)) in
  let ret := run_decoder bytes in
  if ret <? 0 then (ret, bytes, t)
  else (ret, bytes, t <| decoded_trace_buf := buf + buf_size |>).

End TraceBuf.
