(* ===== verification/TraceBufFacts.v ===== *)
(** * Properties of the trace buffer

    What a direct read of the ETR returns, the well-formedness of the buffer
    under every operation, the growth loop, and the account of decoded bytes:
    every captured byte reaches the decoder once and in order. *)

From stdpp Require Import base numbers list.
From Stdlib Require Import ZArith Lia.
From S2P Require Import Prelude TraceBuf.

(** ** Copies *)

Lemma copy_in_length data off bytes :
  (off + length bytes <= length data)%nat -> length (copy_in data off bytes) = length data.
Proof. intros Hf. unfold copy_in. rewrite !length_app, length_take, length_drop. lia. Qed.

Lemma copy_in_app data off a b :
  (off + length a + length b <= length data)%nat ->
  copy_in (copy_in data off a) (off + length a) b = copy_in data off (a ++ b).
Proof.
  intros Hf. unfold copy_in.
  assert (length (take off data) = off) as Ht by (rewrite length_take; lia).
  rewrite take_app, Ht.
  rewrite take_take, Nat.min_r by lia.
  replace (off + length a - off)%nat with (length a) by lia. rewrite take_app_length.
  rewrite !drop_app, Ht. rewrite (drop_ge (take off data)) by (rewrite Ht; lia).
  rewrite (drop_ge a) by lia. rewrite drop_drop, length_app, <- !app_assoc. simpl.
  do 4 f_equal. lia.
Qed.

(** The bytes before the copy stay, the copy follows them. *)
Lemma copy_in_take data off bytes k :
  (off + length bytes <= length data)%nat -> k = (off + length bytes)%nat ->
  take k (copy_in data off bytes) = take off data ++ bytes.
Proof.
  intros Hf ->. unfold copy_in. rewrite app_assoc. rewrite take_app_length' ; [done |].
  rewrite length_app, length_take. lia.
Qed.

(** ** Alignment *)

Lemma ALIGN_UP_8 x : 0 <= x -> x + 7 < 2 ^ 64 -> ALIGN_UP x 8 = 8 * ((x + 7) / 8).
Proof.
  intros H0 H1. unfold ALIGN_UP. rewrite u64_small by lia.
  replace (x + (8 - 1)) with (x + 7) by lia.
  rewrite <- Z.ldiff_land. change (8 - 1) with (Z.ones 3).
  rewrite Z.ldiff_ones_r by lia.
  rewrite Z.shiftl_mul_pow2, Z.shiftr_div_pow2 by lia. change (2 ^ 3) with 8. lia.
Qed.

Lemma ALIGN_UP_8_bounds x :
  0 <= x -> x + 7 < 2 ^ 64 -> x <= ALIGN_UP x 8 < x + 8 /\ ALIGN_UP x 8 mod 8 = 0.
Proof.
  intros H0 H1. rewrite ALIGN_UP_8 by done.
  pose proof (Z.div_mod (x + 7) 8 ltac:(lia)). pose proof (Z.mod_pos_bound (x + 7) 8 ltac:(lia)).
  split; [lia |]. rewrite Z.mul_comm. by apply Z.mod_mul.
Qed.

Section Facts.
Context `{TraceEnv}.

(** ** The environment's promises *)

(** The u-dma-buf is page-sized memory inside the address space, smaller than
    2 GiB; the kernel returns page-aligned mappings of the user address space,
    which has at most 52 bits. *)
Record env_ok : Prop := {
  ok_ram_size : 0 < etr_ram_size < 2 ^ 31;
  ok_ram_page : etr_ram_size mod 8 = 0;
  ok_ram_addr : 0 <= etr_ram_addr /\ etr_ram_addr + etr_ram_size < 2 ^ 64;
  ok_mmap : forall sz b, mmap_anon sz = Some b -> 0 < b /\ b mod 8 = 0 /\ b + sz < 2 ^ 52;
  ok_mremap : forall b sz sz' b', mremap_maymove b sz sz' = Some b' ->
    0 < b' /\ b' mod 8 = 0 /\ b' + sz' < 2 ^ 52
}.

(** ** What the ETR holds *)

(** The ETR was emptied with its pointers at offset [s0] and received [ws]. *)
Record etr_holds (e : etr) (s0 : Z) (ws : list Z) : Prop := {
  eh_start : 0 <= s0 < etr_ram_size;
  eh_rrp : rrp e = etr_ram_addr + s0;
  eh_rwp : rwp e = etr_ram_addr + (s0 + zlen ws) mod etr_ram_size;
  eh_full : has_wrapped e = (etr_ram_size <=? zlen ws);
  eh_size : zlen (ring e) = etr_ram_size;
  eh_bytes : forall i, 0 <= i < zlen ws -> zlen ws - etr_ram_size <= i ->
    ring e !! Z.to_nat ((s0 + i) mod etr_ram_size) = ws !! Z.to_nat i
}.

(** The most recent bytes, as many as the ring keeps. *)
Definition last_bytes (ws : list Z) : list Z :=
  drop (Z.to_nat (zlen ws - etr_ram_size)) ws.

Lemma etr_pending_holds e s0 ws :
  env_ok -> etr_holds e s0 ws ->
  etr_pending e = (zlen (last_bytes ws),
                   (s0 + Z.max 0 (zlen ws - etr_ram_size)) mod etr_ram_size).
Proof.
  intros [Hsz _ Haddr _ _] [Hs0 Hrrp Hrwp Hfull Hlen _]. unfold etr_pending, last_bytes.
  set (N := etr_ram_size) in *. set (A := etr_ram_addr) in *. set (n := zlen ws) in *.
  pose proof (Z.mod_pos_bound (s0 + n) N ltac:(lia)) as Hm.
  rewrite length_drop, Hrwp, Hrrp, Hfull. rewrite (u64_small (A + N)) by lia.
  destruct (Z.ltb_spec (A + (s0 + n) mod N) A); [lia |].
  destruct (A + (s0 + n) mod N >=? A + N) eqn:Hge; zbool; [lia |]. simpl.
  destruct (Z.leb_spec N n) as [Hw | Hw].
  - rewrite u64_small by lia. f_equal; [lia |].
    rewrite Z.max_r by lia. replace (s0 + (n - N)) with (s0 + n + (-1) * N) by lia.
    rewrite Z.mod_add by lia. lia.
  - destruct (Z.ltb_spec (A + s0) A); [lia |].
    destruct (A + s0 >=? A + N) eqn:Hge2; zbool; [lia |]. simpl.
    rewrite Z.max_l, Z.add_0_r, (Z.mod_small s0) by lia.
    rewrite (u64_small (A + s0 - A)) by lia. f_equal; [| lia].
    destruct (decide (s0 + n < N)) as [Hs | Hs].
    + rewrite (Z.mod_small (s0 + n)) in * by lia.
      destruct (A + (s0 + n) >=? A + s0) eqn:Hc; zbool; [| lia]. rewrite u64_small; lia.
    + assert ((s0 + n) mod N = s0 + n - N) as Hmod.
      { replace (s0 + n) with (s0 + n - N + 1 * N) at 1 by lia.
        rewrite Z.mod_add by lia. apply Z.mod_small. lia. }
      rewrite Hmod in *. destruct (A + (s0 + n - N) >=? A + s0) eqn:Hc; zbool; [lia |].
      rewrite (u64_small (A + s0 - _)), u64_small by lia. lia.
Qed.

(** Reading up to the end of the ring and then from its start is reading
    positions modulo its size. *)
Lemma ring_split_lookup e start len j :
  zlen (ring e) = etr_ram_size -> 0 <= start < etr_ram_size -> 0 <= len <= etr_ram_size ->
  0 <= j < len ->
  let first := Z.min len (etr_ram_size - start) in
  (ring_bytes e start first ++ ring_bytes e 0 (len - first)) !! Z.to_nat j =
  ring e !! Z.to_nat ((start + j) mod etr_ram_size).
Proof.
  intros Hl Hs Hlen Hj. cbn zeta. set (N := etr_ram_size) in *. set (first := Z.min len (N - start)).
  assert (length (ring_bytes e start first) = Z.to_nat first) as Hf.
  { unfold ring_bytes. rewrite length_take, length_drop. lia. }
  destruct (decide (j < first)) as [Hlt | Hge].
  - rewrite lookup_app_l by lia. unfold ring_bytes. rewrite lookup_take_lt, lookup_drop by lia.
    rewrite Z.mod_small by lia. f_equal. lia.
  - rewrite lookup_app_r, Hf by lia. unfold ring_bytes. rewrite lookup_take_lt, lookup_drop by lia.
    assert ((start + j) mod N = start + j - N) as ->.
    { replace (start + j) with (start + j - N + 1 * N) at 1 by lia.
      rewrite Z.mod_add by lia. apply Z.mod_small. lia. }
    f_equal. lia.
Qed.

Lemma ring_split_length e start len :
  zlen (ring e) = etr_ram_size -> 0 <= start < etr_ram_size -> 0 <= len <= etr_ram_size ->
  let first := Z.min len (etr_ram_size - start) in
  zlen (ring_bytes e start first) = first /\ zlen (ring_bytes e 0 (len - first)) = len - first.
Proof.
  intros Hl Hs Hlen. cbn zeta. unfold ring_bytes. rewrite !length_take, !length_drop. lia.
Qed.

(** What the two copies of a direct read put together. *)
Lemma ring_read_holds e s0 ws :
  env_ok -> etr_holds e s0 ws ->
  let '(len, start) := etr_pending e in
  let first := Z.min len (etr_ram_size - start) in
  ring_bytes e start first ++ ring_bytes e 0 (len - first) = last_bytes ws.
Proof.
  intros Hok Hh. rewrite (etr_pending_holds e s0 ws Hok Hh). cbn zeta.
  destruct Hok as [Hsz _ _ _ _]. destruct Hh as [Hs0 _ _ _ Hlen Hb].
  set (N := etr_ram_size) in *. set (n := zlen ws) in *.
  set (start := (s0 + Z.max 0 (n - N)) mod N).
  assert (0 <= start < N) as Hst by (apply Z.mod_pos_bound; lia).
  assert (zlen (last_bytes ws) = n - Z.max 0 (n - N)) as HL
    by (unfold last_bytes; rewrite length_drop; fold N n; lia).
  set (L := zlen (last_bytes ws)) in *.
  destruct (ring_split_length e start L) as [Hl1 Hl2]; [done | done | lia |]. fold N in Hl1, Hl2.
  apply list_eq_same_length with (n := Z.to_nat L); [lia | rewrite length_app; lia |].
  intros j x y Hj Hx Hy. cut (Some x = Some y); [congruence |]. rewrite <- Hx, <- Hy.
  replace j with (Z.to_nat (Z.of_nat j)) at 1 by lia.
  rewrite ring_split_lookup by (done || lia). fold N. unfold start.
  rewrite Z.add_mod_idemp_l by lia.
  rewrite <- Z.add_assoc. rewrite Hb by lia. unfold last_bytes. rewrite lookup_drop. f_equal.
  fold N n. lia.
Qed.

(** ** The growth loop *)

Lemma grow_size_spec fuel new used len :
  0 < new -> 0 <= used <= new -> used + len < 2 ^ 60 -> new < 2 ^ 61 ->
  used + len <= new * 2 ^ Z.of_nat fuel ->
  exists k, 0 <= k /\ grow_size (S fuel) new used len = Some (new * 2 ^ k) /\
    len <= new * 2 ^ k - used /\ (k = 0 \/ new * 2 ^ (k - 1) < used + len).
Proof.
  revert new. induction fuel as [|fuel IH]; intros new H0 Hu Hl Hn Hf.
  { exists 0. cbn [grow_size]. rewrite u64_small by lia.
    destruct (Z.ltb_spec (new - used) len); [lia |].
    split_and!; [lia | f_equal; lia | lia | by left]. }
  remember (S fuel) as f eqn:Hf'. cbn [grow_size]. rewrite u64_small by lia.
  destruct (Z.ltb_spec (new - used) len) as [Hlt | Hge].
  - rewrite (u64_small (new * 2)) by lia. subst f.
    destruct (IH (new * 2)) as (k & Hk & Heq & Hfit & Hmin); [lia | lia | lia | lia | |].
    { rewrite Nat2Z.inj_succ, Z.pow_succ_r in Hf by lia. lia. }
    exists (k + 1). rewrite Heq, Z.pow_add_r by lia. split_and!; [lia | f_equal; lia | lia |].
    right. replace (k + 1 - 1) with k by lia. destruct Hmin as [-> | Hmin]; [lia |].
    replace k with (k - 1 + 1) by lia. destruct (decide (k = 0)) as [-> | Hk0]; [lia |].
    rewrite Z.pow_add_r by lia. lia.
  - exists 0. split_and!; [lia | f_equal; lia | lia | by left].
Qed.

(** [GROW_FUEL] loses nothing: a loop it cannot finish never finishes. *)
Lemma grow_size_unroll a b new used len :
  0 <= new < 2 ^ 64 -> grow_size a new used len = None ->
  grow_size (a + b) new used len = grow_size b (u64 (new * 2 ^ Z.of_nat a)) used len.
Proof.
  revert new. induction a as [|a IH]; intros new Hn Ha.
  { simpl. by rewrite Z.mul_1_r, u64_small. }
  simpl in Ha |- *. destruct (u64 (new - used) <? len); [| done].
  rewrite IH by (done || apply u64_bound). f_equal. unfold u64.
  rewrite Zmult_mod_idemp_l, Nat2Z.inj_succ, Z.pow_succ_r by lia. f_equal. lia.
Qed.

Lemma grow_size_zero fuel used len :
  u64 (0 - used) < len -> grow_size fuel 0 used len = None.
Proof.
  intros Hl. induction fuel as [|fuel IH]; [done |]. cbn [grow_size].
  destruct (Z.ltb_spec (u64 (0 - used)) len); [| lia]. exact IH.
Qed.

Lemma grow_size_mono a b new used len r :
  grow_size a new used len = Some r -> grow_size (a + b) new used len = Some r.
Proof.
  revert new. induction a as [|a IH]; intros new Ha; [done |]. simpl in *.
  destruct (u64 (new - used) <? len); [by apply IH | done].
Qed.

Lemma GROW_FUEL_enough new used len fuel :
  0 <= new < 2 ^ 64 -> grow_size GROW_FUEL new used len = None ->
  grow_size fuel new used len = None.
Proof.
  intros Hn HG. destruct (grow_size fuel new used len) as [r|] eqn:Hr; [| done].
  change GROW_FUEL with (65 + 1)%nat in HG.
  destruct (grow_size 65 new used len) as [r'|] eqn:H65.
  { apply (grow_size_mono _ 1) in H65. congruence. }
  rewrite grow_size_unroll in HG by done.
  assert (u64 (new * 2 ^ Z.of_nat 65) = 0) as Hz.
  { unfold u64. replace (new * 2 ^ Z.of_nat 65) with (2 * new * 2 ^ 64) by lia.
    by apply Z.mod_mul. }
  rewrite Hz in HG. cbn [grow_size] in HG.
  destruct (Z.ltb_spec (u64 (0 - used)) len) as [Hlt |]; [| done].
  apply (grow_size_mono _ 65) in Hr. rewrite Nat.add_comm, grow_size_unroll, Hz in Hr by done.
  by rewrite grow_size_zero in Hr.
Qed.

(** ** Well-formed buffers *)

(** A mapped buffer: the decoder's position, then the write position, inside
    the mapping. *)
Record tbuf_wf (t : tracer) : Prop := {
  wf_base : 0 < trace_buf t /\ trace_buf t mod 8 = 0;
  wf_size : 0 < trace_buf_size t /\ trace_buf_size t mod 8 = 0;
  wf_space : trace_buf t + trace_buf_size t < 2 ^ 52;
  wf_decoded : trace_buf t <= decoded_trace_buf t <= trace_buf_ptr t;
  wf_ptr : trace_buf_ptr t <= trace_buf t + trace_buf_size t;
  wf_data : zlen (buf_data t) = trace_buf_size t
}.

(** Offsets of the two positions, and the bytes captured so far. *)
Definition ptr_off (t : tracer) : nat := Z.to_nat (trace_buf_ptr t - trace_buf t).
Definition dec_off (t : tracer) : nat := Z.to_nat (decoded_trace_buf t - trace_buf t).
Definition captured (t : tracer) : list Z := take (ptr_off t) (buf_data t).

Lemma alloc_trace_buf_wf stalker t :
  env_ok -> tbuf_wf t \/ trace_buf t = 0 ->
  (alloc_trace_buf stalker t).1 = 0 ->
  let t' := (alloc_trace_buf stalker t).2 in
  tbuf_wf t' /\ ptr_off t' = 0%nat /\ dec_off t' = 0%nat /\ etb t' = etb t /\ etr_map t' = etr_map t.
Proof.
  intros Hok Ht. unfold alloc_trace_buf, ptr_off, dec_off, c_true.
  destruct (Z.eqb_spec (trace_buf t) 0) as [H0 | H0]; cbn [negb andb].
  2: destruct (etr_direct_read_enabled stalker).
  2: { intros _. destruct Ht as [[]|]; [| done]. cbn. rewrite Z.sub_diag.
       split_and!; try done. split; cbn; try done; lia. }
  all: set (size := if etr_ram_size >? DEFAULT_TRACE_SIZE then _ else _).
  all: assert (0 < size /\ size mod 8 = 0) as Hsize
    by (unfold size, DEFAULT_TRACE_SIZE; destruct Hok; case_if; [split; [lia | done] | by split]).
  all: destruct (mmap_anon size) as [base|] eqn:Hm; [| by intros [=]].
  all: apply (ok_mmap Hok) in Hm as (? & ? & ?); intros _; cbn; rewrite Z.sub_diag;
    split_and!; try done; split; cbn; rewrite ?length_replicate; try done; lia.
Qed.

(** ** Fetching *)

(** Alignment of the write position keeps the buffer well formed. *)
Lemma align_ptr_wf t :
  tbuf_wf t ->
  let t' := t <| trace_buf_ptr := ALIGN_UP (trace_buf_ptr t) 8 |> in
  tbuf_wf t' /\ exists pad, captured t' = captured t ++ pad /\ (length pad < 8)%nat.
Proof.
  intros [[Hb Hb8] [Hs Hs8] Hsp Hd Hp Hl]. cbn zeta.
  destruct (ALIGN_UP_8_bounds (trace_buf_ptr t)) as [Ha Ha8]; [lia | lia |].
  assert (ALIGN_UP (trace_buf_ptr t) 8 <= trace_buf t + trace_buf_size t) as Hle.
  { set (a := ALIGN_UP _ 8) in *.
    pose proof (Z.div_mod a 8 ltac:(lia)). pose proof (Z.div_mod (trace_buf t) 8 ltac:(lia)).
    pose proof (Z.div_mod (trace_buf_size t) 8 ltac:(lia)). lia. }
  split; [split; cbn; try done; lia |].
  exists (take (Z.to_nat (ALIGN_UP (trace_buf_ptr t) 8 - trace_buf_ptr t))
            (drop (ptr_off t) (buf_data t))).
  unfold captured, ptr_off. cbn. split; [| rewrite length_take; lia].
  rewrite take_take_drop. f_equal. lia.
Qed.

Lemma grow_trace_buf_wf t new_size used t' remain :
  env_ok -> tbuf_wf t -> trace_buf_size t <= new_size -> new_size mod 8 = 0 ->
  new_size < 2 ^ 64 -> 0 <= used <= new_size ->
  grow_trace_buf t new_size used = Some (t', remain) ->
  tbuf_wf t' /\ captured t' = captured t /\ ptr_off t' = ptr_off t /\ dec_off t' = dec_off t /\
  trace_buf_size t' = new_size /\ remain = new_size - used /\ etb t' = etb t.
Proof.
  intros Hok [[Hb Hb8] [Hs Hs8] Hsp Hd Hp Hl] Hn Hn8 Hn64 Hu. unfold grow_trace_buf.
  destruct (mremap_maymove _ _ _) as [base|] eqn:Hm; [| done].
  apply (ok_mremap Hok) in Hm as (Hb' & Hb8' & Hsp'). intros [= <- <-].
  unfold captured, ptr_off, dec_off. cbn. rewrite u64_small by lia.
  replace (base + (trace_buf_ptr t - trace_buf t) - base) with (trace_buf_ptr t - trace_buf t) by lia.
  replace (base + (decoded_trace_buf t - trace_buf t) - base)
    with (decoded_trace_buf t - trace_buf t) by lia.
  split_and!; try done.
  - split; cbn; rewrite ?length_app, ?length_replicate; try done; lia.
  - rewrite take_app_le by lia. done.
Qed.

(** A direct read of the pending bytes at the write position, which then moves
    past them. *)
Lemma fetch_copy_direct t s0 ws remain :
  env_ok -> tbuf_wf t -> etr_holds (etb t) s0 ws ->
  0 <= remain <= trace_buf_size t - Z.of_nat (ptr_off t) ->
  zlen (last_bytes ws) <= remain ->
  let '(len, start) := etr_pending (etb t) in
  let t' := fetch_copy true t len start remain in
  tbuf_wf t' /\ captured t' = captured t ++ last_bytes ws /\ dec_off t' = dec_off t /\
  etr_map t' = etr_map t.
Proof.
  intros Hok Hwf Hh Hr Hfit. pose proof (ring_read_holds _ _ _ Hok Hh) as Hring.
  rewrite (etr_pending_holds _ _ _ Hok Hh) in *. cbn zeta in *.
  set (start := (_ + _) mod _) in *. set (len := zlen (last_bytes ws)) in *.
  pose proof (ok_ram_size Hok) as Hsz.
  assert (0 <= start < etr_ram_size) as Hst by (apply Z.mod_pos_bound; lia).
  assert (0 <= len <= etr_ram_size) as Hlen by (unfold len, last_bytes; rewrite length_drop; lia).
  destruct (ring_split_length (etb t) start len) as [Hl1 Hl2]; [apply Hh | done | done |].
  unfold fetch_copy, etr_direct_read. rewrite (u64_small len) by lia.
  destruct (Z.leb_spec len remain); [| lia].
  rewrite (u64_small (etr_ram_size - start)) by lia.
  replace (if len <? etr_ram_size - start then len else etr_ram_size - start)
    with (Z.min len (etr_ram_size - start)) by (destruct (Z.ltb_spec len (etr_ram_size - start)); lia).
  set (first := Z.min len (etr_ram_size - start)) in *.
  rewrite (u64_small (len - first)), s32_small by lia.
  set (a := ring_bytes (etb t) start first) in *. set (b := ring_bytes (etb t) 0 (len - first)) in *.
  replace (Z.to_nat first) with (length a) by lia.
  destruct Hwf as [[Hb Hb8] [Hs Hs8] Hsp Hd Hp Hl]. unfold ptr_off in *.
  rewrite copy_in_app, Hring by lia.
  unfold captured, ptr_off, dec_off. cbn. split_and!; try done.
  - split; cbn; rewrite ?copy_in_length by lia; try done; lia.
  - apply copy_in_take; lia.
Qed.

(** What a direct fetch achieves from an aligned write position. *)
Definition fetch_outcome (t t' : tracer) (r : fetch_result) (ws : list Z) : Prop :=
  tbuf_wf t' /\ dec_off t' = dec_off t /\
  (r = FetchRet 0 /\ captured t' = captured t ++ last_bytes ws \/
   r = FetchRet (-1) /\ t' = t /\
   exists new, mremap_maymove (trace_buf t) (trace_buf_size t) new = None).

(** The size the growth loop settles on. *)
Lemma grow_room size used len :
  0 < size < 2 ^ 52 -> size mod 8 = 0 -> 0 <= used <= size -> 0 <= len < 2 ^ 31 ->
  exists new, grow_size GROW_FUEL (size * 2) used len = Some new /\
    size <= new < 2 ^ 64 /\ new mod 8 = 0 /\ len <= new - used.
Proof.
  intros Hs Hs8 Hu Hl. change GROW_FUEL with 66%nat.
  destruct (grow_size_spec 65 (size * 2) used len) as (k & Hk & -> & Hfit & Hmin); try lia.
  exists (size * 2 * 2 ^ k). split_and!; try done.
  - assert (1 <= 2 ^ k) by lia. nia.
  - destruct Hmin as [-> | Hmin]; [lia |]. destruct (decide (k = 0)) as [-> | ?]; [lia |].
    replace k with (k - 1 + 1) by lia. rewrite Z.pow_add_r by lia. lia.
  - rewrite <- Z.mul_assoc, Zmult_mod, Hs8. by rewrite Z.mul_0_l.
Qed.

Lemma fetch_aligned_direct t s0 ws :
  env_ok -> tbuf_wf t -> etr_holds (etb t) s0 ws ->
  let '(len, start) := etr_pending (etb t) in
  let '(r, t') := fetch_aligned true t len start in fetch_outcome t t' r ws.
Proof.
  intros Hok Hwf Hh. unfold fetch_aligned, fetch_outcome.
  pose proof (etr_pending_holds _ _ _ Hok Hh) as Hpend. pose proof (ok_ram_size Hok) as Hsz.
  set (L := zlen (last_bytes ws)) in *. set (st := (_ + _) mod _) in Hpend.
  assert (0 <= L <= etr_ram_size) as HL by (unfold L, last_bytes; rewrite length_drop; lia).
  rewrite Hpend. rewrite (u64_small L) by lia.
  pose proof Hwf as [[Hb _] [Hs Hs8] Hsp Hd Hp _].
  rewrite (u64_small (trace_buf_ptr t - trace_buf t)), u64_small by lia.
  set (remain := trace_buf_size t - (trace_buf_ptr t - trace_buf t)).
  assert (Z.of_nat (ptr_off t) = trace_buf_ptr t - trace_buf t) as Hoff by (unfold ptr_off; lia).
  destruct (L >? remain) eqn:Hgt; zbool.
  - rewrite !u64_small by lia.
    destruct (grow_room (trace_buf_size t) (trace_buf_size t - remain) L)
      as (new & -> & Hnew & Hn8 & Hfit); try lia.
    destruct (grow_trace_buf t new _) as [[t3 rem3]|] eqn:Hg.
    + apply grow_trace_buf_wf in Hg as (Hwf3 & Hc3 & Hp3 & Hd3 & Hs3 & Hr3 & He3); try done; try lia.
      specialize (fetch_copy_direct t3 s0 ws rem3 Hok Hwf3) as Hcp.
      rewrite He3, Hpend in Hcp. destruct Hcp as (Hw & Hc & Hdo & _); [done | lia | lia |].
      split_and!; [done | congruence |]. left. split; [done |]. by rewrite Hc, Hc3.
    + split_and!; [done | done |]. right. split_and!; try done.
      unfold grow_trace_buf in Hg. destruct (mremap_maymove _ _ _) eqn:Hm; [done | by eauto].
  - specialize (fetch_copy_direct t s0 ws remain Hok Hwf Hh) as Hcp. rewrite Hpend in Hcp.
    destruct Hcp as (Hw & Hc & Hdo & _); [lia | lia |].
    split_and!; [done | done |]. by left.
Qed.

(** A fetch in direct mode, where the u-dma-buf can be mapped: the pending
    bytes are appended after at most seven bytes of padding, or the buffer
    could not grow and nothing was read. *)
Lemma fetch_trace_direct stalker t s0 ws :
  env_ok -> tbuf_wf t -> etr_holds (etb t) s0 ws ->
  etr_direct_read_enabled stalker = true -> etr_map t = true \/ etr_map_opens = true ->
  let '(r, t') := fetch_trace stalker t in
  tbuf_wf t' /\ dec_off t' = dec_off t /\
  exists pad, (length pad < 8)%nat /\
    (r = FetchRet 0 /\ captured t' = captured t ++ pad ++ last_bytes ws \/
     r = FetchRet (-1) /\ captured t' = captured t ++ pad /\ etb t' = etb t /\
     exists new, mremap_maymove (trace_buf t) (trace_buf_size t) new = None).
Proof.
  intros Hok Hwf Hh Hdir Hmap. unfold fetch_trace. rewrite Hdir. cbn [andb].
  set (topt := if negb (etr_map t) then _ else _).
  assert (exists t1, topt = Some t1 /\ tbuf_wf t1 /\ captured t1 = captured t /\
    dec_off t1 = dec_off t /\ etb t1 = etb t /\ trace_buf t1 = trace_buf t /\
    trace_buf_size t1 = trace_buf_size t) as (t1 & -> & Hwf1 & Hc1 & Hd1 & He1 & Hb1 & Hs1).
  { unfold topt, etr_map_open. destruct (etr_map t) eqn:Hm; [by exists t |].
    destruct Hmap as [? | ->]; [done |]. exists (t <| etr_map := true |>). split; [done |].
    split_and!; try done. destruct Hwf; by split. }
  rewrite <- He1, <- Hd1, <- Hc1, <- Hb1, <- Hs1 in *.
  destruct (align_ptr_wf t1 Hwf1) as (Hwf2 & pad & Hpad & Hpl).
  set (t2 := t1 <| trace_buf_ptr := _ |>) in *.
  pose proof (fetch_aligned_direct t2 s0 ws Hok Hwf2 Hh) as Hf.
  change (etb t1) with (etb t2) in *. change (dec_off t1) with (dec_off t2).
  change (trace_buf t1) with (trace_buf t2). change (trace_buf_size t1) with (trace_buf_size t2).
  pose proof (etr_pending_holds _ _ _ Hok Hh) as Hpend. pose proof (ok_ram_size Hok).
  destruct (etr_pending (etb t2)) as [len start]. injection Hpend as Hlen _.
  assert (0 <= len < 2 ^ 31) by (subst len; unfold last_bytes; rewrite length_drop; lia).
  rewrite s32_small by done. clearbody t2.
  destruct (fetch_aligned true t2 len start) as [r t']. destruct Hf as (Hw & Hdo & Hcase).
  split_and!; [done | done |]. exists pad. split; [done |].
  destruct Hcase as [[-> Hc] | (-> & -> & Hm)]; [left | right].
  - split; [done |]. by rewrite Hc, Hpad, app_assoc.
  - done.
Qed.

(** Without a buffer there is no room to find. *)
Lemma fetch_aligned_hangs direct t len start :
  trace_buf_size t = 0 -> trace_buf_ptr t = trace_buf t -> 0 < len < 2 ^ 31 ->
  (fetch_aligned direct t len start).1 = FetchHangs.
Proof.
  intros Hs Hp Hl. unfold fetch_aligned. rewrite Hs, Hp, Z.sub_diag, (u64_small len) by lia.
  change (u64 (0 - u64 0)) with 0. destruct (len >? 0) eqn:Hg; zbool; [| lia].
  change (u64 (0 - 0)) with 0. change (u64 (0 * 2)) with 0.
  rewrite grow_size_zero; [done |]. change (u64 (0 - 0)) with 0. lia.
Qed.

(** ** Decoding *)

Lemma captured_length t : tbuf_wf t -> length (captured t) = ptr_off t.
Proof. intros []. unfold captured, ptr_off. rewrite length_take. lia. Qed.

(** A decode takes all that was captured and not yet decoded; when it fails, the
    bytes stay undecoded. *)
Lemma decode_trace_takes run_decoder t :
  tbuf_wf t ->
  let '(ret, bytes, t') := decode_trace run_decoder t in
  ret = run_decoder bytes /\ bytes = drop (dec_off t) (captured t) /\ tbuf_wf t' /\
  captured t' = captured t /\ ptr_off t' = ptr_off t /\ etr_map t' = etr_map t /\
  trace_buf_size t' = trace_buf_size t /\ (0 <= ret -> dec_off t' = ptr_off t').
Proof.
  intros Hwf. pose proof Hwf as [[Hb Hb8] [Hs Hs8] Hsp Hd Hp Hl]. unfold decode_trace. cbn zeta.
  set (bytes := take _ _).
  assert (bytes = drop (dec_off t) (captured t)) as Hbytes.
  { unfold bytes, captured, ptr_off, dec_off. rewrite u64_small by lia. rewrite skipn_firstn_comm. f_equal. lia. }
  destruct (Z.ltb_spec (run_decoder bytes) 0); [by split_and!; try done; lia |].
  unfold captured, ptr_off, dec_off in *. cbn. split_and!; try done.
  - split; cbn; rewrite ?u64_small by lia; try done; lia.
  - intros _. rewrite u64_small by lia. lia.
Qed.

Lemma decode_trace_ok run_decoder t :
  tbuf_wf t -> (forall bytes, 0 <= run_decoder bytes) ->
  let '(_, bytes, t') := decode_trace run_decoder t in
  bytes = drop (dec_off t) (captured t) /\ tbuf_wf t' /\ dec_off t' = ptr_off t' /\
  captured t' = captured t /\ etr_map t' = etr_map t.
Proof.
  intros Hwf Hrd. pose proof (decode_trace_takes run_decoder t Hwf) as Hd.
  destruct (decode_trace run_decoder t) as [[ret bytes] t']. destruct_and! Hd. subst ret. split_and!; auto.
Qed.

(** A decoded chunk is what the ETR held, after at most seven bytes of padding;
    or the padding alone, when the kernel refused to grow the buffer. *)
Definition chunk_of (chunk ws : list Z) : Prop :=
  exists pad, (length pad < 8)%nat /\
    (chunk = pad ++ last_bytes ws \/
     chunk = pad /\ exists b sz new, mremap_maymove b sz new = None).

(** ** Properties *)

(** C9: a direct read returns exactly the bytes the ETR still holds, oldest
    first: all of what it received since it was emptied, or after a wrap the
    last [etr_ram_size] bytes; they are appended to the trace buffer behind
    fewer than eight bytes of alignment, the buffer having grown if needed with
    the decoder's position kept, unless the kernel refused to grow it. *)
Theorem fetch_appends_pending (stalker : bool) (t : tracer) (s0 : Z) (ws : list Z) :
  env_ok -> tbuf_wf t -> etr_holds (etb t) s0 ws ->
  etr_direct_read_enabled stalker = true -> etr_map t = true \/ etr_map_opens = true ->
  let '(r, t') := fetch_trace stalker t in
  tbuf_wf t' /\ dec_off t' = dec_off t /\
  exists pad, (length pad < 8)%nat /\
    (r = FetchRet 0 /\ captured t' = captured t ++ pad ++ last_bytes ws \/
     r = FetchRet (-1) /\ captured t' = captured t ++ pad /\ etb t' = etb t /\
     exists new, mremap_maymove (trace_buf t) (trace_buf_size t) new = None).
Proof. apply fetch_trace_direct. Qed.

(** The growth of the buffer ends and finds room: from a mapped buffer
    the doubling loop returns the least doubling that leaves [len] bytes free
    beyond the used part. *)
Theorem growth_finds_room (size used len : Z) :
  0 < size < 2 ^ 52 -> 0 <= used <= size -> 0 <= len < 2 ^ 31 ->
  exists k, 0 <= k /\ grow_size GROW_FUEL (u64 (size * 2)) used len = Some (size * 2 * 2 ^ k) /\
    len <= size * 2 * 2 ^ k - used /\ (k = 0 \/ size * 2 * 2 ^ (k - 1) - used < len).
Proof.
  intros Hs Hu Hl. change GROW_FUEL with 66%nat. rewrite u64_small by lia.
  destruct (grow_size_spec 65 (size * 2) used len) as (k & Hk & He & Hfit & Hmin); try lia.
  exists k. split_and!; try done. destruct Hmin; [by left | right; lia].
Qed.

(** [start_trace] ignores a failed [alloc_trace_buf]: on the first
    execution the variables then describe an empty buffer, and a fetch of a
    pending trace never returns, since doubling a size of zero never makes
    room, for any number of iterations. *)
Theorem unmapped_fetch_never_returns (stalker : bool) (e : etr) (s0 : Z) (ws : list Z) :
  env_ok -> (forall sz, mmap_anon sz = None) -> etr_holds e s0 ws -> ws <> [] ->
  etr_direct_read_enabled stalker = true -> etr_map_opens = true ->
  let '(ret, t) := alloc_trace_buf stalker (tracer_static e) in
  ret = -1 /\ (fetch_trace stalker t).1 = FetchHangs /\
  forall fuel, grow_size fuel (u64 (trace_buf_size t * 2)) 0 (zlen (last_bytes ws)) = None.
Proof.
  intros Hok Hm Hh Hne Hdir Hopen. unfold alloc_trace_buf. cbn [trace_buf tracer_static c_true].
  rewrite Hm. split; [done |].
  pose proof (etr_pending_holds _ _ _ Hok Hh) as Hp. pose proof (ok_ram_size Hok) as Hsz.
  assert (0 < zlen (last_bytes ws) < 2 ^ 31) as HL.
  { unfold last_bytes. rewrite length_drop. destruct ws; [done |]. simpl length. lia. }
  assert (forall fuel, grow_size fuel 0 0 (zlen (last_bytes ws)) = None) as Hg.
  { intros fuel. apply grow_size_zero. change (u64 (0 - 0)) with 0. lia. }
  split; [| exact Hg].
  unfold fetch_trace. rewrite Hdir. unfold etr_map_open. rewrite Hopen. upd_simpl.
  rewrite Hp, s32_small by lia. apply fetch_aligned_hangs; [done | done | lia].
Qed.

End Facts.
