(* ===== verification/Sync.v ===== *)
(** * The proxy thread and the decoder thread (src/src/common.c)

    The two threads of a traced execution, the traced child and the fork
    server's status reports as one transition system.  A thread's state is its
    position in the C code between two accesses to shared state; every step is
    one such access, performed under the mutex the code takes for it.  A label
    says which process moves and, where the outcome is not determined by the
    state (an I/O error, the trace pointer passing the threshold), which way. *)

From stdpp Require Import base numbers list.
From Stdlib Require Import ZArith Lia.
From S2P Require Import Prelude.

(** ** State *)

Inductive trace_state_t :=
  | init_state | fini_state | ready_state | running_state | suspended_state.

(** The child; a zombie has ended and was not yet waited for. *)
Inductive child_state := ChildStopped | ChildRunning | ChildZombie | ChildDead.

(** What the fork server relays of the child: a SIGSTOP or its end. *)
Inductive status := StStopped | StExited.

(** Positions of the proxy thread: between executions; in [start_trace]; in
    [start_and_resume] before the SIGCONT; in the [while] of
    [wait_for_child_and_stop_trace]; in the callbacks; in [stop_trace]; given
    up, after an error its caller returns on; in [fini_trace]. *)
Inductive proxy_pc :=
  | PIdle | PForked | PReset | PEnable | PSignal | PResume
  | PRead | PSuspendCb | PExitCb
  | PDisable | PStopSig | PWaitReady | PFailed
  | PJoin | PDone.

(** Positions of the decoder thread: [decoder_worker]'s wait, and the steps of
    [trace_sink_polling]. *)
Inductive worker_pc :=
  | WWaitStart | WArm | WPoll | WKill | WWaitSuspend | WDisable | WFetch1 | WEnable | WCont
  | WDecode1 | WWaitStop | WFetch2 | WDecode2 | WExit | WDone.

(** What the decoder thread did in the current execution: a fetch, with the
    state of the child and of the trace sinks at that time; a decode, with its
    outcome. *)
Inductive work := Fetched (child : child_state) (sinks : bool) | Decoded (ok : bool).

#[export] Instance trace_state_eq_dec : EqDecision trace_state_t.
Proof. solve_decision. Defined.
#[export] Instance child_state_eq_dec : EqDecision child_state.
Proof. solve_decision. Defined.
#[export] Instance status_eq_dec : EqDecision status.
Proof. solve_decision. Defined.
#[export] Instance proxy_pc_eq_dec : EqDecision proxy_pc.
Proof. solve_decision. Defined.
#[export] Instance worker_pc_eq_dec : EqDecision worker_pc.
Proof. solve_decision. Defined.
#[export] Instance work_eq_dec : EqDecision work.
Proof. solve_decision. Defined.

Record sys := MkSys {
  start_pending : bool;
  suspend_pending : bool;
  stop_pending : bool;
  fini_pending : bool;
  decoder_ready : bool;
  trace_state : trace_state_t;
  sinks_on : bool;
  child : child_state;
  sigstop_sent : bool; (* a SIGSTOP the child has not acted upon *)
  stop_unseen : bool;  (* a stop the fork server has not waited for *)
  to_report : option status;
  st_pipe : list status;
  ppc : proxy_pc;
  wpc : worker_pc;
  did : list work
}.

#[export] Instance eta_sys : Eta sys := fun s =>
  MkSys (start_pending s) (suspend_pending s) (stop_pending s) (fini_pending s) (decoder_ready s)
    (trace_state s) (sinks_on s) (child s) (sigstop_sent s) (stop_unseen s) (to_report s) (st_pipe s)
    (ppc s) (wpc s) (did s).

(** After [init_trace] with decoding on: the thread was created and
    [decoder_ready] armed. *)
Definition sys_init : sys := {|
  start_pending := false; suspend_pending := false; stop_pending := false; fini_pending := false;
  decoder_ready := false; trace_state := ready_state; sinks_on := false; child := ChildDead;
  sigstop_sent := false; stop_unseen := false; to_report := None; st_pipe := [];
  ppc := PIdle; wpc := WWaitStart; did := []
|}.

(** ** Events *)

Inductive flag := FStart | FSuspend | FStop | FFini.

Definition get_flag (f : flag) (s : sys) : bool :=
  match f with
  | FStart => start_pending s | FSuspend => suspend_pending s
  | FStop => stop_pending s | FFini => fini_pending s
  end.

Definition set_flag (f : flag) (b : bool) (s : sys) : sys :=
  match f with
  | FStart => s <| start_pending := b |> | FSuspend => s <| suspend_pending := b |>
  | FStop => s <| stop_pending := b |> | FFini => s <| fini_pending := b |>
  end.

(** [signal_event]. *)
Definition signal_event (f : flag) (s : sys) : sys := set_flag f true s.

(** [wait_event]: [None] while it blocks; else whether it saw fini, and the
    flag consumed unless it did. *)
Definition wait_event (f : flag) (s : sys) : option (bool * sys) :=
  if negb (get_flag f s) && negb (fini_pending s) then None
  else
    let is_fini := fini_pending s && negb (get_flag f s) in
    Some (is_fini, if is_fini then s else set_flag f false s).

Definition set_trace_state (st : trace_state_t) (s : sys) : sys := s <| trace_state := st |>.

(** ** Signals to the child *)

(** [kill(child_pid, 0)] succeeds, also on a zombie. *)
Definition alive (s : sys) : bool := match child s with ChildDead => false | _ => true end.

(** [kill(child_pid, SIGSTOP)]; no effect on a zombie. *)
Definition send_sigstop (s : sys) : sys :=
  match child s with
  | ChildStopped | ChildRunning => s <| sigstop_sent := true |>
  | _ => s
  end.

(** [kill(child_pid, SIGCONT)]: discards a SIGSTOP still pending and a stop
    that was not waited for. *)
Definition send_sigcont (s : sys) : sys :=
  match child s with
  | ChildStopped | ChildRunning =>
      s <| child := ChildRunning |> <| sigstop_sent := false |> <| stop_unseen := false |>
  | _ => s
  end.

(** The callbacks of the proxy. *)
Definition trace_suspend_resume_callback (s : sys) : sys :=
  signal_event FSuspend (set_trace_state suspended_state s).
Definition trace_child_exited_callback (s : sys) : sys := signal_event FSuspend s.

(** ** The proxy thread *)

(** One step of the proxy; [ok] is the outcome of the call that can fail. *)
Definition proxy_step (ok : bool) (s : sys) : option sys :=
  match ppc s with
  | PIdle => (* a fresh child, stopped, from the fork server *)
      Some (s <| child := ChildStopped |> <| did := [] |> <| ppc := PForked |>)
  | PForked => (* start_trace: set_cpu_affinity, then decoder_ready = false *)
      if ok then Some (s <| decoder_ready := false |> <| ppc := PReset |>)
      else Some (s <| ppc := PResume |>)
  | PReset => (* reset_decoder *)
      if ok then Some (s <| ppc := PEnable |>) else Some (s <| ppc := PResume |>)
  | PEnable => (* enable_cs_trace *)
      if ok then Some (s <| sinks_on := true |> <| ppc := PSignal |>)
      else Some (s <| ppc := PResume |>)
  | PSignal =>
      Some ((signal_event FStart (set_trace_state running_state s)) <| ppc := PResume |>)
  | PResume => (* start_and_resume: the pid to AFL++, then kill(child_pid, SIGCONT) *)
      if ok && alive s then Some ((send_sigcont s) <| ppc := PRead |>)
      else Some (s <| ppc := PFailed |>)
  | PRead =>
      match st_pipe s with
      | [] => None
      | st :: rest =>
          Some (s <| st_pipe := rest |>
                  <| ppc := match st with StStopped => PSuspendCb | StExited => PExitCb end |>)
      end
  | PSuspendCb => Some ((trace_suspend_resume_callback s) <| ppc := PRead |>)
  | PExitCb => Some ((trace_child_exited_callback s) <| ppc := PDisable |>)
  | PDisable => (* stop_trace: disable_cs_trace *)
      if ok then Some (s <| sinks_on := false |> <| ppc := PStopSig |>)
      else Some (s <| ppc := PFailed |>)
  | PStopSig =>
      Some ((signal_event FStop (set_trace_state ready_state s)) <| ppc := PWaitReady |>)
  | PWaitReady => (* while (!decoder_ready) pthread_cond_wait(...) *)
      if decoder_ready s then Some (s <| ppc := PIdle |>) else None
  | PJoin => (* pthread_join *)
      if bool_decide (wpc s = WDone) then Some (s <| ppc := PDone |>) else None
  | PFailed | PDone => None
  end.

(** [fini_trace], between executions. *)
Definition fini_step (s : sys) : option sys :=
  match ppc s with
  | PIdle => Some ((signal_event FFini (set_trace_state fini_state s)) <| ppc := PJoin |>)
  | _ => None
  end.

(** ** The decoder thread *)

(** One step of the worker.  [drain] is whether the decoding threshold can be
    reached: with Stalker it is ULONG_MAX.  [ok] is the outcome of the call
    that can fail, or at [WPoll] that the trace passed the threshold; a poll
    that finds the child alive and the trace below changes nothing and is not
    a step. *)
Definition worker_step (drain ok : bool) (s : sys) : option sys :=
  match wpc s with
  | WWaitStart =>
      match wait_event FStart s with
      | None => None
      | Some (is_fini, s) => Some (s <| wpc := if is_fini then WDone else WArm |>)
      end
  | WArm => Some (s <| decoder_ready := false |> <| wpc := WPoll |>)
  | WPoll =>
      if negb (alive s) then Some (s <| wpc := WWaitStop |>)
      else if drain && ok then Some (s <| wpc := WKill |>) else None
  | WKill => (* kill(child_pid, SIGSTOP) *)
      if negb (alive s) then Some (s <| wpc := WWaitStop |>)
      else if ok then Some ((send_sigstop s) <| wpc := WWaitSuspend |>)
      else Some (s <| wpc := WExit |>)
  | WWaitSuspend =>
      match wait_event FSuspend s with
      | None => None
      | Some (_, s) => Some (s <| wpc := WDisable |>)
      end
  | WDisable =>
      if ok then Some (s <| sinks_on := false |> <| wpc := WFetch1 |>)
      else Some (s <| wpc := WExit |>)
  | WFetch1 => Some (s <| did := did s ++ [Fetched (child s) (sinks_on s)] |> <| wpc := WEnable |>)
  | WEnable => (* the result of enable_cs_trace is not looked at *)
      Some (s <| sinks_on := ok |> <| wpc := WCont |>)
  | WCont => (* kill(child_pid, SIGCONT) *)
      if negb (alive s) then Some (s <| wpc := WWaitStop |>)
      else if ok then Some ((send_sigcont s) <| wpc := WDecode1 |>)
      else Some (s <| wpc := WExit |>)
  | WDecode1 =>
      Some (s <| did := did s ++ [Decoded ok] |> <| wpc := if ok then WPoll else WExit |>)
  | WWaitStop =>
      match wait_event FStop s with
      | None => None
      | Some (_, s) => Some (s <| wpc := WFetch2 |>)
      end
  | WFetch2 => Some (s <| did := did s ++ [Fetched (child s) (sinks_on s)] |> <| wpc := WDecode2 |>)
  | WDecode2 => Some (s <| did := did s ++ [Decoded ok] |> <| wpc := WExit |>)
  | WExit => Some (s <| decoder_ready := true |> <| wpc := WWaitStart |>)
  | WDone => None
  end.

(** ** The child and the fork server *)

(** The child ends, or is killed, also while it is stopped. *)
Definition child_exits (s : sys) : option sys :=
  match child s with
  | ChildStopped | ChildRunning =>
      Some (s <| child := ChildZombie |> <| sigstop_sent := false |> <| stop_unseen := false |>)
  | _ => None
  end.

(** The child acts on a SIGSTOP. *)
Definition child_stops (s : sys) : option sys :=
  if bool_decide (child s = ChildRunning) && sigstop_sent s
  then Some (s <| child := ChildStopped |> <| sigstop_sent := false |> <| stop_unseen := true |>)
  else None.

(** The fork server's [waitpid(child_pid, &status, WUNTRACED)]: it reaps a
    zombie and sees a stop once; it blocks otherwise. *)
Definition forksrv_waits (s : sys) : option sys :=
  match to_report s, child s with
  | None, ChildZombie => Some (s <| child := ChildDead |> <| to_report := Some StExited |>)
  | None, ChildStopped =>
      if stop_unseen s then Some (s <| stop_unseen := false |> <| to_report := Some StStopped |>)
      else None
  | _, _ => None
  end.

(** Its [write] of the status to the proxy. *)
Definition forksrv_reports (s : sys) : option sys :=
  match to_report s with
  | Some st => Some (s <| to_report := None |> <| st_pipe := st_pipe s ++ [st] |>)
  | None => None
  end.

(** ** Runs *)

Inductive label :=
  | Proxy (ok : bool) | Worker (ok : bool) | ChildExits | ChildStops | Waits | Reports | Fini.

#[export] Instance label_eq_dec : EqDecision label.
Proof. solve_decision. Defined.

Definition step (drain : bool) (l : label) (s : sys) : option sys :=
  match l with
  | Proxy ok => proxy_step ok s
  | Worker ok => worker_step drain ok s
  | ChildExits => child_exits s
  | ChildStops => child_stops s
  | Waits => forksrv_waits s
  | Reports => forksrv_reports s
  | Fini => fini_step s
  end.

(** The state after a schedule, if every step of it is possible. *)
Fixpoint run (drain : bool) (ls : list label) (s : sys) : option sys :=
  match ls with
  | [] => Some s
  | l :: ls => s ← step drain l s; run drain ls s
  end.

(** [start_trace] succeeds: the calls between the fork and the resume. *)
Definition start_ok (l : label) (s : sys) : bool :=
  match l, ppc s with
  | Proxy ok, (PForked | PReset | PEnable) => ok
  | _, _ => true
  end.

(** Steps of executions whose [start_trace] succeeds. *)
Definition good_step (drain : bool) (s s' : sys) : Prop :=
  exists l, start_ok l s = true /\ step drain l s = Some s'.
