(* ===== verification/SyncFacts.v ===== *)
(** * Properties of the two threads

    With no drain (the Stalker backend) the protocol is correct: [stop_trace]
    returns only once this execution's trace was fetched, with the child gone
    and the sinks off, and decoded; every execution ends.  Three schedules show
    what happens outside of that. *)

From stdpp Require Import base numbers list relations.
From Stdlib Require Import ZArith Lia.
From S2P Require Import Prelude Sync.

(** ** The invariant *)

(** No event is pending and the worker waits for a start. *)
Definition quiet (s : sys) : Prop :=
  start_pending s = false /\ stop_pending s = false /\ wpc s = WWaitStart.

(** The worker was started and did not see the child's end. *)
Definition early (s : sys) : Prop :=
  match wpc s with
  | WWaitStart => start_pending s = true
  | WArm | WPoll => start_pending s = false
  | _ => False
  end.

(** The same once the child is gone. *)
Definition early_dead (s : sys) : Prop :=
  match wpc s with WWaitStop => start_pending s = false | _ => early s end.

(** The worker was started; it sees the child's end once it was reaped. *)
Definition started (s : sys) : Prop :=
  match child s with ChildDead => early_dead s | _ => early s end.

(** No status is on its way. *)
Definition no_report (s : sys) : Prop := to_report s = None /\ st_pipe s = [].

(** The child's end is on its way, once, if it was reaped. *)
Definition end_pending (s : sys) : Prop :=
  match child s with
  | ChildDead =>
      to_report s = Some StExited /\ st_pipe s = [] \/ to_report s = None /\ st_pipe s = [StExited]
  | _ => no_report s
  end.

(** Nothing done yet for this execution. *)
Definition undone (s : sys) : Prop := stop_pending s = false /\ decoder_ready s = false /\ did s = [].

(** This execution's trace was fetched in a quiet system, and decoded. *)
Definition complete (s : sys) : Prop :=
  exists ok, did s = [Fetched ChildDead false; Decoded ok].

(** After [stop_pending] is signalled. *)
Definition finishing (s : sys) : Prop :=
  match stop_pending s, decoder_ready s with
  | true, false => early_dead s /\ did s = []
  | false, ready => start_pending s = false /\
      match ready, wpc s with
      | false, WFetch2 => did s = []
      | false, WDecode2 => did s = [Fetched ChildDead false]
      | false, WExit | true, WWaitStart => complete s
      | _, _ => False
      end
  | true, true => False
  end.

Definition proxy_inv (s : sys) : Prop :=
  match ppc s with
  | PIdle => quiet s /\ no_report s /\ child s = ChildDead
  | PForked => quiet s /\ end_pending s /\ child s <> ChildRunning /\ did s = []
  | PReset | PEnable | PSignal =>
      quiet s /\ end_pending s /\ child s <> ChildRunning /\ undone s
  | PResume => started s /\ end_pending s /\ child s <> ChildRunning /\ undone s
  | PRead => started s /\ end_pending s /\ child s <> ChildStopped /\ undone s
  | PSuspendCb => False
  | PExitCb | PDisable => undone s /\ child s = ChildDead /\ no_report s /\ early_dead s
  | PFailed => undone s /\ started s /\ (end_pending s \/ child s = ChildDead /\ no_report s)
  | PStopSig => undone s /\ child s = ChildDead /\ no_report s /\ early_dead s /\ sinks_on s = false
  | PWaitReady => child s = ChildDead /\ no_report s /\ sinks_on s = false /\ finishing s
  | PJoin => start_pending s = false /\ no_report s /\ child s = ChildDead /\
      (wpc s = WWaitStart \/ wpc s = WDone)
  | PDone => start_pending s = false /\ no_report s /\ child s = ChildDead /\ wpc s = WDone
  end.

Definition sync_inv (s : sys) : Prop :=
  sigstop_sent s = false /\ stop_unseen s = false /\
  fini_pending s = match ppc s with PJoin | PDone => true | _ => false end /\ proxy_inv s.

Lemma sys_init_inv : sync_inv sys_init.
Proof. done. Qed.

(** Unfold the invariant and drop the cases it excludes. *)
Ltac sync_prune :=
  unfold sync_inv, proxy_inv, finishing, complete, early_dead, early, started, end_pending,
    quiet, undone, no_report, wait_event, alive, send_sigcont in *; cbn in *;
  destruct_and?; simplify_eq/=; try done.

(** Solve what is left. *)
Ltac sync_solve := sync_prune; try naive_solver.

Lemma proxy_step_inv ok s s' :
  sync_inv s -> start_ok (Proxy ok) s = true -> proxy_step ok s = Some s' -> sync_inv s'.
Proof.
  destruct s as [st su sp fi rd ts sk ch sg un tr pp pc wp dd]. intros Hi Hok Hs.
  unfold proxy_step, alive, send_sigcont in Hs. cbn in Hs. destruct pc; cbn in Hok; subst; cbn in Hs.
  all: try (destruct pp as [|[] pp]); try destruct rd; try destruct ok; try case_bool_decide;
    try destruct ch; simplify_eq/=; sync_solve.
  all: destruct wp, st, sp; sync_solve.
Qed.

(** The drain part of the polling loop is never entered. *)
Lemma no_drain_pc s :
  sync_inv s ->
  match wpc s with
  | WKill | WWaitSuspend | WDisable | WFetch1 | WEnable | WCont | WDecode1 => False
  | _ => True
  end.
Proof.
  destruct s as [st su sp fi rd ts sk ch sg un tr pp pc wp dd]. intros (_ & _ & _ & Hi). cbn.
  destruct wp; try done; exfalso; destruct pc, ch; try destruct sp, rd; sync_solve.
Qed.

(** A worker about to report holds no start for the next execution. *)
Lemma exit_not_started s : sync_inv s -> wpc s = WExit -> start_pending s = false.
Proof.
  destruct s as [st su sp fi rd ts sk ch sg un tr pp pc wp dd]. intros (_ & _ & _ & Hi) Hw.
  cbn in Hw. subst wp. destruct pc, ch; try destruct sp, rd; sync_solve.
Qed.

Lemma worker_step_inv ok s s' :
  sync_inv s -> worker_step false ok s = Some s' -> sync_inv s'.
Proof.
  destruct s as [st su sp fi rd ts sk ch sg un tr pp pc wp dd]. intros Hi Hs.
  pose proof (no_drain_pc _ Hi) as Hw. cbn in Hw.
  unfold worker_step, wait_event, alive in Hs. cbn in Hs.
  destruct wp; try done; cbn in Hs; repeat case_match; simplify_eq/=.
  all: destruct pc; sync_prune; try destruct ch; sync_prune; try (destruct sp, rd); sync_solve.
Qed.

Lemma environment_step_inv drain l s s' :
  sync_inv s -> l = ChildExits \/ l = ChildStops \/ l = Waits \/ l = Reports \/ l = Fini ->
  step drain l s = Some s' -> sync_inv s'.
Proof.
  destruct s as [st su sp fi rd ts sk ch sg un tr pp pc wp dd]. intros Hi Hl Hs.
  destruct Hl as [-> | [-> | [-> | [-> | ->]]]]; unfold step, child_exits, child_stops,
    forksrv_waits, forksrv_reports, fini_step in Hs; cbn in Hs; repeat case_bool_decide;
    repeat case_match; simplify_eq/=.
  all: try destruct pc; try destruct ch; sync_solve.
  all: destruct wp; sync_solve.
Qed.

Lemma good_step_inv s s' : good_step false s s' -> sync_inv s -> sync_inv s'.
Proof.
  intros (l & Hok & Hs) Hi. destruct l; [by eapply proxy_step_inv | by eapply worker_step_inv | ..].
  all: eapply environment_step_inv; [done | | done]; tauto.
Qed.

Lemma reachable_inv s : rtc (good_step false) sys_init s -> sync_inv s.
Proof.
  revert s. apply rtc_ind_r; [apply sys_init_inv |].
  intros s s' _ Hs Hi. by eapply good_step_inv.
Qed.

(** ** Termination of an execution *)

Definition proxy_rank (pc : proxy_pc) : nat :=
  match pc with
  | PForked => 10 | PReset => 9 | PEnable => 8 | PSignal => 7 | PResume => 6 | PSuspendCb => 6
  | PRead => 5 | PExitCb => 4 | PDisable => 3 | PStopSig => 2 | PWaitReady => 1 | PJoin => 1
  | PIdle | PFailed | PDone => 0
  end.

Definition worker_rank (started : bool) (pc : worker_pc) : nat :=
  match pc with
  | WWaitStart => if started then 8 else 1
  | WArm => 7 | WPoll => 6 | WWaitStop => 5 | WFetch2 => 4 | WDecode2 => 3 | WExit => 2
  | _ => 0
  end.

Definition child_rank (c : child_state) : nat := match c with ChildStopped | ChildRunning => 5 | ChildZombie => 4 | ChildDead => 0 end.

(** What is left to do before the system is idle again. *)
Definition work_left (s : sys) : nat :=
  10 * proxy_rank (ppc s) + worker_rank (start_pending s) (wpc s) + child_rank (child s) +
  match to_report s with Some _ => 2 | None => 0 end + length (st_pipe s).

(** A step inside an execution: anything but the fork of the next child or the
    end of the session. *)
Definition exec_step (s s' : sys) : Prop := good_step false s s' /\ ppc s <> PIdle.

Lemma exec_step_decreases s s' :
  sync_inv s -> exec_step s s' -> (work_left s' < work_left s)%nat.
Proof.
  intros Hi [(l & _ & Hs) Hne]. pose proof (no_drain_pc _ Hi) as Hw.
  pose proof (exit_not_started _ Hi) as Hx.
  destruct s as [st su sp fi rd ts sk ch sg un tr pp pc wp dd]. destruct Hi as (Hsg & Hun & _ & Hi).
  cbn in Hw, Hsg, Hun, Hne, Hx. subst sg un. destruct l; cbn in Hs.
  - clear Hw. unfold proxy_step, alive, send_sigcont in Hs. cbn in Hs.
    destruct pc; try destruct ch; repeat case_match; simplify_eq/=;
      unfold work_left; cbn; try lia; cbn in Hi; unfold quiet, no_report in Hi; cbn in Hi;
      try naive_solver.
    all: destruct wp, st; cbn; lia.
  - clear Hi. unfold worker_step, wait_event, alive in Hs. cbn in Hs.
    destruct wp; try done; try (rewrite (Hx eq_refl) in Hs); clear Hx;
      repeat case_match; simplify_eq/=; unfold work_left; cbn; try lia; destruct st, fi; simplify_eq/=; lia.
  - unfold child_exits in Hs. cbn in Hs. destruct ch; simplify_eq/=; unfold work_left; cbn; lia.
  - unfold child_stops in Hs. cbn in Hs. rewrite andb_false_r in Hs. done.
  - unfold forksrv_waits in Hs. cbn in Hs. destruct tr, ch; simplify_eq/=; unfold work_left; cbn; lia.
  - unfold forksrv_reports in Hs. cbn in Hs. destruct tr; simplify_eq/=. unfold work_left. cbn.
    rewrite length_app. simpl. lia.
  - unfold fini_step in Hs. cbn in Hs. by destruct pc.
Qed.

Lemma exec_progress s :
  sync_inv s -> ppc s <> PIdle -> ppc s <> PFailed -> ppc s <> PDone ->
  exists s', exec_step s s'.
Proof.
  intros Hi H1 H2 H3. unfold exec_step, good_step.
  cut (exists l, start_ok l s = true /\ is_Some (step false l s)).
  { intros (l & Hl & s' & Hs). exists s'. split; [by exists l | done]. }
  destruct s as [st su sp fi rd ts sk ch sg un tr pp pc wp dd]. cbn in *.
  destruct Hi as (_ & _ & Hf & Hi). cbn in Hf.
  destruct pc; try done; try (by exists (Proxy true)).
  - exists (Proxy true). cbn. by destruct ch.
  - cbn in Hi. destruct Hi as (_ & Hp & _ & _). unfold end_pending, no_report in Hp. cbn in Hp.
    destruct ch.
    + by exists ChildExits.
    + by exists ChildExits.
    + destruct Hp as [-> _]. by exists Waits.
    + destruct Hp as [[-> ->] | [-> ->]]; [by exists Reports | by exists (Proxy true)].
  - cbn in Hi. destruct Hi as (-> & _ & _ & Hfin). cbn in Hfin. subst fi.
    destruct rd; [by exists (Proxy true) |]. exists (Worker true). split; [done |].
    unfold finishing, early_dead, early in Hfin. cbn in Hfin.
    destruct wp, sp, st; cbn; naive_solver.
  - cbn in Hi. subst fi. destruct Hi as (Hs & _ & _ & [Hw | Hw]); cbn in *; subst.
    + by exists (Worker true).
    + by exists (Proxy true).
Qed.

Lemma exec_steps_bounded n s s' :
  sync_inv s -> nsteps exec_step n s s' -> (n + work_left s' <= work_left s)%nat /\ sync_inv s'.
Proof.
  intros Hi Hn. induction Hn as [s | n s s1 s2 Hs Hn IH]; [by split; [lia |] |].
  pose proof (exec_step_decreases s s1 Hi Hs). destruct Hs as [Hs _].
  destruct IH; [by eapply good_step_inv |]. split; [lia | done].
Qed.

Lemma pipe_length s : sync_inv s -> (length (st_pipe s) <= 1)%nat.
Proof.
  intros (_ & _ & _ & Hi). unfold proxy_inv, end_pending, no_report in Hi.
  destruct (ppc s), (child s); destruct_and?; try done; destruct_or?; destruct_and?;
    match goal with H : st_pipe s = _ |- _ => rewrite H; simpl; lia end.
Qed.

Lemma work_left_bound s : sync_inv s -> (work_left s <= 116)%nat.
Proof.
  intros Hi. pose proof (pipe_length s Hi). unfold work_left.
  assert (proxy_rank (ppc s) <= 10)%nat by (destruct (ppc s); simpl; lia).
  assert (worker_rank (start_pending s) (wpc s) <= 8)%nat
    by (destruct (wpc s), (start_pending s); simpl; lia).
  assert (child_rank (child s) <= 5)%nat by (destruct (child s); simpl; lia).
  destruct (to_report s); lia.
Qed.

(** The work done when [stop_trace] finds [decoder_ready]. *)
Lemma stop_trace_did (s s' : sys) (ok : bool) :
  rtc (good_step false) sys_init s -> ppc s = PWaitReady -> proxy_step ok s = Some s' ->
  (exists b, did s = [Fetched ChildDead false; Decoded b]) /\
  s' = s <| ppc := PIdle |> /\ wpc s = WWaitStart /\ start_pending s = false /\ stop_pending s = false /\
  sinks_on s = false.
Proof.
  intros Hr Hp Hs. apply reachable_inv in Hr as (_ & _ & _ & Hi). unfold proxy_inv in Hi.
  unfold proxy_step in Hs. rewrite Hp in Hi, Hs. destruct (decoder_ready s) eqn:Hrd; [| done].
  injection Hs as <-. destruct Hi as (_ & _ & Hsk & Hf). unfold finishing in Hf. rewrite Hrd in Hf.
  destruct (stop_pending s) eqn:Hst; [done |]. destruct Hf as [Hss Hf].
  destruct (wpc s) eqn:Hw; done.
Qed.

(** ** Properties *)



(** Schedules of one execution: up to the resume of the child, and from the
    child's end to the wait for the decoder. *)
Definition sched_start : list label := replicate 6 (Proxy true).
Definition sched_exit : list label := [ChildExits; Waits; Reports] ++ replicate 4 (Proxy true).
(** The decoder thread's part of an execution without drain. *)
Definition sched_decode : list label := replicate 7 (Worker true).


(** With drains, the end of one execution leaves [suspend_pending] set, so
    the first drain of the next execution does not wait for the child to stop:
    the decoder thread reads the trace out while the child is running. *)
Theorem stale_suspend_fetches_running_child :
  exists s, run true (sched_start ++ sched_exit ++ sched_decode ++ [Proxy true] ++
                      sched_start ++ replicate 7 (Worker true)) sys_init = Some s /\
    child s = ChildRunning /\ did s = [Fetched ChildRunning false].
Proof. eexists. split; [vm_compute; reflexivity |]. done. Qed.

(** With drains, a decode that fails during a drain makes the decoder
    thread leave without the execution's stop event, which then stands in for
    the next execution's: that trace is read out with its sinks still on. *)
Theorem failed_drain_fetches_enabled_sinks :
  exists s, run true
    (sched_start ++ replicate 4 (Worker true) ++ [ChildStops; Waits; Reports; Proxy true; Proxy true] ++
     replicate 5 (Worker true) ++ [Worker false; Worker true] ++ sched_exit ++ [Proxy true] ++
     sched_start ++ [ChildExits; Waits] ++ replicate 5 (Worker true)) sys_init = Some s /\
    child s = ChildDead /\ did s = [Fetched ChildDead true].
Proof. eexists. split; [vm_compute; reflexivity |]. done. Qed.
