(* ===== verification/Proxy.v ===== *)
(** * The proxy (src/src/cs-proxy.c, Stalker build)

    Between AFL++ (the outer pipes) and the fork server inside the target (the
    inner pipes), the proxy traces each test case, retries it at a lower
    frequency when the trace overflowed, and in hybrid mode runs the second
    pass.  The process is the record [world]; what comes from outside is the
    class [ProxyEnv]: whether the n-th fallible call succeeds, what the n-th
    child does.  A traced execution is atomic here; its two threads are the
    subject of Sync. *)

From stdpp Require Import base numbers list gmap strings.
From Stdlib Require Import ZArith Lia.
From S2P Require Import Prelude Cstr FreqGov Hash Hybrid.

(** ** Wait statuses *)

Definition SIGSTOP : Z := 19.
Definition WIFSTOPPED (status : Z) : bool := Z.land status 0xff =? 0x7f.
Definition WSTOPSIG (status : Z) : Z := Z.land (Z.shiftr status 8) 0xff.
Definition WIFSIGNALED (status : Z) : bool :=
  let low := Z.land status 0x7f in negb (low =? 0) && negb (low =? 0x7f).

(** ** The input key *)

(** The reads of the test case: the buffers [pread] returned in turn, then
    whether the last call reported the end of the file or an error. *)
Record input_reads := MkReads { chunks : list (list Z); reads_end : bool }.

(** The [while] loop of [input_key]: hash and offset after all buffers. *)
Definition input_key_loop (bufs : list (list Z)) : Z * Z :=
  foldl (fun '(h, off) buf => (fnv_bytes h buf, off + zlen buf)) (0xcbf29ce484222325, 0) bufs.

(** [input_key]: 0 when the test case cannot be opened or read. *)
Definition input_key (input : option input_reads) : Z :=
  match input with
  | None => 0
  | Some r =>
      let '(h, off) := input_key_loop (chunks r) in
      if negb (reads_end r) then 0
      else
        let h := Z.lxor h (u64 off) in
        if h =? 0 then 1 else h
  end.

(** Whether [s] ends with [suffix]. *)
Definition ends_with (s suffix : string) : bool :=
  let n := String.length s in
  let k := String.length suffix in
  Nat.leb k n && String.eqb (String.substring (n - k) k s) suffix.

(** [find_input]: the first argument named .cur_input, else whether standard
    input is a regular file. *)
Fixpoint find_input (argvp : list string) (stdin_regular : bool) : option string * bool :=
  match argvp with
  | [] => (None, stdin_regular)
  | a :: argvp => if ends_with a ".cur_input" then (Some a, false) else find_input argvp stdin_regular
  end.

(** ** State *)

(** What an execution of the child gives: the statuses the fork server relays
    (none left: the pipe closed), the decoded map, and whether the trace
    overflowed. *)
Record attempt := MkAttempt {
  a_statuses : list Z;
  a_map : list Z;
  a_overflow : bool
}.

(** What the proxy writes, the requests it reads, and the runs it starts, with
    the frequency in force and the branch-broadcast mode. *)
Inductive event :=
  | EvRequest
  | EvFork
  | EvRun (freq : Z) (bb : bool)
  | EvPid (pid : Z)
  | EvStatus (status : Z)
  | EvStats (execs overflows : Z).

Class ProxyEnv := {
  io_ok : nat -> bool;                (* the n-th fallible call succeeds *)
  child_at : nat -> Z;                (* the pid of the n-th forked child *)
  attempt_at : nat -> Z -> bool -> attempt; (* the n-th run, at a frequency and mode *)
  input_at : nat -> option input_reads; (* the test case, as [input_key] reads it *)
  gov_env : sysenv;
  trace_cpu : Z;
  decoding_on : bool;                 (* AFLCS_NO_DECODER is not set *)
  map_bytes : nat;                    (* trace_bitmap_size *)
  stats_file : bool
}.

Record world := MkWorld {
  w_gov : gov;
  w_hyb : hyb;
  cov_type : cov_type_t;
  first_run : bool;
  needs_calibration : bool;
  needs_bb_enable : bool;
  current_bb_mode : bool;
  trace_ever_configured : bool;
  hybrid_sample : Z;
  hybrid_discards : Z;
  total_exec_count : Z;
  overflow_exec_count : Z;
  trace_bitmap : list Z;
  trace_overflow_occurred : bool;
  ctx_child_pid : Z;
  ctx_have_child : bool;
  calls : nat;
  forks : nat;
  attempts : nat;
  log : list event
}.

#[export] Instance eta_world : Eta world := fun w =>
  MkWorld (w_gov w) (w_hyb w) (cov_type w) (first_run w) (needs_calibration w)
    (needs_bb_enable w) (current_bb_mode w) (trace_ever_configured w)
    (hybrid_sample w) (hybrid_discards w)
    (total_exec_count w) (overflow_exec_count w) (trace_bitmap w) (trace_overflow_occurred w)
    (ctx_child_pid w) (ctx_have_child w) (calls w) (forks w) (attempts w) (log w).

#[export] Instance world_has_gov : HasGov world := {|
  get_gov := w_gov;
  put_gov := fun g w => w <| w_gov := g |>;
  get_put_gov := fun _ _ => eq_refl
|}.

Section Proxy.
Context `{ProxyEnv}.

Definition emit (e : event) (w : world) : world := w <| log := log w ++ [e] |>.

(** A call that can fail. *)
Definition io (w : world) : bool * world := (io_ok (calls w), w <| calls := S (calls w) |>).

Definition current_freq_mode (w : world) : freq_mode_t :=
  if bool_decide (cov_type w = edge_cov) then FREQ_MODE_ADDR else FREQ_MODE_ATOM.

Definition apply_freq (m : freq_mode_t) (w : world) : world :=
  w <| w_gov := freq_gov_apply gov_env (w_gov w) m |>.
Definition restore_max (w : world) : world :=
  w <| w_gov := freq_gov_restore_max gov_env (w_gov w) |>.
Definition on_result (m : freq_mode_t) (overflowed : bool) (w : world) : world :=
  w <| w_gov := freq_gov_on_result (w_gov w) m overflowed |>.

(** [trace_set_bb_mode]: the ETMs are only written once they were configured;
    the mode is recorded whatever they answered. *)
Definition trace_set_bb_mode (bb : bool) (w : world) : Z * world :=
  let '(ok, w) := if trace_ever_configured w then io w else (true, w) in
  (if ok then 0 else -1, w <| current_bb_mode := bb |>).

(** ** One execution *)

(** [fork_fresh_child]: the pid, or -1. *)
Definition fork_fresh_child (w : world) : Z * world :=
  let '(ok, w) := io w in
  if negb ok then (-1, w)
  else
    let w := emit EvFork w in
    let '(ok, w) := io w in
    if negb ok then (-1, w) else (child_at (forks w), w <| forks := S (forks w) |>).

(** [start_trace] when it succeeds (Sync has its failures): it empties the map,
    forgets the last overflow when there is a decoder, and configures the
    ETMs. *)
Definition start_trace (w : world) : world :=
  let w := w <| trace_bitmap := replicate map_bytes 0 |> in
  let w := if decoding_on then w <| trace_overflow_occurred := false |> else w in
  w <| trace_ever_configured := true |>.

Definition start_and_resume (child_pid : Z) (report_to_afl : bool) (w : world) : Z * world :=
  let w := start_trace w in
  let w := emit (EvRun (last_set_freq (w_gov w)) (current_bb_mode w)) w in
  let '(ok, w) := if report_to_afl then io w else (true, w) in
  if negb ok then (-1, w)
  else
    let w := if report_to_afl then emit (EvPid child_pid) w else w in
    let '(ok, w) := io w in
    (if ok then 0 else -1, w).

(** The [while] over the relayed statuses: the child's final one. *)
Fixpoint read_statuses (sts : list Z) : option Z :=
  match sts with
  | [] => None
  | st :: sts =>
      if WIFSTOPPED st && (WSTOPSIG st =? SIGSTOP) then read_statuses sts else Some st
  end.

(** [wait_for_child_and_stop_trace]: the status, or [None] for -1.  Once
    [stop_trace] returns the decoder has filled the map. *)
Definition wait_for_child_and_stop_trace (w : world) : option Z * world :=
  let a := attempt_at (attempts w) (last_set_freq (w_gov w)) (current_bb_mode w) in
  let w := w <| attempts := S (attempts w) |> in
  match read_statuses (a_statuses a) with
  | None => (None, w)
  | Some status =>
      let '(ok, w) := io w in
      if negb ok then (None, w)
      else
        let w := if decoding_on
                 then w <| trace_bitmap := a_map a |> <| trace_overflow_occurred := a_overflow a |>
                 else w in
        (Some status, w)
  end.

(** [calibration_run_one_shot]: whether it overflowed, or failed. *)
Definition calibration_run_one_shot (w : world) : bool * world :=
  let '(failed, pid, w) :=
    if ctx_have_child w then (false, ctx_child_pid w, w <| ctx_have_child := false |>)
    else let '(pid, w) := fork_fresh_child w in (pid <? 0, pid, w) in
  if failed then (true, w)
  else
    let w := w <| ctx_child_pid := pid |> in
    let '(ret, w) := start_and_resume pid false w in
    if ret <? 0 then (true, w)
    else
      match wait_for_child_and_stop_trace w with
      | (None, w) => (true, w)
      | (Some _, w) =>
          let w := restore_max w in
          (decoding_on && trace_overflow_occurred w, w)
      end.

Definition retry_child (mode : freq_mode_t) (w : world) : Z * world :=
  let '(pid, w) := fork_fresh_child w in
  if pid <? 0 then (-1, w)
  else
    let w := apply_freq mode w in
    let '(ret, w) := start_and_resume pid false w in
    if ret <? 0 then (-1, w) else (pid, w).

(** ** The second pass of hybrid mode *)

(** The edge pass shared by [confirm_with_branch_broadcast] and
    [sample_with_branch_broadcast]: the lines between the switch to branch
    broadcast and the use of its map. *)
Definition edge_pass (w : world) : option bool * world :=
  let '(ret, w) := trace_set_bb_mode true w in
  if ret <? 0 then (None, w)
  else
    let '(pid, w) := retry_child FREQ_MODE_ADDR w in
    if pid <? 0 then (None, w)
    else
      match wait_for_child_and_stop_trace w with
      | (None, w) => (None, w)
      | (Some _, w) =>
          let w := restore_max w in
          let overflowed := trace_overflow_occurred w in
          let w := w <| total_exec_count := inc64 (total_exec_count w) |> in
          let w := if overflowed
                   then w <| overflow_exec_count := inc64 (overflow_exec_count w) |> else w in
          (Some overflowed, on_result FREQ_MODE_ADDR overflowed w)
      end.

Definition confirm_with_branch_broadcast (w : world) : Z * world :=
  match edge_pass w with
  | (None, w) => (-1, w)
  | (Some overflowed, w) =>
      let w := w <| w_hyb := hybrid_after_confirm (w_hyb w) (trace_bitmap w) overflowed |> in
      trace_set_bb_mode false w
  end.

(** A failed [malloc] of the saved map is not modelled. *)
Definition sample_with_branch_broadcast (w : world) : Z * world :=
  let sample_saved_map := trace_bitmap w in
  match edge_pass w with
  | (None, w) => (-1, w)
  | (Some overflowed, w) =>
      let w := w <| w_hyb := hybrid_after_sample (w_hyb w) (trace_bitmap w) overflowed |> in
      let w := w <| trace_bitmap := sample_saved_map |> in
      trace_set_bb_mode false w
  end.

(** ** The next test case *)

(** [init_trace] and what the first test case sets up with it. *)
Definition first_run_setup (w : world) : Z * world :=
  if negb (first_run w) then (0, w)
  else
    let '(ok, w) := io w in
    if negb ok then (-1, w)
    else
      let w := w <| first_run := false |> in
      let w := w <| w_gov := freq_gov_init gov_env (w_gov w) trace_cpu
                               (bool_decide (cov_type w = edge_cov)) |> in
      (0, if bool_decide (cov_type w = hybrid_cov)
          then w <| w_hyb := hybrid_init map_bytes |> else w).

(** The calibration block: whether runs were made, or [None] for FATAL. *)
Definition calibrate_block (child_pid : Z) (mode : freq_mode_t) (w : world) : option bool * world :=
  if negb (needs_calibration w) then (Some false, w)
  else
    let w := w <| needs_calibration := false |> in
    let w := w <| ctx_child_pid := child_pid |> <| ctx_have_child := true |> in
    if bool_decide (cov_type w = hybrid_cov) then
      let '(ret, w) := trace_set_bb_mode true w in
      if ret <? 0 then (None, w)
      else
        let '(runs, w) := freq_gov_calibrate gov_env calibration_run_one_shot FREQ_MODE_ADDR w in
        let w := w <| w_gov := freq_gov_copy_start (w_gov w) FREQ_MODE_ATOM FREQ_MODE_ADDR |> in
        let '(ret, w) := trace_set_bb_mode false w in
        if ret <? 0 then (None, w) else (Some (runs >? 0), w)
    else
      let '(runs, w) := freq_gov_calibrate gov_env calibration_run_one_shot mode w in
      (Some (runs >? 0), w).

(** Branch broadcast for edge coverage, with the second ramp. *)
Definition bb_enable_block (did_calibrate : bool) (mode : freq_mode_t) (w : world)
    : option unit * world :=
  if needs_bb_enable w && bool_decide (cov_type w = edge_cov) then
    let w := w <| needs_bb_enable := false |> in
    let '(ret, w) := trace_set_bb_mode true w in
    if ret <? 0 then (None, w)
    else if did_calibrate then
      let w := w <| ctx_child_pid := -1 |> <| ctx_have_child := false |> in
      (Some (), (freq_gov_calibrate gov_env calibration_run_one_shot mode w).2)
    else (Some (), w)
  else (Some (), w).

(** [__afl_next_testcase], which returns a u32; [None] is FATAL. *)
Definition __afl_next_testcase (w : world) : option Z * world :=
  let '(ok, w) := io w in
  if negb ok then (Some 1, w)
  else
    let w := emit EvRequest w in
    let '(ok, w) := io w in
    if negb ok then (Some (u32 (-1)), w)
    else
      let w := emit EvFork w in
      let '(ok, w) := io w in
      if negb ok then (Some (u32 (-1)), w)
      else
        let child_pid := child_at (forks w) in
        let w := w <| forks := S (forks w) |> in
        let '(ret, w) := first_run_setup w in
        if ret <? 0 then (Some (u32 (-1)), w)
        else
          let mode := current_freq_mode w in
          match calibrate_block child_pid mode w with
          | (None, w) => (None, w)
          | (Some did_calibrate, w) =>
              match bb_enable_block did_calibrate mode w with
              | (None, w) => (None, w)
              | (Some _, w) =>
                  let '(child_pid, w) :=
                    if did_calibrate then fork_fresh_child w else (child_pid, w) in
                  if did_calibrate && (child_pid <? 0) then (Some (u32 (-1)), w)
                  else
                    let w := apply_freq mode w in
                    let '(ret, w) := start_and_resume child_pid true w in
                    if ret <? 0 then (Some (u32 (-1)), w) else (Some (u32 child_pid), w)
              end
          end.

Definition __afl_end_testcase (status : Z) (w : world) : Z * world :=
  let '(ok, w) := io w in
  if ok then (0, emit (EvStatus status) w) else (-1, w).

(** ** The main loop *)

(** One turn of the retry loop: finish the run in progress and decide. *)
Inductive retry_verdict :=
  | RetryFail                              (* return -1 *)
  | RetryAgain (reps : Z) (forced : bool)  (* continue *)
  | RetryDone (status : Z) (overflowed : bool).

Definition retry_turn (mode : freq_mode_t) (reps : Z) (forced : bool) (w : world)
    : retry_verdict * world :=
  match wait_for_child_and_stop_trace w with
  | (None, w) => (RetryFail, w)
  | (Some status, w) =>
      let w := restore_max w in
      let overflowed := decoding_on && trace_overflow_occurred w in
      let w := w <| total_exec_count := inc64 (total_exec_count w) |> in
      let w := if overflowed
               then w <| overflow_exec_count := inc64 (overflow_exec_count w) |> else w in
      let should_retry := freq_gov_should_retry (w_gov w) mode overflowed reps in
      let w := on_result mode overflowed w in
      if should_retry then
        let '(pid, w) := retry_child mode w in
        (if pid <? 0 then RetryFail else RetryAgain (reps + 1) forced, w)
      else if overflowed && bool_decide (mode = FREQ_MODE_ADDR) && negb forced &&
              negb (freq_gov_at_floor (w_gov w) mode) && (reps >=? FREQ_GOV_MAX_REPETITION_NUM) then
        let w := w <| w_gov := freq_gov_force_min (w_gov w) |> in
        let '(pid, w) := retry_child mode w in
        (if pid <? 0 then RetryFail else RetryAgain reps true, w)
      else (RetryDone status overflowed, w)
  end.

(** The [for (;;)]: [None] when [fuel] turns were not enough; else [Some None]
    for -1, or the status and the overflow of the last run. *)
Fixpoint retry_loop (fuel : nat) (mode : freq_mode_t) (reps : Z) (forced : bool) (w : world)
    : option (option (Z * bool)) * world :=
  match fuel with
  | O => (None, w)
  | S fuel =>
      match retry_turn mode reps forced w with
      | (RetryFail, w) => (Some None, w)
      | (RetryAgain reps forced, w) => retry_loop fuel mode reps forced w
      | (RetryDone status overflowed, w) => (Some (Some (status, overflowed)), w)
      end
  end.

(** First run, three retries, one run at the floor. *)
Definition RETRY_FUEL : nat := 5.

(** The hybrid block of [main]. *)
Definition hybrid_block (status : Z) (overflowed : bool) (w : world) : Z * world :=
  if bool_decide (cov_type w = hybrid_cov) && decoding_on && negb (WIFSIGNALED status) then
    let key := input_key (input_at (attempts w)) in
    let '(verdict, map, s) := hybrid_after_path (w_hyb w) (trace_bitmap w) overflowed key in
    let w := w <| w_hyb := s |> <| trace_bitmap := map |> in
    match verdict with
    | HYBRID_CONFIRM => confirm_with_branch_broadcast w
    | HYBRID_DISCARD =>
        if c_true (hybrid_sample w) then
          let w := w <| hybrid_discards := inc64 (hybrid_discards w) |> in
          if hybrid_discards w mod hybrid_sample w =? 0
          then sample_with_branch_broadcast w else (0, w)
        else (0, w)
    end
  else (0, w).

(** The rest of the loop's body. *)
Definition finish_testcase (status : Z) (w : world) : Z * world :=
  let w := if stats_file && (total_exec_count w mod 256 =? 0)
           then emit (EvStats (total_exec_count w) (overflow_exec_count w)) w else w in
  let w := if decoding_on then w else w <| trace_bitmap := aset (trace_bitmap w) 0 1 |> in
  __afl_end_testcase status w.

(** One turn of [while (__afl_next_testcase() > 0)]. *)
Inductive main_verdict := MainNext | MainExit (code : Z) | MainFatal | MainStuck.

Definition main_turn (w : world) : main_verdict * world :=
  match __afl_next_testcase w with
  | (None, w) => (MainFatal, w)
  | (Some ret, w) =>
      if negb (ret >? 0) then (MainExit 0, w)
      else
        match retry_loop RETRY_FUEL (current_freq_mode w) 0 false w with
        | (None, w) => (MainStuck, w)
        | (Some None, w) => (MainExit (-1), w)
        | (Some (Some (status, overflowed)), w) =>
            let '(ret, w) := hybrid_block status overflowed w in
            if ret <? 0 then (MainExit (-1), w)
            else
              let '(ret, w) := finish_testcase status w in
              (if ret <? 0 then MainExit (-1) else MainNext, w)
        end
  end.

End Proxy.
