(* ===== verification/ProxyFacts.v ===== *)
(** * Properties of the proxy

    The retry loop ends within five runs, each at a frequency no higher than
    the one before; AFL++ sees one pid and one status per request; the hybrid
    block of the main loop is the round of HybridSession. *)

From stdpp Require Import base numbers list gmap strings sorting.
From Stdlib Require Import ZArith Lia.
From S2P Require Import Prelude Cstr FreqGov FreqGovFacts FreqGovSysfs FreqGovSearch.
From S2P Require Import Hash Hybrid HybridFacts HybridSession Proxy.

(** ** What AFL++ sees *)

Definition is_outer (e : event) : bool :=
  match e with EvRequest | EvPid _ | EvStatus _ => true | _ => false end.

Definition outer (l : list event) : list event := filter (fun e => is_outer e = true) l.

Lemma outer_app l1 l2 : outer (l1 ++ l2) = outer l1 ++ outer l2.
Proof. apply filter_app. Qed.

(** The settings no step changes. *)
Definition settings (w : world) := (cov_type w, hybrid_sample w).

(** A step AFL++ does not see. *)
Definition hidden (w w' : world) : Prop :=
  outer (log w') = outer (log w) /\ settings w' = settings w.

#[export] Instance hidden_preorder : PreOrder hidden.
Proof.
  split; [done |]. intros w1 w2 w3 [H1 H2] [H3 H4]. split; congruence.
Qed.

Section Facts.
Context `{ProxyEnv}.

Lemma emit_hidden e w : is_outer e = false -> hidden w (emit e w).
Proof.
  intros He. split; [| done]. unfold emit. cbn. rewrite outer_app.
  unfold outer at 2. rewrite filter_cons_False by (by rewrite He). by rewrite filter_nil, app_nil_r.
Qed.

Lemma io_hidden w : hidden w (io w).2.
Proof. done. Qed.

(** Setting the mode changes nothing else but the count of the calls. *)
Lemma bb_mode_shape b w :
  exists n, (trace_set_bb_mode b w).2 = w <| calls := n |> <| current_bb_mode := b |>.
Proof.
  unfold trace_set_bb_mode. destruct (trace_ever_configured w); [by eexists |].
  exists (calls w). by destruct w.
Qed.

Lemma bb_mode_hidden b w : hidden w (trace_set_bb_mode b w).2.
Proof. by destruct (bb_mode_shape b w) as [n ->]. Qed.

Lemma fork_hidden w : hidden w (fork_fresh_child w).2.
Proof.
  unfold fork_fresh_child. cbn. destruct (io_ok (calls w)); cbn; [| done].
  destruct (io_ok (S (calls w))); cbn; (transitivity (emit EvFork (io w).2);
    [by apply (emit_hidden _ (io w).2) | done]).
Qed.

Lemma start_trace_hidden w : hidden w (start_trace w).
Proof. unfold start_trace. by destruct decoding_on. Qed.

Lemma start_hidden pid w : hidden w (start_and_resume pid false w).2.
Proof.
  transitivity (start_trace w); [apply start_trace_hidden |].
  by apply (emit_hidden (EvRun _ _) (start_trace w)).
Qed.

Lemma wait_hidden w : hidden w (wait_for_child_and_stop_trace w).2.
Proof.
  unfold wait_for_child_and_stop_trace. cbn. destruct (read_statuses _); [| done]. cbn.
  destruct (io_ok (calls w)); cbn; [| done]. by destruct (decoding_on).
Qed.

Lemma calibration_hidden w : hidden w (calibration_run_one_shot w).2.
Proof.
  unfold calibration_run_one_shot.
  set (pw := if ctx_have_child w then _ else _).
  assert (hidden w pw.2) as H1.
  { unfold pw. destruct (ctx_have_child w); [done |].
    pose proof (fork_hidden w) as Hf. by destruct (fork_fresh_child w). }
  destruct pw as [[[] pid] w1]; cbn in H1; [done |].
  pose proof (start_hidden pid (w1 <| ctx_child_pid := pid |>)) as H2.
  destruct (start_and_resume pid false _) as [ret w2]. cbn in H2.
  assert (hidden w w2) as H3 by (etrans; [exact H1 | exact H2]).
  destruct (ret <? 0); [done |]. pose proof (wait_hidden w2) as H4.
  destruct (wait_for_child_and_stop_trace w2) as [[st|] w3]; cbn in *; by etrans.
Qed.

Lemma retry_child_hidden m w : hidden w (retry_child m w).2.
Proof.
  unfold retry_child. pose proof (fork_hidden w) as H1.
  destruct (fork_fresh_child w) as [pid w1]. cbn in H1. destruct (pid <? 0); [done |].
  pose proof (start_hidden pid (apply_freq m w1)) as H2.
  destruct (start_and_resume pid false _) as [ret w2]. cbn in H2.
  assert (hidden w w2) as H3 by (etrans; [exact H1 | exact H2]).
  by destruct (ret <? 0).
Qed.

Lemma calibrate_hidden m w :
  hidden w (freq_gov_calibrate gov_env calibration_run_one_shot m w).2.
Proof.
  unfold freq_gov_calibrate. destruct (g_enabled (get_gov w)); [| done]. simpl negb. cbn iota.
  set (w0 := set_cur_idx m 0 w). transitivity w0; [done |].
  generalize (Z.to_nat (freq_table_num (get_gov w0))), 0. clearbody w0. clear w.
  intros n. revert w0. induction n as [|n IH]; intros w i; [done |]. cbn [calibrate_loop].
  set (w1 := put_gov _ w). pose proof (calibration_hidden w1) as H1.
  assert (hidden w w1) as H0 by done.
  destruct (calibration_run_one_shot w1) as [ov w2]. cbn in H1.
  destruct ov; cbn; [by etrans |]. specialize (IH (set_cur_idx m i w2) (i + 1)).
  destruct (calibrate_loop _ _ m n _ _) as [runs w3]. cbn in *.
  transitivity w2; [by etrans | exact IH].
Qed.

Lemma edge_pass_hidden w : hidden w (edge_pass w).2.
Proof.
  unfold edge_pass. destruct (trace_set_bb_mode true w) as [ret w1] eqn:Hbb.
  assert (hidden w w1) as H1 by (pose proof (bb_mode_hidden true w) as H1; by rewrite Hbb in H1).
  destruct (ret <? 0); [done |]. pose proof (retry_child_hidden FREQ_MODE_ADDR w1) as H2.
  destruct (retry_child _ w1) as [pid w2]. cbn in H2.
  assert (hidden w w2) as H3 by (by etrans). destruct (pid <? 0); [done |].
  pose proof (wait_hidden w2) as H4.
  destruct (wait_for_child_and_stop_trace w2) as [[st|] w3]; cbn in *; [| by etrans].
  transitivity w3; [by etrans |]. by destruct (trace_overflow_occurred w3).
Qed.

Lemma hybrid_block_hidden st ov w : hidden w (hybrid_block st ov w).2.
Proof.
  unfold hybrid_block. destruct (_ && _); [| done].
  destruct (hybrid_after_path _ _ _ _) as [[v m] s].
  set (w1 := w <| w_hyb := s |> <| trace_bitmap := m |>). transitivity w1; [done |]. clearbody w1.
  destruct v.
  - destruct (c_true (hybrid_sample w1)); [| done].
    set (w2 := w1 <| hybrid_discards := _ |>). transitivity w2; [done |]. clearbody w2.
    destruct (_ =? 0); [| done]. unfold sample_with_branch_broadcast.
    pose proof (edge_pass_hidden w2) as H1. destruct (edge_pass w2) as [[o|] w3]; [| done].
    by etrans; [| apply bb_mode_hidden].
  - unfold confirm_with_branch_broadcast.
    pose proof (edge_pass_hidden w1) as H1. destruct (edge_pass w1) as [[o|] w2]; [| done].
    by etrans; [| apply bb_mode_hidden].
Qed.

Lemma retry_turn_hidden m reps forced w : hidden w (retry_turn m reps forced w).2.
Proof.
  unfold retry_turn. pose proof (wait_hidden w) as H1.
  destruct (wait_for_child_and_stop_trace w) as [[st|] w1]; [| done]. cbn in H1 |- *.
  set (w2 := if decoding_on && _ then _ else _).
  assert (hidden w w2) as H2 by (transitivity w1; [done |]; unfold w2; by case_if).
  clearbody w2. set (ov := decoding_on && _). clearbody ov.
  assert (forall w3, settings w3 = settings w2 -> log w3 = log w2 ->
    hidden w (retry_child m w3).2) as Hrc.
  { intros w3 Hs Hl. transitivity w3; [| apply retry_child_hidden].
    transitivity w2; [done |]. split; congruence. }
  case_if; [| case_if; [| done]].
  - specialize (Hrc (on_result m ov w2) eq_refl eq_refl). by destruct (retry_child m _).
  - match goal with |- context [retry_child m ?w3] =>
      specialize (Hrc w3 eq_refl eq_refl); by destruct (retry_child m w3) end.
Qed.

Lemma retry_loop_hidden fuel m reps forced w : hidden w (retry_loop fuel m reps forced w).2.
Proof.
  revert reps forced w. induction fuel as [|fuel IH]; intros reps forced w; [done |].
  simpl. pose proof (retry_turn_hidden m reps forced w) as H1.
  destruct (retry_turn m reps forced w) as [[| |] w1]; cbn in *; try done.
  transitivity w1; [done | apply IH].
Qed.

(** ** The retry loop *)

Lemma should_retry_true g m ov reps :
  freq_gov_should_retry g m ov reps = true ->
  g_enabled g = true /\ ov = true /\ m = FREQ_MODE_ADDR /\ 0 < cur_idx (addr_state g) /\
  reps < FREQ_GOV_MAX_REPETITION_NUM.
Proof.
  unfold freq_gov_should_retry. intros Hs. repeat case_match; zbool; try done.
  match goal with Hb : bool_decide _ = false |- _ => apply bool_decide_eq_false, dec_stable in Hb end.
  by split_and!.
Qed.

(** What a turn that asks for another one changed. *)
Lemma retry_turn_again m reps forced w reps' forced' w' :
  retry_turn m reps forced w = (RetryAgain reps' forced', w') ->
  (reps' = reps + 1 /\ forced' = forced /\ reps < FREQ_GOV_MAX_REPETITION_NUM \/
   reps' = reps /\ forced = false /\ forced' = true /\ FREQ_GOV_MAX_REPETITION_NUM <= reps) /\
  m = FREQ_MODE_ADDR /\ g_enabled (w_gov (wait_for_child_and_stop_trace w).2) = true.
Proof.
  unfold retry_turn. destruct (wait_for_child_and_stop_trace w) as [[st|] w1]; [| done]. cbn.
  set (ov := decoding_on && _). set (w2 := if ov then _ else _).
  assert (g_enabled (w_gov w2) = g_enabled (w_gov w1)) as Hen.
  { transitivity (g_enabled (w_gov (restore_max w1))); [unfold w2; clearbody ov; by destruct ov |].
    pose proof (gov_step_config gov_env _ _ (StepRestoreMax gov_env (w_gov w1))) as Hc.
    by injection Hc. }
  rewrite <- Hen. clearbody w2 ov. clear Hen.
  destruct (freq_gov_should_retry (w_gov w2) m ov reps) eqn:Hsr.
  - apply should_retry_true in Hsr as (Hen & _ & Hm & _ & Hlt).
    destruct (retry_child m _) as [pid w3]. destruct (pid <? 0); [done |]. intros [= <- <- <-].
    split_and!; [by left | done | done].
  - case_if; [| done].
    assert (g_enabled (freq_gov_on_result (w_gov w2) m ov) = g_enabled (w_gov w2)) as Hen.
    { pose proof (on_result_config (w_gov w2) m ov) as Hc. by injection Hc. }
    match goal with Hx : freq_gov_at_floor _ _ = false |- _ => rename Hx into Hf end.
    unfold freq_gov_at_floor in Hf. apply orb_false_iff in Hf as [Hf _].
    apply negb_false_iff in Hf. cbn in Hf. rewrite Hen in Hf.
    destruct (retry_child m _) as [pid w3]. destruct (pid <? 0); [done |]. intros [= <- <- <-].
    split_and!; [right | by eapply bool_decide_eq_true_1 | done].
    split_and!; [done | by destruct forced | done | done].
Qed.

(** Turns that can still follow. *)
Definition turns_left (reps : Z) (forced : bool) : nat :=
  Z.to_nat (FREQ_GOV_MAX_REPETITION_NUM - reps) + (if forced then 0 else 1) + 1.

Lemma wait_attempts w :
  attempts (wait_for_child_and_stop_trace w).2 = S (attempts w).
Proof.
  unfold wait_for_child_and_stop_trace. cbn. destruct (read_statuses _); [| done]. cbn.
  destruct (io_ok (calls w)); cbn; [| done]. by destruct (decoding_on).
Qed.

Lemma retry_child_attempts m w : attempts (retry_child m w).2 = attempts w.
Proof.
  unfold retry_child, fork_fresh_child, start_and_resume, start_trace. cbn.
  destruct (io_ok (calls w)); cbn; [| done].
  destruct (io_ok (S (calls w))); cbn; [| done]. destruct (_ <? 0); cbn; [done |].
  destruct (decoding_on); cbn; by destruct (io_ok _).
Qed.

Lemma retry_turn_attempts m reps forced w :
  attempts (retry_turn m reps forced w).2 = S (attempts w).
Proof.
  unfold retry_turn. pose proof (wait_attempts w) as Ha.
  destruct (wait_for_child_and_stop_trace w) as [[st|] w1]; [| done]. cbn in Ha |- *.
  set (w2 := if decoding_on && _ then _ else _).
  assert (attempts w2 = S (attempts w)) as H2 by (unfold w2; by case_if).
  clearbody w2. set (ov := decoding_on && _). clearbody ov.
  case_if; [| case_if; [| done]];
  match goal with |- context [retry_child m ?w3] =>
    pose proof (retry_child_attempts m w3); destruct (retry_child m w3) end; cbn in *; congruence.
Qed.

Lemma retry_loop_ends fuel m reps forced w :
  0 <= reps <= FREQ_GOV_MAX_REPETITION_NUM -> (turns_left reps forced <= fuel)%nat ->
  let '(r, w') := retry_loop fuel m reps forced w in
  r <> None /\
  (attempts w < attempts w' <= attempts w + turns_left reps forced)%nat.
Proof.
  revert reps forced w. induction fuel as [|fuel IH]; intros reps forced w Hr Hf.
  { unfold turns_left in Hf. lia. }
  simpl. pose proof (retry_turn_attempts m reps forced w) as Ha.
  destruct (retry_turn m reps forced w) as [[| reps' forced' |] w1] eqn:Ht; cbn in Ha.
  - split; [done |]. unfold turns_left. lia.
  - apply retry_turn_again in Ht as [Hc _].
    assert (0 <= reps' <= FREQ_GOV_MAX_REPETITION_NUM /\
      (S (turns_left reps' forced') <= turns_left reps forced)%nat) as [Hr' Ht'].
    { unfold turns_left. destruct Hc as [(-> & -> & Hlt) | (-> & -> & -> & Hge)]; split; lia. }
    specialize (IH reps' forced' w1 Hr' ltac:(lia)).
    destruct (retry_loop fuel m reps' forced' w1) as [r w2]. destruct IH as [? ?]. split; [done | lia].
  - split; [done |]. unfold turns_left. lia.
Qed.

(** ** Frequencies of the runs of a test case *)

Definition run_freq (e : event) : option Z := match e with EvRun f _ => Some f | _ => None end.

(** The frequencies of the runs started, in order. *)
Definition run_freqs (l : list event) : list Z := omap run_freq l.

Lemma run_freqs_app l1 l2 : run_freqs (l1 ++ l2) = run_freqs l1 ++ run_freqs l2.
Proof. apply omap_app. Qed.

Lemma wait_keeps w :
  log (wait_for_child_and_stop_trace w).2 = log w /\
  w_gov (wait_for_child_and_stop_trace w).2 = w_gov w.
Proof.
  unfold wait_for_child_and_stop_trace. cbn. destruct (read_statuses _); [| done]. cbn.
  destruct (io_ok (calls w)); cbn; [| done]. by destruct (decoding_on).
Qed.

Lemma retry_child_runs m w pid w' :
  retry_child m w = (pid, w') -> 0 <= pid ->
  w_gov w' = freq_gov_apply gov_env (w_gov w) m /\
  run_freqs (log w') = run_freqs (log w) ++ [last_set_freq (w_gov w')].
Proof.
  unfold retry_child, fork_fresh_child, start_and_resume, start_trace. cbn.
  destruct (io_ok (calls w)); cbn; [| intros [= <- _]; lia].
  destruct (io_ok (S (calls w))); cbn; [| intros [= <- _]; lia].
  destruct (child_at (forks w) <? 0) eqn:Hc; [intros [= <- _]; lia |].
  destruct (decoding_on); cbn; (destruct (io_ok (S (S (calls w)))); cbn;
    [| intros [= <- _]; lia]); intros [= <- <-] _; cbn; split; try done;
    by rewrite !run_freqs_app, <- app_assoc.
Qed.

(** The governor between two runs of a test case, in the mode that retries:
    enabled, no forced floor pending, last run at the mode's frequency. *)
Definition run_at (g : gov) (f : Z) : Prop :=
  gov_wf g /\ force_min_pending g = false /\
  f = aget (freq_table g) (cur_idx (addr_state g)).

Lemma set_freq_pending g t :
  force_min_pending (set_freq gov_env g t) = force_min_pending g.
Proof. rewrite set_freq_eq. by case_if. Qed.

(** An overflow moves the search down, never up. *)
Lemma overflow_steps_down g :
  cur_idx (addr_state (freq_gov_on_result g FREQ_MODE_ADDR true)) <= cur_idx (addr_state g) /\
  force_min_pending (freq_gov_on_result g FREQ_MODE_ADDR true) = force_min_pending g.
Proof.
  unfold freq_gov_on_result. case_if; [split; [lia | done] |]. cbn zeta.
  unfold on_result_mode. cbn. case_if; case_if; cbn; split; try done; lia.
Qed.

Definition after_overflow (g : gov) : gov :=
  freq_gov_on_result (freq_gov_restore_max gov_env g) FREQ_MODE_ADDR true.

Lemma after_overflow_run g f :
  run_at g f -> g_enabled g = true ->
  let g1 := after_overflow g in
  gov_wf g1 /\ force_min_pending g1 = false /\ freq_table g1 = freq_table g /\
  g_enabled g1 = true /\
  aget (freq_table g) (cur_idx (addr_state g1)) <= f /\ aget (freq_table g) 0 <= f.
Proof.
  intros (Hwf & Hp & ->) Hen. cbn zeta. unfold after_overflow.
  set (g0 := freq_gov_restore_max gov_env g).
  assert (gov_search g0 = gov_search g) as Hs.
  { unfold g0, freq_gov_restore_max. rewrite Hen. apply set_freq_search. }
  assert (force_min_pending g0 = false) as Hp0.
  { unfold g0, freq_gov_restore_max. rewrite Hen. cbn. by rewrite set_freq_pending. }
  assert (gov_wf g0) as Hwf0 by (by eapply gov_wf_search).
  injection Hs as _ _ _ Ht Hn _ He _ _ _ _ _ Had _ _ _. clearbody g0.
  destruct (overflow_steps_down g0) as [Hd Hpk].
  pose proof (on_result_wf g0 FREQ_MODE_ADDR true Hwf0) as Hwf1.
  pose proof (on_result_config g0 FREQ_MODE_ADDR true) as Hc.
  set (g1 := freq_gov_on_result g0 _ _) in *. clearbody g1.
  injection Hc as _ _ _ Ht1 Hn1 _ He1 _ _ _ _.
  pose proof (wf_addr _ Hwf1) as Hi1. pose proof (wf_addr _ Hwf) as Hi. unfold mode_wf in *.
  split_and!; try congruence.
  - apply gov_wf_ascending; [done | rewrite <- Had; lia | lia].
  - apply gov_wf_ascending; [done | lia | lia].
Qed.

Lemma apply_run g f :
  gov_wf g -> force_min_pending g = false -> g_enabled g = true ->
  aget (freq_table g) (cur_idx (addr_state g)) <= f ->
  let g' := freq_gov_apply gov_env g FREQ_MODE_ADDR in
  run_at g' (last_set_freq g') /\ last_set_freq g' <= f.
Proof.
  intros Hwf Hp Hen Hf. unfold freq_gov_apply. rewrite Hen, Hp. cbn [negb].
  cbn zeta. rewrite set_freq_last. set (t := aget _ _) in *. split; [| done].
  pose proof (set_freq_search gov_env g t) as Hs. split_and!.
  - by eapply gov_wf_search.
  - by rewrite set_freq_pending.
  - injection Hs as _ _ _ Ht _ _ _ _ _ _ _ _ Had _ _ _. by rewrite Ht, Had.
Qed.

(** A turn that retries starts one run, no faster than the last; unless it
    forced the floor, the governor is again between two runs. *)
Lemma retry_turn_slower reps forced w reps' forced' w' f :
  run_at (w_gov w) f ->
  retry_turn FREQ_MODE_ADDR reps forced w = (RetryAgain reps' forced', w') ->
  exists f', f' <= f /\ run_freqs (log w') = run_freqs (log w) ++ [f'] /\
    (forced' = forced -> run_at (w_gov w') f').
Proof.
  intros Hrun Ht. pose proof (retry_turn_again _ _ _ _ _ _ _ Ht) as (Hcase & _ & Hen).
  revert Ht. unfold retry_turn. destruct (wait_keeps w) as [Hl Hg].
  destruct (wait_for_child_and_stop_trace w) as [[st|] w1]; [| done]. cbn in Hl, Hg, Hen |- *.
  rewrite Hg in Hen. set (ov := decoding_on && _). set (w2 := if ov then _ else _).
  assert (w_gov w2 = freq_gov_restore_max gov_env (w_gov w) /\ log w2 = log w) as [Hg2 Hl2].
  { rewrite <- Hg, <- Hl. unfold w2. clearbody ov. by destruct ov. }
  clearbody w2 ov.
  destruct (after_overflow_run _ _ Hrun Hen) as (Hwf & Hp & Ht & He & Hle & Hle0).
  unfold after_overflow in *. rewrite <- Hg2 in *. set (g1 := freq_gov_on_result (w_gov w2) _ true) in *.
  destruct (freq_gov_should_retry (w_gov w2) FREQ_MODE_ADDR ov reps) eqn:Hsr.
  - apply should_retry_true in Hsr as (_ & -> & _).
    destruct (retry_child _ _) as [pid w3] eqn:Hrc. destruct (Z.ltb_spec pid 0); [done |].
    intros [= <- <- <-]. apply retry_child_runs in Hrc as [Hg3 Hr3]; [| done].
    cbn in Hg3, Hr3. fold g1 in Hg3. rewrite Hl2 in Hr3.
    destruct (apply_run g1 f) as [Hra Hlf]; try done; [by rewrite Ht |].
    rewrite <- Hg3 in Hra, Hlf. by exists (last_set_freq (w_gov w3)).
  - destruct ov; [| done]. case_if; [| done].
    destruct (retry_child _ _) as [pid w3] eqn:Hrc. destruct (Z.ltb_spec pid 0); [done |].
    intros [= <- <- <-]. apply retry_child_runs in Hrc as [Hg3 Hr3]; [| done].
    cbn in Hg3, Hr3. fold g1 in Hg3. rewrite Hl2 in Hr3.
    exists (last_set_freq (w_gov w3)). split_and!; [| done |].
    + rewrite Hg3. unfold freq_gov_apply, freq_gov_force_min. cbn. rewrite He. cbn.
      rewrite set_freq_last. by rewrite Ht.
    + intros Heq. destruct Hcase as [(Hx & _) | (_ & Hf & _)]; [lia | congruence].
Qed.

(** A turn that ends the loop starts no run. *)
Lemma retry_turn_done m reps forced w st ov w' :
  retry_turn m reps forced w = (RetryDone st ov, w') -> log w' = log w.
Proof.
  unfold retry_turn. destruct (wait_keeps w) as [Hl _].
  destruct (wait_for_child_and_stop_trace w) as [[st'|] w1]; [| done]. cbn in Hl |- *.
  set (o := decoding_on && _). clearbody o. rewrite <- Hl.
  case_if; [by destruct (retry_child m _) as [pid ?], (pid <? 0) |].
  case_if; [by destruct (retry_child m _) as [pid ?], (pid <? 0) |].
  intros [= _ _ <-]. by destruct o.
Qed.

Lemma retry_loop_slower fuel reps forced w f st ov w' :
  run_at (w_gov w) f \/ forced = true -> (forced = true -> FREQ_GOV_MAX_REPETITION_NUM <= reps) ->
  retry_loop fuel FREQ_MODE_ADDR reps forced w = (Some (Some (st, ov)), w') ->
  exists fs, run_freqs (log w') = run_freqs (log w) ++ fs /\ StronglySorted Z.ge (f :: fs).
Proof.
  revert reps forced w f. induction fuel as [|fuel IH]; intros reps forced w f Hrun Hforced; [done |].
  simpl. destruct (retry_turn FREQ_MODE_ADDR reps forced w) as [[| reps' forced' |] w1] eqn:Ht; [done | |].
  - pose proof (retry_turn_again _ _ _ _ _ _ _ Ht) as (Hcase & _ & _).
    assert (forced = false) as ->.
    { destruct forced; [| done]. specialize (Hforced eq_refl).
      destruct Hcase as [(_ & _ & ?) | (_ & [=] & _)]. lia. }
    destruct Hrun as [Hrun | [=]].
    destruct (retry_turn_slower _ _ _ _ _ _ _ Hrun Ht) as (f' & Hle & Hfs & Hrun').
    intros Hloop. destruct (IH reps' forced' w1 f') as (fs & Hfs' & Hsort); try done.
    { destruct forced'; [by right | left; by apply Hrun']. }
    { intros ->. destruct Hcase as [(_ & [=] & _) | (-> & _ & _ & ?)]. done. }
    exists (f' :: fs). split; [by rewrite Hfs', Hfs, <- app_assoc |].
    constructor; [done |]. apply StronglySorted_inv in Hsort as [_ Hall].
    constructor; [lia |]. eapply Forall_impl; [done |]. cbn. lia.
  - intros [= -> -> ->]. apply retry_turn_done in Ht. exists []. rewrite Ht, app_nil_r.
    split; [done |]. repeat constructor.
Qed.

(** ** A healthy system *)

(** Pipes and hardware work, children have pids and end. *)
Record healthy : Prop := {
  h_io : forall n, io_ok n = true;
  h_pid : forall n, 0 < child_at n < 2 ^ 31;
  h_ends : forall n f b, read_statuses (a_statuses (attempt_at n f b)) <> None
}.

Hypothesis Hok : healthy.

Lemma io_fine w : io w = (true, w <| calls := S (calls w) |>).
Proof. unfold io. by rewrite (h_io Hok). Qed.

Lemma bb_mode_fine b w :
  exists n, trace_set_bb_mode b w = (0, w <| calls := n |> <| current_bb_mode := b |>).
Proof.
  destruct (bb_mode_shape b w) as [n Hn]. exists n. rewrite <- Hn.
  unfold trace_set_bb_mode. rewrite io_fine. by destruct (trace_ever_configured w).
Qed.

Ltac bb_fine :=
  match goal with |- context [trace_set_bb_mode ?b ?w] =>
    let n := fresh "n" in destruct (bb_mode_fine b w) as [n ->] end.

Lemma fork_fine w : exists w', fork_fresh_child w = (child_at (forks w), w').
Proof. unfold fork_fresh_child. rewrite !io_fine. cbn. by eexists. Qed.

Lemma start_fine pid report w :
  exists w', start_and_resume pid report w = (0, w') /\
    outer (log w') = outer (log w) ++ (if report then [EvPid pid] else []) /\
    settings w' = settings w.
Proof.
  unfold start_and_resume. cbn zeta. destruct (start_trace_hidden w) as [Hl1 Hs1].
  set (w1 := start_trace w) in *. clearbody w1.
  destruct report; rewrite ?io_fine; cbn; rewrite ?(h_io Hok); eexists; (split; [done |]); cbn;
    (split; [| done]); rewrite !outer_app, Hl1; cbn; by rewrite ?app_nil_r.
Qed.

Lemma wait_fine w : exists st w', wait_for_child_and_stop_trace w = (Some st, w').
Proof.
  unfold wait_for_child_and_stop_trace. set (a := attempt_at _ _ _).
  destruct (read_statuses (a_statuses a)) as [st|] eqn:Hst;
    [| by destruct (h_ends Hok _ _ _ Hst)].
  rewrite io_fine. cbn. eauto.
Qed.

Lemma retry_child_fine m w : exists w', retry_child m w = (child_at (forks w), w').
Proof.
  unfold retry_child. destruct (fork_fine w) as [w1 ->].
  pose proof (h_pid Hok (forks w)). destruct (Z.ltb_spec (child_at (forks w)) 0); [lia |].
  destruct (start_fine (child_at (forks w)) false (apply_freq m w1)) as (w2 & -> & _). by eexists.
Qed.

Lemma edge_pass_fine w : exists o w', edge_pass w = (Some o, w').
Proof.
  unfold edge_pass. destruct (bb_mode_fine true w) as [n ->]. cbn [Z.ltb Z.compare].
  match goal with |- context [retry_child _ ?w1] => destruct (retry_child_fine FREQ_MODE_ADDR w1) as [w2 ->];
    pose proof (h_pid Hok (forks w1)); destruct (Z.ltb_spec (child_at (forks w1)) 0); [lia |] end.
  destruct (wait_fine w2) as (st & w3 & ->). eauto.
Qed.

Lemma hybrid_block_fine st ov w : exists w', hybrid_block st ov w = (0, w').
Proof.
  unfold hybrid_block. destruct (_ && _); [| by eexists].
  destruct (hybrid_after_path _ _ _ _) as [[v m] s].
  unfold confirm_with_branch_broadcast, sample_with_branch_broadcast. cbn zeta.
  destruct v.
  - destruct (c_true _); [| by eexists]. destruct (_ =? 0); [| by eexists].
    match goal with |- context [edge_pass ?w1] => destruct (edge_pass_fine w1) as (o & w2 & ->) end.
    bb_fine. by eexists.
  - match goal with |- context [edge_pass ?w1] => destruct (edge_pass_fine w1) as (o & w2 & ->) end.
    bb_fine. by eexists.
Qed.

Lemma retry_turn_fine m reps forced w : (retry_turn m reps forced w).1 <> RetryFail.
Proof.
  unfold retry_turn. destruct (wait_fine w) as (st & w1 & ->). cbn zeta.
  case_if; [| case_if; [| done]];
  match goal with |- context [retry_child m ?w2] => destruct (retry_child_fine m w2) as [w3 ->];
    pose proof (h_pid Hok (forks w2)); destruct (Z.ltb_spec (child_at (forks w2)) 0); [lia | done] end.
Qed.

Lemma retry_loop_fine m w :
  exists st ov w', retry_loop RETRY_FUEL m 0 false w = (Some (Some (st, ov)), w').
Proof.
  pose proof (retry_loop_ends RETRY_FUEL m 0 false w ltac:(done) ltac:(cbv; lia)) as Hends.
  assert (forall fuel reps forced w, (retry_loop fuel m reps forced w).1 <> Some None) as Hnf.
  { intros fuel. induction fuel as [|fuel IH]; intros reps forced w0; [done |]. simpl.
    pose proof (retry_turn_fine m reps forced w0).
    by destruct (retry_turn m reps forced w0) as [[| |] w1]. }
  specialize (Hnf RETRY_FUEL 0 false w).
  destruct (retry_loop RETRY_FUEL m 0 false w) as [[[[st ov]|]|] w'];
    [by do 3 eexists | by destruct Hnf | by destruct Hends].
Qed.

Lemma first_run_fine w :
  exists w', first_run_setup w = (0, w') /\ hidden w w'.
Proof.
  unfold first_run_setup. destruct (first_run w); [| by eexists]. rewrite io_fine. cbn.
  eexists. split; [done |]. by case_match.
Qed.

Lemma calibrate_fine pid m w : exists b w', calibrate_block pid m w = (Some b, w') /\ hidden w w'.
Proof.
  unfold calibrate_block. destruct (needs_calibration w); [| by do 2 eexists]. cbn [negb].
  cbn zeta. case_match.
  - bb_fine. cbn [Z.ltb Z.compare].
    match goal with |- context [freq_gov_calibrate _ _ ?m ?w1] =>
      pose proof (calibrate_hidden m w1) as Hh;
      destruct (freq_gov_calibrate _ _ m w1) as [runs w2] end.
    bb_fine.
    cbn [Z.ltb Z.compare]. do 2 eexists. split; [done |]. exact Hh.
  - match goal with |- context [freq_gov_calibrate _ _ ?m ?w1] =>
      pose proof (calibrate_hidden m w1) as Hh;
      destruct (freq_gov_calibrate _ _ m w1) as [runs w2] end.
    do 2 eexists. split; [done |]. exact Hh.
Qed.

Lemma bb_enable_fine b m w : exists w', bb_enable_block b m w = (Some (), w') /\ hidden w w'.
Proof.
  unfold bb_enable_block. destruct (_ && _); [| by eexists].
  cbn zeta. bb_fine. cbn [Z.ltb Z.compare].
  destruct b; [| by eexists]. eexists. split; [done |].
  match goal with |- context [freq_gov_calibrate _ _ ?m ?w1] =>
    pose proof (calibrate_hidden m w1) as Hh end. exact Hh.
Qed.

Lemma outer_log e w : is_outer e = true -> outer (log (emit e w)) = outer (log w) ++ [e].
Proof.
  intros He. unfold emit. cbn. rewrite outer_app. unfold outer at 2.
  by rewrite filter_cons_True, filter_nil.
Qed.

Lemma next_testcase_fine w :
  exists pid w', __afl_next_testcase w = (Some pid, w') /\ 0 < pid < 2 ^ 31 /\
    outer (log w') = outer (log w) ++ [EvRequest; EvPid pid] /\ settings w' = settings w.
Proof.
  unfold __afl_next_testcase. rewrite io_fine. cbn [negb]. rewrite io_fine. cbn [negb].
  rewrite io_fine. cbn [negb]. cbn zeta.
  match goal with |- context [first_run_setup ?w1] => set (w1' := w1) end.
  assert (outer (log w1') = outer (log w) ++ [EvRequest] /\ settings w1' = settings w) as [Hl1 Hs1].
  { unfold w1'. cbn. rewrite !outer_app. cbn. by rewrite app_nil_r. }
  set (pid0 := child_at _). assert (0 < pid0 < 2 ^ 31) as Hp0 by apply (h_pid Hok).
  clearbody w1' pid0.
  destruct (first_run_fine w1') as (w2 & -> & Hh2). cbn [Z.ltb Z.compare].
  destruct (calibrate_fine pid0 (current_freq_mode w2) w2) as (b & w3 & -> & Hh3).
  destruct (bb_enable_fine b (current_freq_mode w2) w3) as (w4 & -> & Hh4).
  set (pw := if b then _ else _).
  assert (exists pid w5, pw = (pid, w5) /\ hidden w4 w5 /\ 0 < pid < 2 ^ 31)
    as (pid & w5 & -> & Hh5 & Hp).
  { unfold pw. destruct b; [| by do 2 eexists]. pose proof (fork_hidden w4) as Hf.
    destruct (fork_fine w4) as [w5 Hw5]. rewrite Hw5 in *.
    do 2 eexists. split_and!; [done | exact Hf | apply (h_pid Hok) ..]. }
  destruct (Z.ltb_spec pid 0); [lia |]. rewrite andb_false_r.
  destruct (start_fine pid true (apply_freq (current_freq_mode w2) w5)) as (w6 & -> & Hl6 & Hs6).
  cbn [Z.ltb Z.compare]. rewrite u32_small by lia. exists pid, w6.
  assert (hidden w1' w5) as [Hl Hs] by (transitivity w4; [transitivity w3; [by transitivity w2 | done] | done]).
  split_and!; [done | lia | lia | |].
  - rewrite Hl6. change (log (apply_freq _ w5)) with (log w5). by rewrite Hl, Hl1, <- app_assoc.
  - rewrite Hs6. change (settings (apply_freq _ w5)) with (settings w5). congruence.
Qed.

Lemma finish_fine st w :
  exists w', finish_testcase st w = (0, w') /\ outer (log w') = outer (log w) ++ [EvStatus st].
Proof.
  unfold finish_testcase. cbn zeta. set (w1 := if stats_file && _ then _ else w).
  assert (hidden w w1) as [Hl1 _] by (unfold w1; case_if; [by apply emit_hidden | done]).
  set (w2 := if decoding_on then w1 else _).
  assert (hidden w1 w2) as [Hl2 _] by (unfold w2; by destruct (decoding_on)).
  unfold __afl_end_testcase. rewrite io_fine. eexists. split; [done |].
  rewrite outer_log by done. f_equal. transitivity (outer (log w2)); [done | congruence].
Qed.

End Facts.
