(* ===== verification/ProxyProps.v ===== *)
(** * What the proxy guarantees

    The properties of the main loop of cs-proxy.c, from the lemmas of
    ProxyFacts. *)

From stdpp Require Import base numbers list gmap strings sorting.
From Stdlib Require Import ZArith Lia.
From S2P Require Import Prelude Cstr FreqGov FreqGovFacts FreqGovSysfs FreqGovSearch.
From S2P Require Import Hash Hybrid HybridFacts HybridSession Proxy ProxyFacts.

Section Props.
Context `{ProxyEnv}.

(** ** The second pass *)

(** The run the second pass of a test case makes. *)
Definition edge_attempt (w : world) : attempt :=
  attempt_at (attempts w) (last_set_freq (freq_gov_apply gov_env (w_gov w) FREQ_MODE_ADDR)) true.

(** What forking and starting a child leave alone. *)
Definition run_part (w : world) :=
  (w_gov w, w_hyb w, current_bb_mode w, attempts w, settings w).

Lemma fork_part w : run_part (fork_fresh_child w).2 = run_part w.
Proof.
  unfold fork_fresh_child. cbn. destruct (io_ok (calls w)); cbn; [| done].
  by destruct (io_ok (S (calls w))).
Qed.

Lemma start_part pid w : run_part (start_and_resume pid false w).2 = run_part w.
Proof. unfold start_and_resume, start_trace. cbn. by destruct decoding_on. Qed.

Lemma retry_child_part m w :
  healthy ->
  exists w', retry_child m w = (child_at (forks w), w') /\ run_part w' = run_part (apply_freq m w).
Proof.
  intros Hok. unfold retry_child. pose proof (fork_part w) as Hf.
  destruct (fork_fine Hok w) as [w1 Hw1]. rewrite Hw1 in *. cbn [snd] in Hf.
  pose proof (h_pid Hok (forks w)). destruct (Z.ltb_spec (child_at (forks w)) 0); [lia |].
  pose proof (start_part (child_at (forks w)) (apply_freq m w1)) as Hst.
  destruct (start_fine Hok (child_at (forks w)) false (apply_freq m w1)) as (w2 & Hw2 & _).
  rewrite Hw2 in *. cbn [snd] in Hst. exists w2. split; [done |]. rewrite Hst.
  unfold run_part, apply_freq, settings in *. cbn. injection Hf as -> -> -> -> -> ->. done.
Qed.

Lemma wait_result w :
  healthy -> decoding_on = true ->
  let a := attempt_at (attempts w) (last_set_freq (w_gov w)) (current_bb_mode w) in
  exists st w', wait_for_child_and_stop_trace w = (Some st, w') /\ trace_bitmap w' = a_map a /\
    trace_overflow_occurred w' = a_overflow a /\ w_hyb w' = w_hyb w /\ settings w' = settings w.
Proof.
  intros Hok Hdec. cbn zeta. unfold wait_for_child_and_stop_trace. set (a := attempt_at _ _ _).
  destruct (read_statuses (a_statuses a)) eqn:Hst; [| by destruct (h_ends Hok _ _ _ Hst)].
  rewrite (io_fine Hok), Hdec. do 2 eexists. split; [done |]. done.
Qed.

Lemma edge_pass_result w :
  healthy -> decoding_on = true ->
  exists w', edge_pass w = (Some (a_overflow (edge_attempt w)), w') /\
    trace_bitmap w' = a_map (edge_attempt w) /\ w_hyb w' = w_hyb w /\ settings w' = settings w.
Proof.
  intros Hok Hdec. unfold edge_pass. destruct (bb_mode_fine Hok true w) as [n ->].
  set (w1 := w <| calls := _ |> <| current_bb_mode := true |>). cbn [Z.ltb Z.compare].
  destruct (retry_child_part FREQ_MODE_ADDR w1 Hok) as (w2 & -> & H2).
  assert (run_part (apply_freq FREQ_MODE_ADDR w1) =
    (freq_gov_apply gov_env (w_gov w) FREQ_MODE_ADDR, w_hyb w, true, attempts w, settings w)) as H1
    by done.
  rewrite H1 in H2. clearbody w1. clear H1. unfold run_part in H2. injection H2 as Hg Hh Hb Ha Hs Hs'.
  pose proof (h_pid Hok (forks w1)). destruct (Z.ltb_spec (child_at (forks w1)) 0); [lia |].
  destruct (wait_result w2 Hok Hdec) as (st & w3 & -> & Hm & Ho & Hh3 & Hs3).
  rewrite Ha, Hb, Hg in Hm, Ho. fold (edge_attempt w) in Hm, Ho.
  cbn zeta. change (trace_overflow_occurred (restore_max w3)) with (trace_overflow_occurred w3).
  rewrite Ho. eexists. split; [done |].
  unfold settings in *. destruct (a_overflow (edge_attempt w)); cbn; rewrite Hh3;
    injection Hs3 as -> ->; by rewrite Hs, Hs'.
Qed.

(** The test case the hybrid block hands to hybrid.c. *)
Definition block_round (overflowed : bool) (w : world) : round := {|
  r_path := MkPass (trace_bitmap w) overflowed;
  r_key := input_key (input_at (attempts w));
  r_edge := MkPass (a_map (edge_attempt w)) (a_overflow (edge_attempt w));
  r_sampled := c_true (hybrid_sample w) &&
               (inc64 (hybrid_discards w) mod hybrid_sample w =? 0)
|}.

(** ** The input key *)

Lemma input_key_loop_concat bufs :
  input_key_loop bufs = (fnv_bytes 0xcbf29ce484222325 (concat bufs), zlen (concat bufs)).
Proof.
  unfold input_key_loop.
  assert (forall h off, foldl (fun '(h, off) buf => (fnv_bytes h buf, off + zlen buf)) (h, off) bufs =
    (fnv_bytes h (concat bufs), off + zlen (concat bufs))) as Hgen.
  { induction bufs as [|buf bufs IH]; intros h off; simpl.
    - f_equal. lia.
    - rewrite IH, fnv_bytes_app, length_app. f_equal. lia. }
  rewrite Hgen. f_equal.
Qed.

(** ** Calibration in the proxy *)

Lemma wait_search w : gov_search (w_gov (wait_for_child_and_stop_trace w).2) = gov_search (w_gov w).
Proof. by destruct (wait_keeps w) as [_ ->]. Qed.

Lemma fork_gov w : w_gov (fork_fresh_child w).2 = w_gov w.
Proof.
  unfold fork_fresh_child. cbn. destruct (io_ok (calls w)); cbn; [| done].
  by destruct (io_ok (S (calls w))).
Qed.

Lemma start_gov pid w : w_gov (start_and_resume pid false w).2 = w_gov w.
Proof. unfold start_and_resume, start_trace. cbn. by destruct decoding_on. Qed.

(** The callback only moves the governor to the top frequency. *)
Lemma calibration_keeps_search w :
  gov_search (get_gov (calibration_run_one_shot w).2) = gov_search (get_gov w).
Proof.
  unfold calibration_run_one_shot, get_gov, world_has_gov.
  set (pw := if ctx_have_child w then _ else _).
  assert (w_gov pw.2 = w_gov w) as H1.
  { unfold pw. destruct (ctx_have_child w); [done |].
    pose proof (fork_gov w) as Hf. by destruct (fork_fresh_child w). }
  destruct pw as [[[] pid] w1]; cbn in H1; [by rewrite <- H1 |].
  pose proof (start_gov pid (w1 <| ctx_child_pid := pid |>)) as H2.
  destruct (start_and_resume pid false _) as [ret w2]. cbn in H2.
  destruct (ret <? 0); [by rewrite <- H1, <- H2 |].
  pose proof (wait_search w2) as H3.
  destruct (wait_for_child_and_stop_trace w2) as [[st|] w3]; cbn in *.
  - rewrite <- H1, <- H2, <- H3. unfold freq_gov_restore_max. case_if; [done | apply set_freq_search].
  - by rewrite H3, H2, H1.
Qed.

(** Runs overflow exactly above the frequency [F]. *)
Definition overflow_threshold (F : Z) : Prop :=
  forall n f b, a_overflow (attempt_at n f b) = (f >? F).

Lemma calibration_overflows F :
  healthy -> decoding_on = true -> overflow_threshold F ->
  overflows_above calibration_run_one_shot F.
Proof.
  intros Hok Hdec HF w. unfold calibration_run_one_shot, get_gov, world_has_gov.
  set (pw := if ctx_have_child w then _ else _).
  assert (exists pid w1, pw = (false, pid, w1) /\ w_gov w1 = w_gov w) as (pid & w1 & -> & Hg).
  { unfold pw. destruct (ctx_have_child w); [by do 2 eexists |].
    pose proof (fork_gov w) as Hf. destruct (fork_fine Hok w) as [w1 Hw1]. rewrite Hw1 in *.
    pose proof (h_pid Hok (forks w)). destruct (Z.ltb_spec (child_at (forks w)) 0); [lia |].
    by do 2 eexists. }
  destruct (start_fine Hok pid false (w1 <| ctx_child_pid := pid |>)) as (w2 & Hw2 & _).
  assert (w_gov w2 = w_gov w1) as Hs.
  { pose proof (start_gov pid (w1 <| ctx_child_pid := pid |>)) as Hs. revert Hs. by rewrite Hw2. }
  rewrite Hw2. cbn [Z.ltb Z.compare]. rewrite <- Hg, <- Hs.
  unfold wait_for_child_and_stop_trace. set (a := attempt_at _ _ _).
  destruct (read_statuses (a_statuses a)) eqn:Hst; [| by destruct (h_ends Hok _ _ _ Hst)].
  rewrite (io_fine Hok). cbn. rewrite Hdec. cbn. apply HF.
Qed.

(** ** Properties *)

(** A turn of the main loop reads one request and answers it with one pid and
    one status, in this order, however many hidden runs it makes. *)
Lemma main_turn_answers (w : world) :
  healthy ->
  exists pid status w', main_turn w = (MainNext, w') /\
    outer (log w') = outer (log w) ++ [EvRequest; EvPid pid; EvStatus status].
Proof.
  intros Hok. unfold main_turn.
  destruct (next_testcase_fine Hok w) as (pid & w1 & -> & Hp & Hl1 & _).
  destruct (pid >? 0) eqn:Hgt; zbool; [| lia]. cbn [negb].
  pose proof (retry_loop_hidden RETRY_FUEL (current_freq_mode w1) 0 false w1) as [Hl2 _].
  destruct (retry_loop_fine Hok (current_freq_mode w1) w1) as (st & ov & w2 & Hw2).
  rewrite Hw2 in *. cbn in Hl2.
  pose proof (hybrid_block_hidden st ov w2) as [Hl3 _].
  destruct (hybrid_block_fine Hok st ov w2) as [w3 Hw3]. rewrite Hw3 in *. cbn in Hl3.
  cbn [Z.ltb Z.compare]. destruct (finish_fine Hok st w3) as (w4 & -> & Hl4).
  exists pid, st, w4. split; [done |]. by rewrite Hl4, Hl3, Hl2, Hl1, <- app_assoc.
Qed.

(** C21: the retry loop of a test case ends, whatever the runs give and
    whichever call fails: it makes at least one and at most five runs (the
    first, three retries, one at the floor), and a single one outside the
    mode that retries. *)
Theorem retry_loop_bounded (mode : freq_mode_t) (w : world) :
  let '(result, w') := retry_loop RETRY_FUEL mode 0 false w in
  result <> None /\ (attempts w < attempts w' <= attempts w + 5)%nat /\
  (mode = FREQ_MODE_ATOM -> attempts w' = S (attempts w)).
Proof.
  pose proof (retry_loop_ends RETRY_FUEL mode 0 false w ltac:(done) ltac:(cbv; lia)) as Hends.
  assert (mode = FREQ_MODE_ATOM -> attempts (retry_loop RETRY_FUEL mode 0 false w).2 = S (attempts w))
    as Hatom.
  { intros ->. change RETRY_FUEL with 5%nat. cbn [retry_loop].
    pose proof (retry_turn_attempts FREQ_MODE_ATOM 0 false w) as Ha.
    destruct (retry_turn FREQ_MODE_ATOM 0 false w) as [[| |] w1] eqn:Ht; try done.
    by apply retry_turn_again in Ht as (_ & [=] & _). }
  destruct (retry_loop RETRY_FUEL mode 0 false w) as [r w']. destruct Hends as [Hr Ha].
  split_and!; [done | lia | change (turns_left 0 false) with 5%nat in Ha; lia | done].
Qed.

(** C22: retries never speed up: in the mode that retries, the runs a test case
    makes after its first one, at [f], are each at a frequency no higher than
    the one before. *)
Theorem retries_never_speed_up (w w' : world) (f status : Z) (overflowed : bool) :
  run_at (w_gov w) f ->
  retry_loop RETRY_FUEL FREQ_MODE_ADDR 0 false w = (Some (Some (status, overflowed)), w') ->
  exists fs, run_freqs (log w') = run_freqs (log w) ++ fs /\ StronglySorted Z.ge (f :: fs).
Proof. intros Hrun. by apply retry_loop_slower; [left |]. Qed.

(** C18: the hybrid block of the main loop is one round of hybrid.c: with
    working pipes, the map left for AFL++ and the state of hybrid.c after it
    are those of [hybrid_round], on the run just made, the second pass the
    verdict asks for and the sampling counter. *)
Theorem hybrid_block_is_round (w : world) (status : Z) (overflowed : bool) :
  healthy -> decoding_on = true -> cov_type w = hybrid_cov -> WIFSIGNALED status = false ->
  let '(ret, w') := hybrid_block status overflowed w in
  ret = 0 /\
  (trace_bitmap w', w_hyb w') = hybrid_round (w_hyb w) (block_round overflowed w).
Proof.
  intros Hok Hdec Hcov Hsig. unfold hybrid_block, hybrid_round, block_round. cbn [r_path r_key r_edge
    r_sampled p_map p_overflow]. rewrite Hdec, Hsig, bool_decide_true by done. cbn [andb negb].
  destruct (hybrid_after_path _ _ _ _) as [[v m] s].
  unfold confirm_with_branch_broadcast, sample_with_branch_broadcast. cbn zeta.
  destruct v.
  - cbn [hybrid_sample hybrid_discards w_hyb trace_bitmap upd].
    destruct (c_true (hybrid_sample w)); cbn [andb]; [| done].
    destruct (inc64 (hybrid_discards w) mod hybrid_sample w =? 0); [| done].
    match goal with |- context [edge_pass ?w1] =>
      destruct (edge_pass_result w1 Hok Hdec) as (w2 & -> & Hm & Hh & _) end.
    match goal with |- context [trace_set_bb_mode ?b ?w3] =>
      destruct (bb_mode_fine Hok b w3) as [n ->] end. cbn. by rewrite Hm, Hh.
  - match goal with |- context [edge_pass ?w1] =>
      destruct (edge_pass_result w1 Hok Hdec) as (w2 & -> & Hm & Hh & _) end.
    match goal with |- context [trace_set_bb_mode ?b ?w3] =>
      destruct (bb_mode_fine Hok b w3) as [n ->] end. cbn. by rewrite Hm, Hh.
Qed.

(** C11: calibration on the first test case finds the fastest frequency that
    does not overflow: when runs overflow exactly above some frequency, the
    mode calibrated ends on the highest table entry that runs clean, or on the
    floor when none does, after at least one and at most as many runs as the
    table has entries. *)
Theorem proxy_calibration_settles (w : world) (mode : freq_mode_t) (F : Z) :
  healthy -> decoding_on = true -> overflow_threshold F ->
  gov_wf (w_gov w) -> g_enabled (w_gov w) = true ->
  let t := freq_table (w_gov w) in
  let num := freq_table_num (w_gov w) in
  let '(runs, w') := freq_gov_calibrate gov_env calibration_run_one_shot mode w in
  let p := cur_idx (mst (w_gov w') mode) in
  0 <= p < num /\ (p = 0 \/ aget t p <= F) /\ (forall j, p < j < num -> F < aget t j) /\
  1 <= runs <= num.
Proof.
  intros Hok Hdec HF Hwf Hen.
  apply (calibrate_threshold gov_env world_has_gov calibration_run_one_shot mode F w
    calibration_keeps_search (calibration_overflows F Hok Hdec HF) Hwf Hen).
Qed.

(** The key of a test case depends on its contents alone, not on how the
    reads split it, is a nonzero 64-bit number when the test case can be read,
    and 0 exactly when it cannot. *)
Theorem input_key_of_contents (r r' : input_reads) :
  concat (chunks r) = concat (chunks r') -> reads_end r = reads_end r' ->
  input_key (Some r) = input_key (Some r') /\
  (input_key (Some r) = 0 <-> reads_end r = false).
Proof.
  intros Hc He. unfold input_key. rewrite !input_key_loop_concat, Hc, He. split; [done |].
  destruct (reads_end r'); cbn [negb]; [| done]. case_if; split; try done; lia.
Qed.

(** A request that cannot be read does not stop the proxy: its u32 result
    is positive, so the main loop runs its body without a request and, when
    the wait for the child succeeds, sends AFL++ a status nobody asked for. *)
Theorem failed_request_enters_body (w : world) :
  io_ok (calls w) = false ->
  (__afl_next_testcase w).1 = Some 1 /\ (main_turn w).1 <> MainExit 0 /\
  outer (log (__afl_next_testcase w).2) = outer (log w).
Proof.
  intros Hio. unfold main_turn, __afl_next_testcase, io. rewrite Hio. cbn [negb fst snd].
  split_and!; [done | | done]. cbn [Z.gtb Z.compare negb].
  destruct (retry_loop _ _ _ _ _) as [[[[st ov]|]|] w1]; [| done | done].
  destruct (hybrid_block st ov w1) as [ret w2]. destruct (ret <? 0); [done |].
  destruct (finish_testcase st w2) as [ret2 w3]. by destruct (ret2 <? 0).
Qed.

End Props.
