(* ===== verification/ProxyLoop.v ===== *)
(** * The main loop of the proxy in both builds (src/src/cs-proxy.c)

    Proxy models the Stalker build.  Built for coresight-decoder, the proxy has
    no governor and no second pass: a test case is one traced run.  The loop
    runs one test case after the other in either build. *)

From stdpp Require Import base numbers list gmap strings.
From Stdlib Require Import ZArith Lia.
From S2P Require Import Prelude Cstr FreqGov Hash Hybrid Proxy ProxyFacts ProxyProps.

Section ProxyLoop.
Context `{ProxyEnv}.

(** ** The coresight-decoder build *)

(** [__afl_next_testcase] without the Stalker parts. *)
Definition csdec_next_testcase (w : world) : Z * world :=
  let '(ok, w) := io w in
  if negb ok then (1, w)
  else
    let w := emit EvRequest w in
    let '(ok, w) := io w in
    if negb ok then (u32 (-1), w)
    else
      let w := emit EvFork w in
      let '(ok, w) := io w in
      if negb ok then (u32 (-1), w)
      else
        let child_pid := child_at (forks w) in
        let w := w <| forks := S (forks w) |> in
        let '(ok, w) := if first_run w then io w else (true, w) in
        if negb ok then (u32 (-1), w)
        else
          let w := w <| first_run := false |> in
          let '(ret, w) := start_and_resume child_pid true w in
          if ret <? 0 then (u32 (-1), w) else (u32 child_pid, w).

(** One turn of [while (__afl_next_testcase() > 0)]. *)
Definition csdec_turn (w : world) : main_verdict * world :=
  let '(ret, w) := csdec_next_testcase w in
  if negb (ret >? 0) then (MainExit 0, w)
  else
    match wait_for_child_and_stop_trace w with
    | (None, w) => (MainExit (-1), w)
    | (Some status, w) =>
        let w := w <| total_exec_count := inc64 (total_exec_count w) |> in
        let w := if decoding_on && trace_overflow_occurred w
                 then w <| overflow_exec_count := inc64 (overflow_exec_count w) |> else w in
        let '(ret, w) := finish_testcase status w in
        (if ret <? 0 then MainExit (-1) else MainNext, w)
    end.

(** ** The loop *)

Definition turn (stalker : bool) : world -> main_verdict * world :=
  if stalker then main_turn else csdec_turn.

(** At most [n] turns of the [while]. *)
Fixpoint main_loop (stalker : bool) (n : nat) (w : world) : main_verdict * world :=
  match n with
  | O => (MainNext, w)
  | S n =>
      match turn stalker w with
      | (MainNext, w) => main_loop stalker n w
      | r => r
      end
  end.

(** ** Lemmas *)

Lemma csdec_next_fine w :
  healthy ->
  exists w', csdec_next_testcase w = (child_at (forks w), w') /\
    outer (log w') = outer (log w) ++ [EvRequest; EvPid (child_at (forks w))] /\
    total_exec_count w' = total_exec_count w /\ attempts w' = attempts w.
Proof.
  intros Hok. unfold csdec_next_testcase. rewrite !(io_fine Hok). cbn [negb].
  set (w1 := emit EvFork _). cbn zeta.
  change (forks (w1 <| calls := S (calls w1) |>)) with (forks w).
  set (w2 := w1 <| calls := _ |> <| forks := _ |>).
  set (p := if first_run _ then _ else _).
  assert (exists n, p = (true, w2 <| calls := n |>)) as [n ->].
  { unfold p. destruct (first_run _); [by eexists |]. exists (calls w2). by destruct w2. }
  cbn [negb]. set (w3 := w2 <| calls := n |> <| first_run := false |>).
  pose proof (h_pid Hok (forks w)) as Hp.
  assert (outer (log w3) = outer (log w) ++ [EvRequest]) as Hl3.
  { change (log w3) with ((log w ++ [EvRequest]) ++ [EvFork]). rewrite !outer_app. by rewrite app_nil_r. }
  destruct (start_fine Hok (child_at (forks w)) true w3) as (w4 & Hw4 & Hl4 & _).
  assert (total_exec_count w4 = total_exec_count w3 /\ attempts w4 = attempts w3) as [Ht Ha].
  { revert Hw4. unfold start_and_resume, start_trace. rewrite !(io_fine Hok). cbn. intros [= <-].
    by destruct decoding_on. }
  rewrite Hw4. cbn [Z.ltb Z.compare]. exists w4. rewrite u32_small by lia. split_and!; [done | | done | done].
  by rewrite Hl4, Hl3, <- app_assoc.
Qed.

(** A test case of this build is one run. *)
Lemma csdec_turn_answers w :
  healthy ->
  exists pid status w', csdec_turn w = (MainNext, w') /\
    outer (log w') = outer (log w) ++ [EvRequest; EvPid pid; EvStatus status].
Proof.
  intros Hok. unfold csdec_turn. destruct (csdec_next_fine w Hok) as (w1 & -> & Hl1 & _ & _).
  pose proof (h_pid Hok (forks w)) as Hp.
  destruct (child_at (forks w) >? 0) eqn:Hgt; zbool; [| lia]. cbn [negb].
  destruct (wait_hidden w1) as [Hl2 _]. destruct (wait_fine Hok w1) as (st & w2 & Hw2).
  rewrite Hw2 in *. cbn [snd] in Hl2. set (w3 := if _ && _ then _ else _).
  assert (outer (log w3) = outer (log w2)) as Hl3 by (unfold w3; by destruct (_ && _)).
  destruct (finish_fine Hok st w3) as (w4 & -> & Hl4). cbn [Z.ltb Z.compare].
  exists (child_at (forks w)), st, w4. split; [done |].
  by rewrite Hl4, Hl3, Hl2, Hl1, <- app_assoc.
Qed.

Lemma turn_answers stalker w :
  healthy ->
  exists pid status w', turn stalker w = (MainNext, w') /\
    outer (log w') = outer (log w) ++ [EvRequest; EvPid pid; EvStatus status].
Proof. intros Hok. destruct stalker; [by apply main_turn_answers | by apply csdec_turn_answers]. Qed.

(** What AFL++ sees of a request. *)
Definition exchange (a : Z * Z) : list event := [EvRequest; EvPid a.1; EvStatus a.2].

(** C4: AFL++ sees one pid and one status per request, in both builds: with
    working pipes and children that end, [n] turns of the main loop read [n]
    requests and answer each with one pid and one status, in this order,
    however many hidden runs (calibration, retries, second pass) are made for
    it, and the loop goes on. *)
Theorem one_pid_one_status (stalker : bool) (n : nat) (w : world) :
  healthy ->
  exists answers w', main_loop stalker n w = (MainNext, w') /\ length answers = n /\
    outer (log w') = outer (log w) ++ concat (exchange <$> answers).
Proof.
  intros Hok. revert w. induction n as [|n IH]; intros w; cbn [main_loop].
  { exists [], w. split_and!; [done | done |]. by rewrite app_nil_r. }
  destruct (turn_answers stalker w Hok) as (pid & status & w1 & -> & Hl1).
  destruct (IH w1) as (answers & w2 & -> & Hn & Hl2). exists ((pid, status) :: answers), w2.
  split_and!; [done | by cbn; rewrite Hn |]. by rewrite Hl2, Hl1, <- app_assoc.
Qed.

End ProxyLoop.
