(* ===== verification/Fds.v ===== *)
(** * Descriptors of the fork server (src/src/cs-proxy.c, src/libforksrv/libforksrv.c)

    The proxy, the fork server and the test cases share two pipes: control
    words go from the proxy to the fork server, statuses the other way.  A
    process' descriptor table is a finite map from numbers to ends; [pipe]
    takes free numbers, which the class [FdEnv] gives. *)

From stdpp Require Import base numbers list gmap.
From Stdlib Require Import ZArith Lia.
From S2P Require Import Prelude.

Definition FORKSRV_FD : Z := 198.
Definition AFLCS_FORKSRV_FD : Z := FORKSRV_FD - 3.

(** What a descriptor stands for: an end of one of the two pipes, of one of
    AFL++'s two pipes, or something else that was open. *)
Inductive fd_end := CtlRead | CtlWrite | StRead | StWrite | AflCtl | AflSt | Inherited (n : Z).

#[export] Instance fd_end_eq_dec : EqDecision fd_end.
Proof. solve_decision. Defined.

Abbreviation fd_table := (gmap Z fd_end).

(** [pipe] uses the lowest free numbers. *)
Class FdEnv := lowest_fd : fd_table -> Z.

(** Decide whether two numbers are equal until every look-up is evaluated. *)
Ltac solve_fds :=
  apply map_eq; intros i;
  repeat first [rewrite lookup_delete | rewrite lookup_insert | case_decide]; subst; congruence || lia || done.

Section Fds.
Context `{FdEnv}.

(** ** System calls *)

(** [pipe]: the two numbers, and the table with the two ends in it. *)
Definition pipe_fds (rd wr : fd_end) (t : fd_table) : Z * Z * fd_table :=
  let a := lowest_fd t in
  let t := <[a := rd]> t in
  let b := lowest_fd t in
  (a, b, <[b := wr]> t).

(** [dup2]; [None] when the old number is not open. *)
Definition dup2 (old new : Z) (t : fd_table) : option fd_table :=
  e ← t !! old; Some (if old =? new then t else <[new := e]> t).

Definition close_fd (fd : Z) (t : fd_table) : fd_table := delete fd t.

(** ** [__afl_start_forkserver] *)

(** What the proxy keeps of the two pipes. *)
Record pipes := MkPipes { st_r : Z; st_w : Z; ctl_r : Z; ctl_w : Z }.

(** The two calls of [pipe], before the fork. *)
Definition open_pipes (t : fd_table) : pipes * fd_table :=
  let '(a, b, t) := pipe_fds StRead StWrite t in
  let '(c, d, t) := pipe_fds CtlRead CtlWrite t in
  (MkPipes a b c d, t).

(** The child, up to [execve]; [None] is FATAL. *)
Definition forksrv_fds (p : pipes) (t : fd_table) : option fd_table :=
  t ← dup2 (ctl_r p) AFLCS_FORKSRV_FD t;
  t ← dup2 (st_w p) (AFLCS_FORKSRV_FD + 1) t;
  let t := close_fd (st_w p) (close_fd (st_r p) (close_fd (ctl_w p) (close_fd (ctl_r p) t))) in
  Some (close_fd (FORKSRV_FD + 1) (close_fd FORKSRV_FD t)).

(** The parent: [proxy_ctl_fd], [proxy_st_fd] and its table. *)
Definition proxy_fds (p : pipes) (t : fd_table) : Z * Z * fd_table :=
  (ctl_w p, st_r p, close_fd (st_w p) (close_fd (ctl_r p) t)).

(** The test case, in [__cs_start_forkserver], before it runs free. *)
Definition testcase_fds (t : fd_table) : fd_table :=
  close_fd (AFLCS_FORKSRV_FD + 1) (close_fd AFLCS_FORKSRV_FD t).

(** ** Facts *)

Definition inherited (t : fd_table) : Prop := forall fd e, t !! fd = Some e -> exists n, e = Inherited n.

(** What AFL++ starts the proxy with: its two pipes and other files, the two
    numbers of the fork server free. *)
Record afl_table (t : fd_table) : Prop := {
  at_ctl : t !! FORKSRV_FD = Some AflCtl;
  at_st : t !! (FORKSRV_FD + 1) = Some AflSt;
  at_rest : inherited (delete FORKSRV_FD (delete (FORKSRV_FD + 1) t));
  at_free : t !! AFLCS_FORKSRV_FD = None /\ t !! (AFLCS_FORKSRV_FD + 1) = None
}.

(** [pipe] returns numbers that are free, and below the fork server's while
    fewer files than that are open. *)
Definition low_fds (t : fd_table) : Prop :=
  forall t', t ⊆ t' -> (size t' <= size t + 4)%nat ->
    t' !! lowest_fd t' = None /\ 0 <= lowest_fd t' < AFLCS_FORKSRV_FD.

(** Four new numbers, all below the fork server's. *)
Record fresh_pipes (p : pipes) (t : fd_table) : Prop := {
  fp_low : Forall (fun fd => 0 <= fd < AFLCS_FORKSRV_FD) [st_r p; st_w p; ctl_r p; ctl_w p];
  fp_new : Forall (fun fd => t !! fd = None) [st_r p; st_w p; ctl_r p; ctl_w p];
  fp_distinct : NoDup [st_r p; st_w p; ctl_r p; ctl_w p]
}.

Lemma open_pipes_fresh t :
  low_fds t ->
  let '(p, t') := open_pipes t in
  fresh_pipes p t /\
  t' = <[ctl_w p := CtlWrite]> (<[ctl_r p := CtlRead]> (<[st_w p := StWrite]> (<[st_r p := StRead]> t))).
Proof.
  intros Hlow. unfold open_pipes, pipe_fds. cbn.
  set (a := lowest_fd t). set (t1 := <[a := StRead]> t). set (b := lowest_fd t1). set (t2 := <[b := StWrite]> t1).
  set (c := lowest_fd t2). set (t3 := <[c := CtlRead]> t2). set (d := lowest_fd t3).
  destruct (Hlow t) as [Ha Ha']; [done | lia |]. fold a in Ha, Ha'.
  assert (t ⊆ t1) as H1 by (by apply insert_subseteq).
  assert (size t1 = S (size t)) as Hs1 by (by apply map_size_insert_None).
  destruct (Hlow t1) as [Hb Hb']; [done | lia |]. fold b in Hb, Hb'.
  assert (t1 ⊆ t2) as H2 by (by apply insert_subseteq).
  assert (size t2 = S (size t1)) as Hs2 by (by apply map_size_insert_None).
  destruct (Hlow t2) as [Hc Hc']; [by transitivity t1 | lia |]. fold c in Hc, Hc'.
  assert (t2 ⊆ t3) as H3 by (by apply insert_subseteq).
  assert (size t3 = S (size t2)) as Hs3 by (by apply map_size_insert_None).
  destruct (Hlow t3) as [Hd Hd']; [by transitivity t2; [transitivity t1 |] | lia |]. fold d in Hd, Hd'.
  split; [| done].
  unfold t3 in Hd. apply lookup_insert_None in Hd as [Hd Hdc].
  unfold t2 in Hd, Hc. apply lookup_insert_None in Hd as [Hd Hdb]. apply lookup_insert_None in Hc as [Hc Hcb].
  unfold t1 in Hd, Hc, Hb. apply lookup_insert_None in Hd as [Hd Hda], Hc as [Hc Hca], Hb as [Hb Hba].
  split; cbn; [by rewrite !Forall_cons, Forall_nil | by rewrite !Forall_cons, Forall_nil |].
  repeat (apply NoDup_cons; split; [set_solver |]). constructor.
Qed.

Lemma forksrv_fds_eq t p :
  afl_table t -> fresh_pipes p t ->
  let t1 := <[ctl_w p := CtlWrite]> (<[ctl_r p := CtlRead]> (<[st_w p := StWrite]> (<[st_r p := StRead]> t))) in
  forksrv_fds p t1 =
  Some (<[AFLCS_FORKSRV_FD := CtlRead]> (<[AFLCS_FORKSRV_FD + 1 := StWrite]>
         (delete FORKSRV_FD (delete (FORKSRV_FD + 1) t)))).
Proof.
  intros Ht [Hlow Hnew Hd]. destruct p as [a b c d]. cbn in *.
  rewrite !Forall_cons in Hlow, Hnew. destruct_and! Hlow. destruct_and! Hnew.
  rewrite !NoDup_cons in Hd. unfold forksrv_fds, dup2, close_fd. cbn [ctl_r st_w st_r ctl_w].
  unfold AFLCS_FORKSRV_FD, FORKSRV_FD in *.
  rewrite lookup_insert_ne, lookup_insert_eq by set_solver. cbn [mbind option_bind].
  destruct (Z.eqb_spec c (198 - 3)); [lia |].
  rewrite lookup_insert_ne by lia. rewrite lookup_insert_ne, lookup_insert_ne, lookup_insert_eq by set_solver.
  cbn [mbind option_bind]. destruct (Z.eqb_spec b (198 - 3 + 1)); [lia |]. f_equal. solve_fds.
Qed.

End Fds.

(** C33: The descriptors of the protocol end up where they belong: the fork
    server has the read end of the control pipe and the write end of the status
    pipe at its two fixed numbers, nothing of AFL++'s, and otherwise what the
    proxy was started with; the proxy keeps the two opposite ends and AFL++'s
    pipes; a test case starts with none of the protocol's descriptors.  So only
    the proxy can write to the control pipe, and its end is noticed. *)
Theorem descriptors_separated `{FdEnv} (t : fd_table) :
  afl_table t -> low_fds t ->
  let '(p, t1) := open_pipes t in
  let others := delete FORKSRV_FD (delete (FORKSRV_FD + 1) t) in
  exists ts, forksrv_fds p t1 = Some ts /\
    ts = <[AFLCS_FORKSRV_FD := CtlRead]> (<[AFLCS_FORKSRV_FD + 1 := StWrite]> others) /\
    proxy_fds p t1 = (ctl_w p, st_r p, <[ctl_w p := CtlWrite]> (<[st_r p := StRead]> t)) /\
    testcase_fds ts = others /\ inherited others /\ (forall fd, ts !! fd <> Some CtlWrite).
Proof.
  intros Ht Hlow. pose proof (open_pipes_fresh t Hlow) as Hp. destruct (open_pipes t) as [p t1].
  destruct Hp as [Hp ->]. pose proof (forksrv_fds_eq t p Ht Hp) as Hts. cbn zeta in Hts |- *.
  eexists. split; [exact Hts |]. split; [done |].
  destruct Ht as [_ _ Hrest [Hf1 Hf2]]. destruct Hp as [Hl Hnew Hd]. destruct p as [a b c d].
  cbn in *. rewrite !Forall_cons in Hl, Hnew. destruct_and! Hl. destruct_and! Hnew.
  rewrite !NoDup_cons in Hd. unfold AFLCS_FORKSRV_FD, FORKSRV_FD in *. split_and!.
  - unfold proxy_fds, close_fd. f_equal. cbn. assert (b <> a /\ c <> a /\ b <> d /\ c <> d) as (? & ? & ? & ?) by set_solver.
    solve_fds.
  - unfold testcase_fds, close_fd, AFLCS_FORKSRV_FD, FORKSRV_FD. solve_fds.
  - done.
  - intros fd. rewrite !lookup_insert. repeat case_decide; try done. intros Hfd. by destruct (Hrest _ _ Hfd).
Qed.

(** With the number of the fork server's first descriptor free and all below it
    taken, [pipe] can hand it out: the [dup2] then does nothing, and the
    [close] after it takes the fork server's control pipe away. *)
Theorem crowded_table_loses_control (p : pipes) (t1 ts : fd_table) :
  ctl_r p = AFLCS_FORKSRV_FD -> forksrv_fds p t1 = Some ts ->
  ts !! AFLCS_FORKSRV_FD = None.
Proof.
  intros Hc. unfold forksrv_fds, dup2, close_fd. rewrite Hc. destruct (t1 !! AFLCS_FORKSRV_FD); [| done].
  cbn [mbind option_bind]. rewrite Z.eqb_refl. destruct (t1 !! st_w p); [| done]. cbn [mbind option_bind].
  intros [= <-]. rewrite !lookup_delete. repeat case_decide; done.
Qed.
