(* ===== verification/Forksrv.v ===== *)
(** * The fork server in the target (src/libforksrv/libforksrv.c)

    The library preloaded into the target: it scrubs the environment it was
    started with, then forks one stopped child per request of the proxy and
    relays its statuses.  What the kernel answers to one request is the record
    [request]; the model gives the words written to the proxy's pipe. *)

From stdpp Require Import base numbers list strings.
From Stdlib Require Import ZArith Lia Ascii.
From S2P Require Import Prelude Proxy.

(** ** Environment *)

(** Text as characters. *)
Abbreviation text := (list Ascii.ascii).

(** [strstr]: what precedes and what follows the first occurrence. *)
Fixpoint strstr (hay pat : text) : option (text * text) :=
  if decide (pat `prefix_of` hay) then Some ([], drop (length pat) hay)
  else
    match hay with
    | [] => None
    | c :: hay => match strstr hay pat with Some (a, b) => Some (c :: a, b) | None => None end
    end.

(** The [while]: cut the first occurrence out until there is none; [None] when
    [fuel] runs out. *)
Fixpoint cut_all (fuel : nat) (rest pat : text) : option text :=
  match fuel with
  | O => None
  | S fuel =>
      match strstr rest pat with
      | Some (a, b) => cut_all fuel (a ++ b) pat
      | None => Some rest
      end
  end.

(** [rest[strspn(rest, ": ")] == '\0']. *)
Definition only_separators (rest : text) : bool :=
  forallb (fun c => bool_decide (c = ":"%char \/ c = " "%char)) rest.

(** The environment variables the server touches. *)
Record env := MkEnvVars {
  cs_proxy : bool;              (* __CS_PROXY is set *)
  cs_trace : bool;              (* __CS_TRACE is set *)
  ld_preload : option text
}.

#[export] Instance eta_env : Eta env := fun e => MkEnvVars (cs_proxy e) (cs_trace e) (ld_preload e).

(** [scrub_forksrv_env]; [fname] is what [dladdr] says of this library.  Each
    cut shortens the text, so its length bounds the loop. *)
Definition scrub_forksrv_env (fname : option text) (e : env) : option env :=
  let preload := ld_preload e in
  let e := e <| cs_proxy := false |> in
  match preload, fname with
  | Some rest, Some fname =>
      rest ← cut_all (S (length rest)) rest fname;
      Some (e <| ld_preload := if only_separators rest then None else Some rest |>)
  | _, _ => Some e
  end.

(** ** Requests *)

(** The kernel's answers while one request is served: the outcomes of [fork]
    (a pid, EAGAIN, or another error), what [waitpid] reports first ([None]: an
    error), and the statuses it reports afterwards. *)
Inductive fork_result := ForkPid (pid : Z) | ForkAgain | ForkError.

Record request := MkRequest {
  rq_forks : nat -> fork_result;
  rq_first : option Z;
  rq_statuses : list Z
}.

Inductive server_state := Serving | Exited (code : Z).

(** The ten tries of [fork]: the child's pid, or [None]. *)
Fixpoint try_fork (tries : nat) (attempt : nat) (forks : nat -> fork_result) : option Z :=
  match tries with
  | O => None
  | S tries =>
      match forks attempt with
      | ForkPid pid => Some pid
      | ForkError => None
      | ForkAgain => try_fork tries (S attempt) forks
      end
  end.

Definition FORK_TRIES : nat := 10.

Definition is_sigstop (status : Z) : bool := WIFSTOPPED status && (WSTOPSIG status =? SIGSTOP).

(** The inner [while]: relay statuses until the child is gone; running out of
    statuses is [waitpid] failing. *)
Fixpoint relay (sts : list Z) : list Z * server_state :=
  match sts with
  | [] => ([], Exited 8)
  | st :: sts =>
      if is_sigstop st then let '(ws, s) := relay sts in (st :: ws, s) else ([st], Serving)
  end.

(** One turn of the outer [while], after the request was read; writes succeed. *)
Definition serve_request (r : request) : list Z * server_state :=
  match try_fork FORK_TRIES 0 (rq_forks r) with
  | None => ([], Exited 4)
  | Some child_pid =>
      match rq_first r with
      | None => ([], Exited 6)
      | Some status =>
          if negb (is_sigstop status) then ([status], Serving)
          else let '(ws, s) := relay (rq_statuses r) in (child_pid :: ws, s)
      end
  end.

(** The words of a request, each with the code the server exits with when the
    [write] fails. *)
Definition request_writes (r : request) : list (Z * Z) * server_state :=
  match try_fork FORK_TRIES 0 (rq_forks r) with
  | None => ([], Exited 4)
  | Some child_pid =>
      match rq_first r with
      | None => ([], Exited 6)
      | Some status =>
          if negb (is_sigstop status) then ([(status, 7)], Serving)
          else let '(ws, s) := relay (rq_statuses r) in ((child_pid, 5) :: ((., 9) <$> ws), s)
      end
  end.

(** The writes in turn, the [n]-th succeeding as [ok] says. *)
Fixpoint send_words (ok : nat -> bool) (n : nat) (ws : list (Z * Z)) (s : server_state)
    : list Z * nat * server_state :=
  match ws with
  | [] => ([], n, s)
  | (w, code) :: ws =>
      if ok n then let '(out, n, s) := send_words ok (S n) ws s in (w :: out, n, s)
      else ([], S n, Exited code)
  end.

(** The outer [while], until the proxy's end of the pipe is closed. *)
Fixpoint serve_all (ok : nat -> bool) (n : nat) (reqs : list request) : list Z * server_state :=
  match reqs with
  | [] => ([], Exited 1)
  | r :: reqs =>
      let '(ws, s) := request_writes r in
      match send_words ok n ws s with
      | (out, _, Exited code) => (out, Exited code)
      | (out, n, Serving) => let '(rest, s) := serve_all ok n reqs in (out ++ rest, s)
      end
  end.

(** The server from its first word on. *)
Definition forksrv_main (ok : nat -> bool) (reqs : list request) : list Z * server_state :=
  match send_words ok 0 [(0, -1)] Serving with
  | (out, _, Exited code) => (out, Exited code)
  | (out, n, Serving) => let '(rest, s) := serve_all ok n reqs in (out ++ rest, s)
  end.

(** How [__cs_start_forkserver] starts: a fork server under the proxy, a stop
    under cs-trace, nothing otherwise. *)
Inductive start_action := StartServer (e : env) | RaiseStop | RunNormally | ScrubHangs.

Definition __cs_start_forkserver (fname : option text) (e : env) : start_action :=
  if cs_proxy e then
    match scrub_forksrv_env fname e with Some e => StartServer e | None => ScrubHangs end
  else if cs_trace e then RaiseStop else RunNormally.

(** ** Lemmas *)

Lemma prefix_split (pat l : text) : pat `prefix_of` l -> l = pat ++ drop (length pat) l.
Proof. intros [k ->]. by rewrite drop_app_length. Qed.

Lemma strstr_some hay pat a b : strstr hay pat = Some (a, b) -> hay = a ++ pat ++ b.
Proof.
  revert a b. induction hay as [|c hay IH]; intros a b; simpl; case_decide as Hp; try done.
  - intros [= <- <-]. by apply prefix_split in Hp.
  - intros [= <- <-]. by apply prefix_split in Hp.
  - destruct (strstr hay pat) as [[a' b']|]; [| done]. intros [= <- <-]. simpl. f_equal. by apply IH.
Qed.

Lemma strstr_none hay pat a b : strstr hay pat = None -> hay <> a ++ pat ++ b.
Proof.
  revert a. induction hay as [|c hay IH]; intros a; simpl; case_decide as Hp; try done.
  - intros _ Heq. destruct a; [| done]. apply Hp. by exists b.
  - destruct (strstr hay pat) as [[a' b']|] eqn:Hs; [done |]. intros _ Heq.
    destruct a as [|c' a]; [apply Hp; by exists b |]. simplify_eq/=. by eapply IH.
Qed.

Lemma cut_all_ends fuel rest pat :
  pat <> [] -> (length rest < fuel)%nat ->
  exists r, cut_all fuel rest pat = Some r /\ r `sublist_of` rest /\ forall a b, r <> a ++ pat ++ b.
Proof.
  intros Hne. revert rest. induction fuel as [|fuel IH]; intros rest Hf; [lia |]. simpl.
  destruct (strstr rest pat) as [[a b]|] eqn:Hs.
  - apply strstr_some in Hs. subst rest.
    assert (0 < length pat)%nat by (destruct pat; [done | simpl; lia]).
    rewrite !length_app in Hf. destruct (IH (a ++ b)) as (r & -> & Hsub & Hnone).
    { rewrite length_app. lia. }
    exists r. split_and!; [done | | done]. etrans; [exact Hsub |].
    apply sublist_app; [done |]. by apply sublist_inserts_l.
  - exists rest. split_and!; [done | done |]. intros a b. by apply strstr_none.
Qed.

Lemma relay_in_step sts ws :
  relay sts = (ws, Serving) ->
  exists final, read_statuses ws = Some final /\ is_sigstop final = false /\
    exists stops, ws = stops ++ [final] /\ Forall (fun st => is_sigstop st = true) stops.
Proof.
  revert ws. induction sts as [|st sts IH]; intros ws; simpl; [done |].
  destruct (is_sigstop st) eqn:Hst.
  - destruct (relay sts) as [ws' s] eqn:Hr. intros [= <- ->].
    destruct (IH ws' eq_refl) as (final & Hread & Hf & stops & -> & Hall).
    exists final. simpl. unfold is_sigstop in Hst. rewrite Hst. split_and!; [done | done |].
    exists (st :: stops). by split; [| constructor].
  - intros [= <-]. exists st. simpl. unfold is_sigstop in Hst |- *. rewrite Hst.
    split_and!; [done | done |]. by exists [].
Qed.

Lemma read_statuses_stops sts :
  Forall (fun st => is_sigstop st = true) sts -> read_statuses sts = None.
Proof.
  induction 1 as [|st l Hs _ IH]; [done |]. simpl. unfold is_sigstop in Hs. by rewrite Hs.
Qed.

(** ** Properties *)

(** Scrubbing ends and leaves nothing behind: whatever LD_PRELOAD holds,
    the loop that cuts this library's path out returns, __CS_PROXY is unset,
    and what is left of LD_PRELOAD, if anything, is made of its own characters
    in order and contains the path nowhere, so the target's own children do
    not start a fork server. *)
Theorem scrub_removes_library (fname : text) (e : env) :
  fname <> [] ->
  exists e', scrub_forksrv_env (Some fname) e = Some e' /\ cs_proxy e' = false /\
    match ld_preload e, ld_preload e' with
    | None, p' => p' = None
    | Some p, None => True
    | Some p, Some p' => p' `sublist_of` p /\ forall a b, p' <> a ++ fname ++ b
    end.
Proof.
  intros Hne. unfold scrub_forksrv_env. destruct (ld_preload e) as [rest|] eqn:Hl.
  - destruct (cut_all_ends (S (length rest)) rest fname Hne ltac:(lia)) as (r & -> & Hsub & Hnone).
    destruct (only_separators r) eqn:Hsep; cbn [mbind option_bind]; rewrite Hsep;
      by eexists.
  - eexists. split; [done |]. split; [done |]. cbn. by rewrite Hl.
Qed.

(** For a child that reaches its SIGSTOP, the words a served request puts in the
    pipe are the pid followed by exactly the statuses
    [wait_for_child_and_stop_trace] reads, its loop ending on the last one. *)
Theorem request_in_step_with_proxy (r : request) (words : list Z) (first : Z) :
  rq_first r = Some first -> is_sigstop first = true ->
  serve_request r = (words, Serving) ->
  exists pid sts final, words = pid :: sts /\ try_fork FORK_TRIES 0 (rq_forks r) = Some pid /\
    read_statuses sts = Some final /\ last sts = Some final /\
    forall sts', sts' `prefix_of` sts -> sts' <> sts -> read_statuses sts' = None.
Proof.
  intros Hf Hst. unfold serve_request. rewrite Hf, Hst. cbn [negb].
  destruct (try_fork _ _ _) as [pid|]; [| done].
  destruct (relay (rq_statuses r)) as [ws s] eqn:Hr. intros [= <- ->].
  destruct (relay_in_step _ _ Hr) as (final & Hread & Hfin & stops & -> & Hall).
  exists pid, (stops ++ [final]), final. split_and!; try done; [by rewrite last_snoc |].
  intros sts' [k Hk] Hne.
  destruct k as [|x k _] using rev_ind; [by rewrite app_nil_r in Hk |].
  rewrite app_assoc in Hk. apply app_inj_tail in Hk as [Hk _]. subst stops.
  apply Forall_app in Hall as [Hall _]. by apply read_statuses_stops.
Qed.

(** A child that ends before its SIGSTOP puts the two out of step: the
    request is answered with one word, the exit status, where the proxy reads a
    pid and then waits for a status that is not coming. *)
Theorem early_exit_out_of_step (r : request) (pid status : Z) :
  try_fork FORK_TRIES 0 (rq_forks r) = Some pid ->
  rq_first r = Some status -> is_sigstop status = false ->
  serve_request r = ([status], Serving) /\ read_statuses [] = None.
Proof. intros Hp Hf Hs. unfold serve_request. by rewrite Hp, Hf, Hs. Qed.

(** A fork that fails for lack of resources is retried, ten times in all:
    the child is created if one of the first ten tries gives a pid and the ones
    before it only said EAGAIN; otherwise the server exits. *)
Theorem fork_retried (r : request) (n : nat) (pid : Z) :
  (forall i, (i < n)%nat -> rq_forks r i = ForkAgain) -> rq_forks r n = ForkPid pid ->
  try_fork FORK_TRIES 0 (rq_forks r) = (if decide (n < 10)%nat then Some pid else None) /\
  ((10 <= n)%nat -> serve_request r = ([], Exited 4)).
Proof.
  intros Hagain Hpid.
  assert (forall tries a, (a <= n)%nat ->
    try_fork tries a (rq_forks r) = if decide (n < a + tries)%nat then Some pid else None) as Hgen.
  { intros tries. induction tries as [|tries IH]; intros a Ha; simpl.
    - case_decide; [lia | done].
    - destruct (decide (a = n)) as [-> | Hne].
      + rewrite Hpid. by case_decide; [| lia].
      + rewrite Hagain, IH by lia. repeat case_decide; try done; lia. }
  split; [apply (Hgen FORK_TRIES 0%nat); lia |].
  intros Hn. unfold serve_request. rewrite (Hgen FORK_TRIES 0%nat) by lia.
  unfold FORK_TRIES. case_decide; [lia | done].
Qed.

(** ** Sessions *)

(** The proxy's end of the status pipe: the [while] of
    [wait_for_child_and_stop_trace], with what it leaves in the pipe. *)
Fixpoint take_statuses (ws : list Z) : option (Z * list Z) :=
  match ws with
  | [] => None
  | st :: ws => if is_sigstop st then take_statuses ws else Some (st, ws)
  end.

(** It reads what [read_statuses] reads. *)
Lemma take_statuses_read ws : fst <$> take_statuses ws = read_statuses ws.
Proof.
  induction ws as [|st ws IH]; [done |]. cbn [take_statuses read_statuses]. unfold is_sigstop. by destruct (_ && _).
Qed.

(** A pid and a final status per request. *)
Fixpoint read_answers (n : nat) (ws : list Z) : option (list (Z * Z) * list Z) :=
  match n with
  | O => Some ([], ws)
  | S n =>
      match ws with
      | [] => None
      | pid :: ws =>
          '(st, ws) ← take_statuses ws;
          '(answers, ws) ← read_answers n ws;
          Some ((pid, st) :: answers, ws)
      end
  end.

(** The handshake word first. *)
Definition read_session (n : nat) (ws : list Z) : option (list (Z * Z) * list Z) :=
  match ws with [] => None | _ :: ws => read_answers n ws end.

Lemma request_writes_words r :
  fst <$> (request_writes r).1 = (serve_request r).1 /\ (request_writes r).2 = (serve_request r).2.
Proof.
  unfold request_writes, serve_request. destruct (try_fork _ _ _); [| done]. destruct (rq_first r) as [st|]; [| done].
  destruct (is_sigstop st); [| done]. destruct (relay (rq_statuses r)) as [ws s]. cbn. split; [| done]. f_equal.
  rewrite <- list_fmap_compose. apply list_fmap_id.
Qed.

Lemma send_words_ok ok n ws s :
  (forall n, ok n = true) -> exists n', send_words ok n ws s = (fst <$> ws, n', s).
Proof.
  intros Hok. revert n. induction ws as [|[w c] ws IH]; intros n; cbn [send_words]; [by eexists |].
  rewrite Hok. destruct (IH (S n)) as [n' ->]. by eexists.
Qed.

(** The child of the request gets to its SIGSTOP, and the server sees its end. *)
Definition served (r : request) : Prop :=
  (exists first, rq_first r = Some first /\ is_sigstop first = true) /\ (serve_request r).2 = Serving.

Lemma take_statuses_final stops final rest :
  Forall (fun st => is_sigstop st = true) stops -> is_sigstop final = false ->
  take_statuses ((stops ++ [final]) ++ rest) = Some (final, rest).
Proof.
  intros Hs Hf. induction Hs as [|st stops Hst Hs IH]; cbn; [by rewrite Hf |]. by rewrite Hst.
Qed.

Lemma serve_all_read ok n reqs :
  (forall n, ok n = true) -> Forall served reqs ->
  exists words answers, serve_all ok n reqs = (words, Exited 1) /\
    read_answers (length reqs) words = Some (answers, []) /\
    Forall2 (fun r a => try_fork FORK_TRIES 0 (rq_forks r) = Some a.1) reqs answers.
Proof.
  intros Hok Hreqs. revert n. induction Hreqs as [|r reqs [[first [Hf Hst]] Hs] Hreqs IH]; intros n.
  { exists [], []. by split_and!. }
  cbn [serve_all length read_answers]. destruct (request_writes_words r) as [Hw1 Hw2].
  destruct (request_writes r) as [ws s]. cbn [fst snd] in Hw1, Hw2. rewrite Hs in Hw2. subst s.
  destruct (send_words_ok ok n ws Serving Hok) as [n' ->]. rewrite Hw1. clear Hw1 ws.
  revert Hs. unfold serve_request. rewrite Hf, Hst. cbn [negb].
  destruct (try_fork FORK_TRIES 0 (rq_forks r)) as [pid|] eqn:Hpid; [| done].
  destruct (relay (rq_statuses r)) as [ws s] eqn:Hr. cbn [snd fst]. intros ->.
  destruct (relay_in_step _ _ Hr) as (final & _ & Hfin & stops & -> & Hall).
  destruct (IH n') as (words & answers & -> & Hread & Hpids).
  exists (pid :: (stops ++ [final]) ++ words), ((pid, final) :: answers). split_and!; [done | | by constructor].
  cbn [app]. rewrite take_statuses_final by done. cbn [mbind option_bind]. by rewrite Hread.
Qed.

(** C32: The fork server and the proxy stay in step for a whole session: with
    working pipes and children that reach their SIGSTOP and are seen to end,
    the words the server writes for any sequence of requests are read by the
    proxy as the handshake and, for each request in turn, the pid of its child
    and a final status, with nothing missing and nothing left over; the server
    ends, with code 1, when the proxy is gone. *)
Theorem server_in_step_with_proxy (ok : nat -> bool) (reqs : list request) :
  (forall n, ok n = true) -> Forall served reqs ->
  let '(words, s) := forksrv_main ok reqs in
  s = Exited 1 /\
  exists answers, read_session (length reqs) words = Some (answers, []) /\
    Forall2 (fun r a => try_fork FORK_TRIES 0 (rq_forks r) = Some a.1) reqs answers.
Proof.
  intros Hok Hreqs. unfold forksrv_main. cbn [send_words]. rewrite Hok.
  destruct (serve_all_read ok 1 reqs Hok Hreqs) as (words & answers & -> & Hread & Hpids).
  split; [done |]. by exists answers.
Qed.
