(* ===== verification/Cpu.v ===== *)
(** * CPU selection

    The choice of the traced CPU and of the decoder's CPU (src/src/utils.c,
    [init_trace] of src/src/common.c).  The system is the class [CpuEnv]:
    topology files, affinities and /proc as the functions read them. *)

From stdpp Require Import base numbers list gmap strings.
From Stdlib Require Import ZArith Lia Ascii.
From S2P Require Import Prelude Cstr.

(** ** strtol with base 0 *)

Definition LONG_MAX : Z := 2 ^ 63 - 1.
Definition LONG_MIN : Z := - 2 ^ 63.

(** The value of a digit or letter. *)
Definition digit_val (c : ascii) : option Z :=
  if is_digit c then Some (code c - 48)
  else if (97 <=? code c) && (code c <=? 122) then Some (code c - 87)
  else if (65 <=? code c) && (code c <=? 90) then Some (code c - 55)
  else None.

(** The digits of [base] at the front of [s]. *)
Fixpoint scan_base (base : Z) (s : string) (acc : Z) : Z :=
  match s with
  | String c s' =>
      match digit_val c with
      | Some d => if d <? base then scan_base base s' (acc * base + d) else acc
      | None => acc
      end
  | EmptyString => acc
  end.

(** 0x and 0X are hexadecimal, another leading 0 octal; the value is clamped. *)
Definition strtol (s : string) : Z :=
  let '(neg, s) := scan_sign (skip_ws s) in
  let v :=
    match s with
    | String "0" (String "x" (String c _ as r)) | String "0" (String "X" (String c _ as r)) =>
        match digit_val c with Some d => if d <? 16 then scan_base 16 r 0 else 0 | None => 0 end
    | String "0" _ => scan_base 8 s 0
    | _ => scan_base 10 s 0
    end in
  if neg then Z.max LONG_MIN (- v) else Z.min LONG_MAX v.

(** ** Environment *)

(** A line of a task's status file, a task, a process: [None] when the file or
    the directory cannot be opened. *)
Record proc := MkProc { p_name : string; p_tasks : option (list (string * option (list string))) }.

Class CpuEnv := {
  get_nprocs : Z;                            (* get_nprocs(), _SC_NPROCESSORS_ONLN *)
  sched_getaffinity : Z -> option (gset Z);  (* by pid *)
  core_cpus_list : Z -> option string;       (* topology/core_cpus_list, by CPU *)
  proc_dir : option (list proc)              (* /proc *)
}.

Definition MAX_CPUS : Z := 4096.
Definition DEFAULT_TRACE_CPU : Z := 0.
Definition DEFAULT_DECODER_CPU : Z := 1.

Section Cpu.
Context `{CpuEnv}.

(** CPU_ALLOC_SIZE in bits: whole 64-bit words. *)
Definition setsize_bits : Z := (get_nprocs + 63) / 64 * 64.

(** CPU_SET_S: outside of the set nothing happens; a negative number is a huge
    size_t. *)
Definition CPU_SET_S (cpu : Z) (s : gset Z) : gset Z :=
  if (0 <=? cpu) && (cpu <? setsize_bits) then {[ cpu ]} ∪ s else s.

(** [getdelim(..., ',', fp)]: the tokens, each with its comma. *)
Fixpoint comma_tokens (s tok : string) : list string :=
  match s with
  | EmptyString => if bool_decide (tok = ""%string) then [] else [tok]
  | String c s' =>
      if bool_decide (c = ","%char) then (tok +:+ String c EmptyString) :: comma_tokens s' ""
      else comma_tokens s' (tok +:+ String c EmptyString)
  end.

(** Drop the last character of a token of two or more. *)
Definition chop (tok : string) : string :=
  if Nat.leb 2 (String.length tok)
  then String.substring 0 (String.length tok - 1) tok else tok.

(** The [while] of [set_core_cpus]: [None] is its failure exit. *)
Fixpoint set_tokens (toks : list string) (s : gset Z) : option (gset Z) :=
  match toks with
  | [] => Some s
  | tok :: toks =>
      let core_cpu := strtol (chop tok) in
      if (core_cpu =? LONG_MIN) || (core_cpu =? LONG_MAX) then None
      else set_tokens toks (CPU_SET_S (s32 core_cpu) s)
  end.

Definition set_core_cpus (cpu : Z) (s : gset Z) : option (gset Z) :=
  match core_cpus_list cpu with
  | None => None
  | Some content => set_tokens (comma_tokens content "") s
  end.

(** The first [for] of [get_preferred_cpu] over the CPUs [l]. *)
Fixpoint collect_cores (l : list Z) (affinity s : gset Z) : option (gset Z) :=
  match l with
  | [] => Some s
  | i :: l =>
      if bool_decide (i ∈ affinity) then
        match set_core_cpus i s with Some s => collect_cores l affinity s | None => None end
      else collect_cores l affinity s
  end.

(** The CPUs 0 to nprocs - 1. *)
Definition cpus : list Z := Z.of_nat <$> seq 0 (Z.to_nat get_nprocs).

(** The first CPU outside of [s], or -1. *)
Fixpoint first_free (l : list Z) (s : gset Z) : Z :=
  match l with
  | [] => -1
  | i :: l => if bool_decide (i ∈ s) then first_free l s else i
  end.

Definition get_preferred_cpu (pid : Z) : Z :=
  match sched_getaffinity pid with
  | None => -1
  | Some affinity =>
      match collect_cores cpus affinity ∅ with
      | None => -1
      | Some s => first_free cpus s
      end
  end.

(** ** Free CPUs *)

Definition starts_with (p s : string) : bool := String.prefix p s.
Definition has_char (c : ascii) (s : string) : bool :=
  existsb (fun d => bool_decide (d = c)) (String.list_ascii_of_string s).

(** A line that binds its task to a single CPU: the CPU. *)
Definition bound_line (tmp : string) : option Z :=
  if starts_with "Cpus_allowed_list:	" tmp && negb (has_char "-" tmp) && negb (has_char "," tmp) then
    match scan_llu (String.substring 19 (String.length tmp - 19) tmp) with
    | Some (v, _) => if u32 v <? MAX_CPUS then Some (u32 v) else None
    | None => None
    end
  else None.

(** The [while (fgets)] over a status file: the CPU it marks, if any. *)
Fixpoint status_cpu (lines : list string) (has_vmsize : bool) : option Z :=
  match lines with
  | [] => None
  | tmp :: lines =>
      let has_vmsize := has_vmsize || starts_with "VmSize:	" tmp in
      match bound_line tmp with
      | Some hval => if has_vmsize then Some hval else status_cpu lines has_vmsize
      | None => status_cpu lines has_vmsize
      end
  end.

Definition digit_name (s : string) : bool :=
  match s with String c _ => is_digit c | EmptyString => false end.

(** The CPUs the tasks of a process mark. *)
Definition proc_cpus (p : proc) : list Z :=
  if digit_name (p_name p) then
    match p_tasks p with
    | None => []
    | Some tasks =>
        omap (fun '(name, status) =>
          if digit_name name then
            match status with Some lines => status_cpu lines false | None => None end
          else None) tasks
    end
  else [].

Definition find_free_cpu : Z :=
  if get_nprocs <? 2 then 0
  else
    match proc_dir with
    | None => -1
    | Some procs => first_free cpus (list_to_set (procs ≫= proc_cpus))
    end.

(** ** The choice made by init_trace *)

(** [(preferred_cpu = find_free_cpu() < 0)] assigns the comparison. *)
Definition choose_trace_cpu (trace_cpu parent_pid : Z) : Z :=
  if trace_cpu <? 0 then
    let preferred_cpu := get_preferred_cpu parent_pid in
    let preferred_cpu :=
      if preferred_cpu <? 0 then b2z (find_free_cpu <? 0) else preferred_cpu in
    if preferred_cpu >=? 0 then preferred_cpu else DEFAULT_TRACE_CPU
  else trace_cpu.

Definition choose_decoder_cpu (trace_cpu pid : Z) : Z :=
  let decoder_cpu := get_preferred_cpu pid in
  if (decoder_cpu <? 0) || (decoder_cpu =? trace_cpu) then DEFAULT_DECODER_CPU else decoder_cpu.

End Cpu.

(** ** Lemmas *)

Lemma first_free_spec l s :
  (first_free l s = -1 /\ Forall (fun i => i ∈ s) l) \/
  (exists pre post, l = pre ++ first_free l s :: post /\
    Forall (fun i => i ∈ s) pre /\ first_free l s ∉ s).
Proof.
  induction l as [|i l IH]; simpl; [left; by split |]. case_bool_decide as Hi.
  - destruct IH as [[-> Hall] | (pre & post & Heq & Hall & Hn)].
    + left. by split; [| constructor].
    + right. exists (i :: pre), post. split_and!; [simpl; by f_equal | by constructor | done].
  - right. exists [], l. by split_and!.
Qed.

Lemma CPU_SET_S_union `{CpuEnv} c s t : CPU_SET_S c (s ∪ t) = CPU_SET_S c s ∪ t.
Proof. unfold CPU_SET_S. case_if; [by rewrite (assoc_L (∪)) | done]. Qed.

(** What a token list adds does not depend on what is there. *)
Lemma set_tokens_union `{CpuEnv} toks s t :
  set_tokens toks (s ∪ t) = (.∪ t) <$> set_tokens toks s.
Proof.
  revert s. induction toks as [|tok toks IH]; intros s; simpl; [done |].
  case_if; [done |]. by rewrite CPU_SET_S_union, IH.
Qed.

(** The CPUs the core list of CPU [i] names. *)
Definition core_of `{CpuEnv} (i : Z) : gset Z := default ∅ (set_core_cpus i ∅).

Lemma set_core_cpus_union `{CpuEnv} i s s' : set_core_cpus i s = Some s' -> s' = core_of i ∪ s.
Proof.
  unfold core_of, set_core_cpus. destruct (core_cpus_list i) as [content|]; [| done].
  rewrite <- (left_id_L ∅ (∪) s) at 1. rewrite set_tokens_union.
  destruct (set_tokens _ ∅) as [t|]; [| done]. by intros [= <-].
Qed.

Lemma collect_cores_spec `{CpuEnv} l affinity s s' :
  collect_cores l affinity s = Some s' ->
  s ⊆ s' /\ forall i, i ∈ l -> i ∈ affinity -> core_of i ⊆ s'.
Proof.
  revert s. induction l as [|i l IH]; intros s; simpl.
  - intros [= ->]. split; [done |]. intros i Hi. by apply not_elem_of_nil in Hi.
  - case_bool_decide as Hi.
    + destruct (set_core_cpus i s) as [s1|] eqn:Hs1; [| done]. intros Hc.
      apply set_core_cpus_union in Hs1. destruct (IH s1 Hc) as [Hsub Hall].
      split; [set_solver |]. intros j [-> | Hj]%elem_of_cons Ha; [set_solver | by apply Hall].
    + intros Hc. destruct (IH s Hc) as [Hsub Hall]. split; [done |].
      intros j [-> | Hj]%elem_of_cons Ha; [done | by apply Hall].
Qed.

Lemma cpus_elem `{CpuEnv} i : 0 <= get_nprocs -> i ∈ cpus <-> 0 <= i < get_nprocs.
Proof.
  intros Hn. unfold cpus. rewrite list_elem_of_fmap. split.
  - intros (k & -> & Hk). apply elem_of_seq in Hk. lia.
  - intros Hi. exists (Z.to_nat i). split; [lia |]. apply elem_of_seq. lia.
Qed.

(** ** Properties *)

(** A CPU found by [get_preferred_cpu] is an existing one that the core
    list of no CPU the process may run on names; -1 is
    returned otherwise. *)
Theorem preferred_cpu_outside_cores `{CpuEnv} (pid : Z) :
  0 <= get_nprocs ->
  let c := get_preferred_cpu pid in
  c = -1 \/
  0 <= c < get_nprocs /\ exists affinity, sched_getaffinity pid = Some affinity /\
    forall i, 0 <= i < get_nprocs -> i ∈ affinity -> c ∉ core_of i.
Proof.
  intros Hn. unfold get_preferred_cpu. destruct (sched_getaffinity pid) as [affinity|]; [| by left].
  destruct (collect_cores cpus affinity ∅) as [s|] eqn:Hc; [| by left].
  apply collect_cores_spec in Hc as [_ Hall].
  destruct (first_free_spec cpus s) as [[-> _] | (pre & post & Heq & _ & Hf)]; [by left | right].
  set (c := first_free cpus s) in *.
  assert (c ∈ cpus) as Hin by (rewrite Heq; set_solver). apply cpus_elem in Hin; [| done].
  split; [done |]. exists affinity. split; [done |]. intros i Hi Ha.
  specialize (Hall i ltac:(by apply cpus_elem) Ha). set_solver.
Qed.

(** A CPU found by [find_free_cpu] on a machine with several CPUs is the
    lowest one to which no task with memory of its own is bound alone; -1 means
    every CPU has such a task, or /proc could not be read. *)
Theorem free_cpu_is_lowest_unbound `{CpuEnv} (procs : list proc) :
  2 <= get_nprocs -> proc_dir = Some procs ->
  let bound i := exists p, p ∈ procs /\ i ∈ proc_cpus p in
  (find_free_cpu = -1 /\ forall i, 0 <= i < get_nprocs -> bound i) \/
  (0 <= find_free_cpu < get_nprocs /\ ~ bound find_free_cpu /\
   forall i, 0 <= i < find_free_cpu -> bound i).
Proof.
  intros Hn Hp. cbn zeta. unfold find_free_cpu. rewrite Hp.
  destruct (Z.ltb_spec get_nprocs 2); [lia |]. set (s := list_to_set (procs ≫= proc_cpus)).
  assert (forall i, i ∈ s <-> exists p, p ∈ procs /\ i ∈ proc_cpus p) as Hs.
  { intros i. unfold s. rewrite elem_of_list_to_set, list_elem_of_bind. naive_solver. }
  destruct (first_free_spec cpus s) as [[-> Hall] | (pre & post & Heq & Hall & Hf)].
  - left. split; [done |]. intros i Hi. apply Hs. rewrite Forall_forall in Hall.
    apply Hall. apply cpus_elem; lia.
  - right. set (c := first_free cpus s) in *.
    assert (c ∈ cpus) as Hin by (rewrite Heq; set_solver). apply cpus_elem in Hin; [| lia].
    split_and!; [lia | lia | by rewrite <- Hs |]. intros i Hi. apply Hs.
    rewrite Forall_forall in Hall. apply Hall.
    assert (length pre = Z.to_nat c) as Hlen.
    { assert (cpus !! length pre = Some c) as Hl by (rewrite Heq; by apply list_lookup_middle).
      unfold cpus in Hl. rewrite list_lookup_fmap in Hl.
      destruct (seq _ _ !! length pre) as [k|] eqn:Hk; [| done]. apply lookup_seq in Hk as [-> _].
      simplify_eq/=. lia. }
    assert (cpus !! Z.to_nat i = Some i) as Hl.
    { unfold cpus. rewrite list_lookup_fmap, lookup_seq_lt by lia. simpl. f_equal. lia. }
    rewrite Heq, lookup_app_l in Hl by lia. by eapply list_elem_of_lookup_2.
Qed.

(** When [get_preferred_cpu] fails, [init_trace] does not use the free CPU
    it looks for: it traces CPU 0 whenever a free CPU was found, whichever that
    is, and CPU 1 when none was found, where its message announces the default
    CPU 0. *)
Theorem free_cpu_not_used `{CpuEnv} (parent_pid : Z) :
  get_preferred_cpu parent_pid = -1 ->
  (0 <= find_free_cpu -> choose_trace_cpu (-1) parent_pid = 0) /\
  (find_free_cpu < 0 -> choose_trace_cpu (-1) parent_pid = 1 /\ DEFAULT_TRACE_CPU = 0).
Proof.
  intros Hp. unfold choose_trace_cpu. rewrite Hp. cbn [Z.ltb Z.compare].
  split; intros Hf; destruct (Z.ltb_spec find_free_cpu 0); try lia; done.
Qed.
