(* ===== verification/Setup.v ===== *)
(** * Start and end of tracing (src/src/common.c, src/src/utils.c)

    [init_trace] chooses the CPU, finds the trace memory and the ranges, looks
    the board up, and starts the decoder and its thread; [fini_trace] exports
    the trace and takes everything down.  They compose the functions of Cpu,
    MapInfo, Boards, Decoder and TraceBuf; CSAL's table look-up, the threads
    and the files are the classes below. *)

From stdpp Require Import base numbers list gmap strings.
From Stdlib Require Import ZArith Lia.
From S2P Require Import Prelude Cstr Boards MapInfo MapInfoFacts Etm Decoder TraceBuf Cpu.

(** ** Affinity *)

Class AffinityEnv := {
  cpu_alloc : bool;
  sched_setaffinity : Z -> gset Z -> bool;       (* pid, CPUs *)
  pthread_setaffinity_np : gset Z -> Z           (* 0 or an error number *)
}.

Section Affinity.
Context `{CpuEnv, AffinityEnv}.

Definition set_cpu_affinity (cpu pid : Z) : Z :=
  if negb cpu_alloc then -1
  else if sched_setaffinity pid (CPU_SET_S cpu ∅) then 0 else -1.

Definition set_pthread_cpu_affinity (cpu : Z) : Z :=
  if negb cpu_alloc then -1
  else if pthread_setaffinity_np (CPU_SET_S cpu ∅) <? 0 then -1 else 0.

(** [pthread_setaffinity_np] reports an error by a positive number: the test
    for a negative one never sees it. *)
Lemma pthread_affinity_error_lost cpu :
  cpu_alloc = true -> (forall s, 0 <= pthread_setaffinity_np s) -> set_pthread_cpu_affinity cpu = 0.
Proof.
  intros Ha Hp. unfold set_pthread_cpu_affinity. rewrite Ha. cbn [negb].
  specialize (Hp (CPU_SET_S cpu ∅)). destruct (Z.ltb_spec (pthread_setaffinity_np (CPU_SET_S cpu ∅)) 0); [lia | done].
Qed.

End Affinity.

(** ** State *)

Record common (D : Type) := MkCommon {
  c_trace_cpu : Z;
  c_ram_addr : Z;
  c_ram_size : Z;
  c_range_count : Z;
  c_map_info : list map_info;
  c_board : option (board * cs_devices);
  c_dec : dec D;
  c_decoder_ready : bool;
  c_thread : option (option (Z * Z)); (* the decoder thread: the CPU asked for, the answer *)
  c_ready : bool;                    (* trace_state is ready_state *)
  c_shut : bool                      (* cs_shutdown was called *)
}.
Arguments MkCommon {D}.
Arguments c_trace_cpu {D}.
Arguments c_ram_addr {D}.
Arguments c_ram_size {D}.
Arguments c_range_count {D}.
Arguments c_map_info {D}.
Arguments c_board {D}.
Arguments c_dec {D}.
Arguments c_decoder_ready {D}.
Arguments c_thread {D}.
Arguments c_ready {D}.
Arguments c_shut {D}.

#[export] Instance eta_common D : Eta (common D) := fun c =>
  MkCommon (c_trace_cpu c) (c_ram_addr c) (c_ram_size c) (c_range_count c) (c_map_info c) (c_board c)
    (c_dec c) (c_decoder_ready c) (c_thread c) (c_ready c) (c_shut c).

(** The initial values; [cpu] is -1 or what the command line says. *)
Definition common_static {D} (cpu : Z) (d : dec D) : common D :=
  MkCommon cpu 0 0 0 [] None d true None false false.

Class SetupEnv := {
  udmabuf_num : Z;
  board_name : string;
  decoding_on : bool;
  setup_named_board : string -> option (board * cs_devices); (* CSAL, on known_boards *)
  pthread_create : Z;                            (* 0 or an error number *)
  getcwd : option string;
  fopen_trace : string -> bool
}.

Section Setup.
Context {D : Type} `{DecoderLib D, DecoderEnv, EtmEnv, CpuEnv, MapsEnv, AffinityEnv, SetupEnv}.

(** ** init_trace *)

(** The [exit] label with a value that is not 0. *)
Definition init_failed (ret : Z) (c : common D) : Z * common D := (ret, c <| c_shut := true |>).

(** The part under [if (decoding_on)]. *)
Definition init_decoding (pid : Z) (c : common D) : Z * common D :=
  let '(ok, d) := init_decoder (c_map_info c) (c_dec c) in
  let c := c <| c_dec := d <| decoder := ok |> |> in
  if negb ok then init_failed (-1) c
  else
    let '(r, d) := if stalker_decoder then stalker_setup pid (c_map_info c) (trace_id (c_dec c)) (c_dec c)
                   else (0, c_dec c) in
    let c := c <| c_dec := d |> in
    if r <? 0 then init_failed (-1) c
    else
      let c := c <| c_decoder_ready := false |> in
      if negb (pthread_create =? 0) then init_failed pthread_create c
      else
        let decoder_cpu := choose_decoder_cpu (c_trace_cpu c) pid in
        let bound := if decoder_cpu >=? 0
                     then Some (decoder_cpu, set_pthread_cpu_affinity decoder_cpu) else None in
        (0, c <| c_thread := Some bound |> <| c_ready := true |>).

Definition init_trace (parent_pid pid : Z) (c : common D) : Z * common D :=
  let c := c <| c_trace_cpu := choose_trace_cpu (c_trace_cpu c) parent_pid |> in
  let '(r, addr, size) := get_udmabuf_info udmabuf_num (c_ram_addr c) (c_ram_size c) in
  let c := c <| c_ram_addr := addr |> <| c_ram_size := size |> in
  if r <? 0 then init_failed (-1) c
  else
    let '(r, maps) := setup_map_info pid RANGE_MAX in
    let c := c <| c_range_count := r |> <| c_map_info := maps |> in
    if r <? 0 then init_failed (-1) c
    else
      match setup_named_board board_name with
      | None => init_failed (-1) c
      | Some b =>
          let c := c <| c_board := Some b |> in
          let id := get_trace_id board_name (c_trace_cpu c) in
          let c := c <| c_dec := (c_dec c) <| trace_id := id |> |> in
          if id <? 0 then init_failed (-1) c
          else if decoding_on then init_decoding pid c
          else (0, c <| c_ready := true |>)
      end.

(** ** export_trace and fini_trace *)

(** The two files, when they were opened. *)
Record export := MkExport { x_args : option string; x_trace : option (list Z) }.

(** [snprintf] into PATH_MAX bytes. *)
Definition in_dir (cwd name : string) : string := str_take (PATH_MAX - 1) (cwd +:+ "/" +:+ name).

Definition export_trace (trace_name : string) (c : common D) (t : tracer) : Z * export :=
  match getcwd with
  | None => (-1, MkExport None None)
  | Some cwd =>
      let trace_path := in_dir cwd trace_name in
      let '(r, args) := export_decoder_args (trace_id (c_dec c)) trace_path (c_map_info c)
                          (c_range_count c) in
      if r <? 0 then (-1, MkExport args None)
      else if negb (fopen_trace trace_path) then (-1, MkExport args None)
      else (0, MkExport args (Some (take (Z.to_nat (trace_captured_bytes t)) (buf_data t))))
  end.

(** [export_failed_trace]: the names for the [n]-th failing trace, the trace's
    export and the next [n]; nothing without AFLCS_EXPORT_ON_DECODE_FAIL. *)
Definition failed_trace_names (n : Z) : string * string :=
  (str_take 63 ("cstrace-" +:+ fmt_llu n +:+ ".bin"), str_take 63 ("decoderargs-" +:+ fmt_llu n +:+ ".txt")).
Definition export_failed_trace (wanted : bool) (n : Z) (c : common D) (t : tracer) : option export * Z :=
  if wanted then (Some (export_trace (failed_trace_names n).1 c t).2, u32 (n + 1)) else (None, n).

Definition DEFAULT_TRACE_NAME : string := "cstrace.bin".

(** [fini_trace] after the thread was joined; [None] when the fetch does not
    return. *)
Definition fini_trace `{TraceEnv} (c : common D) (t : tracer) : option (export * common D * tracer) :=
  let fetched :=
    if decoding_on then Some t
    else match fetch_trace stalker_decoder t with (FetchHangs, _) => None | (_, t) => Some t end in
  t ← fetched;
  let c := if decoding_on then c <| c_thread := None |> <| c_ready := false |> else c in
  let '(_, x) := export_trace DEFAULT_TRACE_NAME c t in
  let '(_, d) := fini_decoder (c_dec c) in
  Some (x, c <| c_dec := d |> <| c_shut := true |>, free_trace_buf t).

(** ** Facts *)

(** The table never overflows, whatever the text is. *)
Lemma map_lines_count max st ls :
  0 <= max -> zlen st.2 <= max -> zlen (foldl (map_line max) st ls).2 <= max.
Proof.
  intros Hmax. revert st. induction ls as [|l ls IH]; intros [sc maps] Hst; [done |]. cbn [foldl].
  apply IH. unfold map_line. destruct (bool_decide _); [| done]. cbn [negb].
  destruct (Z.geb_spec (zlen maps) max); [done |]. destruct (_ && _); [done |].
  destruct (strchr l _); [| done]. cbn in *. rewrite length_app. cbn. lia.
Qed.

Lemma setup_map_info_count pid max ret maps :
  0 <= max -> setup_map_info pid max = (ret, maps) -> 0 <= ret -> ret = zlen maps /\ ret <= max.
Proof.
  intros Hmax. unfold setup_map_info. destruct (proc_maps pid) as [text|]; [| intros [= <- <-]; lia].
  pose proof (map_lines_count max (uninit, []) (lines text) Hmax ltac:(cbn; lia)) as Hl.
  destruct (foldl _ _ _) as [sc ms]. cbn in Hl.
  destruct (mapM map_file ms) as [ms'|] eqn:Hm; intros [= <- <-]; [| lia].
  apply length_mapM in Hm. intros _. split; [done |]. lia.
Qed.

Lemma choose_decoder_cpu_ok cpu pid :
  0 <= choose_decoder_cpu cpu pid /\
  (choose_decoder_cpu cpu pid = cpu -> cpu = DEFAULT_DECODER_CPU).
Proof.
  unfold choose_decoder_cpu, DEFAULT_DECODER_CPU.
  destruct (Z.ltb_spec (get_preferred_cpu pid) 0), (Z.eqb_spec (get_preferred_cpu pid) cpu); cbn; lia.
Qed.

(** What [init_trace] leaves to the rest of the program. *)
Record traceable (c : common D) : Prop := {
  tc_open : c_shut c = false;
  tc_ready : c_ready c = true;
  tc_board : is_Some (c_board c);
  (* at most RANGE_MAX ranges, as counted *)
  tc_count : c_range_count c = zlen (c_map_info c) /\ zlen (c_map_info c) <= RANGE_MAX;
  tc_id : trace_id (c_dec c) = get_trace_id board_name (c_trace_cpu c) /\ 0 <= trace_id (c_dec c);
  (* with decoding: a decoder that can be reset and run, a thread on a CPU of
     its own unless the traced one is the fallback, nothing decoded yet *)
  tc_decoding : decoding_on = true ->
    dec_ready (c_dec c) /\ c_decoder_ready c = false /\
    exists cpu r, c_thread c = Some (Some (cpu, r)) /\ (cpu = c_trace_cpu c -> cpu = DEFAULT_DECODER_CPU);
  tc_plain : decoding_on = false -> c_thread c = None /\ c_decoder_ready c = true
}.

Lemma init_decoding_spec pid c :
  counts_packets -> decoding_on = true ->
  (stalker_decoder = false -> seen_overflow_packets (c_dec c) = libcsdec_overflow_packets (lib (c_dec c))) ->
  c_shut c = false -> is_Some (c_board c) ->
  c_range_count c = zlen (c_map_info c) /\ zlen (c_map_info c) <= RANGE_MAX ->
  trace_id (c_dec c) = get_trace_id board_name (c_trace_cpu c) /\ 0 <= trace_id (c_dec c) ->
  let '(r, c') := init_decoding pid c in
  (r = 0 -> traceable c') /\ (r <> 0 -> c_shut c' = true).
Proof.
  intros Hc Hon Hseen Hshut Hb Hcount Hid. unfold init_decoding.
  pose proof (init_decoder_spec (c_map_info c) (c_dec c) Hc) as Hi.
  destruct (init_decoder (c_map_info c) (c_dec c)) as [ok d]. cbn [fst snd] in Hi.
  destruct ok; [| done]. destruct (Hi eq_refl Hseen) as [Hd Hid']. cbn [negb]. clear Hi.
  cbn [c_dec c_map_info upd eta_common].
  assert (exists d', (if stalker_decoder then stalker_setup pid (c_map_info c) (trace_id (d <| decoder := true |>))
      (d <| decoder := true |>) else (0, d <| decoder := true |>)).2 = d' /\ dec_ready d' /\
      trace_id d' = trace_id (c_dec c)) as (d' & Hd' & Hr' & Ht').
  { destruct stalker_decoder eqn:Hst; [| by eexists].
    destruct (stalker_setup_spec pid (c_map_info c) (trace_id d) (d <| decoder := true |>) Hst Hd) as [Hr Ht].
    eexists. split; [done |]. split; [done |]. rewrite <- Hid'. exact Ht. }
  destruct (if stalker_decoder then _ else _) as [r d0]. cbn [snd] in Hd'. subst d0.
  destruct (Z.ltb_spec r 0); [done |].
  destruct (Z.eqb_spec pthread_create 0); cbn [negb]; [| done]. split; [| done]. intros _.
  destruct (choose_decoder_cpu_ok (c_trace_cpu c) pid) as [Hpos Hne].
  constructor; cbn; try done; [by rewrite Ht' | | by rewrite Hon].
  intros _. split_and!; [done | done |]. destruct (Z.geb_spec (choose_decoder_cpu (c_trace_cpu c) pid) 0); [| lia].
  eexists _, _. split; [done |]. intros He. rewrite He. by apply Hne.
Qed.

End Setup.


(** A failure of [pthread_create] is a positive number, which the proxy's test
    [init_trace(...) < 0] lets through, CSAL being shut down. *)
Lemma thread_failure_unnoticed {D : Type}
    `{DecoderLib D, DecoderEnv, EtmEnv, CpuEnv, MapsEnv, AffinityEnv, SetupEnv} (pid : Z) (c : common D) :
  stalker_decoder = false -> 0 < pthread_create -> (init_decoder (c_map_info c) (c_dec c)).1 = true ->
  0 < (init_decoding pid c).1 /\ c_shut (init_decoding pid c).2 = true.
Proof.
  intros Hst Hp Hi. unfold init_decoding. destruct (init_decoder _ _) as [ok d]. cbn in Hi. subst ok.
  cbn [negb]. rewrite Hst. cbn [Z.ltb Z.compare].
  destruct (Z.eqb_spec pthread_create 0); [lia |]. cbn. done.
Qed.

(** An export that succeeds: reading the arguments file back word by word gives
    the path of the trace file, the trace identifier, and the path and the
    addresses of every range, and the trace file holds the bytes captured so
    far. *)
Lemma export_readable {D : Type}
    `{DecoderLib D, DecoderEnv, EtmEnv, CpuEnv, MapsEnv, AffinityEnv, SetupEnv}
    (name cwd : string) (c : common D) (t : tracer) :
  traceable c -> trace_id (c_dec c) < 2 ^ 31 -> getcwd = Some cwd -> is_word (in_dir cwd name) ->
  Forall plain_map (c_map_info c) -> args_open = true -> (forall n, fprintf_ok n = true) ->
  fopen_trace (in_dir cwd name) = true ->
  exists text,
    export_trace name c t =
      (0, MkExport (Some text) (Some (take (Z.to_nat (trace_captured_bytes t)) (buf_data t)))) /\
    read_args (words text) =
      Some (in_dir cwd name, trace_id (c_dec c), (fun m => (m_path m, m_start m, m_end m)) <$> c_map_info c).
Proof.
  intros Hc Hid Hcwd Hw Hmaps Hopen Hok Hf. destruct (tc_count _ Hc) as [Hn Hlen].
  destruct (tc_id _ Hc) as [_ Hpos]. unfold export_trace. rewrite Hcwd, Hn.
  assert (zlen (c_map_info c) <= ULLONG_MAX) by (unfold ULLONG_MAX, RANGE_MAX in *; lia).
  pose proof (decoder_args_read (trace_id (c_dec c)) (in_dir cwd name) (c_map_info c) ltac:(lia) Hw Hmaps
    ltac:(done) Hopen Hok) as Hx.
  destruct (export_decoder_args _ _ _ _) as [r file]. destruct Hx as [-> Hread].
  destruct file as [text|]; [| done]. rewrite Hf. exists text. by split.
Qed.
