(* ===== verification/Execution.v ===== *)
(** * A traced execution (src/src/common.c)

    [start_trace] composes what the other files model: it binds the child,
    rewinds the trace buffer, clears the coverage map, resets the decoder and
    arms the hardware.  Over any sequence of executions and mode switches,
    each starts clean. *)

From stdpp Require Import base numbers list gmap strings.
From Stdlib Require Import ZArith Lia.
From S2P Require Import Prelude Boards MapInfo Etm EtmFacts Session SessionFacts Decoder TraceBuf Cpu Setup.

(** ** State *)

(** The parts of the state of common.c. *)
Record exec (D H : Type) := MkExec {
  x_common : common D;
  x_session : session H;
  x_tracer : tracer;
  x_running : bool;            (* trace_state is running_state *)
  x_start_pending : bool
}.
Arguments MkExec {D H}.
Arguments x_common {D H}.
Arguments x_session {D H}.
Arguments x_tracer {D H}.
Arguments x_running {D H}.
Arguments x_start_pending {D H}.

#[export] Instance eta_exec D H : Eta (exec D H) := fun x =>
  MkExec (x_common x) (x_session x) (x_tracer x) (x_running x) (x_start_pending x).

Section Execution.
Context {D H : Type} `{DecoderLib D, DecoderEnv, CSAL H, EtmBits, EtmEnv, CpuEnv, AffinityEnv, SetupEnv, TraceEnv}.
Context (u : setup).

(** [memset(trace_bitmap, 0, trace_bitmap_size)], when there is a map. *)
Definition clear_bitmap (d : dec D) : dec D :=
  let n := Z.to_nat (trace_bitmap_size d) in
  d <| trace_bitmap := (fun b => replicate n 0 ++ drop n b) <$> trace_bitmap d |>.

(** [start_trace]; [None] is the end of the process. *)
Definition start_trace (pid : Z) (use_pid_trace : bool) (x : exec D H) : option Z * exec D H :=
  let ret := set_cpu_affinity (c_trace_cpu (x_common x)) pid in
  if ret <? 0 then (Some ret, x)
  else
    let x := x <| x_tracer := (alloc_trace_buf stalker_decoder (x_tracer x)).2 |> in
    let c := x_common x in
    let c := c <| c_dec := clear_bitmap (c_dec c) |> in
    let c := if decoding_on then c <| c_decoder_ready := false |> else c in
    let '(ret, d) := if decoding_on then reset_decoder (c_map_info c) (c_dec c) else (ret, c_dec c) in
    let x := x <| x_common := c <| c_dec := d |> |> in
    if ret <? 0 then (Some ret, x)
    else
      match arm_trace u pid use_pid_trace (x_session x) with
      | (None, s) => (None, x <| x_session := s |>)
      | (Some ret, s) =>
          let x := x <| x_session := s |> in
          if ret <? 0 then (Some ret, x)
          else (Some ret, x <| x_running := true |> <| x_start_pending := true |>)
      end.

(** ** Sequences *)

(** One traced execution: the child, what the decoder is handed while it is
    traced, what the fetches leave of the trace buffer; or a mode switch between
    executions. *)
Inductive exec_op :=
  | Execute (pid : Z) (use_pid_trace : bool) (bufs : list (list Z)) (fetched : tracer -> tracer)
  | Switch (b : bool).

Definition exec_op_ok (op : exec_op) : Prop :=
  match op with Execute pid _ _ _ => 0 < pid < 2 ^ 31 | Switch _ => True end.

(** The decoder after a switch. *)
Definition switch_decoder (b : bool) (d : dec D) : dec D :=
  if stalker_decoder then stalker_set_bb_mode b d else d.

Definition exec_step (op : exec_op) (x : exec D H) : exec D H :=
  match op with
  | Switch b =>
      let c := x_common x in
      x <| x_session := (trace_set_bb_mode b (x_session x)).2 |>
        <| x_common := c <| c_dec := switch_decoder b (c_dec c) |> |>
  | Execute pid use_pid_trace bufs fetched =>
      let x := (start_trace pid use_pid_trace x).2 in
      let c := x_common x in
      (* the decoder's thread takes the start event, reads and decodes; the
         proxy stops the hardware *)
      x <| x_start_pending := false |> <| x_running := false |>
        <| x_tracer := fetched (x_tracer x) |>
        <| x_common := c <| c_dec := run_passes bufs (c_dec c) |> <| c_decoder_ready := true |> |>
        <| x_session := (disable_cs_trace u false (x_session x)).2 |>
  end.

Definition exec_run (ops : list exec_op) (x : exec D H) : exec D H :=
  foldl (fun x op => exec_step op x) x ops.

(** The mode the last switch asked for. *)
Definition exec_mode (ops : list exec_op) : bool :=
  foldl (fun m op => match op with Switch b => b | Execute _ _ _ _ => m end) false ops.

(** ** A clean start *)

Context `{!CsalLaws H}.

(** The pages [alloc_trace_buf] asks for can be mapped. *)
Definition buf_mappable : Prop :=
  is_Some (mmap_anon (if etr_ram_size >? DEFAULT_TRACE_SIZE then etr_ram_size else DEFAULT_TRACE_SIZE)).

(** The environment lets the child be bound and the buffer be mapped. *)
Record exec_env : Prop := {
  xe_window : window_env (H := H) u;
  xe_alloc : cpu_alloc = true;
  xe_bind : forall pid s, sched_setaffinity pid s = true;
  xe_map : buf_mappable;
  xe_decoding : decoding_on = true
}.

Hypothesis Henv : exec_env.

Definition exec_ready (b : bool) (x : exec D H) : Prop :=
  decoder (c_dec (x_common x)) = true /\ between u (x_session x) /\ bb_mode (x_session x) = b.

(** What an execution starts with: nothing captured and nothing decoded in the
    buffer, an empty map, no overflow noted, the decoder not ready, a window
    open for the child in mode [b], the decoder's thread told. *)
Record clean_start (pid : Z) (b : bool) (x : exec D H) : Prop := {
  cs_buffer : trace_captured_bytes (x_tracer x) = 0 /\
              decoded_trace_buf (x_tracer x) = trace_buf (x_tracer x);
  cs_map : forall m, trace_bitmap (c_dec (x_common x)) = Some m ->
    let n := Z.to_nat (trace_bitmap_size (c_dec (x_common x))) in take n m = replicate n 0;
  cs_overflow : trace_did_overflow (c_dec (x_common x)) = false;
  cs_not_ready : c_decoder_ready (x_common x) = false;
  cs_window : window u pid b (hw (x_session x));
  cs_told : x_running x = true /\ x_start_pending x = true
}.

Lemma alloc_rewinds stalker t :
  buf_mappable ->
  let t' := (alloc_trace_buf stalker t).2 in
  trace_captured_bytes t' = 0 /\ decoded_trace_buf t' = trace_buf t'.
Proof.
  intros Hm. unfold alloc_trace_buf, trace_captured_bytes. destruct (_ && _); cbn; [by rewrite Z.sub_diag |].
  destruct Hm as [base ->]. cbn. by rewrite Z.sub_diag.
Qed.

(** In a Stalker build the handle outlives every pass. *)
Lemma run_passes_decoder bufs (d : dec D) :
  stalker_decoder = true -> decoder (run_passes bufs d) = decoder d.
Proof.
  intros Hst. unfold run_passes. revert d. induction bufs as [|buf bufs IH]; intros d; [done |]. cbn [foldl].
  rewrite IH. unfold run_decoder. rewrite Hst. destruct (decoder d) eqn:Hd; [| done]. cbn [negb].
  unfold stalker_run. destruct (stalker_decode_trace _ _ _) as [[r m] l].
  destruct (r <? 0); [done |]. by destruct (stalker_decode_did_overflow _).
Qed.

Lemma start_clean pid f b x :
  exec_ready b x -> 0 < pid < 2 ^ 31 ->
  exists x', start_trace pid f x = (Some 0, x') /\ clean_start pid b x' /\
    c_dec (x_common x') = (clear_bitmap (c_dec (x_common x))) <| trace_overflow_occurred := false |> /\
    x_tracer x' = (alloc_trace_buf stalker_decoder (x_tracer x)).2 /\
    opened u pid (x_session x) (x_session x').
Proof.
  intros (Hd & Hb & Hm) Hp. pose proof (we_stalker _ (xe_window Henv)) as Hst.
  destruct (arm_spec u (xe_window Henv) pid f _ Hb Hp) as (s' & Harm & Ho).
  unfold start_trace, set_cpu_affinity. rewrite (xe_alloc Henv), (xe_bind Henv). cbn [negb Z.ltb Z.compare].
  cbn [x_common x_session upd eta_exec]. rewrite (xe_decoding Henv).
  unfold reset_decoder. cbn [c_dec upd eta_common]. unfold clear_bitmap at 1. cbn [decoder upd eta_dec].
  rewrite Hd, Hst. cbn [negb]. unfold stalker_reset. cbn [Z.ltb Z.compare x_session upd eta_exec].
  rewrite Harm. cbn [Z.ltb Z.compare]. eexists. split; [done |]. split_and!; [| done | done | done].
  constructor; cbn; try done.
  - by apply alloc_rewinds, Henv.
  - intros m. destruct (trace_bitmap _) as [m0|]; [| done]. intros [= <-].
    by rewrite take_app_length' by (by rewrite length_replicate).
  - rewrite <- Hm. apply Ho.
Qed.

Lemma exec_step_ready op b x :
  exec_ready b x -> exec_op_ok op ->
  exec_ready (match op with Switch b' => b' | Execute _ _ _ _ => b end) (exec_step op x).
Proof.
  intros Hx Hop. pose proof (we_stalker _ (xe_window Henv)) as Hst. destruct op as [pid f bufs ft | b']; cbn [exec_step].
  - destruct (start_clean pid f b x Hx Hop) as (x' & -> & _ & Hd & _ & Ho).
    destruct Hx as (Hd0 & Hb & Hm).
    destruct (disarm_spec u (xe_window Henv) pid _ _ Hb Ho) as (s' & Hs' & Hb' & Hm' & _).
    unfold exec_ready. cbn [snd x_common x_session c_dec upd eta_exec eta_common]. rewrite Hs'. cbn [snd].
    split_and!; [by rewrite run_passes_decoder, Hd | done | by rewrite Hm'].
  - destruct Hx as (Hd & Hb & Hm). destruct (set_bb_mode_spec u (xe_window Henv) b' _ Hb) as (s' & Hs' & Hb' & Hm').
    unfold exec_ready. cbn [x_common x_session c_dec upd eta_exec eta_common]. rewrite Hs'. cbn [snd].
    unfold switch_decoder. rewrite Hst. by split_and!.
Qed.

Lemma exec_run_ready ops b x :
  exec_ready b x -> Forall exec_op_ok ops ->
  exec_ready (foldl (fun m op => match op with Switch b => b | Execute _ _ _ _ => m end) b ops) (exec_run ops x).
Proof.
  unfold exec_run. intros Hx Hops. revert b x Hx. induction Hops as [|op ops Hop Hops IH]; intros b x Hx; [done |].
  cbn [foldl]. apply IH. by apply exec_step_ready.
Qed.

End Execution.

