(* ===== verification/Polling.v ===== *)
(** * The decoder thread's data (src/src/common.c)

    Sync models who moves when; this file models what [decoder_worker] and
    [trace_sink_polling] do to the trace buffer, the hardware and the decoder:
    the threshold at which a running child is paused, the drains, the final
    fetch and decode.  What one turn of the polling loop sees of the child and
    of the ETR is a [poll]. *)

From stdpp Require Import base numbers list gmap strings.
From Stdlib Require Import ZArith Lia.
From S2P Require Import Prelude Boards MapInfo Etm EtmFacts Session SessionFacts Decoder TraceBuf TraceBufFacts Cpu Setup Execution.

(** ** The threshold *)

Definition ULONG_MAX : Z := 2 ^ 64 - 1.

(** [decoder_worker] asks CSAL for the size when the u-dma-buf gave none. *)
Definition worker_ram_size (ram_size etb_size : Z) : Z :=
  if ram_size =? 0 then etb_size else ram_size.

(** [drain_at] is AFLCS_DRAIN_AT_2XETF through [atoi], [etf] the size of the
    first trace sink, if there is one. *)
Definition decoding_threshold (stalker : bool) (drain_at etf : option Z) (ram_size : Z) : Z :=
  if stalker then ULONG_MAX
  else
    match drain_at, etf with
    | Some v, Some etf_ram_size =>
        if c_true v then (if etf_ram_size <? ram_size then u64 (etf_ram_size * 2) else ram_size)
        else ram_size
    | _, _ => ram_size
    end.

(** [curr_offset > decoding_threshold]. *)
Definition drain_due (rwp init_pos threshold : Z) : bool := u64 (rwp - init_pos) >? threshold.

(** ** State *)

Inductive kill_result := KillOk | KillESRCH | KillFails.

(** One turn of the loop: whether the child is there, the write pointer, and
    for a turn that drains the answer to SIGSTOP, the ETR once it is off, the
    answer to SIGCONT. *)
Record poll := MkPoll {
  p_alive : bool;
  p_rwp : Z;
  p_stop : kill_result;
  p_etr : etr;
  p_cont : kill_result
}.

(** The state of common.c, the count and the files of [export_failed_trace];
    the ETRs read out and the bytes handed to the decoder, oldest first. *)
Record worker (D H : Type) := MkWorker {
  k_exec : exec D H;
  k_failed : Z;
  k_exports : list export;
  k_fetched : list etr;
  k_passes : list (list Z)
}.
Arguments MkWorker {D H}.
Arguments k_exec {D H}.
Arguments k_failed {D H}.
Arguments k_exports {D H}.
Arguments k_fetched {D H}.
Arguments k_passes {D H}.

#[export] Instance eta_worker D H : Eta (worker D H) := fun k =>
  MkWorker (k_exec k) (k_failed k) (k_exports k) (k_fetched k) (k_passes k).

(** The thread takes a start event. *)
Definition worker_start {D H} (x : exec D H) (n : Z) (files : list export) : worker D H :=
  MkWorker x n files [] [].

Section Polling.
Context {D H : Type} `{DecoderLib D, DecoderEnv, CSAL H, EtmBits, EtmEnv, CpuEnv, MapsEnv, AffinityEnv, SetupEnv, TraceEnv}.
Context (u : setup).

(** AFLCS_EXPORT_ON_DECODE_FAIL is set. *)
Context (export_on_fail : bool).

(** ** Steps *)

Definition set_ready (b : bool) (k : worker D H) : worker D H :=
  let x := k_exec k in k <| k_exec := x <| x_common := (x_common x) <| c_decoder_ready := b |> |> |>.

Definition set_session (s : session H) (k : worker D H) : worker D H :=
  let x := k_exec k in k <| k_exec := x <| x_session := s |> |>.

(** [fetch_trace] with [e] in the ETR; its result is not looked at.  [None]:
    it does not return. *)
Definition worker_fetch (e : etr) (k : worker D H) : option (worker D H) :=
  let x := k_exec k in
  match fetch_trace stalker_decoder ((x_tracer x) <| etb := e |>) with
  | (FetchHangs, _) => None
  | (FetchRet _, t) =>
      Some (k <| k_exec := x <| x_tracer := t |> |> <| k_fetched := k_fetched k ++ [e] |>)
  end.

(** [decode_trace], and the export when it fails. *)
Definition worker_decode (k : worker D H) : Z * worker D H :=
  let x := k_exec k in
  let c := x_common x in
  let '(ret, bytes, t) := decode_trace (fun b => (run_decoder b (c_dec c)).1) (x_tracer x) in
  let c := c <| c_dec := (run_decoder bytes (c_dec c)).2 |> in
  let k := k <| k_exec := x <| x_common := c |> <| x_tracer := t |> |>
             <| k_passes := k_passes k ++ [bytes] |> in
  if ret <? 0 then
    let '(file, n) := export_failed_trace export_on_fail (k_failed k) c t in
    (ret, k <| k_failed := n |> <| k_exports := k_exports k ++ option_list file |>)
  else (ret, k).

(** From the label [killed], the stop event taken: [final] is in the ETR. *)
Definition worker_killed (final : etr) (k : worker D H) : option (Z * worker D H) :=
  k ← worker_fetch final k; Some (worker_decode k).

(** The [while] loop; [None] when the turns run out, when a fetch does not
    return, or when enabling the trace ends the process. *)
Fixpoint poll_loop (threshold init_pos : Z) (ps : list poll) (final : etr) (k : worker D H)
    : option (Z * worker D H) :=
  match ps with
  | [] => None
  | p :: ps =>
      if negb (p_alive p) then worker_killed final k
      else if drain_due (p_rwp p) init_pos threshold then
        match p_stop p with
        | KillESRCH => worker_killed final k
        | KillFails => Some (-1, k)
        | KillOk =>
            let '(ret, s) := disable_cs_trace u false (x_session (k_exec k)) in
            let k := set_session s k in
            if ret <? 0 then Some (ret, k)
            else
              k ← worker_fetch (p_etr p) k;
              let init_pos := rwp (etb (x_tracer (k_exec k))) in
              let '(ret, s) := enable_cs_trace u (child_pid s) s in
              let k := set_session s k in
              match ret, p_cont p with
              | None, _ => None
              | Some _, KillESRCH => worker_killed final k
              | Some _, KillFails => Some (-1, k)
              | Some _, KillOk =>
                  let '(ret, k) := worker_decode k in
                  if ret <? 0 then Some (ret, k) else poll_loop threshold init_pos ps final k
              end
        end
      else poll_loop threshold init_pos ps final k
  end.

Definition trace_sink_polling (threshold init_pos : Z) (ps : list poll) (final : etr) (k : worker D H)
    : option (Z * worker D H) :=
  '(ret, k) ← poll_loop threshold init_pos ps final (set_ready false k);
  Some (ret, set_ready true k).

(** ** Executions *)

(** One execution in the Stalker build, where the thread leaves the hardware
    alone: [start_trace], the thread's part, and the end of the window by
    [stop_trace], on whose success the thread's last fetch waits.  [None]: the
    trace did not start or did not stop. *)
Definition traced_execution (pid : Z) (use_pid_trace : bool) (init_pos : Z) (ps : list poll) (final : etr)
    (x : exec D H) (n : Z) (files : list export) : option (Z * worker D H) :=
  match start_trace u pid use_pid_trace x with
  | (Some r, x) =>
      if r <? 0 then None
      else
        '(ret, k) ← trace_sink_polling (decoding_threshold stalker_decoder None None etr_ram_size) init_pos
                      ps final (worker_start (x <| x_start_pending := false |>) n files);
        let '(r, s) := disable_cs_trace u false (x_session (k_exec k)) in
        if r <? 0 then None
        else
          let k := set_session s k in
          let x := k_exec k in
          Some (ret, k <| k_exec := x <| x_running := false |> |>)
  | (None, _) => None
  end.

(** A fuzzing session: executions, each with the bytes the hardware wrote, and
    mode switches. *)
Inductive run_op :=
  | Traced (pid : Z) (use_pid_trace : bool) (init_pos : Z) (ps : list poll) (final : etr) (ws : list Z)
  | Mode (b : bool).

Definition run_step (op : run_op) (st : exec D H * Z * list export) : option (exec D H * Z * list export) :=
  let '(x, n, files) := st in
  match op with
  | Mode b => Some (exec_step u (Switch b) x, n, files)
  | Traced pid f init_pos ps final _ =>
      '(_, k) ← traced_execution pid f init_pos ps final x n files;
      Some (k_exec k, k_failed k, k_exports k)
  end.

Fixpoint run_ops (ops : list run_op) (st : exec D H * Z * list export) : option (exec D H * Z * list export) :=
  match ops with
  | [] => Some st
  | op :: ops => st ← run_step op st; run_ops ops st
  end.

End Polling.
