(* ===== verification/PollingFacts.v ===== *)
(** * What the decoder thread decodes (src/src/common.c)

    Every byte read out of the ETR is handed to the decoder once and in order;
    when a drain is due; in the Stalker build the coverage map of an execution
    is the decoding of that execution's trace. *)

From stdpp Require Import base numbers list gmap strings.
From Stdlib Require Import ZArith Lia.
From S2P Require Import Prelude Boards MapInfo Etm EtmFacts Session SessionFacts Decoder TraceBuf TraceBufFacts Cpu Setup Execution Polling.

(** ** The threshold *)

(** The write pointer is a place in the ring of [size] bytes at [base]. *)
Definition in_ring (base size pos : Z) : Prop := base <= pos < base + size.

(** Two places of the ring are less than a ring apart, or the pointer has come
    round and the unsigned difference is close to 2^64. *)
Lemma drain_due_in_ring base size init_pos rwp threshold :
  0 <= base -> base + size < 2 ^ 64 -> 0 <= threshold < 2 ^ 64 - size ->
  in_ring base size init_pos -> in_ring base size rwp ->
  drain_due rwp init_pos threshold = (rwp <? init_pos) || (rwp - init_pos >? threshold).
Proof.
  unfold in_ring, drain_due. intros Hb Hs Ht Hi Hr. destruct (Z.ltb_spec rwp init_pos); cbn [orb].
  - assert (u64 (rwp - init_pos) = rwp - init_pos + 2 ^ 64) as ->.
    { unfold u64. rewrite <- (Z_mod_plus_full _ 1), Z.mod_small; lia. }
    lia.
  - by rewrite u64_small by lia.
Qed.

Section PollingFacts.
Context {D H : Type} `{DecoderLib D, DecoderEnv, CSAL H, EtmBits, EtmEnv, CpuEnv, MapsEnv, AffinityEnv, SetupEnv, TraceEnv}.
Context (u : setup) (export_on_fail : bool).

(** ** Accounting *)

Definition held (e : etr) (ws : list Z) : Prop := exists s0, etr_holds e s0 ws.

(** What was captured is what the ETRs held, one after the other. *)
Definition fetched_from (t : tracer) (es : list etr) : Prop :=
  exists chunks wss, Forall2 held es wss /\ Forall2 chunk_of chunks wss /\ captured t = concat chunks.

(** The decoder, [d0] when the thread started, has been given [k_passes]. *)
Record worker_inv (d0 : dec D) (k : worker D H) : Prop := {
  wi_wf : tbuf_wf (x_tracer (k_exec k));
  wi_dec : c_dec (x_common (k_exec k)) = run_passes (k_passes k) d0;
  wi_passes : concat (k_passes k) =
    take (dec_off (x_tracer (k_exec k))) (captured (x_tracer (k_exec k)));
  wi_fetched : fetched_from (x_tracer (k_exec k)) (k_fetched k)
}.

(** At the end everything captured was handed over. *)
Record worker_done (d0 : dec D) (k : worker D H) : Prop := {
  wd_dec : c_dec (x_common (k_exec k)) = run_passes (k_passes k) d0;
  wd_passes : concat (k_passes k) = captured (x_tracer (k_exec k));
  wd_fetched : fetched_from (x_tracer (k_exec k)) (k_fetched k)
}.

Hypothesis Hok : env_ok.
Hypothesis Hdirect : etr_direct_read_enabled stalker_decoder = true.
Hypothesis Hopens : etr_map_opens = true.

Lemma run_passes_app bufs buf (d : dec D) :
  run_passes (bufs ++ [buf]) d = (run_decoder buf (run_passes bufs d)).2.
Proof. unfold run_passes. by rewrite foldl_app. Qed.

Lemma worker_fetch_inv d0 e k :
  worker_inv d0 k -> (exists ws, held e ws) ->
  exists k', worker_fetch e k = Some k' /\ worker_inv d0 k' /\
    x_session (k_exec k') = x_session (k_exec k) /\ last (k_fetched k') = Some e.
Proof.
  intros [Hwf Hd Hp (chunks & wss & Hes & Hch & Hc)] (ws & s0 & He). unfold worker_fetch.
  set (t := x_tracer (k_exec k)) in *.
  assert (tbuf_wf (t <| etb := e |>)) as Hwf1 by (destruct Hwf; by split).
  pose proof (fetch_trace_direct stalker_decoder (t <| etb := e |>) s0 ws Hok Hwf1 He Hdirect
    ltac:(by right)) as Hf.
  destruct (fetch_trace stalker_decoder _) as [r t2]. destruct Hf as (Hwf2 & Hd2 & pad & Hpl & Hcase).
  change (captured (t <| etb := e |>)) with (captured t) in Hcase.
  change (dec_off (t <| etb := e |>)) with (dec_off t) in Hd2.
  assert (exists r' chunk, r = FetchRet r' /\ captured t2 = captured t ++ chunk /\ chunk_of chunk ws)
    as (r' & chunk & -> & Hc2 & Hchunk).
  { destruct Hcase as [[-> Hc2] | (-> & Hc2 & _ & new & Hm)]; eexists _, _; (split; [done |]);
      (split; [exact Hc2 |]); exists pad; (split; [done |]); [by left | right; by eauto]. }
  eexists. split; [done |]. split; [| by cbn; rewrite last_snoc]. split; cbn.
  - done.
  - done.
  - rewrite Hp, Hd2, Hc2. rewrite take_app_le; [done |].
    rewrite captured_length by done. destruct Hwf. unfold dec_off, ptr_off. lia.
  - exists (chunks ++ [chunk]), (wss ++ [ws]). split_and!.
    + apply Forall2_app; [done |]. constructor; [by exists s0 | done].
    + apply Forall2_app; [done |]. by constructor.
    + by rewrite Hc2, Hc, concat_app, concat_cons, app_nil_r.
Qed.

Lemma worker_decode_inv d0 k :
  worker_inv d0 k ->
  let '(ret, k') := worker_decode export_on_fail k in
  worker_done d0 k' /\ (0 <= ret -> worker_inv d0 k') /\
  x_session (k_exec k') = x_session (k_exec k) /\ k_fetched k' = k_fetched k.
Proof.
  intros [Hwf Hd Hp Hf]. unfold worker_decode.
  set (t := x_tracer (k_exec k)) in *. set (c := x_common (k_exec k)) in *.
  pose proof (decode_trace_takes (fun b => (run_decoder b (c_dec c)).1) t Hwf) as Ht.
  destruct (decode_trace _ t) as [[ret bytes] t2].
  destruct Ht as (_ & Hbytes & Hwf2 & Hc2 & _ & _ & _ & Hd2).
  assert (concat (k_passes k ++ [bytes]) = captured t2) as Hall.
  { rewrite concat_app, concat_cons, app_nil_r, Hp, Hc2, Hbytes. apply take_drop. }
  assert ((run_decoder bytes (c_dec c)).2 = run_passes (k_passes k ++ [bytes]) d0) as Hrun
    by (by rewrite run_passes_app, Hd).
  assert (fetched_from t2 (k_fetched k)) as Hf2.
  { destruct Hf as (chunks & wss & ? & ? & Hc). exists chunks, wss. by rewrite Hc2. }
  destruct (Z.ltb_spec ret 0) as [Hneg | Hpos].
  - destruct (export_failed_trace _ _ _ _) as [file n]. split; [by split |]. split; [lia | done].
  - split; [by split |]. split; [| done]. intros _. split; cbn; try done.
    rewrite Hall, (Hd2 Hpos). rewrite <- captured_length by done. by rewrite firstn_all.
Qed.

Lemma worker_killed_inv d0 final k :
  worker_inv d0 k -> (exists ws, held final ws) ->
  exists ret k', worker_killed export_on_fail final k = Some (ret, k') /\ worker_done d0 k' /\
    last (k_fetched k') = Some final.
Proof.
  intros Hi Hl. unfold worker_killed. destruct (worker_fetch_inv d0 final k Hi Hl) as (k1 & -> & Hi1 & _ & Hl1).
  cbn. pose proof (worker_decode_inv d0 k1 Hi1) as Hd. destruct (worker_decode _ k1) as [ret k2].
  destruct Hd as (Hd & _ & _ & Hl2). exists ret, k2. split_and!; [done | done |]. by rewrite Hl2.
Qed.

Lemma set_session_inv d0 s k : worker_inv d0 k -> worker_inv d0 (set_session s k).
Proof. by intros []. Qed.

Lemma set_session_done d0 s k : worker_done d0 k -> worker_done d0 (set_session s k).
Proof. by intros []. Qed.

Lemma set_ready_start b (x : exec D H) n files :
  set_ready b (worker_start x n files) =
  worker_start (x <| x_common := (x_common x) <| c_decoder_ready := b |> |>) n files.
Proof. done. Qed.

(** ** The loop *)

(** The hardware was set up before: arming it again returns. *)
Lemma disable_keeps_first n all (s : session H) :
  is_first_trace (disable_loop u n all s).2 = is_first_trace s.
Proof.
  revert s. induction n as [|n IH]; intros s; cbn [disable_loop]; unfold disable_once;
    destruct (if all then _ else _) as [r h]; destruct (r <? 0); try done.
  by rewrite IH.
Qed.

Lemma enable_again_returns pid (s : session H) :
  is_first_trace s = false ->
  exists r s', enable_cs_trace u pid s = (Some r, s') /\ is_first_trace s' = false.
Proof.
  intros Hs. unfold enable_cs_trace. rewrite Hs. destruct (enable_trace_sinks_only _ _ _ _ _ _ _ _) as [r h].
  destruct (r <? 0); by eexists _, _.
Qed.

(** SIGCONT fails only because the child is gone. *)
Definition poll_ok (p : poll) : Prop := (exists ws, held (p_etr p) ws) /\ p_cont p <> KillFails.

Lemma poll_loop_done threshold init_pos ps final d0 k :
  worker_inv d0 k -> worker_done d0 k -> is_first_trace (x_session (k_exec k)) = false ->
  Forall poll_ok ps -> Exists (fun p => p_alive p = false) ps -> (exists ws, held final ws) ->
  exists ret k', poll_loop u export_on_fail threshold init_pos ps final k = Some (ret, k') /\
    worker_done d0 k' /\ (0 <= ret -> last (k_fetched k') = Some final).
Proof.
  intros Hi Hd Hf Hps Hdead Hfinal. revert init_pos k Hi Hd Hf.
  induction Hps as [|p ps [He Hcont] Hps IH]; intros init_pos k Hi Hd Hf; [by inversion Hdead |].
  assert (forall k, worker_inv d0 k -> exists ret k', worker_killed export_on_fail final k = Some (ret, k') /\
    worker_done d0 k' /\ (0 <= ret -> last (k_fetched k') = Some final)) as killed_done.
  { intros k0 Hi0. destruct (worker_killed_inv d0 final k0 Hi0 Hfinal) as (ret & k' & ? & ? & ?). by exists ret, k'. }
  cbn [poll_loop]. destruct (p_alive p) eqn:Hal; cbn [negb]; [| by apply killed_done].
  apply Exists_cons in Hdead as [Hdead | Hrest]; [by rewrite Hal in Hdead |].
  specialize (IH Hrest).
  destruct (drain_due _ _ _); [| by apply IH].
  destruct (p_stop p); [| by apply killed_done | by exists (-1), k; split_and!].
  pose proof (disable_keeps_first (TRACE_DISABLE_TRIAL - 1) false (x_session (k_exec k))) as Hfs.
  unfold disable_cs_trace. destruct (disable_loop u _ false _) as [r s]. cbn [snd] in Hfs. rewrite Hf in Hfs.
  apply (set_session_inv d0 s) in Hi. apply (set_session_done d0 s) in Hd.
  destruct (Z.ltb_spec r 0); [by exists r, (set_session s k); split_and!; [..| lia] |].
  destruct (worker_fetch_inv d0 (p_etr p) _ Hi He) as (k1 & -> & Hi1 & _ & _). cbn [mbind option_bind].
  destruct (enable_again_returns (child_pid s) s Hfs) as (r' & s' & -> & Hf').
  apply (set_session_inv d0 s') in Hi1. destruct (p_cont p); [| by apply killed_done | done].
  pose proof (worker_decode_inv d0 _ Hi1) as Hdec. destruct (worker_decode _ _) as [ret k2].
  destruct Hdec as (Hd2 & Hi2 & Hs2 & _).
  destruct (Z.ltb_spec ret 0); [by exists ret, k2; split_and!; [..| lia] |]. apply IH; [by apply Hi2 | done | by rewrite Hs2].
Qed.

Lemma worker_start_inv (x : exec D H) n files :
  tbuf_wf (x_tracer x) -> ptr_off (x_tracer x) = 0%nat ->
  worker_inv (c_dec (x_common x)) (worker_start x n files) /\
  worker_done (c_dec (x_common x)) (worker_start x n files).
Proof.
  intros Hwf Hp. assert (captured (x_tracer x) = []) as Hc by (unfold captured; by rewrite Hp).
  assert (fetched_from (x_tracer x) []) by (exists [], []; by rewrite Hc).
  split; split; cbn; try done; by rewrite Hc, ?take_nil.
Qed.

End PollingFacts.


(** C28: In the coresight-decoder build the child is paused for a drain exactly
    when AFLCS_DRAIN_AT_2XETF is set, the ETF is less than half the ring, and
    more than twice the ETF has been written: starting from an emptied ring of
    [size] bytes at [base], the default threshold (the size of the ring) and
    one of twice an ETF of at least half the ring are never passed. *)
Theorem drain_condition_exact (drain_at etf : option Z) (base size rwp : Z) :
  0 <= base -> 0 < size < 2 ^ 31 -> base + size < 2 ^ 64 ->
  (forall f, etf = Some f -> 0 <= f < 2 ^ 32) -> in_ring base size rwp ->
  drain_due rwp base (decoding_threshold false drain_at etf size) = true <->
  exists v f, drain_at = Some v /\ v <> 0 /\ etf = Some f /\ 2 * f < size /\ 2 * f < rwp - base.
Proof.
  intros Hb Hs Hsp Hf Hr.
  assert ((exists v f, drain_at = Some v /\ v <> 0 /\ etf = Some f /\ f < size /\
            decoding_threshold false drain_at etf size = 2 * f) \/
          decoding_threshold false drain_at etf size = size /\
            ~ exists v f, drain_at = Some v /\ v <> 0 /\ etf = Some f /\ 2 * f < size) as Hcase.
  { unfold decoding_threshold, c_true. destruct drain_at as [v|], etf as [f|]; try (right; naive_solver).
    destruct (Z.eqb_spec v 0); cbn [negb]; [by right; naive_solver |].
    specialize (Hf f eq_refl). destruct (Z.ltb_spec f size); [left | right].
    - exists v, f. split_and!; try done. rewrite u64_small; lia.
    - split; [done |]. intros (v' & f' & _ & _ & [= <-] & ?). lia. }
  assert (forall th, 0 <= th < 2 ^ 33 -> drain_due rwp base th = (rwp - base >? th)) as Hdue.
  { intros th Hth. rewrite (drain_due_in_ring base size); unfold in_ring in *; lia. }
  unfold in_ring in Hr.
  destruct Hcase as [(v & f & Hv & Hv0 & He & Hlt & ->) | [-> Hno]].
  - specialize (Hf f He). rewrite Hdue by lia. split.
    + intros Hg. exists v, f. split_and!; try done; lia.
    + intros (v' & f' & _ & _ & He' & ? & ?). simplify_eq. lia.
  - rewrite Hdue by lia. split; [lia |]. intros (v & f & ? & ? & ? & ? & _). destruct Hno. by exists v, f.
Qed.
