(* ===== verification/Coverage.v ===== *)
(** * The coverage of an execution (src/src/common.c, Stalker build)

    From [start_trace] to [stop_trace]: the coverage map AFL++ reads after an
    execution is the decoding, onto an empty map, of exactly the bytes the trace
    hardware kept of that execution. *)

From stdpp Require Import base numbers list gmap strings.
From Stdlib Require Import ZArith Lia.
From S2P Require Import Prelude Boards MapInfo Etm EtmFacts Session SessionFacts Decoder TraceBuf TraceBufFacts Cpu Setup Execution Polling PollingFacts.

(** ** The buffer of an execution *)

Section Buffer.
Context `{TraceEnv}.

(** A buffer that a full ring fits into. *)
Definition filled_buf (t : tracer) : Prop := tbuf_wf t /\ etr_ram_size <= trace_buf_size t.

(** There is no buffer yet, or one that a full ring fits into. *)
Definition buffer_ok (t : tracer) : Prop :=
  filled_buf t \/ trace_buf t = 0.

(** A rewound buffer. *)
Record fresh_buf (t : tracer) : Prop := {
  fb_wf : tbuf_wf t;
  fb_room : etr_ram_size <= trace_buf_size t;
  fb_ptr : ptr_off t = 0%nat;
  fb_dec : dec_off t = 0%nat
}.

Lemma alloc_fresh stalker t :
  env_ok -> buf_mappable -> buffer_ok t ->
  fresh_buf (alloc_trace_buf stalker t).2.
Proof.
  intros Hok Hm Ht.
  assert ((alloc_trace_buf stalker t).1 = 0) as H0.
  { unfold alloc_trace_buf. destruct (_ && _); [done |]. by destruct Hm as [base ->]. }
  destruct (alloc_trace_buf_wf stalker t Hok) as (Hwf & Hp & Hd & _); [by destruct Ht as [[]|]; [left | right] | done |].
  split; try done. unfold alloc_trace_buf in *.
  destruct (c_true (trace_buf t)) eqn:Hc; cbn [andb] in *; [destruct (etr_direct_read_enabled stalker) |].
  - destruct Ht as [[] | Hz]; [done |]. by rewrite Hz in Hc.
  - destruct (mmap_anon _); cbn in *; [destruct (Z.gtb_spec etr_ram_size DEFAULT_TRACE_SIZE); lia | done].
  - destruct (mmap_anon _); cbn in *; [destruct (Z.gtb_spec etr_ram_size DEFAULT_TRACE_SIZE); lia | done].
Qed.

Lemma captured_bytes_wf t : tbuf_wf t -> trace_captured_bytes t = zlen (captured t).
Proof.
  intros Hwf. rewrite captured_length by done. destruct Hwf. unfold trace_captured_bytes, ptr_off.
  rewrite u64_small; lia.
Qed.

Lemma fetch_copy_size t len start remain :
  trace_buf_size (fetch_copy true t len start remain) = trace_buf_size t.
Proof. unfold fetch_copy. by destruct (u64 len <=? remain). Qed.

(** CSAL reads out what the ring keeps, when there is room for it. *)
Definition csal_holds (e : etr) (ws : list Z) : Prop :=
  cs_get_buffer_unread_bytes e = zlen (last_bytes ws) /\
  forall room, zlen (last_bytes ws) <= room -> cs_get_trace_data e room = (zlen (last_bytes ws), last_bytes ws).

(** The ETR received [ws] and can be read, through its memory or by CSAL. *)
Definition readable (stalker : bool) (e : etr) (ws : list Z) : Prop :=
  if etr_direct_read_enabled stalker then etr_map_opens = true /\ held e ws else csal_holds e ws.

Lemma last_bytes_length ws : env_ok -> 0 <= zlen (last_bytes ws) <= etr_ram_size.
Proof. intros Hok. pose proof (ok_ram_size Hok). unfold last_bytes. rewrite length_drop. lia. Qed.

(** Both ways to copy into an empty buffer. *)
Lemma fetch_copy_csal t ws :
  env_ok -> fresh_buf t -> csal_holds (etb t) ws ->
  let t' := fetch_copy false t (zlen (last_bytes ws)) 0 (trace_buf_size t) in
  tbuf_wf t' /\ dec_off t' = 0%nat /\ captured t' = last_bytes ws /\ trace_buf_size t' = trace_buf_size t.
Proof.
  intros Hok [Hwf Hroom Hp Hd] [_ Hget]. pose proof (last_bytes_length ws Hok). unfold fetch_copy.
  rewrite (Hget (trace_buf_size t)) by lia. destruct Hwf as [[Hb Hb8] [Hs Hs8] Hsp Hde Hpt Hl].
  unfold ptr_off, dec_off in Hp, Hd. assert (trace_buf_ptr t = trace_buf t) as Hpb by lia.
  rewrite Hpb, Z.sub_diag. change (Z.to_nat 0) with 0%nat. cbn. split_and!.
  - split; cbn; rewrite ?copy_in_length by lia; try done; lia.
  - done.
  - unfold captured, ptr_off. cbn. rewrite copy_in_take by lia. done.
  - done.
Qed.

Lemma fetch_copy_held t s0 ws :
  env_ok -> fresh_buf t -> etr_holds (etb t) s0 ws ->
  let '(len, start) := etr_pending (etb t) in
  let t' := fetch_copy true t len start (trace_buf_size t) in
  tbuf_wf t' /\ dec_off t' = 0%nat /\ captured t' = last_bytes ws /\ trace_buf_size t' = trace_buf_size t.
Proof.
  intros Hok [Hwf Hroom Hp Hd] Hh. pose proof (last_bytes_length ws Hok).
  pose proof (fetch_copy_direct t s0 ws (trace_buf_size t) Hok Hwf Hh) as Hcp.
  destruct (etr_pending (etb t)) as [len start]. destruct Hcp as (Hw & Hc & Hdo & _); [lia | lia |].
  split_and!; [done | by rewrite Hdo | | by apply fetch_copy_size]. rewrite Hc. unfold captured at 1. by rewrite Hp.
Qed.

(** A rewound buffer is aligned and has room. *)
Lemma fresh_aligned t :
  fresh_buf t -> t <| trace_buf_ptr := ALIGN_UP (trace_buf_ptr t) 8 |> = t.
Proof.
  intros [Hwf _ Hp _]. pose proof Hwf as [[Hb Hb8] [Hs _] Hsp _ _ _].
  assert (trace_buf_ptr t = trace_buf t) as Hptr by (destruct Hwf; unfold ptr_off in Hp; lia).
  assert (ALIGN_UP (trace_buf_ptr t) 8 = trace_buf_ptr t) as ->; [| by destruct t].
  rewrite Hptr. destruct (ALIGN_UP_8_bounds (trace_buf t)) as [Ha Ha8]; [lia | lia |].
  apply Z.div_exact in Hb8; [| lia]. apply Z.div_exact in Ha8; [| lia]. lia.
Qed.

Lemma fetch_aligned_fresh direct t ws start :
  env_ok -> fresh_buf t ->
  fetch_aligned direct t (zlen (last_bytes ws)) start =
  (FetchRet 0, fetch_copy direct t (zlen (last_bytes ws)) start (trace_buf_size t)).
Proof.
  intros Hok [Hwf Hroom Hp _]. pose proof (last_bytes_length ws Hok). pose proof (ok_ram_size Hok).
  assert (trace_buf_ptr t = trace_buf t) as Hptr by (destruct Hwf; unfold ptr_off in Hp; lia).
  unfold fetch_aligned. rewrite Hptr, Z.sub_diag. change (u64 0) with 0. rewrite Z.sub_0_r.
  rewrite (u64_small (trace_buf_size t)), (u64_small (zlen (last_bytes ws))) by (destruct Hwf; lia).
  by destruct (Z.gtb_spec (zlen (last_bytes ws)) (trace_buf_size t)); [lia |].
Qed.

(** The first fetch into a rewound buffer neither pads nor grows it. *)
Lemma fetch_fresh stalker t ws :
  env_ok -> fresh_buf t -> readable stalker (etb t) ws ->
  exists t', fetch_trace stalker t = (FetchRet 0, t') /\ tbuf_wf t' /\ dec_off t' = 0%nat /\
    captured t' = last_bytes ws /\ trace_buf_size t' = trace_buf_size t.
Proof.
  intros Hok Hfr Hr. unfold fetch_trace, readable in *. destruct (etr_direct_read_enabled stalker); cbn [andb].
  - destruct Hr as [Hopen [s0 Hh]].
    assert (exists t1, (if negb (etr_map t) then etr_map_open t else Some t) = Some t1 /\ fresh_buf t1 /\
      etb t1 = etb t /\ trace_buf_size t1 = trace_buf_size t) as (t1 & -> & Hfr1 & He1 & <-).
    { unfold etr_map_open. destruct (etr_map t); [by exists t |]. rewrite Hopen. eexists. split; [done |].
      split_and!; try done. destruct Hfr as [Hwf ? ? ?]. split; try done. destruct Hwf; by split. }
    rewrite <- He1 in Hh. rewrite (fresh_aligned t1 Hfr1). pose proof (fetch_copy_held t1 s0 ws Hok Hfr1 Hh) as Hc.
    pose proof (last_bytes_length ws Hok). pose proof (ok_ram_size Hok).
    rewrite (etr_pending_holds _ _ _ Hok Hh) in *. rewrite s32_small, fetch_aligned_fresh by (done || lia). by eexists.
  - rewrite (fresh_aligned t Hfr). pose proof Hr as [-> _]. rewrite fetch_aligned_fresh by done.
    eexists. split; [done |]. by apply fetch_copy_csal.
Qed.

End Buffer.

(** ** A Stalker execution *)

Section Coverage.
Context {D H : Type} `{DecoderLib D, DecoderEnv, CSAL H, EtmBits, EtmEnv, CpuEnv, MapsEnv, AffinityEnv, SetupEnv, TraceEnv, !CsalLaws H}.
Context (u : setup) (export_on_fail : bool).

(** A pass of the adapter. *)
Lemma stalker_pass buf (d : dec D) :
  stalker_decoder = true -> decoder d = true ->
  let '(r, m, l) := stalker_decode_trace (default [] (trace_bitmap d)) buf (lib d) in
  let d' := (run_decoder buf d).2 in
  lib d' = l /\ trace_bitmap d' = (fun _ => m) <$> trace_bitmap d /\
  trace_bitmap_size d' = trace_bitmap_size d /\
  trace_did_overflow d' = trace_did_overflow d || ((0 <=? r) && stalker_decode_did_overflow l).
Proof.
  intros Hst Hd. unfold run_decoder, stalker_run, trace_did_overflow. rewrite Hst, Hd. cbn [negb].
  destruct (stalker_decode_trace _ _ _) as [[r m] l]. destruct (Z.ltb_spec r 0), (Z.leb_spec 0 r); try lia;
    cbn [andb]; [by rewrite orb_false_r |]. cbn [lib upd eta_dec].
  destruct (stalker_decode_did_overflow l); cbn; split_and!; try done; by rewrite ?orb_true_r, ?orb_false_r.
Qed.

(** The unsigned offset is never above ULONG_MAX: no drain. *)
Lemma no_drain rwp init_pos drain_at etf size :
  drain_due rwp init_pos (decoding_threshold true drain_at etf size) = false.
Proof. unfold drain_due, decoding_threshold, ULONG_MAX. pose proof (u64_bound (rwp - init_pos)). lia. Qed.

(** So the loop only waits for the child to end. *)
Lemma poll_loop_stalker drain_at etf size init_pos ps final (k : worker D H) :
  Exists (fun p => p_alive p = false) ps ->
  poll_loop u export_on_fail (decoding_threshold true drain_at etf size) init_pos ps final k =
  worker_killed export_on_fail final k.
Proof.
  induction 1 as [p ps Hp | p ps _ IH]; cbn [poll_loop]; [by rewrite Hp |].
  destruct (p_alive p); [| done]. cbn [negb]. by rewrite no_drain.
Qed.

Context (Henv : exec_env (H := H) u) (Hok : env_ok).

(** The thread's part after a clean start: one pass, over the whole trace. *)
Lemma worker_killed_fresh (x : exec D H) n files final ws :
  fresh_buf (x_tracer x) -> readable stalker_decoder final ws ->
  exists ret k t, worker_killed export_on_fail final (worker_start x n files) = Some (ret, k) /\
    k_passes k = [last_bytes ws] /\ captured t = last_bytes ws /\ filled_buf t /\
    k_exec k = x <| x_common := (x_common x) <| c_dec := (run_decoder (last_bytes ws) (c_dec (x_common x))).2 |> |>
                 <| x_tracer := t |>.
Proof.
  intros Hfr He. unfold worker_killed, worker_fetch. cbn [k_exec worker_start].
  assert (fresh_buf ((x_tracer x) <| etb := final |>)) as Hfr1.
  { destruct Hfr as [Hwf ? ? ?]. split; try done. destruct Hwf; by split. }
  destruct (fetch_fresh stalker_decoder _ ws Hok Hfr1 He) as (t1 & -> & Hwf1 & Hd1 & Hc1 & Hs1).
  cbn [mbind option_bind]. unfold worker_decode. cbn [k_exec x_tracer x_common upd eta_worker eta_exec].
  pose proof (decode_trace_takes (fun b => (run_decoder b (c_dec (x_common x))).1) t1 Hwf1) as Ht.
  destruct (decode_trace _ t1) as [[ret bytes] t2]. destruct Ht as (_ & -> & Hwf2 & Hc2 & _ & _ & Hs2 & _).
  rewrite Hd1, Hc1, drop_0.
  assert (filled_buf t2) as Hb2 by (split; [done |]; rewrite Hs2, Hs1; apply Hfr).
  rewrite Hc1 in Hc2. destruct (ret <? 0).
  - destruct (export_failed_trace _ _ _ _) as [file m]. by eexists _, _, t2.
  - by eexists _, _, t2.
Qed.

(** A whole execution is the step of Execution with what was read and decoded. *)
Lemma traced_execution_spec (pid : Z) (f b : bool) (init_pos : Z) ps final ws (x : exec D H) n files :
  exec_ready u b x -> buffer_ok (x_tracer x) -> 0 < pid < 2 ^ 31 ->
  Exists (fun p => p_alive p = false) ps -> readable stalker_decoder final ws ->
  exists ret k t, traced_execution u export_on_fail pid f init_pos ps final x n files = Some (ret, k) /\
    k_passes k = [last_bytes ws] /\ captured t = last_bytes ws /\ filled_buf t /\
    k_exec k = exec_step u (Execute pid f [last_bytes ws] (fun _ => t)) x.
Proof.
  intros Hx Hbuf Hp Hps Hfin. pose proof (we_stalker _ (xe_window _ Henv)) as Hst.
  unfold traced_execution, exec_step.
  destruct (start_clean u Henv pid f b x Hx Hp) as (x1 & -> & _ & _ & Ht1 & Ho). cbn [Z.ltb Z.compare snd].
  rewrite Hst. unfold trace_sink_polling. rewrite poll_loop_stalker, set_ready_start by done.
  set (x2 := x1 <| x_start_pending := false |>).
  set (x3 := x2 <| x_common := (x_common x2) <| c_decoder_ready := false |> |>).
  assert (fresh_buf (x_tracer x3)) as Hfr.
  { change (x_tracer x3) with (x_tracer x1). rewrite Ht1. apply alloc_fresh; [done | apply Henv | done]. }
  destruct (worker_killed_fresh x3 n files final ws Hfr Hfin) as (ret & k & t & -> & Hk & Hc & Hbt & Hx3).
  cbn [mbind option_bind]. unfold set_ready, set_session. cbn [k_exec upd eta_worker]. rewrite Hx3.
  destruct (disarm_spec u (xe_window _ Henv) pid _ _ (proj1 (proj2 Hx)) Ho) as (s' & Hs' & _).
  cbn [x_session upd eta_exec x3 x2]. rewrite Hs'. cbn [Z.ltb Z.compare snd].
  eexists ret, _, t. split; [done |]. by split_and!.
Qed.

(** ** Sessions *)

Definition run_op_ok (op : run_op) : Prop :=
  match op with
  | Traced pid _ _ ps final ws =>
      0 < pid < 2 ^ 31 /\ Exists (fun p => p_alive p = false) ps /\ readable stalker_decoder final ws
  | Mode _ => True
  end.

(** The decoder writes into the map and never changes its size. *)
Definition decoder_in_bounds : Prop :=
  forall m buf l, length (stalker_decode_trace m buf l).1.2 = length m.

Definition map_ok (size : Z) (d : dec D) : Prop :=
  trace_bitmap_size d = size /\ exists m, trace_bitmap d = Some m /\ length m = Z.to_nat size.

(** What holds between the executions of a session. *)
Definition run_ready (size : Z) (x : exec D H) : Prop :=
  (exists b, exec_ready u b x) /\ buffer_ok (x_tracer x) /\ map_ok size (c_dec (x_common x)).

(** The decoder after an execution: one pass onto the empty map. *)
Definition decoded (size : Z) (ws : list Z) (d d' : dec D) : Prop :=
  let '(r, m, l) := stalker_decode_trace (replicate (Z.to_nat size) 0) (last_bytes ws) (lib d) in
  trace_bitmap d' = Some m /\ trace_bitmap_size d' = size /\ lib d' = l /\
  trace_did_overflow d' = (0 <=? r) && stalker_decode_did_overflow l.

Lemma execution_decodes pid f b ws t (x : exec D H) size :
  exec_ready u b x -> 0 < pid < 2 ^ 31 -> map_ok size (c_dec (x_common x)) ->
  decoded size ws (c_dec (x_common x))
    (c_dec (x_common (exec_step u (Execute pid f [last_bytes ws] (fun _ => t)) x))).
Proof.
  intros Hx Hp (Hsz & m & Hm & Hlen). cbn [exec_step].
  destruct (start_clean u Henv pid f b x Hx Hp) as (x1 & -> & _ & Hd & _). cbn [snd x_common c_dec upd eta_exec eta_common].
  change (run_passes [last_bytes ws] ?d) with (run_decoder (last_bytes ws) d).2. rewrite Hd.
  set (d := c_dec (x_common x)) in *. set (d0 := (clear_bitmap d) <| trace_overflow_occurred := false |>).
  pose proof (stalker_pass (last_bytes ws) d0 (we_stalker _ (xe_window _ Henv)) (proj1 Hx)) as Hpass.
  assert (trace_bitmap d0 = Some (replicate (Z.to_nat size) 0)) as Hm0.
  { cbn. rewrite Hm. cbn. by rewrite Hsz, drop_ge, app_nil_r by lia. }
  rewrite Hm0 in Hpass. cbn [default] in Hpass. unfold decoded. change (lib d0) with (lib d) in Hpass.
  change (trace_did_overflow d0) with false in Hpass. change (trace_bitmap_size d0) with (trace_bitmap_size d) in Hpass.
  rewrite Hsz in Hpass. destruct (stalker_decode_trace _ _ _) as [[r m'] l].
  destruct Hpass as (? & ? & ? & ?). by split_and!.
Qed.

Lemma run_step_ready op x n files size :
  decoder_in_bounds -> run_ready size x -> run_op_ok op ->
  exists x' n' files', run_step u export_on_fail op (x, n, files) = Some (x', n', files') /\ run_ready size x'.
Proof.
  intros Hdb ([b Hx] & Hbuf & Hmap) Hop. destruct op as [pid f init_pos ps final ws | b']; cbn [run_step].
  - destruct Hop as (Hp & Hps & Hfin).
    destruct (traced_execution_spec pid f b init_pos ps final ws x n files Hx Hbuf Hp Hps Hfin)
      as (ret & k & t & -> & _ & _ & Hbt & Hk). cbn [mbind option_bind]. eexists _, _, _. split; [done |].
    pose proof (execution_decodes pid f b ws t x size Hx Hp Hmap) as Hdec. rewrite <- Hk in Hdec.
    unfold run_ready. split_and!.
    + exists b. rewrite Hk. by apply (exec_step_ready u Henv (Execute pid f [last_bytes ws] (fun _ => t)) b x Hx).
    + rewrite Hk. by left.
    + unfold decoded in Hdec. pose proof (Hdb (replicate (Z.to_nat size) 0) (last_bytes ws) (lib (c_dec (x_common x)))) as Hl.
      destruct (stalker_decode_trace _ _ _) as [[r m] l]. destruct Hdec as (Hm & Hs & _). split; [done |].
      exists m. split; [done |]. cbn in Hl. by rewrite Hl, length_replicate.
  - eexists _, _, _. split; [done |]. split_and!; [| done |].
    + exists b'. by apply (exec_step_ready u Henv (Switch b') b x Hx).
    + cbn. unfold switch_decoder. by destruct stalker_decoder.
Qed.

Lemma run_ops_ready ops x n files size :
  decoder_in_bounds -> run_ready size x -> Forall run_op_ok ops ->
  exists x' n' files', run_ops u export_on_fail ops (x, n, files) = Some (x', n', files') /\ run_ready size x'.
Proof.
  intros Hdb Hx Hops. revert x n files Hx. induction Hops as [|op ops Hop Hops IH]; intros x n files Hx.
  { by exists x, n, files. }
  destruct (run_step_ready op x n files size Hdb Hx Hop) as (x1 & n1 & f1 & Hs1 & Hx1).
  cbn [run_ops]. rewrite Hs1. by apply IH.
Qed.

End Coverage.

(** C1: The coverage map is the execution's trace, decoded: after any number of
    executions and mode switches, however those went, the next execution comes
    to its end, and the map AFL++ reads then is what the decoder makes of the
    empty map and of exactly the bytes the ETR kept of this execution (all of
    them, or the last ring's worth), with nothing of earlier executions and no
    padding; the overflow flag is the decoder's own word on this pass, and the
    bytes counted as captured are these. *)
Theorem coverage_of_execution {D H : Type}
    `{DecoderLib D, DecoderEnv, CSAL H, EtmBits, EtmEnv, CpuEnv, MapsEnv, AffinityEnv, SetupEnv, TraceEnv, !CsalLaws H}
    (u : setup) (export_on_fail : bool) (c : common D) (h : H) (e : etr) (bitmap : list Z) (ops : list run_op)
    (pid : Z) (use_pid_trace : bool) (init_pos : Z) (ps : list poll) (final : etr) (ws : list Z) :
  exec_env u -> env_ok -> traceable c -> power_on u h -> decoder_in_bounds (D := D) ->
  trace_bitmap (c_dec c) = Some bitmap -> zlen bitmap = trace_bitmap_size (c_dec c) ->
  Forall run_op_ok ops -> run_op_ok (Traced pid use_pid_trace init_pos ps final ws) ->
  exists x n files ret k,
    run_ops u export_on_fail ops (MkExec c (session_static h) (tracer_static e) false false, 0, []) =
      Some (x, n, files) /\
    traced_execution u export_on_fail pid use_pid_trace init_pos ps final x n files = Some (ret, k) /\
    decoded (trace_bitmap_size (c_dec c)) ws (c_dec (x_common x)) (c_dec (x_common (k_exec k))) /\
    trace_captured_bytes (x_tracer (k_exec k)) = zlen (last_bytes ws) /\
    c_decoder_ready (x_common (k_exec k)) = true.
Proof.
  intros Henv Hok Hc Hh Hdb Hm Hlen Hops (Hp & Hps & Hfin).
  assert (run_ready u (trace_bitmap_size (c_dec c)) (MkExec c (session_static h) (tracer_static e) false false)) as Hr.
  { split_and!; [exists false; split_and! | by right |].
    - by apply (tc_decoding _ Hc (xe_decoding _ Henv)).
    - by apply between_static.
    - done.
    - split; [done |]. exists bitmap. split; [done | lia]. }
  destruct (run_ops_ready u export_on_fail Henv Hok ops _ 0 [] _ Hdb Hr Hops)
    as (x & n & files & Hrun & [b Hx] & Hbuf & Hmap).
  destruct (traced_execution_spec u export_on_fail Henv Hok pid use_pid_trace b init_pos ps final ws
    x n files Hx Hbuf Hp Hps Hfin) as (ret & k & t & Hk & _ & Hcap & [Hwf _] & Hx').
  exists x, n, files, ret, k. split_and!; [done | done | | | by rewrite Hx'].
  - rewrite Hx'. by apply (execution_decodes u Henv pid use_pid_trace b).
  - rewrite Hx'. change (x_tracer _) with t. by rewrite captured_bytes_wf, Hcap.
Qed.
