(* ===== verification/Schedules.v ===== *)
(** * Schedules and data (src/src/common.c)

    Sync says in which order the threads may act, Polling what the decoder
    thread's acts do to the data.  Here the two meet: the work a schedule
    leaves in [did], replayed on the data. *)

From stdpp Require Import base numbers list gmap strings relations.
From Stdlib Require Import ZArith Lia.
From S2P Require Import Prelude Boards MapInfo Etm EtmFacts Session SessionFacts Decoder TraceBuf TraceBufFacts Sync SyncFacts Cpu Setup Execution Polling PollingFacts Coverage.

Section Schedules.
Context {D H : Type} `{DecoderLib D, DecoderEnv, CSAL H, EtmBits, EtmEnv, CpuEnv, MapsEnv, AffinityEnv, SetupEnv, TraceEnv}.
Context (u : setup) (export_on_fail : bool).

(** One piece of work; a fetch finds [final] in the ETR. *)
Definition replay_work (final : etr) (w : work) (k : worker D H) : option (worker D H) :=
  match w with
  | Fetched _ _ => worker_fetch final k
  | Decoded _ => Some (worker_decode export_on_fail k).2
  end.

Fixpoint replay (final : etr) (ws : list work) (k : worker D H) : option (worker D H) :=
  match ws with
  | [] => Some k
  | w :: ws => k ← replay_work final w k; replay final ws k
  end.

(** The child gone and the sinks off: the ETR holds what it will hold. *)
Definition settled_fetch (w : work) : bool :=
  match w with Fetched child sinks => bool_decide (child = ChildDead) && negb sinks | Decoded _ => true end.

Lemma replay_killed final child sinks b (k : worker D H) :
  replay final [Fetched child sinks; Decoded b] k = snd <$> worker_killed export_on_fail final k.
Proof. cbn. unfold worker_killed. by destruct (worker_fetch final k). Qed.

End Schedules.

