(* ===== verification/Offline.v ===== *)
(** * Tracing for offline decoding (src/src/common.c, src/src/cs-proxy.c)

    Without decoding on, what was traced is read out once, at the end, and
    exported with the arguments of the offline decoder. *)

From stdpp Require Import base numbers list gmap strings.
From Stdlib Require Import ZArith Lia.
From S2P Require Import Prelude Cstr MapInfo MapInfoFacts Etm Decoder TraceBuf TraceBufFacts Cpu Setup Execution PollingFacts Coverage.

(** The proxy's handler of SIGABRT, before it aborts again: what is captured so
    far is exported under the default names. *)
Definition save_trace_on_abort_handler {D : Type}
    `{DecoderLib D, DecoderEnv, EtmEnv, CpuEnv, MapsEnv, AffinityEnv, SetupEnv} (c : common D) (t : tracer)
    : export :=
  (export_trace DEFAULT_TRACE_NAME c t).2.

(** C26: A program traced without decoding can be decoded offline: when tracing
    ends, the trace file holds exactly the bytes the ETR kept of it, and the
    arguments file, read back word by word, gives the path of the trace file,
    the trace identifier, and the path and the addresses of every range.  The
    ETR may be read through its memory or by CSAL. *)
Theorem offline_trace_complete {D : Type}
    `{DecoderLib D, DecoderEnv, EtmEnv, CpuEnv, MapsEnv, AffinityEnv, SetupEnv, TraceEnv}
    (cwd : string) (c : common D) (t : tracer) (e : etr) (ws : list Z) :
  env_ok -> buf_mappable -> buffer_ok t -> readable stalker_decoder e ws ->
  decoding_on = false -> traceable c -> trace_id (c_dec c) < 2 ^ 31 ->
  getcwd = Some cwd -> is_word (in_dir cwd DEFAULT_TRACE_NAME) -> Forall plain_map (c_map_info c) ->
  args_open = true -> (forall n, fprintf_ok n = true) -> fopen_trace (in_dir cwd DEFAULT_TRACE_NAME) = true ->
  let t1 := (alloc_trace_buf stalker_decoder t).2 <| etb := e |> in
  exists text c' t',
    fini_trace c t1 = Some (MkExport (Some text) (Some (last_bytes ws)), c', t') /\
    read_args (words text) =
      Some (in_dir cwd DEFAULT_TRACE_NAME, trace_id (c_dec c),
            (fun m => (m_path m, m_start m, m_end m)) <$> c_map_info c) /\
    c_shut c' = true.
Proof.
  intros Hok Hm Hb Hr Hoff Hc Hid Hcwd Hw Hmaps Hopen Hpr Hf. cbn zeta.
  assert (fresh_buf ((alloc_trace_buf stalker_decoder t).2 <| etb := e |>)) as Hfr.
  { destruct (alloc_fresh stalker_decoder t Hok Hm Hb) as [Hwf ? ? ?]. split; try done. destruct Hwf; by split. }
  destruct (fetch_fresh stalker_decoder _ ws Hok Hfr Hr) as (t2 & Hfetch & Hwf2 & _ & Hcap & _).
  destruct (export_readable DEFAULT_TRACE_NAME cwd c t2 Hc Hid Hcwd Hw Hmaps Hopen Hpr Hf) as (text & Hx & Hread).
  assert (take (Z.to_nat (trace_captured_bytes t2)) (buf_data t2) = last_bytes ws) as Hfile.
  { rewrite captured_bytes_wf, Nat2Z.id, captured_length by done. exact Hcap. }
  unfold fini_trace. rewrite Hoff, Hfetch. cbn [mbind option_bind]. rewrite Hx, Hfile.
  destruct (fini_decoder (c_dec c)) as [r d]. by eexists _, _, _.
Qed.
