(* ===== verification/Launch.v ===== *)
(** * Start of the proxy (src/src/cs-proxy.c)

    [main] up to its loop: the checks, the options, the shared map, and the
    fork server with the environment of the target and the handshake.  AFL++'s
    protocol words are the class [FsOpts] (afl/types.h). *)

From stdpp Require Import base numbers list strings.
From Stdlib Require Import ZArith Lia Ascii.
From S2P Require Import Prelude Cstr MapInfo Etm Proxy Forksrv.

(** ** AFL++'s protocol *)

Class FsOpts := {
  MAP_SIZE : Z;
  FS_OPT_MAX_MAPSIZE : Z;
  FS_OPT_ENABLED : Z;
  FS_OPT_MAPSIZE : Z;
  FS_OPT_SET_MAPSIZE : Z -> Z;
  FS_OPT_ERROR : Z;
  FS_OPT_SET_ERROR : Z -> Z;
  FS_ERROR_MAP_SIZE : Z;
  FS_ERROR_SHMAT : Z;
  FS_ERROR_SHM_OPEN : Z;
  FS_ERROR_MMAP : Z
}.

(** What is outside: the environment, files, the shared memory. *)
Class LaunchEnv := {
  getenv : string -> option string;
  SHM_ENV_VAR : string;
  usemmap : bool;                                (* built with USEMMAP *)
  shmat : Z -> option (list Z);                  (* None is (void * ) -1 *)
  shm_open : string -> bool;
  mmap_shm : string -> Z -> option (list Z);     (* None is MAP_FAILED *)
  exists_file : string -> bool;                  (* access(F_OK) *)
  self_exe : option string;                      (* /proc/self/exe *)
  is_root : bool;
  abort_hooked : bool                            (* signal(SIGABRT, ...) *)
}.

Section Launch.
Context `{FsOpts, LaunchEnv}.

(** The words [send_forkserver_error] writes to AFL++. *)
Definition send_forkserver_error (error : Z) : list Z :=
  if (error =? 0) || (error >? 0xffff) then []
  else [u32 (Z.lor FS_OPT_ERROR (FS_OPT_SET_ERROR error))].

(** ** The shared map *)

(** The end of a step: the process exited, or it goes on. *)
Inductive outcome (A : Type) := Exits (code : Z) | Goes (a : A).
Arguments Exits {A}.
Arguments Goes {A}.

(** AFL_MAP_SIZE is read as an int and stored as a u32. *)
Definition map_size (size : Z) : Z :=
  match getenv "AFL_MAP_SIZE" with
  | Some s => let val := u32 (atoi s) in if val >? 0 then val else size
  | None => size
  end.

(** The map AFL++ shares under [id], or the error reported and the exit code. *)
Definition attach_map (id : string) (size : Z) : (Z * Z) + list Z :=
  if usemmap then
    if negb (shm_open id) then inl (FS_ERROR_SHM_OPEN, 1)
    else match mmap_shm id size with None => inl (FS_ERROR_MMAP, 2) | Some bitmap => inr bitmap end
  else match shmat (u32 (atoi id)) with None => inl (FS_ERROR_SHMAT, 1) | Some bitmap => inr bitmap end.

(** [__afl_map_shm]: the words written, then the size and the map. *)
Definition __afl_map_shm (size : Z) : list Z * outcome (Z * option (list Z)) :=
  let size := map_size size in
  match getenv SHM_ENV_VAR with
  | None => ([], Goes (size, None))
  | Some id =>
      if (size >? MAP_SIZE) && (size >? FS_OPT_MAX_MAPSIZE) then
        (send_forkserver_error FS_ERROR_MAP_SIZE, Exits (-1))
      else
        match attach_map id size with
        | inl (error, code) => (send_forkserver_error error, Exits code)
        | inr bitmap => ([], Goes (size, Some (<[0%nat := 1]> bitmap)))
        end
  end.

(** ** The target's environment *)

Definition CS_PASS_ENV_MAX : nat := 16.

(** [strtok(names, ":")] in turn: the pieces that are not empty. *)
Fixpoint strtok_go (s tok : string) : list string :=
  match s with
  | EmptyString => if bool_decide (tok = ""%string) then [] else [tok]
  | String c s' =>
      if bool_decide (c = ":"%char)
      then (if bool_decide (tok = ""%string) then [] else [tok]) ++ strtok_go s' ""
      else strtok_go s' (tok +:+ String c EmptyString)
  end.
Definition strtok (s : string) : list string := strtok_go s "".

(** The [for] over the names: [envp] so far and the next index [n]; [None] is
    FATAL. *)
Fixpoint pass_env (names : list string) (envp : list string) : option (list string) :=
  match names with
  | [] => Some envp
  | name :: names =>
      match getenv name with
      | None => pass_env names envp
      | Some value =>
          if bool_decide (length envp - 3 = CS_PASS_ENV_MAX)%nat then None
          else pass_env names (envp ++ [append_string (Some (append_string (Some name) (Some "="))) (Some value)])
      end
  end.

(** LD_PRELOAD and LD_LIBRARY_PATH, as the proxy and cs-trace build them. *)
Definition preload_entry (forksrv : option string) : string :=
  let p := match getenv "CS_LD_PRELOAD" with
           | Some v => append_string (Some "LD_PRELOAD=") (Some v) | None => "LD_PRELOAD=" end in
  match getenv "CS_DEFER_FORKSRV" with
  | None => append_string (Some p) forksrv
  | Some _ => p
  end.
Definition library_entry : string :=
  append_string (Some "LD_LIBRARY_PATH=") (getenv "CS_LD_LIBRARY_PATH").

(** The environment of [execve] in the child. *)
Definition target_env (forksrv : option string) : option (list string) :=
  let envp := ["__CS_PROXY=1"; preload_entry forksrv; library_entry]%string in
  match getenv "CS_PASS_ENV" with
  | None => Some envp
  | Some names => pass_env (strtok names) envp
  end.

(** ** The handshake *)

(** The word reported to AFL++, from the target's first word. *)
Definition phone_home (status size : Z) : Z :=
  if status =? 0 then
    let status := if size <=? FS_OPT_MAX_MAPSIZE
                  then Z.lor status (Z.lor (FS_OPT_SET_MAPSIZE size) FS_OPT_MAPSIZE) else status in
    u32 (if c_true status then Z.lor status FS_OPT_ENABLED else status)
  else status.

(** ** main *)

Record config := MkConfig {
  cf_target : list string;         (* argvp *)
  cf_cov : cov_type_t;
  cf_decoding_on : bool;
  cf_calibrate : bool;             (* needs_calibration *)
  cf_udmabuf : Z;
  cf_hybrid_sample : Z;
  cf_input : option string * bool; (* input_path, input_on_stdin *)
  cf_stats : option string;
  cf_verbose : Z
}.

(** The loop over the arguments from index 1: [argvp], or FATAL. *)
Fixpoint find_target (args : list string) : option (list string) :=
  match args with
  | [] => None
  | a :: rest =>
      match rest with
      | [] => None
      | target :: _ =>
          if String.eqb a "--" then if exists_file target then Some rest else None
          else find_target rest
      end
  end.

(** AFLCS_COV; [None] is FATAL. *)
Definition read_cov `{EtmEnv} : option cov_type_t :=
  match getenv "AFLCS_COV" with
  | None => Some edge_cov
  | Some v =>
      if String.eqb v "edge" then Some edge_cov
      else if String.eqb v "path" then Some path_cov
      else if String.eqb v "hybrid" then if stalker_decoder then Some hybrid_cov else None
      else None
  end.

(** [strtoul] in base 10. *)
Definition strtoul10 (s : string) : Z :=
  let '(neg, s1) := scan_sign (skip_ws s) in
  let v := (scan_digits s1 0).1 in
  if v >? ULLONG_MAX then ULLONG_MAX else u64 (if neg then - v else v).

(** The settings, once the checks have passed. *)
Definition read_config `{EtmEnv} (argv : list string) (stdin_regular : bool) : option config :=
  target ← find_target (tail argv);
  cov ← read_cov;
  let hybrid := bool_decide (cov = hybrid_cov) in
  Some {|
    cf_target := target;
    cf_cov := cov;
    cf_decoding_on := bool_decide (getenv "AFLCS_NO_DECODER" = None);
    cf_calibrate := stalker_decoder && negb (bool_decide (getenv "AFLCS_FREQ_CALIBRATE" = Some "0"%string));
    cf_udmabuf := match getenv "AFLCS_UDMABUF" with Some s => atoi s | None => 0 end;
    cf_hybrid_sample :=
      if hybrid then match getenv "AFLCS_HYBRID_SAMPLE" with Some s => strtoul10 s | None => 0 end else 0;
    cf_input := if hybrid then find_input target stdin_regular else (None, false);
    cf_stats := getenv "AFLCS_STATS_FILE";
    cf_verbose := match getenv "AFLCS_REG_VERBOSE" with Some s => atoi s | None => 0 end
  |}.

(** How [main] gets to its loop. *)
Inductive start :=
  | Returns (code : Z)                                    (* an early return of main *)
  | Fatal                                                 (* FATAL in main *)
  | Died (words : list Z) (code : Z)                      (* exit in __afl_map_shm *)
  | Started (cfg : config) (size : Z) (bitmap : option (list Z)) (envp : option (list string)).

Definition forksrv_path : option string := get_libforksrv_path self_exe "libforksrv.so".

Definition proxy_main `{EtmEnv, MapsEnv} (argv : list string) (stdin_regular : bool) : start :=
  if negb abort_hooked then Returns 1
  else if negb (match forksrv_path with Some p => exists_file p | None => false end) then Returns (-1)
  else if negb is_root then Returns (-1)
  else if zlen argv <? 3 then Returns (-1)
  else if negb (check_udmabuf =? 0) then Returns (-1)
  else
    match read_config argv stdin_regular with
    | None => Fatal
    | Some cfg =>
        match __afl_map_shm MAP_SIZE with
        | (words, Exits code) => Died words code
        | (_, Goes (size, bitmap)) => Started cfg size bitmap (target_env forksrv_path)
        end
    end.

End Launch.
Arguments Exits {A}.
Arguments Goes {A}.

(** ** Facts *)

Section Facts.
Context `{FsOpts, LaunchEnv}.

(** The entries CS_PASS_ENV asks for: one for each name that is set, in order. *)
Definition passed (names : string) : list string :=
  omap (fun name => value ← getenv name; Some (name +:+ "=" +:+ value)%string) (strtok names).

Lemma pass_env_exact names envp :
  (3 <= length envp <= 3 + CS_PASS_ENV_MAX)%nat ->
  pass_env names envp =
    let l := envp ++ omap (fun name => value ← getenv name; Some (name +:+ "=" +:+ value)%string) names in
    if bool_decide (length l <= 3 + CS_PASS_ENV_MAX)%nat then Some l else None.
Proof.
  revert envp. induction names as [|name names IH]; intros envp Hlen; cbn [pass_env omap list_omap].
  - cbn zeta. rewrite app_nil_r, bool_decide_true by lia. done.
  - destruct (getenv name) as [value|]; cbn [mbind option_bind]; [| by apply IH].
    case_bool_decide as Hfull.
    + cbn zeta. rewrite bool_decide_false; [done |]. rewrite length_app. cbn [length]. lia.
    + rewrite IH by (rewrite length_app; cbn; lia). unfold append_string. cbn [default].
      rewrite <- app_assoc. cbn [app]. by rewrite string_app_assoc.
Qed.

(** Reading an environment: the first entry for a name. *)
Fixpoint strip (p s : string) : option string :=
  match p, s with
  | EmptyString, _ => Some s
  | String a p, String b s => if Ascii.eqb a b then strip p s else None
  | String _ _, EmptyString => None
  end.
Fixpoint env_lookup (name : string) (envp : list string) : option string :=
  match envp with
  | [] => None
  | e :: envp =>
      match strip (name +:+ "=") e with Some v => Some v | None => env_lookup name envp end
  end.

(** What the fork server finds in it. *)
Definition chars : string -> text := String.list_ascii_of_string.
Definition server_env (envp : list string) : Forksrv.env :=
  MkEnvVars (bool_decide (is_Some (env_lookup "__CS_PROXY" envp)))
    (bool_decide (is_Some (env_lookup "__CS_TRACE" envp))) (chars <$> env_lookup "LD_PRELOAD" envp).

Lemma chars_app s t : chars (s +:+ t) = chars s ++ chars t.
Proof.
  induction s as [|c s IH]; [done |].
  change (chars (String c s +:+ t)) with (c :: chars (s +:+ t)). by rewrite IH.
Qed.

Lemma target_env_head forksrv envp :
  target_env forksrv = Some envp ->
  exists rest, envp = ["__CS_PROXY=1"; preload_entry forksrv; library_entry]%string ++ rest.
Proof.
  unfold target_env. destruct (getenv "CS_PASS_ENV") as [names|]; [| intros [= <-]; by exists []].
  rewrite pass_env_exact by (cbn; unfold CS_PASS_ENV_MAX; lia). cbn zeta. case_bool_decide; [| done].
  intros [= <-]. by eexists.
Qed.

Lemma server_env_target path envp :
  target_env (Some path) = Some envp -> getenv "CS_DEFER_FORKSRV" = None ->
  cs_proxy (server_env envp) = true /\
  ld_preload (server_env envp) = Some (chars (default "" (getenv "CS_LD_PRELOAD")) ++ chars path).
Proof.
  intros [rest ->]%target_env_head Hd.
  assert (preload_entry (Some path) = "LD_PRELOAD=" +:+ (default "" (getenv "CS_LD_PRELOAD") +:+ path))%string
    as ->.
  { unfold preload_entry. rewrite Hd. by destruct (getenv "CS_LD_PRELOAD"). }
  split; [done |]. rewrite <- chars_app. done.
Qed.

(** The path occurs only where the proxy appended it. *)
Definition appended_once (p path : text) : Prop :=
  path <> [] /\ forall a b, p ++ path = a ++ path ++ b -> b = [].

Lemma cut_appended p path :
  appended_once p path -> cut_all (S (length (p ++ path))) (p ++ path) path = Some p.
Proof.
  intros [Hne Hocc]. cbn [cut_all].
  destruct (strstr (p ++ path) path) as [[a b]|] eqn:Hs.
  2: { by apply (strstr_none _ _ p []) in Hs; rewrite app_nil_r in Hs. }
  apply strstr_some in Hs. pose proof (Hocc _ _ Hs) as ->.
  assert (a = p) as ->. { rewrite app_nil_r in Hs. by apply app_inv_tail in Hs. }
  rewrite app_nil_r, length_app. destruct path as [|c path]; [done |].
  rewrite Nat.add_comm. cbn [length Nat.add cut_all].
  destruct (strstr p (c :: path)) as [[a b]|] eqn:Hp; [| done].
  apply strstr_some in Hp. specialize (Hocc a (b ++ c :: path)).
  rewrite Hp in Hocc at 1. rewrite <- !app_assoc in Hocc. specialize (Hocc eq_refl).
  by apply app_nil in Hocc as [_ ?].
Qed.

(** Arguments. *)
Lemma find_target_spec args target :
  find_target args = Some target ->
  exists pre t ts, args = pre ++ "--"%string :: target /\ target = t :: ts /\ exists_file t = true.
Proof.
  induction args as [|a rest IH]; [done |]. cbn [find_target].
  destruct rest as [|t ts]; [done |]. destruct (String.eqb_spec a "--") as [-> |].
  - destruct (exists_file t) eqn:Hf; [| done]. intros [= <-]. by exists [], t, ts.
  - intros Ht. destruct (IH Ht) as (pre & t' & ts' & -> & Hrest). by exists (a :: pre), t', ts'.
Qed.

Lemma strtoul10_bound s : 0 <= strtoul10 s < 2 ^ 64.
Proof.
  unfold strtoul10. destruct (scan_sign _) as [neg s1]. destruct (_ >? _); [done |]. apply u64_bound.
Qed.

Lemma map_shm_size size words n bitmap :
  __afl_map_shm size = (words, Goes (n, Some bitmap)) -> MAP_SIZE <= FS_OPT_MAX_MAPSIZE ->
  n = map_size size /\ n <= FS_OPT_MAX_MAPSIZE /\ words = [].
Proof.
  unfold __afl_map_shm. destruct (getenv SHM_ENV_VAR) as [id|]; [| done].
  destruct (Z.gtb_spec (map_size size) MAP_SIZE), (Z.gtb_spec (map_size size) FS_OPT_MAX_MAPSIZE);
    cbn; try destruct (attach_map id (map_size size)) as [[]|]; try done; intros [= <- <- _] ?; (split_and!; [done | lia | done]).
Qed.

(** The errors of AFL++'s protocol are 16-bit numbers. *)
Record fs_errors : Prop := {
  fe_size : 0 < FS_ERROR_MAP_SIZE <= 0xffff;
  fe_shmat : 0 < FS_ERROR_SHMAT <= 0xffff;
  fe_open : 0 < FS_ERROR_SHM_OPEN <= 0xffff;
  fe_mmap : 0 < FS_ERROR_MMAP <= 0xffff
}.

Lemma error_sent e : 0 < e <= 0xffff -> send_forkserver_error e = [u32 (Z.lor FS_OPT_ERROR (FS_OPT_SET_ERROR e))].
Proof.
  intros He. unfold send_forkserver_error. destruct (Z.eqb_spec e 0), (Z.gtb_spec e 0xffff); (done || lia).
Qed.

Lemma attach_error id size e code : fs_errors -> attach_map id size = inl (e, code) -> 0 < e <= 0xffff.
Proof. intros []. unfold attach_map. repeat case_match; intros; by simplify_eq. Qed.

End Facts.

(** The target is started with exactly the proxy's mark, the two loader
    variables, and one entry NAME=VALUE for each variable CS_PASS_ENV names that
    is set, in that order; when there are more than sixteen of those the child
    stops instead of writing past its array. *)
Theorem target_env_exact `{FsOpts, LaunchEnv} (forksrv : option string) (names : string) :
  getenv "CS_PASS_ENV" = Some names ->
  target_env forksrv =
    if bool_decide (length (passed names) <= 16)%nat
    then Some (["__CS_PROXY=1"; preload_entry forksrv; library_entry]%string ++ passed names) else None.
Proof.
  intros Hn. unfold target_env. rewrite Hn, pass_env_exact by (cbn; unfold CS_PASS_ENV_MAX; lia).
  cbn zeta. fold (passed names). rewrite length_app. unfold CS_PASS_ENV_MAX. cbn [length].
  do 2 case_bool_decide; (done || lia).
Qed.


(** With AFL++'s shared map, the proxy either dies, having reported why, before
    the target is started, or the word it answers the target's zero with
    announces the size of the map it attached. *)
Theorem map_size_announced `{FsOpts, LaunchEnv} (id : string) :
  getenv SHM_ENV_VAR = Some id -> MAP_SIZE <= FS_OPT_MAX_MAPSIZE -> fs_errors -> 0 < FS_OPT_MAPSIZE ->
  match __afl_map_shm MAP_SIZE with
  | (words, Exits code) =>
      exists e, words = [u32 (Z.lor FS_OPT_ERROR (FS_OPT_SET_ERROR e))] /\
        (e = FS_ERROR_MAP_SIZE /\ map_size MAP_SIZE > FS_OPT_MAX_MAPSIZE \/
         attach_map id (map_size MAP_SIZE) = inl (e, code))
  | (words, Goes (size, bitmap)) =>
      words = [] /\ size = map_size MAP_SIZE /\ is_Some bitmap /\
      phone_home 0 size = u32 (Z.lor (Z.lor (FS_OPT_SET_MAPSIZE size) FS_OPT_MAPSIZE) FS_OPT_ENABLED)
  end.
Proof.
  intros Hid Hmax He Hms. destruct (__afl_map_shm MAP_SIZE) as [words [code | [size [bitmap|]]]] eqn:Hs.
  - unfold __afl_map_shm in Hs. rewrite Hid in Hs. destruct (_ && _) eqn:Hbig.
    + injection Hs as <- <-. exists FS_ERROR_MAP_SIZE. split; [apply error_sent, He |]. left. split; [done |].
      apply andb_true_iff in Hbig as [_ Hbig]. lia.
    + destruct (attach_map id (map_size MAP_SIZE)) as [[e c]|] eqn:Ha; [| done]. injection Hs as <- <-.
      exists e. split; [by eapply error_sent, attach_error |]. by right.
  - destruct (map_shm_size _ _ _ _ Hs Hmax) as (Hn & Hle & ->). split_and!; [done | done | by eexists |].
    unfold phone_home. cbn [Z.eqb]. destruct (Z.leb_spec size FS_OPT_MAX_MAPSIZE); [| lia].
    rewrite Z.lor_0_l. unfold c_true. destruct (Z.eqb_spec (Z.lor (FS_OPT_SET_MAPSIZE size) FS_OPT_MAPSIZE) 0) as [Hz|];
      [| done]. apply Z.lor_eq_0_iff in Hz as [_ ?]. lia.
  - unfold __afl_map_shm in Hs. rewrite Hid in Hs. destruct (_ && _); [done |].
    by destruct (attach_map id (map_size MAP_SIZE)) as [[]|].
Qed.

(** C34: The settings the main loop runs with are well formed: the target is
    the part of the command line after a "--", not empty and an existing file;
    hybrid coverage is chosen only in a Stalker build; calibration only there;
    the test case is looked for and sampling asked for only in hybrid mode. *)
Theorem proxy_config_wf `{FsOpts, LaunchEnv, EtmEnv, MapsEnv} (argv : list string) (stdin_regular : bool)
    (cfg : config) (size : Z) (bitmap : option (list Z)) (envp : option (list string)) :
  proxy_main argv stdin_regular = Started cfg size bitmap envp ->
  (exists pre t ts, argv = pre ++ "--"%string :: cf_target cfg /\ cf_target cfg = t :: ts /\
     exists_file t = true) /\
  (cf_cov cfg = hybrid_cov -> stalker_decoder = true) /\ (cf_calibrate cfg = true -> stalker_decoder = true) /\
  (cf_cov cfg <> hybrid_cov -> cf_hybrid_sample cfg = 0 /\ cf_input cfg = (None, false)) /\
  0 <= cf_hybrid_sample cfg < 2 ^ 64 /\ size = map_size MAP_SIZE.
Proof.
  unfold proxy_main. destruct (negb abort_hooked); [done |].
  destruct (negb (match forksrv_path with Some p => exists_file p | None => false end)); [done |].
  destruct (negb is_root); [done |]. destruct (zlen argv <? 3); [done |].
  destruct (negb (check_udmabuf =? 0)); [done |].
  destruct (read_config argv stdin_regular) as [cfg'|] eqn:Hc; [| done].
  destruct (__afl_map_shm MAP_SIZE) as [words [code | [n b]]] eqn:Hs; [done |]. intros [= <- <- <- <-].
  unfold read_config in Hc. apply bind_Some in Hc as (target & Ht & Hc).
  apply bind_Some in Hc as (cov & Hcov & [= <-]). cbn.
  destruct (find_target_spec _ _ Ht) as (pre & t & ts & Ha & Htt & Hf). split_and!.
  - destruct argv as [|a argv]; [done |]. cbn in Ha. exists (a :: pre), t, ts. by rewrite Ha.
  - unfold read_cov in Hcov. repeat case_match; simplify_eq; done.
  - by intros [? _]%andb_true_iff.
  - intros Hh. by rewrite !bool_decide_false.
  - case_bool_decide; [| lia]. destruct (getenv "AFLCS_HYBRID_SAMPLE"); [apply strtoul10_bound | lia].
  - case_bool_decide; [| lia]. destruct (getenv "AFLCS_HYBRID_SAMPLE"); [apply strtoul10_bound | lia].
  - unfold __afl_map_shm in Hs. repeat case_match; by simplify_eq.
Qed.

(** The names of LD_PRELOAD as the loader splits it, at colons and spaces. *)
Fixpoint preload_names (s cur : text) : list text :=
  match s with
  | [] => [cur]
  | c :: s =>
      if bool_decide (c = ":"%char \/ c = " "%char) then cur :: preload_names s []
      else preload_names s (cur ++ [c])
  end.

(** Nothing separates the user's libraries from the fork server's: without a
    trailing separator of the user's own the last name is the two run together. *)
Lemma preload_glued p path :
  Forall (fun c => ~ (c = ":"%char \/ c = " "%char)) (p ++ path) ->
  preload_names (p ++ path) [] = [p ++ path].
Proof.
  intros Hf. assert (forall s cur, Forall (fun c => ~ (c = ":"%char \/ c = " "%char)) s ->
    preload_names s cur = [cur ++ s]) as Hgen.
  { intros s. induction s as [|c s IH]; intros cur Hs; cbn [preload_names]; [by rewrite app_nil_r |].
    apply Forall_cons in Hs as [Hc Hs]. rewrite bool_decide_false by done.
    by rewrite IH, <- app_assoc by done. }
  by rewrite Hgen.
Qed.
