(* ===== verification/CsTrace.v ===== *)
(** * The cs-trace command (src/src/cs-trace.c) and the system-call helpers of
    src/src/utils.c

    cs-trace traces one program from its start to its end: options, the child
    with its environment, and the parent that waits for it.  What [waitpid]
    reports is a list of statuses; once the child has been reaped it fails and
    leaves the status word as it was.  [getopt_long] is the C library's: the
    options it found, in order, with the index it stopped at. *)

From stdpp Require Import base numbers list strings.
From Stdlib Require Import ZArith Lia Ascii.
From S2P Require Import Prelude Cstr MapInfo Etm Proxy Forksrv Launch.

(** ** The parent *)

Definition WIFEXITED (status : Z) : bool := Z.land status 0x7f =? 0.
Definition PTRACE_EVENT_VFORK_DONE : Z := 5.

(** What the parent does to the tracer and to the child. *)
Inductive parent_call :=
  | PtraceCont
  | InitTrace
  | StartTrace
  | SuspendResume             (* trace_suspend_resume_callback *)
  | StopTrace (disable_all : bool)
  | FiniTrace.

(** [waitpid]: the next status, or the old word when it fails. *)
Definition waitpid (sts : list Z) (wstatus : Z) : Z * list Z :=
  match sts with [] => (wstatus, []) | s :: sts => (s, sts) end.

(** The [while (1)], [fuel] turns of it: the calls and the last status, [None]
    when it has not ended by then. *)
Fixpoint parent_loop (fuel : nat) (sts : list Z) (wstatus : Z) : list parent_call * option Z :=
  match fuel with
  | O => ([], None)
  | S fuel =>
      let '(wstatus, sts) := waitpid sts wstatus in
      if WIFEXITED wstatus then ([StopTrace true; FiniTrace], Some wstatus)
      else if WIFSTOPPED wstatus && (WSTOPSIG wstatus =? SIGSTOP) then
        let '(calls, r) := parent_loop fuel sts wstatus in (SuspendResume :: calls, r)
      else parent_loop fuel sts wstatus
  end.

(** [wstatus] starts as what the stack held. *)
Definition parent (fuel : nat) (sts : list Z) (wstatus : Z) : list parent_call * option Z :=
  let '(wstatus, sts) := waitpid sts wstatus in
  let '(pre, (wstatus, sts)) :=
    if WIFSTOPPED wstatus && (WSTOPSIG wstatus =? PTRACE_EVENT_VFORK_DONE)
    then let r := waitpid sts wstatus in ([PtraceCont; InitTrace; StartTrace; PtraceCont], r)
    else ([], (wstatus, sts)) in
  let '(calls, r) := parent_loop fuel sts wstatus in (pre ++ calls, r).

(** ** The child *)

(** The environment of [execve]. *)
Definition child `{LaunchEnv} (forksrv : option string) : list string :=
  ["__CS_TRACE=1"%string; preload_entry forksrv; library_entry].

(** ** Options *)

(** The short options [main] passes to [getopt_long], and those with a long
    form, which [usage] lists. *)
Definition short_options : string := "b:c:d:lev::h".
Definition long_options : list (string * ascii) :=
  [("board"%string, "b"%char); ("cpu"%string, "c"%char); ("decoding"%string, "d"%char);
   ("coverage"%string, "l"%char); ("export"%string, "e"%char); ("udmabuf"%string, "u"%char);
   ("verbose"%string, "v"%char); ("help"%string, "h"%char)].

Record options := MkOptions {
  o_board : option string;
  o_cpu : Z;
  o_cov : cov_type_t;
  o_decoding : bool;
  o_export : bool;
  o_coverage : bool;
  o_udmabuf : Z;
  o_verbose : Z
}.

#[export] Instance eta_options : Eta options := fun o =>
  MkOptions (o_board o) (o_cpu o) (o_cov o) (o_decoding o) (o_export o) (o_coverage o) (o_udmabuf o)
    (o_verbose o).

(** The defaults: DEFAULT_BOARD_NAME is the build's. *)
Definition options_default : options := MkOptions None (-1) edge_cov false false false 0 0.

(** The [switch] on one option and its argument: [inl] is [exit]. *)
Definition handle_option (opt : ascii) (optarg : option string) (o : options) : Z + options :=
  match opt, optarg with
  | "b"%char, arg => inr (o <| o_board := arg |>)
  | "c"%char, Some arg => inr (o <| o_cpu := atoi arg |>)
  | "d"%char, Some arg =>
      if String.eqb arg "edge" then inr (o <| o_cov := edge_cov |> <| o_decoding := true |>)
      else if String.eqb arg "path" then inr (o <| o_cov := path_cov |> <| o_decoding := true |>)
      else inl 1
  | "e"%char, _ => inr (o <| o_export := true |>)
  | "l"%char, _ => inr (o <| o_coverage := true |>)
  | "u"%char, Some arg => inr (o <| o_udmabuf := atoi arg |>)
  | "v"%char, Some arg => inr (o <| o_verbose := atoi arg |>)
  | "v"%char, None => inr (o <| o_verbose := 1 |>)
  | "h"%char, _ => inl 0
  | _, _ => inr o
  end.

Fixpoint handle_options (opts : list (ascii * option string)) (o : options) : Z + options :=
  match opts with
  | [] => inr o
  | (opt, arg) :: opts =>
      match handle_option opt arg o with inl code => inl code | inr o => handle_options opts o end
  end.

(** [argv] after [getopt_long] permuted it, and [optind]. *)
Record parsed := MkParsed { g_opts : list (ascii * option string); g_argv : list string; g_optind : nat }.

(** [main] up to the fork: [inl] is the exit code. *)
Definition trace_main `{LaunchEnv, MapsEnv} (argv : list string) (g : parsed)
    : Z + (options * list string) :=
  if zlen argv <? 3 then inl 0
  else if negb (match get_libforksrv_path self_exe "libforksrv.so" with
                | Some p => exists_file p | None => false end) then inl (-1)
  else if negb is_root then inl 1
  else if negb (check_udmabuf =? 0) then inl 1
  else
    match handle_options (g_opts g) options_default with
    | inl code => inl code
    | inr o =>
        if bool_decide (length (g_argv g) <= g_optind g)%nat ||
           negb (bool_decide (g_argv g !! (g_optind g - 1)%nat = Some "--"%string)) then inl 1
        else if negb (o_decoding o) && o_coverage o || o_coverage o && bool_decide (o_cov o = path_cov)
        then inl 1
        else
          let argvp := drop (g_optind g) (g_argv g) in
          if negb (match argvp with exe :: _ => exists_file exe | [] => false end) then inl 1
          else inr (o, argvp)
    end.

(** The fork and what follows it: an early exit, the program the child executes
    with its environment, or the calls of the parent, which has seen the end of
    the child or still waits for it. *)
Inductive trace_end :=
  | TraceExits (code : Z)
  | TraceExecs (argvp envp : list string)
  | TraceDone (calls : list parent_call)
  | TraceWaits (calls : list parent_call).

Definition cs_trace_main `{LaunchEnv, MapsEnv} (argv : list string) (g : parsed) (pid : Z) (fuel : nat)
    (sts : list Z) (wstatus : Z) : trace_end :=
  match trace_main argv g with
  | inl code => TraceExits code
  | inr (_, argvp) =>
      if pid =? 0 then TraceExecs argvp (child (get_libforksrv_path self_exe "libforksrv.so"))
      else if pid =? -1 then TraceExits 1
      else
        match parent fuel sts wstatus with
        | (calls, Some _) => TraceDone calls
        | (calls, None) => TraceWaits calls
        end
  end.

(** ** Registers of a stopped child *)

(** [struct user_pt_regs]: its first 31 words; [ptrace] copies [len] bytes of
    the child's over the ones of the caller. *)
Definition ptrace_getregset (len : nat) (child_regs stack : list Z) : list Z :=
  let k := (len / 8)%nat in take k child_regs ++ drop k stack.

(** [get_pid_syscall_regs]: [sizeof(regs)] is the size of a pointer; [stack] is
    what the caller's buffer held. *)
Definition get_pid_syscall_regs (child_regs : option (list Z)) (stack : list Z) : Z * list Z :=
  match child_regs with
  | None => (-1, stack)
  | Some child_regs =>
      let regs := ptrace_getregset 8 child_regs stack in (default 0 (regs !! 8%nat), regs)
  end.

Definition NR_exit_group : Z := 94.

Definition is_syscall_exit_group (child_regs : option (list Z)) (stack : list Z) : bool :=
  (get_pid_syscall_regs child_regs stack).1 =? NR_exit_group.

(** [struct mmap_params]: the six arguments of the call. *)
Definition NR_mmap : Z := 222.
Definition get_mmap_params (child_regs : option (list Z)) (stack : list Z) : option (list Z) :=
  let '(syscall, regs) := get_pid_syscall_regs child_regs stack in
  if syscall =? NR_mmap then
    Some [default 0 (regs !! 0%nat); default 0 (regs !! 1%nat); s32 (default 0 (regs !! 2%nat));
          s32 (default 0 (regs !! 3%nat)); s32 (default 0 (regs !! 4%nat)); default 0 (regs !! 5%nat)]
  else None.

(** ** Properties *)

(** A stop of the kind the decoder thread asks for. *)
Definition sigstop_stop (st : Z) : bool := WIFSTOPPED st && (WSTOPSIG st =? SIGSTOP).

Lemma parent_loop_exits stops last wstatus fuel :
  Forall (fun st => WIFEXITED st = false) stops -> WIFEXITED last = true ->
  (length stops < fuel)%nat ->
  parent_loop fuel (stops ++ [last]) wstatus =
    (replicate (length (filter (fun st => sigstop_stop st) stops)) SuspendResume ++ [StopTrace true; FiniTrace],
     Some last).
Proof.
  intros Hs Hl. revert wstatus fuel. induction Hs as [|st stops Hst Hs IH]; intros w fuel Hf.
  - destruct fuel as [|fuel]; [cbn in Hf; lia |]. cbn. by rewrite Hl.
  - destruct fuel as [|fuel]; [cbn in Hf; lia |]. cbn [app parent_loop waitpid].
    rewrite Hst, IH by (cbn in Hf; lia). fold (sigstop_stop st).
    destruct (sigstop_stop st) eqn:Hg.
    + rewrite filter_cons_True by (by apply Is_true_eq_left). done.
    + rewrite filter_cons_False by (by apply Is_true_false). done.
Qed.


(** C40: When a signal ends the child, the parent's loop never ends: the status
    is neither an exit nor a stop, and the waits after it fail and leave it. *)
Theorem killed_child_never_noticed (stops : list Z) (st wstatus : Z) (fuel : nat) :
  Forall (fun st => WIFEXITED st = false) stops -> WIFSIGNALED st = true ->
  (parent_loop fuel (stops ++ [st]) wstatus).2 = None.
Proof.
  intros Hs Hst.
  assert (WIFEXITED st = false /\ WIFSTOPPED st = false) as [He Hp].
  { unfold WIFSIGNALED, WIFEXITED, WIFSTOPPED in *. apply andb_true_iff in Hst as [H1 H2].
    destruct (Z.land st 0x7f =? 0); [done |]. split; [done |].
    destruct (Z.eqb_spec (Z.land st 0xff) 0x7f) as [Hq|]; [| done].
    assert (Z.land st 0x7f = 0x7f) as Hr.
    { change 0x7f with (Z.land 0xff 0x7f) at 1. by rewrite Z.land_assoc, Hq. }
    by rewrite Hr in H2. }
  assert (forall fuel, (parent_loop fuel [] st).2 = None) as Hstuck.
  { intros k. induction k as [|k IH]; [done |]. cbn [parent_loop waitpid]. rewrite He, Hp. exact IH. }
  revert wstatus fuel. induction Hs as [|s stops Hns Hs IH]; intros w fuel.
  - destruct fuel as [|fuel]; [done |]. cbn [app parent_loop waitpid]. rewrite He, Hp. apply Hstuck.
  - destruct fuel as [|fuel]; [done |]. cbn [app parent_loop waitpid]. rewrite Hns.
    specialize (IH s fuel). destruct (_ && _); [| done].
    by destruct (parent_loop fuel (stops ++ [st]) s).
Qed.

Lemma handle_options_cov opts o o' :
  handle_options opts o = inr o' -> o_cov o <> hybrid_cov -> o_cov o' <> hybrid_cov.
Proof.
  revert o. induction opts as [|[c arg] opts IH]; intros o; [by intros [= <-] |]. cbn [handle_options].
  destruct (handle_option c arg o) as [code | o1] eqn:Ho; [done |]. intros Hr Hc. apply (IH o1 Hr).
  unfold handle_option in Ho. repeat case_match; by simplify_eq.
Qed.

(** The options cs-trace goes on with are consistent: a coverage file is
    asked for only with edge decoding, and the program to run is what follows a
    "--", an existing file. *)
Theorem trace_options_consistent `{LaunchEnv, MapsEnv} (argv : list string) (g : parsed) (o : options)
    (argvp : list string) :
  (1 <= g_optind g)%nat -> trace_main argv g = inr (o, argvp) ->
  (o_coverage o = true -> o_decoding o = true /\ o_cov o = edge_cov) /\
  exists pre exe args, argvp = exe :: args /\ exists_file exe = true /\
    g_argv g = pre ++ "--"%string :: argvp.
Proof.
  intros Hind. unfold trace_main. destruct (zlen argv <? 3); [done |].
  destruct (negb (match get_libforksrv_path self_exe "libforksrv.so" with
                  | Some p => exists_file p | None => false end)); [done |].
  destruct (negb is_root); [done |]. destruct (negb (check_udmabuf =? 0)); [done |].
  destruct (handle_options (g_opts g) options_default) as [code | o1] eqn:Ho; [done |].
  destruct (bool_decide _ || negb _) eqn:Hidx; [done |].
  destruct (negb (o_decoding o1) && o_coverage o1 || _) eqn:Hcv; [done |].
  destruct (drop (g_optind g) (g_argv g)) as [|exe args] eqn:Hdrop; [done |].
  destruct (exists_file exe) eqn:Hf; [| done]. intros [= <- <-].
  apply orb_false_iff in Hidx as [_ Hdash]. apply negb_false_iff, bool_decide_eq_true in Hdash. split.
  - intros Hc. rewrite Hc, andb_true_r in Hcv. apply orb_false_iff in Hcv as [Hd Hp]. cbn in Hp.
    apply bool_decide_eq_false in Hp. apply negb_false_iff in Hd. split; [done |].
    apply handle_options_cov in Ho; [| done]. by destruct (o_cov o1).
  - exists (take (g_optind g - 1) (g_argv g)), exe, args. split_and!; [done | done |].
    rewrite <- Hdrop. rewrite <- (take_drop_middle _ _ _ Hdash) at 1. do 3 f_equal. lia.
Qed.

(** The short form of --udmabuf, which the usage text lists, is not among the
    options [getopt_long] is told to accept. *)
Lemma udmabuf_short_option_missing :
  ("udmabuf"%string, "u"%char) ∈ long_options /\ strchr short_options "u" = None.
Proof. split; [by apply list_elem_of_In; cbn; tauto | done]. Qed.

(** Only the first register arrives: the number of the system call is whatever
    the caller's buffer held, not the child's. *)
Lemma syscall_number_not_read (child_regs stack : list Z) :
  (1 <= length child_regs)%nat -> (get_pid_syscall_regs (Some child_regs) stack).1 = default 0 (stack !! 8%nat).
Proof.
  intros Hl. unfold get_pid_syscall_regs, ptrace_getregset. cbn [fst].
  destruct child_regs as [|r rs]; [cbn in Hl; lia |]. cbn. destruct stack; done.
Qed.
