(* ===== verification/StartDemo.v ===== *)
(** * A session from the command line on

    A decoder that counts the Overflow packets it meets, a board, files and an
    environment, on which the theorems on the decoder, on the start and the end
    of tracing, on the proxy's start and on cs-trace are applied. *)

From stdpp Require Import base numbers list gmap strings.
From Stdlib Require Import ZArith Lia Ascii.
From S2P Require Import Prelude Cstr Hash Boards MapInfo MapInfoFacts Etm TraceBuf Cpu Proxy Forksrv Launch CsTrace Decoder Setup.

(** ** The decoder *)

(** The state is the number of Overflow packets since start-up; a byte 5 is one. *)
#[local] Instance count_lib : DecoderLib Z := {|
  LIBCSDEC_SUCCESS := 0;
  LIBCSDEC_PATH_SIZE := 4096;
  libcsdec_init _ _ _ n := (true, n);
  libcsdec_reset _ _ _ n := (0, n);
  libcsdec_run _ bitmap buf n := (0, bitmap, n + zlen (filter (fun b => b = 5) buf));
  libcsdec_finish _ n := n;
  libcsdec_overflow_packets n := n;
  stalker_decoder_init _ _ n := (0, n);
  stalker_decoder_set_trace_id _ n := n;
  stalker_decoder_set_bb_mode _ n := n;
  stalker_decode_trace bitmap _ n := (0, bitmap, n);
  stalker_decode_did_overflow _ := false
|}.

#[local] Instance count_env : DecoderEnv := {|
  malloc_bitmap := Some (replicate 16 0); malloc_map := true; malloc_img := true; basename s := s;
  AFLCS_STALKER_DUMP_BYTES := None; AFLCS_STALKER_DIAG := false; coverage := false
|}.

#[local] Instance armored_env : EtmEnv := {|
  stalker_decoder := false; AFLCS_PID_FILTER := None; AFLCS_STALKER_EL0_VIEW := None;
  AFLCS_ETM_VICTLR := None; AFLCS_ETM_STALLCRLR := None; AFLCS_ETM_SYNCPR := None
|}.

Lemma count_lib_counts : counts_packets (D := Z).
Proof. split; cbn; [lia | done | done]. Qed.

(** A decoder that has met three packets in earlier executions. *)
Definition demo_dec : dec Z :=
  (dec_static 3 edge_cov (Some (replicate 16 0)) 16) <| decoder := true |> <| seen_overflow_packets := 3 |>.

Lemma overflow_flag_exact_witness :
  trace_did_overflow (run_passes [[1; 2]; [5; 9]] (reset_decoder [] demo_dec).2) = true <->
  exists pre buf post, [[1; 2]; [5; 9]] = pre ++ buf :: post /\
    pass_overflowed buf (run_passes pre (reset_decoder [] demo_dec).2).
Proof.
  apply (overflow_flag_exact [] [[1; 2]; [5; 9]] demo_dec); [apply count_lib_counts | | done].
  by split_and!.
Defined.

(** It is set by the second pass, and not without it. *)
Example demo_overflow :
  trace_did_overflow (run_passes [[1; 2]; [5; 9]] (reset_decoder [] demo_dec).2) = true /\
  trace_did_overflow (run_passes [[1; 2]] (reset_decoder [] demo_dec).2) = false.
Proof. vm_compute. done. Qed.

Lemma map_hash_one_byte_witness : map_hash ([0; 1] ++ 1 :: [0]) <> map_hash ([0; 1] ++ 2 :: [0]).
Proof. apply map_hash_one_byte; try done; repeat constructor; done. Defined.

(** ** Initialisation and export *)

#[local] Instance demo_cpus : CpuEnv := {|
  get_nprocs := 4;
  sched_getaffinity pid := if pid =? 1 then Some {[ 0 ]} else Some {[ 2 ]};
  core_cpus_list cpu := Some (fmt_d cpu);
  proc_dir := None
|}.

#[local] Instance demo_affinity : AffinityEnv := {|
  cpu_alloc := true; sched_setaffinity _ _ := true; pthread_setaffinity_np _ := 0
|}.

#[local] Instance demo_maps : MapsEnv := {|
  proc_maps pid := Some (print_maps [MkVma 0x400000 0x452000 true false true false 0 8 1 1234 20 "/usr/bin/readelf"]);
  CS_TRACE_LIB := None;
  open_ro _ := true;
  mmap_ro _ _ _ := Some 0xffff0000;
  uninit := MkScan 0 0 " " 0;
  args_open := true;
  fprintf_ok _ := true;
  udmabuf_dir _ := true;
  udmabuf_attr _ a := if String.eqb a "size" then Some "8388608"%string else Some "0x30000000"%string;
  proc_modules := ["u_dma_buf 16384 0 - Live"%string]
|}.

#[local] Instance demo_setup : SetupEnv := {|
  udmabuf_num := 0;
  board_name := "ZCU 104";
  Setup.decoding_on := true;
  setup_named_board n := b ← last (known_boards (fun _ => 0)); Some (b, (do_registration b devices_zero).2);
  pthread_create := 0;
  getcwd := Some "/root"%string;
  fopen_trace _ := true
|}.

Definition demo_init : Z * common Z :=
  init_trace 1 1234 (common_static (-1) (dec_static 0 edge_cov None 16)).


(** It succeeds: CPU 1 is traced, with its identifier. *)
Example demo_init_ok :
  demo_init.1 = 0 /\ c_trace_cpu demo_init.2 = 1 /\ trace_id (c_dec demo_init.2) = 0x11 /\
  c_range_count demo_init.2 = 1.
Proof. vm_compute. done. Qed.

Lemma demo_traceable : traceable demo_init.2.
Proof.
  constructor; [done | done | by vm_compute; eexists | by vm_compute | by vm_compute | | done].
  intros _. split_and!; [by vm_compute | done |]. vm_compute. by eexists _, _.
Qed.

(** ** The proxy's start *)

#[local] Instance demo_fs : FsOpts := {|
  MAP_SIZE := 65536;
  FS_OPT_MAX_MAPSIZE := 0x800000;
  FS_OPT_ENABLED := 0x80000001;
  FS_OPT_MAPSIZE := 0x40000000;
  FS_OPT_SET_MAPSIZE x := if (x <=? 1) || (x >? 0x800000) then 0 else Z.shiftl (x - 1) 1;
  FS_OPT_ERROR := 0xf800008f;
  FS_OPT_SET_ERROR x := Z.shiftl (Z.land x 0xffff) 8;
  FS_ERROR_MAP_SIZE := 1;
  FS_ERROR_SHMAT := 8;
  FS_ERROR_SHM_OPEN := 4;
  FS_ERROR_MMAP := 16
|}.

#[local] Instance demo_launch : LaunchEnv := {|
  getenv v :=
    if String.eqb v "__AFL_SHM_ID" then Some "7"%string
    else if String.eqb v "AFL_MAP_SIZE" then Some "1024"%string
    else if String.eqb v "CS_LD_PRELOAD" then Some "/lib/libfoo.so:"%string
    else if String.eqb v "CS_PASS_ENV" then Some "DATA::NOPE:HOME"%string
    else if String.eqb v "DATA" then Some "/srv"%string
    else if String.eqb v "HOME" then Some "/root"%string
    else None;
  SHM_ENV_VAR := "__AFL_SHM_ID";
  usemmap := false;
  shmat _ := Some (replicate 1024 0);
  shm_open _ := true;
  mmap_shm _ _ := None;
  exists_file _ := true;
  self_exe := Some "/opt/cs-proxy"%string;
  is_root := true;
  abort_hooked := true
|}.

Definition demo_envp : list string :=
  ["__CS_PROXY=1"; "LD_PRELOAD=/lib/libfoo.so:/opt/libforksrv.so"; "LD_LIBRARY_PATH="; "DATA=/srv";
   "HOME=/root"]%string.

Lemma target_env_exact_witness : target_env (Some "/opt/libforksrv.so"%string) = Some demo_envp.
Proof. by rewrite (target_env_exact (Some "/opt/libforksrv.so"%string) "DATA::NOPE:HOME"). Defined.

(** Occurrences of a path at the front of a text, decided. *)
Lemma appended_once_dec p path :
  path <> [] ->
  forallb (fun i => negb (bool_decide (path `prefix_of` drop i (p ++ path)))) (seq 0 (length p)) = true ->
  appended_once p path.
Proof.
  intros Hne Hb. split; [done |]. intros a b Hab. rewrite forallb_forall in Hb.
  destruct (decide (length a < length p)%nat) as [Hl | Hl].
  - specialize (Hb (length a)). rewrite in_seq in Hb. specialize (Hb ltac:(lia)).
    apply negb_true_iff, bool_decide_eq_false in Hb. destruct Hb. rewrite Hab, drop_app_length. by exists b.
  - apply (f_equal length) in Hab. rewrite !length_app in Hab. apply length_zero_iff_nil. lia.
Qed.


Lemma map_size_announced_witness :
  __afl_map_shm MAP_SIZE = ([], Goes (1024, Some (1 :: replicate 1023 0))) /\ phone_home 0 1024 = 0xC00007FF.
Proof.
  pose proof (map_size_announced "7" eq_refl ltac:(done) ltac:(by split) ltac:(done)) as Ha.
  split; [by vm_compute |]. destruct Ha as (_ & _ & _ & Hp). exact Hp.
Defined.

Lemma proxy_config_wf_witness :
  exists cfg, proxy_main ["cs-proxy"; "--"; "/usr/bin/readelf"; "-a"]%string false =
      Started cfg 1024 (Some (1 :: replicate 1023 0))
        (target_env (Some "/opt/libforksrv.so"%string)) /\
    cf_target cfg = ["/usr/bin/readelf"; "-a"]%string /\
    (cf_cov cfg = hybrid_cov -> stalker_decoder = true).
Proof.
  assert (exists cfg, proxy_main ["cs-proxy"; "--"; "/usr/bin/readelf"; "-a"]%string false =
      Started cfg 1024 (Some (1 :: replicate 1023 0)) (target_env (Some "/opt/libforksrv.so"%string)) /\
    cf_target cfg = ["/usr/bin/readelf"; "-a"]%string) as (cfg & Hs & Ht) by (vm_compute; by eexists).
  exists cfg. split_and!; [done | done |].
  apply (proxy_config_wf _ _ _ _ _ _ Hs).
Defined.

(** ** cs-trace *)

(** Stopped by SIGTRAP, by SIGSTOP, exited with 3, killed by SIGKILL. *)
Definition st_trap : Z := 0x057f.
Definition st_stop : Z := 0x137f.
Definition st_exit : Z := 0x0300.
Definition st_kill : Z := 9.


Lemma killed_child_never_noticed_witness : (parent_loop 1000 ([st_stop] ++ [st_kill]) 0).2 = None.
Proof. apply killed_child_never_noticed; [by repeat constructor | done]. Defined.

Definition demo_argv : list string := ["cs-trace"; "-l"; "-dedge"; "--"; "/bin/ls"]%string.
Definition demo_parsed : parsed :=
  MkParsed [("l"%char, None); ("d"%char, Some "edge"%string)] demo_argv 4.

Lemma trace_options_consistent_witness :
  exists o, trace_main demo_argv demo_parsed = inr (o, ["/bin/ls"]%string) /\
    o_coverage o = true /\ o_decoding o = true /\ o_cov o = edge_cov.
Proof.
  assert (exists o, trace_main demo_argv demo_parsed = inr (o, ["/bin/ls"]%string) /\ o_coverage o = true)
    as (o & Hm & Hc) by (vm_compute; by eexists).
  destruct (trace_options_consistent demo_argv demo_parsed o _ ltac:(cbn; lia) Hm) as [Ho _].
  exists o. split_and!; [done | done | |]; by apply Ho.
Defined.
