(* ===== verification/ExecutionDemo.v ===== *)
(** * Executions on the simulated board

    The board of HardwareDemo with the decoder, the files and the CPUs of
    StartDemo, in the Stalker build. *)

From stdpp Require Import base numbers list gmap strings.
From Stdlib Require Import ZArith Lia.
From S2P Require Import Prelude Cstr Boards MapInfo MapInfoFacts Etm EtmFacts Session SessionFacts HardwareDemo Decoder TraceBuf TraceBufFacts Cpu Setup StartDemo Execution Polling PollingFacts Coverage Offline.

#[local] Existing Instance sim_csal.
#[local] Existing Instance sim_laws.
#[local] Existing Instance sim_bits.
#[local] Existing Instance sim_env.
#[local] Existing Instance count_lib.
#[local] Existing Instance count_env.
#[local] Existing Instance demo_cpus.
#[local] Existing Instance demo_affinity.
#[local] Existing Instance demo_maps.
#[local] Existing Instance demo_setup.

#[local] Instance sim_trace : TraceEnv := {|
  etr_ram_addr := 0x30000000;
  etr_ram_size := 16;
  AFLCS_ETR_DIRECT_READ := None;
  etr_map_opens := true;
  mmap_anon sz := if sz <? 2 ^ 40 then Some 0x7f0000000000 else None;
  mremap_maymove _ _ _ := None;
  cs_get_buffer_unread_bytes _ := 0;
  cs_get_trace_data _ _ := (0, []);
  cs_empty_trace_buffer e := e
|}.

(** What initialisation leaves, with the map AFL++ shares. *)
Definition sim_common : common Z :=
  MkCommon 1 0x30000000 0x800000 1 [sim_text]
    (Some (MkBoard do_registration_zcu104 4 "ZCU 104" AXICTL_COMMON, sim_devices))
    ((dec_static 0 edge_cov (Some (replicate 16 7)) 16) <| decoder := true |> <| trace_id := 0x11 |>)
    false (Some (Some (0, 0))) true false.

Lemma sim_traceable (L : DecoderLib Z) : @traceable Z L _ _ sim_common.
Proof.
  constructor; try done. intros _. split_and!; [by split_and! | done |].
  eexists _, _. by split.
Qed.

(** Two executions, the first of which overflowed, with a switch between them
    and one after. *)
Definition sim_exec_ops : list exec_op :=
  [Execute 77 false [[1; 2]; [5]] (fun t => t <| trace_buf_ptr := trace_buf_ptr t + 3 |>);
   Switch true; Execute 78 false [[4]] id; Switch false].


(** ** Coverage *)

(** A decoder that counts each byte in the map and overflows on byte 15. *)
Definition bump (m : list Z) (b : Z) : list Z := alter (fun n => n + 1) (Z.to_nat (b mod 16)) m.

#[local] Instance edge_lib : DecoderLib Z := {|
  LIBCSDEC_SUCCESS := 0;
  LIBCSDEC_PATH_SIZE := 4096;
  libcsdec_init _ _ _ n := (true, n);
  libcsdec_reset _ _ _ n := (0, n);
  libcsdec_run _ bitmap buf n := (0, foldl bump bitmap buf, n);
  libcsdec_finish _ n := n;
  libcsdec_overflow_packets n := n;
  stalker_decoder_init _ _ n := (0, n);
  stalker_decoder_set_trace_id _ n := n;
  stalker_decoder_set_bb_mode _ n := n;
  stalker_decode_trace bitmap buf _ := (0, foldl bump bitmap buf, zlen (filter (fun b => b = 15) buf));
  stalker_decode_did_overflow n := 0 <? n
|}.

Lemma edge_lib_in_bounds : decoder_in_bounds (D := Z).
Proof.
  intros m buf l. cbn. revert m. induction buf as [|b buf IH]; intros m; [done |]. cbn [foldl].
  rewrite IH. apply length_alter.
Qed.

(** A ring of sixteen bytes: four written, or twenty of which it keeps sixteen. *)
Definition four_bytes : list Z := [1; 2; 2; 7].
Definition twenty_bytes : list Z := Z.of_nat <$> seq 1 20.
Definition four_etr : etr := MkEtr 0x30000006 0x30000002 false ([0; 0] ++ four_bytes ++ replicate 10 0).
Definition twenty_etr : etr :=
  MkEtr 0x30000004 0x30000000 true ([17; 18; 19; 20] ++ (Z.of_nat <$> seq 5 12)).

Lemma four_held (E : TraceEnv) :
  @etr_ram_addr E = 0x30000000 -> @etr_ram_size E = 16 -> @held E four_etr four_bytes.
Proof.
  intros Ha Hs. exists 2. split; rewrite ?Ha, ?Hs; cbn; try lia; try reflexivity. intros i Hi _.
  assert (i = 0 \/ i = 1 \/ i = 2 \/ i = 3) as [-> | [-> | [-> | ->]]] by lia; reflexivity.
Qed.

Lemma twenty_held (E : TraceEnv) :
  @etr_ram_addr E = 0x30000000 -> @etr_ram_size E = 16 -> @held E twenty_etr twenty_bytes.
Proof.
  intros Ha Hs. exists 0. split; rewrite ?Ha, ?Hs; cbn; try lia; try reflexivity. intros i Hi Hi'.
  assert (exists n, i = Z.of_nat n /\ (4 <= n < 20)%nat) as (n & -> & Hn) by (exists (Z.to_nat i); lia).
  do 4 (destruct n as [|n]; [lia |]). do 16 (destruct n as [|n]; [reflexivity |]). lia.
Qed.

Lemma sim_trace_ok : env_ok.
Proof.
  split; cbn; try lia; try reflexivity; [| done].
  intros sz b. case_if; [| discriminate]. intros [= <-]. split_and!; [lia | reflexivity | lia].
Qed.

Definition dead_poll : poll := MkPoll false 0 KillOk four_etr KillOk.
Definition live_poll : poll := MkPoll true 0x30000003 KillOk four_etr KillOk.

(** An execution that wrapped the ring, a switch, then one of four bytes: the
    map shows the four bytes and nothing else. *)
Lemma coverage_of_execution_witness :
  exists x n files ret k,
    run_ops sim_setup false [Traced 77 false 0 [live_poll; dead_poll] twenty_etr twenty_bytes; Mode true]
      (MkExec sim_common (session_static sim_hw) (tracer_static four_etr) false false, 0, []) = Some (x, n, files) /\
    traced_execution sim_setup false 78 false 0 [live_poll; dead_poll] four_etr x n files = Some (ret, k) /\
    trace_bitmap (c_dec (x_common (k_exec k))) = Some ([0; 1; 2; 0; 0; 0; 0; 1] ++ replicate 8 0) /\
    trace_did_overflow (c_dec (x_common (k_exec k))) = false /\
    trace_captured_bytes (x_tracer (k_exec k)) = 4.
Proof.
  destruct (coverage_of_execution sim_setup false sim_common sim_hw four_etr (replicate 16 7)
    [Traced 77 false 0 [live_poll; dead_poll] twenty_etr twenty_bytes; Mode true]
    78 false 0 [live_poll; dead_poll] four_etr four_bytes) as (x & n & files & ret & k & Hx & Hk & Hd & Hc & _).
  - split; [apply sim_window_env | done | done | by eexists | done].
  - apply sim_trace_ok.
  - apply sim_traceable.
  - by split.
  - apply edge_lib_in_bounds.
  - done.
  - done.
  - constructor; [| by constructor]. split_and!; [lia | lia | | by split; [| apply twenty_held]]. by apply Exists_cons_tl, Exists_cons_hd.
  - split_and!; [lia | lia | | by split; [| apply four_held]]. by apply Exists_cons_tl, Exists_cons_hd.
  - exists x, n, files, ret, k. destruct Hd as (Hm & _ & _ & Ho). by split_and!.
Defined.

(** ** Offline decoding *)

#[local] Instance plain_setup : SetupEnv := {|
  udmabuf_num := 0;
  board_name := "ZCU 104";
  Setup.decoding_on := false;
  setup_named_board := @setup_named_board demo_setup;
  pthread_create := 0;
  getcwd := Some "/root"%string;
  fopen_trace _ := true
|}.

Definition plain_text : map_info := MkMap 0x400000 0x452000 0 0xffff0000 "/usr/bin/readelf".
Definition plain_common : common Z :=
  sim_common <| c_thread := None |> <| c_decoder_ready := true |> <| c_map_info := [plain_text] |>.

(** The four bytes of the trace, from no buffer at all. *)
Lemma offline_trace_complete_witness :
  exists text c' t',
    fini_trace plain_common ((alloc_trace_buf stalker_decoder (tracer_static twenty_etr)).2 <| etb := four_etr |>) =
      Some (MkExport (Some text) (Some four_bytes), c', t') /\
    read_args (words text) =
      Some ("/root/cstrace.bin"%string, 0x11, [("/usr/bin/readelf"%string, 0x400000, 0x452000)]) /\
    c_shut c' = true.
Proof.
  destruct (offline_trace_complete "/root" plain_common (tracer_static twenty_etr) four_etr four_bytes)
    as (text & c' & t' & Hf & Hr & Hc); try done.
  - apply sim_trace_ok.
  - by eexists.
  - by right.
  - by split; [| apply four_held].
  - by constructor.
  - exists text, c', t'. by split_and!.
Defined.

(** ** Drains *)

(** The other build, with drains at four bytes. *)
#[local] Existing Instance armored_env.

#[local] Instance drain_trace : TraceEnv := {|
  etr_ram_addr := 0x30000000;
  etr_ram_size := 16;
  AFLCS_ETR_DIRECT_READ := Some true;
  etr_map_opens := true;
  mmap_anon _ := None;
  mremap_maymove _ _ sz := if sz <? 2 ^ 40 then Some 131072 else None;
  cs_get_buffer_unread_bytes _ := 0;
  cs_get_trace_data _ _ := (0, []);
  cs_empty_trace_buffer e := e <| rwp := 0x30000000 |> <| rrp := 0x30000000 |> <| has_wrapped := false |>
|}.

Definition drain_exec : exec Z board_hw :=
  MkExec sim_common ((session_static sim_hw) <| is_first_trace := false |>)
    (MkTracer 65536 16 65536 65536 (replicate 16 0) true four_etr) true false.

Definition drain_polls : list poll :=
  [live_poll; MkPoll true 0x30000006 KillOk four_etr KillOk; live_poll; dead_poll].


(** One drain of four bytes, then the last sixteen behind four of padding; the
    buffer grew. *)
Example drain_passes :
  (fun '(ret, k) => (ret, k_passes k, trace_buf_size (x_tracer (k_exec k)))) <$>
    trace_sink_polling sim_setup false 4 0x30000000 drain_polls twenty_etr (worker_start drain_exec 0 []) =
  Some (0, [four_bytes; replicate 4 0 ++ (Z.of_nat <$> seq 5 16)], 32).
Proof. vm_compute. reflexivity. Qed.

(** ** The threshold *)

Lemma drain_condition_exact_witness :
  drain_due 0x30000006 0x30000000 (decoding_threshold false (Some 1) (Some 2) 16) = true <->
  exists v f, Some 1 = Some v /\ v <> 0 /\ Some 2 = Some f /\ 2 * f < 16 /\ 2 * f < 0x30000006 - 0x30000000.
Proof.
  apply (drain_condition_exact (Some 1) (Some 2) 0x30000000 16 0x30000006); try (unfold in_ring; lia).
  intros f [= <-]. lia.
Defined.
