(* ===== verification/Scenarios.v ===== *)
(** * Scenarios

    A concrete board, trace and proxy, on which the theorems of the other files
    are applied: their hypotheses hold there.  The last section follows the
    proxy through runs that all overflow. *)

From stdpp Require Import base numbers list gmap strings sorting relations.
From Stdlib Require Import ZArith Lia.
From S2P Require Import Prelude Cstr FreqGov FreqTable FreqGovFacts FreqGovSysfs.
From S2P Require Import FreqGovSearch Hash Hybrid HybridFacts HybridSession HybridSampling.
From S2P Require Import TraceBuf TraceBufFacts Sync SyncFacts Proxy ProxyFacts.
From S2P Require Import ProxyProps ProxyLoop Fds Forksrv Cpu.

(** ** A board with five frequencies *)

Definition demo_files : list (string * string) :=
  [("cpuinfo_min_freq", "400000"); ("cpuinfo_max_freq", "2000000");
   ("scaling_available_frequencies", "1200000 400000 800000 2000000 1600000 ");
   ("scaling_min_freq", "800000"); ("scaling_max_freq", "1600000");
   ("scaling_governor", "ondemand")]%string.

Definition demo_read (path : string) : option string :=
  match list_find (fun fc => path = cpufreq_path 0 fc.1) demo_files with
  | Some (_, (_, content)) => Some content
  | None => None
  end.

Definition demo_env : sysenv := {|
  read_file := demo_read;
  can_open_w := fun _ => true;
  getenv := fun _ => None;
  guard_spawns := true;
  sig_ignored := fun _ => false
|}.

Definition demo_gov : gov := freq_gov_init demo_env gov_static 0 true.

Example demo_table : take 5 (freq_table demo_gov) = [400000; 800000; 1200000; 1600000; 2000000].
Proof. vm_compute. reflexivity. Qed.

(** After one overflow in the address mode. *)
Definition demo_gov1 : gov := freq_gov_on_result demo_gov FREQ_MODE_ADDR true.

Lemma demo_reachable : gov_reachable demo_env 0 true demo_gov1.
Proof. apply rtc_once. apply StepResult. Qed.

Lemma read_available_frequencies_sorted_witness :
  let g := gov_static <| system_min_cpufreq := 400000 |> <| system_max_cpufreq := 2000000 |> in
  freq_table_num (read_available_frequencies demo_env g) = 5 /\
  1 <= freq_table_num (read_available_frequencies demo_env g) <= 64.
Proof.
  split; [vm_compute; reflexivity |].
  apply (read_available_frequencies_sorted demo_env
    (gov_static <| system_min_cpufreq := 400000 |> <| system_max_cpufreq := 2000000 |>)).
  - reflexivity.
  - cbn. lia.
Defined.

Lemma governor_invariant_witness : gov_wf demo_gov1 /\ cur_idx (addr_state demo_gov1) = 3.
Proof.
  split; [| vm_compute; reflexivity].
  apply (governor_invariant demo_env 0 true demo_gov1); [reflexivity |].
  apply demo_reachable.
Defined.


Lemma demo_sane : sane_policy demo_env 0.
Proof. split; [reflexivity | split; [by vm_compute | by vm_compute] | by vm_compute | by vm_compute]. Qed.

Lemma sysfs_write_order_safe_witness :
  limits_ordered 0 (start_limits demo_env 0)
    (sysfs_log (freq_gov_restore_system demo_env demo_gov1)) /\
  length (sysfs_log (freq_gov_restore_system demo_env demo_gov1)) = 5%nat.
Proof.
  split; [| vm_compute; reflexivity].
  apply (sysfs_write_order_safe demo_env 0 true demo_gov1); [reflexivity | |].
  - apply demo_sane.
  - apply demo_reachable.
Defined.



(** ** Hybrid coverage of an eight-byte map *)

Definition path_a : list Z := [1; 0; 0; 0; 0; 0; 0; 0].
Definition path_b : list Z := [0; 0; 0; 0; 0; 3; 0; 0].
Definition edge_a : list Z := [0; 1; 1; 0; 0; 0; 0; 0].

Definition round_a : round := MkRound (MkPass path_a false) 77 (MkPass edge_a false) false.
Definition round_b : round := MkRound (MkPass path_b false) 5 (MkPass edge_a false) false.

Lemma checksum_separates_witness : checksum 8 path_a <> checksum 8 edge_a.
Proof.
  apply (checksum_separates 8 0); try reflexivity.
  - repeat constructor; unfold byte_range; lia.
  - repeat constructor; unfold byte_range; lia.
  - lia.
  - intros [|[|[|[|j]]]] Hj; [lia .. |]. reflexivity.
  - discriminate.
Defined.

Lemma virgin_edge_shadows_afl_witness :
  virgin_edge (session (hybrid_init 8) [round_a]).2 =
  afl_virgin 8 (session (hybrid_init 8) [round_a]).1.
Proof.
  pose proof (virgin_edge_shadows_afl 8 [round_a] round_b) as Hs.
  destruct (session (hybrid_init 8) [round_a]) as [maps s].
  destruct (hybrid_round s round_b) as [shown s'].
  refine (proj1 (Hs _ _)).
  - repeat constructor.
  - split; reflexivity.
Defined.

(** The second path shows the same edges: nothing new. *)
Definition demo_hyb1 : hyb := (hybrid_round (hybrid_init 8) round_a).2.

Definition demo_confirm_b : hyb := (hybrid_after_path demo_hyb1 path_b false 5).2.

Lemma fruitless_path_filtered_witness :
  let s2 := (session (hybrid_after_confirm demo_confirm_b edge_a false) [round_a]).2 in
  let '(verdict, _, s3) := hybrid_after_path s2 path_b false 9 in
  verdict = HYBRID_DISCARD /\ last_filtered s3 = true.
Proof.
  apply (fruitless_path_filtered demo_hyb1 demo_confirm_b path_b path_b edge_a path_b
    false false false 5 9 [round_a]); vm_compute; reflexivity.
Defined.

Definition demo_confirm_a : hyb := (hybrid_after_path (hybrid_init 8) path_a false 77).2.

(** The same input again, after another test case: an old path, discarded. *)
Example rerun_is_discarded :
  (hybrid_after_path (session (hybrid_after_confirm demo_confirm_a edge_a false) [round_b]).2
     path_a false 77).1 = (HYBRID_DISCARD, edge_a).
Proof. vm_compute. reflexivity. Qed.

Lemma rerun_reads_same_map_witness :
  let s2 := (session (hybrid_after_confirm demo_confirm_a edge_a false) [round_b]).2 in
  let '(verdict, shown, _) := hybrid_after_path s2 path_a false 77 in
  verdict = HYBRID_DISCARD -> shown = edge_a.
Proof.
  apply (rerun_reads_same_map (hybrid_init 8) demo_confirm_a path_a path_a edge_a path_a false 77
    [round_b]).
  - vm_compute. reflexivity.
  - discriminate.
  - reflexivity.
  - constructor; [| constructor]. right. right. vm_compute. discriminate.
Defined.

(** ** A sixteen-byte ETR *)

#[local] Instance demo_trace : TraceEnv := {|
  etr_ram_addr := 4096;
  etr_ram_size := 16;
  AFLCS_ETR_DIRECT_READ := None;
  etr_map_opens := true;
  mmap_anon := fun sz => if sz <? 2 ^ 40 then Some 65536 else None;
  mremap_maymove := fun _ _ sz => if sz <? 2 ^ 40 then Some 131072 else None;
  cs_get_buffer_unread_bytes := fun _ => 0;
  cs_get_trace_data := fun _ _ => (0, []);
  cs_empty_trace_buffer := fun e => MkEtr 4096 4096 false (ring e)
|}.

Lemma demo_trace_ok : env_ok.
Proof.
  split; cbn; try lia; try reflexivity.
  - intros sz b. case_if; [| discriminate]. intros [= <-]. split_and!; [lia | reflexivity | lia].
  - intros b sz sz' b'. case_if; [| discriminate]. intros [= <-]. split_and!; [lia | reflexivity | lia].
Qed.

(** Twenty bytes written: the ring wrapped and keeps the last sixteen. *)
Definition demo_bytes : list Z := Z.of_nat <$> seq 1 20.
Definition demo_etr : etr :=
  MkEtr (4096 + 4) 4096 true ([17; 18; 19; 20] ++ (Z.of_nat <$> seq 5 12)).

Lemma demo_holds : etr_holds demo_etr 0 demo_bytes.
Proof.
  split; cbn; try lia; try reflexivity. intros i Hi Hi'.
  assert (exists n, i = Z.of_nat n /\ (4 <= n < 20)%nat) as (n & -> & Hn)
    by (exists (Z.to_nat i); lia).
  do 4 (destruct n as [|n]; [lia |]).
  do 16 (destruct n as [|n]; [reflexivity |]). lia.
Qed.

(** A mapped buffer of sixteen bytes with five bytes in it. *)
Definition demo_tracer : tracer :=
  MkTracer 65536 16 65541 65536 ([1; 2; 3; 4; 5] ++ replicate 11 0) true demo_etr.

Lemma demo_tracer_wf : tbuf_wf demo_tracer.
Proof. split; cbn; try lia; try (split; [lia | reflexivity]). Qed.

Lemma fetch_appends_pending_witness :
  let '(r, t') := fetch_trace true demo_tracer in
  tbuf_wf t' /\ dec_off t' = dec_off demo_tracer /\
  exists pad, (length pad < 8)%nat /\
    (r = FetchRet 0 /\ captured t' = captured demo_tracer ++ pad ++ last_bytes demo_bytes \/
     r = FetchRet (-1) /\ captured t' = captured demo_tracer ++ pad /\ etb t' = etb demo_tracer /\
     exists new, mremap_maymove (trace_buf demo_tracer) (trace_buf_size demo_tracer) new = None).
Proof.
  apply (fetch_appends_pending true demo_tracer 0 demo_bytes).
  - apply demo_trace_ok.
  - apply demo_tracer_wf.
  - apply demo_holds.
  - reflexivity.
  - left. reflexivity.
Defined.

(** The buffer had to grow, and did. *)
Example demo_fetch :
  (fetch_trace true demo_tracer).1 = FetchRet 0 /\
  captured (fetch_trace true demo_tracer).2 =
  [1; 2; 3; 4; 5; 0; 0; 0] ++ (Z.of_nat <$> seq 5 16).
Proof. vm_compute. split; reflexivity. Qed.

Lemma growth_finds_room_witness :
  exists k, 0 <= k /\ grow_size GROW_FUEL (u64 (16 * 2)) 8 100 = Some (16 * 2 * 2 ^ k) /\
    100 <= 16 * 2 * 2 ^ k - 8 /\ (k = 0 \/ 16 * 2 * 2 ^ (k - 1) - 8 < 100).
Proof. apply (growth_finds_room 16 8 100); lia. Defined.

(** The same board out of memory. *)
Definition demo_no_memory : TraceEnv := {|
  etr_ram_addr := 4096;
  etr_ram_size := 16;
  AFLCS_ETR_DIRECT_READ := None;
  etr_map_opens := true;
  mmap_anon := fun _ => None;
  mremap_maymove := fun _ _ _ => None;
  cs_get_buffer_unread_bytes := fun _ => 0;
  cs_get_trace_data := fun _ _ => (0, []);
  cs_empty_trace_buffer := fun e => e
|}.

Lemma demo_no_memory_ok : @env_ok demo_no_memory.
Proof. split; cbn; try lia; try reflexivity; discriminate. Qed.

Lemma demo_no_memory_holds : @etr_holds demo_no_memory demo_etr 0 demo_bytes.
Proof. destruct demo_holds. by split. Qed.

Lemma unmapped_fetch_never_returns_witness :
  (@fetch_trace demo_no_memory true
     (@alloc_trace_buf demo_no_memory true (tracer_static demo_etr)).2).1 = FetchHangs.
Proof.
  pose proof (@unmapped_fetch_never_returns demo_no_memory true demo_etr 0 demo_bytes) as Hu.
  destruct (@alloc_trace_buf demo_no_memory true (tracer_static demo_etr)) as [ret t].
  refine (proj1 (proj2 (Hu _ _ _ _ _ _))).
  - apply demo_no_memory_ok.
  - reflexivity.
  - apply demo_no_memory_holds.
  - discriminate.
  - reflexivity.
  - reflexivity.
Defined.

(** ** The two threads *)

(** A schedule whose [start_trace] succeeds. *)
Fixpoint good_run (drain : bool) (ls : list label) (s : sys) : option sys :=
  match ls with
  | [] => Some s
  | l :: ls =>
      if start_ok l s then
        match step drain l s with Some s' => good_run drain ls s' | None => None end
      else None
  end.

Lemma good_run_rtc drain ls s s' : good_run drain ls s = Some s' -> rtc (good_step drain) s s'.
Proof.
  revert s. induction ls as [|l ls IH]; intros s; simpl; [by intros [= ->] |].
  destruct (start_ok l s) eqn:Hok; [| done]. destruct (step drain l s) as [s1|] eqn:Hs; [| done].
  intros Hr. eapply rtc_l; [by exists l | by apply IH].
Qed.

(** One whole execution, up to the wait in [stop_trace]. *)
Definition demo_sched : list label := sched_start ++ sched_exit ++ sched_decode.
Definition demo_sys : sys := default sys_init (good_run false demo_sched sys_init).


Definition demo_forked : sys := default sys_init (good_run false [Proxy true] sys_init).

Definition demo_armed : sys := demo_forked <| decoder_ready := false |> <| ppc := PReset |>.


(** ** The proxy on a healthy board *)

(** Children are stopped once and exit; runs overflow above 1 GHz. *)
Definition demo_proxy : ProxyEnv := {|
  io_ok := fun _ => true;
  child_at := fun n => 100 + Z.of_nat n mod 100;
  attempt_at := fun _ f _ => MkAttempt [0x137f; 0] path_a (f >? 1000000);
  input_at := fun _ => Some (MkReads [[65; 66]] true);
  gov_env := demo_env;
  trace_cpu := 0;
  decoding_on := true;
  map_bytes := 8;
  stats_file := false
|}.

Lemma demo_healthy : @healthy demo_proxy.
Proof.
  split; cbn; [reflexivity | | discriminate].
  intros n. pose proof (Z.mod_pos_bound (Z.of_nat n) 100 ltac:(lia)). lia.
Qed.

(** The proxy in a coverage mode, with an initialised governor. *)
Definition demo_world (g : gov) (cov : cov_type_t) : world := {|
  w_gov := g; w_hyb := hybrid_init 8; cov_type := cov; first_run := false;
  needs_calibration := true; needs_bb_enable := true; current_bb_mode := false;
  trace_ever_configured := false;
  hybrid_sample := 0; hybrid_discards := 0; total_exec_count := 0; overflow_exec_count := 0;
  trace_bitmap := path_a; trace_overflow_occurred := false; ctx_child_pid := 0;
  ctx_have_child := false; calls := 0; forks := 0; attempts := 0; log := []
|}.

Lemma one_pid_one_status_witness :
  exists answers w', @main_loop demo_proxy true 3 (demo_world demo_gov edge_cov) = (MainNext, w') /\
    length answers = 3%nat /\ outer (log w') = outer [] ++ concat (exchange <$> answers).
Proof. apply (@one_pid_one_status demo_proxy true 3 (demo_world demo_gov edge_cov)). apply demo_healthy. Defined.

(** The first run of a test case, at the top frequency. *)
Definition demo_running : world :=
  demo_world (freq_gov_apply demo_env demo_gov FREQ_MODE_ADDR) edge_cov.
Definition demo_retried : world :=
  (@retry_loop demo_proxy RETRY_FUEL FREQ_MODE_ADDR 0 false demo_running).2.

Lemma demo_run_at : run_at (w_gov demo_running) 2000000.
Proof.
  split_and!; [| vm_compute; reflexivity | vm_compute; reflexivity].
  apply (gov_reachable_wf demo_env 0 true); [reflexivity |]. apply rtc_once, StepApply.
Qed.

Lemma retries_never_speed_up_witness :
  exists fs, run_freqs (log demo_retried) = run_freqs [] ++ fs /\ StronglySorted Z.ge (2000000 :: fs).
Proof.
  apply (@retries_never_speed_up demo_proxy demo_running demo_retried 2000000 0 false).
  - apply demo_run_at.
  - vm_compute. reflexivity.
Defined.

Example demo_retries : run_freqs (log demo_retried) = [1600000; 1200000; 800000].
Proof. vm_compute. reflexivity. Qed.

Lemma hybrid_block_is_round_witness :
  let '(ret, w') := @hybrid_block demo_proxy 0 false (demo_world demo_gov hybrid_cov) in
  ret = 0 /\
  (trace_bitmap w', w_hyb w') =
  hybrid_round (hybrid_init 8) (@block_round demo_proxy false (demo_world demo_gov hybrid_cov)).
Proof.
  apply (@hybrid_block_is_round demo_proxy (demo_world demo_gov hybrid_cov) 0 false).
  - apply demo_healthy.
  - reflexivity.
  - reflexivity.
  - reflexivity.
Defined.

Lemma proxy_calibration_settles_witness :
  let '(runs, w') := @freq_gov_calibrate demo_env world world_has_gov
    (@calibration_run_one_shot demo_proxy) FREQ_MODE_ADDR (demo_world demo_gov edge_cov) in
  let p := cur_idx (mst (w_gov w') FREQ_MODE_ADDR) in
  0 <= p < freq_table_num demo_gov /\ (p = 0 \/ aget (freq_table demo_gov) p <= 1000000) /\
  (forall j, p < j < freq_table_num demo_gov -> 1000000 < aget (freq_table demo_gov) j) /\
  1 <= runs <= freq_table_num demo_gov.
Proof.
  apply (@proxy_calibration_settles demo_proxy (demo_world demo_gov edge_cov) FREQ_MODE_ADDR 1000000).
  - apply demo_healthy.
  - reflexivity.
  - intros n f b. reflexivity.
  - apply (gov_reachable_wf demo_env 0 true); [reflexivity | apply rtc_refl].
  - vm_compute. reflexivity.
Defined.

Lemma input_key_of_contents_witness :
  input_key (Some (MkReads [[1; 2]; [3]] true)) = input_key (Some (MkReads [[1]; [2; 3]] true)).
Proof.
  refine (proj1 (input_key_of_contents (MkReads [[1; 2]; [3]] true) (MkReads [[1]; [2; 3]] true) _ _));
    reflexivity.
Defined.

(** AFL++ is gone: its pipe cannot be read. *)
Definition demo_afl_gone : ProxyEnv := {|
  io_ok := fun n => negb (Nat.eqb n 0);
  child_at := fun _ => 100;
  attempt_at := fun _ _ _ => MkAttempt [0] path_a false;
  input_at := fun _ => None;
  gov_env := demo_env;
  trace_cpu := 0;
  decoding_on := true;
  map_bytes := 8;
  stats_file := false
|}.

Lemma failed_request_enters_body_witness :
  (@main_turn demo_afl_gone (demo_world demo_gov edge_cov)).1 <> MainExit 0.
Proof.
  refine (proj1 (proj2 (@failed_request_enters_body demo_afl_gone (demo_world demo_gov edge_cov) _))).
  reflexivity.
Defined.

Example failed_request_sends_status :
  outer (log (@main_turn demo_afl_gone (demo_world demo_gov path_cov)).2) = [EvStatus 0].
Proof. vm_compute. reflexivity. Qed.

(** ** The fork server *)

Definition demo_lib : list Ascii.ascii := String.list_ascii_of_string "/l.so".
Definition demo_vars : env :=
  MkEnvVars true false (Some (String.list_ascii_of_string "/a.so:/l./l.soso")).

Lemma scrub_removes_library_witness :
  exists e', scrub_forksrv_env (Some demo_lib) demo_vars = Some e' /\ cs_proxy e' = false /\
    match ld_preload demo_vars, ld_preload e' with
    | None, p' => p' = None
    | Some p, None => True
    | Some p, Some p' => p' `sublist_of` p /\ forall a b, p' <> a ++ demo_lib ++ b
    end.
Proof. apply (scrub_removes_library demo_lib demo_vars). discriminate. Defined.

(** The cut that brings a new occurrence together is followed by another. *)
Example demo_scrubbed :
  ld_preload <$> scrub_forksrv_env (Some demo_lib) demo_vars =
  Some (Some (String.list_ascii_of_string "/a.so:")).
Proof. vm_compute. reflexivity. Qed.

(** A child that stops at the start, once more for a drain, then exits; the
    first fork was refused. *)
Definition demo_request : request :=
  MkRequest (fun n => if Nat.eqb n 0 then ForkAgain else ForkPid 4242) (Some 0x137f) [0x137f; 0x100].

Lemma server_in_step_with_proxy_witness :
  let '(words, s) := forksrv_main (fun _ => true) [demo_request; demo_request] in
  s = Exited 1 /\
  exists answers, read_session 2 words = Some (answers, []) /\
    Forall2 (fun r a => try_fork FORK_TRIES 0 (rq_forks r) = Some a.1) [demo_request; demo_request] answers.
Proof.
  apply (server_in_step_with_proxy (fun _ => true) [demo_request; demo_request]); [done |].
  assert (served demo_request) by (split; [by exists 0x137f | done]).
  by apply Forall_cons; split; [| apply Forall_cons].
Defined.

(** The words of that session; a write that fails ends it. *)
Example demo_session :
  forksrv_main (fun _ => true) [demo_request; demo_request] =
    ([0; 4242; 0x137f; 0x100; 4242; 0x137f; 0x100], Exited 1) /\
  forksrv_main (fun n => Nat.ltb n 3) [demo_request; demo_request] = ([0; 4242; 0x137f], Exited 9).
Proof. done. Qed.

Definition demo_early : request := MkRequest (fun _ => ForkPid 4242) (Some 0x100) [].

Lemma early_exit_out_of_step_witness :
  serve_request demo_early = ([0x100], Serving) /\ read_statuses [] = None.
Proof. apply (early_exit_out_of_step demo_early 4242 0x100); reflexivity. Defined.

Lemma fork_retried_witness :
  try_fork FORK_TRIES 0 (rq_forks demo_request) = Some 4242.
Proof.
  refine (proj1 (fork_retried demo_request 1 4242 _ _)); [| reflexivity].
  intros [|i] Hi; [reflexivity | lia].
Defined.

(** ** Eight CPUs in two cores *)

(** The process is bound to CPU 0; the kernel lists its core as a range. *)
Definition demo_cpus (list0 : string) : CpuEnv := {|
  get_nprocs := 8;
  sched_getaffinity := fun _ => Some {[ 0 ]};
  core_cpus_list := fun i => Some (if i <? 4 then list0 else "4-7
"%string);
  proc_dir := Some [MkProc "12" (Some [("12", Some ["VmSize:	10 kB"; "Cpus_allowed_list:	0"])])]%string
|}.

Definition comma_list : string := "0,1,2,3
".
Definition range_list : string := "0-3
".

Lemma preferred_cpu_outside_cores_witness :
  let c := @get_preferred_cpu (demo_cpus comma_list) 1 in
  c = -1 \/
  0 <= c < 8 /\ exists affinity : gset Z, Some {[ 0 ]} = Some affinity /\
    forall i, 0 <= i < 8 -> i ∈ affinity -> c ∉ @core_of (demo_cpus comma_list) i.
Proof. apply (@preferred_cpu_outside_cores (demo_cpus comma_list) 1). cbn. lia. Defined.

Example comma_list_preferred : @get_preferred_cpu (demo_cpus comma_list) 1 = 4.
Proof. vm_compute. reflexivity. Qed.

Lemma free_cpu_is_lowest_unbound_witness :
  let E := demo_cpus comma_list in
  let procs := [MkProc "12" (Some [("12", Some ["VmSize:	10 kB"; "Cpus_allowed_list:	0"])])]%string in
  let bound i := exists p, p ∈ procs /\ i ∈ proc_cpus p in
  (@find_free_cpu E = -1 /\ forall i, 0 <= i < 8 -> bound i) \/
  (0 <= @find_free_cpu E < 8 /\ ~ bound (@find_free_cpu E) /\
   forall i, 0 <= i < @find_free_cpu E -> bound i).
Proof.
  apply (@free_cpu_is_lowest_unbound (demo_cpus comma_list)); [cbn; lia | reflexivity].
Defined.

(** No affinity can be read; CPU 1 is free. *)
Definition demo_no_affinity : CpuEnv := {|
  get_nprocs := 8;
  sched_getaffinity := fun _ => None;
  core_cpus_list := fun _ => None;
  proc_dir := Some [MkProc "12" (Some [("12", Some ["VmSize:	10 kB"; "Cpus_allowed_list:	0"])])]%string
|}.

Lemma free_cpu_not_used_witness :
  @find_free_cpu demo_no_affinity = 1 /\ @choose_trace_cpu demo_no_affinity (-1) 1 = 0.
Proof.
  split; [vm_compute; reflexivity |].
  refine (proj1 (@free_cpu_not_used demo_no_affinity 1 _) _); [reflexivity |].
  vm_compute. discriminate.
Defined.

(** A core list printed as a range, as the kernel prints neighbouring
    CPUs, is read as its first CPU only: the CPU "preferred" for a process
    bound to CPU 0 is then CPU 1 of the same core. *)
Theorem range_list_misread :
  @core_of (demo_cpus range_list) 0 = {[ 0 ]} /\
  @get_preferred_cpu (demo_cpus range_list) 1 = 1.
Proof. split; vm_compute; reflexivity. Qed.

(** ** Runs that all overflow *)

Definition demo_overflowing : ProxyEnv := {|
  io_ok := fun _ => true;
  child_at := fun _ => 100;
  attempt_at := fun _ _ _ => MkAttempt [0] path_a true;
  input_at := fun _ => None;
  gov_env := demo_env;
  trace_cpu := 0;
  decoding_on := true;
  map_bytes := 8;
  stats_file := false
|}.

(** The last resort can be skipped: [freq_gov_at_floor] is asked after
    [freq_gov_on_result] stepped the position down, so with five frequencies a
    test case that overflows at each of the upper four is given up with an
    overflowed trace, its retries spent, without the run at the floor, which
    was never tried. *)
Theorem floor_run_skipped :
  exists w', @retry_loop demo_overflowing RETRY_FUEL FREQ_MODE_ADDR 0 false demo_running =
    (Some (Some (0, true)), w') /\
  run_freqs (log w') = [1600000; 1200000; 800000] /\
  aget (freq_table (w_gov w')) 0 = 400000.
Proof. eexists. split; [vm_compute; reflexivity |]. split; vm_compute; reflexivity. Qed.

(** ** Descriptors *)

(** The lowest free number below the fork server's. *)
#[local] Instance scan_fds : FdEnv := fun t =>
  match list_find (fun fd => t !! fd = None) (seqZ 0 195) with Some (_, fd) => fd | None => 195 end.

(** Standard streams and AFL++'s pipes. *)
Definition afl_fds : fd_table :=
  {[ 0 := Inherited 0; 1 := Inherited 1; 2 := Inherited 2; 198 := AflCtl; 199 := AflSt ]}.

Lemma afl_fds_ok : afl_table afl_fds.
Proof.
  split; try done. intros fd e. unfold afl_fds. rewrite !lookup_delete, !lookup_insert, lookup_singleton.
  repeat case_decide; try done; intros [= <-]; by eexists.
Qed.

(** Some number below 195 is free while fewer files are open. *)
Lemma afl_fds_low : low_fds afl_fds.
Proof.
  intros t _ Hsz. change (size afl_fds) with 5%nat in Hsz. unfold lowest_fd, scan_fds.
  destruct (list_find _ _) as [[i fd]|] eqn:Hf.
  - apply list_find_Some in Hf as (Hfd & Hnone & _). split; [done |].
    apply list_elem_of_lookup_2, elem_of_seqZ in Hfd. unfold AFLCS_FORKSRV_FD, FORKSRV_FD. lia.
  - apply list_find_None in Hf. exfalso.
    assert (list_to_set (C := gset Z) (seqZ 0 195) ⊆ dom t) as Hsub.
    { intros fd Hfd%elem_of_list_to_set. apply elem_of_dom. rewrite Forall_forall in Hf.
      apply not_eq_None_Some. by apply Hf. }
    apply subseteq_size in Hsub. rewrite size_list_to_set, length_seqZ in Hsub by apply NoDup_seqZ.
    rewrite size_dom in Hsub. lia.
Qed.

Lemma descriptors_separated_witness :
  let '(p, t1) := open_pipes afl_fds in
  exists ts, forksrv_fds p t1 = Some ts /\ ts !! 195 = Some CtlRead /\ ts !! 196 = Some StWrite /\ ts !! 198 = None.
Proof.
  pose proof (descriptors_separated afl_fds afl_fds_ok afl_fds_low) as Hd. destruct (open_pipes afl_fds) as [p t1].
  destruct Hd as (ts & Hts & -> & _). by exists (<[AFLCS_FORKSRV_FD := CtlRead]>
    (<[AFLCS_FORKSRV_FD + 1 := StWrite]> (delete FORKSRV_FD (delete (FORKSRV_FD + 1) afl_fds)))).
Defined.
