(* ===== verification/ScheduleDemo.v ===== *)
(** * A schedule on the simulated board

    A whole execution of the threads of Scenarios with the data of
    ExecutionDemo. *)

From stdpp Require Import base numbers list gmap strings relations.
From Stdlib Require Import ZArith Lia.
From S2P Require Import Prelude Boards MapInfo Etm EtmFacts Session SessionFacts HardwareDemo Decoder TraceBuf TraceBufFacts.
From S2P Require Import Sync SyncFacts Cpu Setup StartDemo Execution Polling PollingFacts Coverage Schedules ExecutionDemo Scenarios.

#[local] Existing Instance sim_csal.
#[local] Existing Instance sim_bits.
#[local] Existing Instance sim_env.
#[local] Existing Instance StartDemo.count_env.
#[local] Existing Instance StartDemo.demo_cpus.
#[local] Existing Instance StartDemo.demo_affinity.
#[local] Existing Instance StartDemo.demo_maps.
#[local] Existing Instance StartDemo.demo_setup.
#[local] Existing Instance edge_lib.
#[local] Existing Instance drain_trace.

Definition sched_worker : worker Z board_hw := worker_start drain_exec 0 [].


(** The sixteen bytes the ring kept, decoded. *)
Example sched_passes :
  k_passes <$> replay false twenty_etr (did demo_sys) sched_worker = Some [Z.of_nat <$> seq 5 16].
Proof. vm_compute. reflexivity. Qed.
